(* ===== verification/_CoqProject ===== *)
-Q . S2P
Prelude.v
AuthCodes.v
ProtocolGuard.v
Layouts.v
PatchPolicy.v
ClientLocale.v
ClientBuild.v
RealmList.v
SnapshotStore.v
Refresh.v
PatchArtifact.v
Streaming.v
Interfaces.v
Samples.v
Srp6.v
Session.v
SessionLogic.v
Logon.v
Reconnect.v
RealmPacket.v
Dispatch.v
Bodies.v
Serve.v
SessionInv.v
SessionSafety.v
SessionProperties.v
History.v
Closing.v
Trail.v
LogonProperties.v
Evidence.v
ServerPackets.v
Outbox.v
HonestClient.v
ReconnectProperties.v
Vectors.v
PatchProperties.v
RealmProperties.v
AuthServer.v
Supervision.v
Sweep.v
ServerEvidence.v
CommandLine.v
Daemon.v
MainLoop.v
System.v
