(* ===== verification/Prelude.v ===== *)
(** * realmd: the MaNGOS authentication daemon

    realmd accepts game clients, authenticates them with SRP6 against the login database,
    offers patch archives to clients of other builds, and answers with the list of realms.
    This library models its C++ sources (src/Auth, src/Realm, src/Main.cpp) and proves the
    properties that make them correct.  All theorems hold for every client, every database
    content and every implementation of the shared libraries that satisfies the laws of
    [Interfaces].

    ** The program and its model

    A client's bytes enter through [AuthSocket::onData].  The protocol guard decides, from
    the state of the stream, whether the buffered bytes are an incomplete, a complete or an
    unacceptable frame; a complete one is handed to the handler of its command; handlers
    read the frame through a cursor, query the database, compute SRP6 values, send packets
    and move the session's status.  [AuthServer] owns the sessions weakly and closes those
    that do not authenticate in time; [main] starts everything and runs the housekeeping.

    - [Prelude]: bytes ([Z] below 256 in lists), wrap-around at 8 to 64 bits, bounded
      reads, C strings, little-endian and decimal text, the state monad [M] whose [None]
      is undefined behaviour or an exhausted loop, its weakest preconditions, record
      update, and the shared lemmas, tactics and hints.
    - [AuthCodes]: src/Auth/AuthCodes.h.
    - [ProtocolGuard]: src/Auth/AuthProtocolGuard.cpp ([InspectFrame], [CanAppendPending],
      [Deadline]); [WellFormedFrame] is its specification, the grammar of frames.
    - [Layouts]: the packed structures of AuthSocket.cpp, as lists of fields from which sizes
      and offsets are computed.
    - [PatchPolicy], [ClientLocale], [ClientBuild]: the files of these names under src/Auth
      and src/Realm, and src/Auth/AuthResultPolicy.cpp.
    - [RealmList]: src/Realm/RealmList.cpp and RealmSnapshot.h; a snapshot, its views by
      version, and the refresh gate with its mutex.  [SnapshotStore]: the published snapshot
      and the views that share it, with reference counts.  [Refresh]: gate, store and table
      together, with threads that refresh and read in any interleaving.
    - [PatchArtifact]: src/Auth/PatchArtifact.cpp and PatchHandler.cpp, on files that may
      fail to be read at a given offset.  [Streaming]: the streaming thread step by step,
      beside a transport that writes its backlog and may lose the connection.
    - [Interfaces]: what the code uses of libraries outside the repository (big numbers,
      SHA-1, byte buffers, the database, the configuration), as classes of operations
      and classes of laws; [Samples]: executable instances, with the laws proved.
    - [Srp6]: the arithmetic of the logon, one definition per value.
    - [Session]: the members and primitives of [AuthSocket]; [Logon], [Reconnect],
      [RealmPacket], [Dispatch]: its handlers and [onData], one definition per C++ function
      (a long function is cut at its branches).  What a session does to the outside is
      a list of events in the order it happens.
    - [SessionLogic], [Bodies], [Serve], [SessionInv], [SessionSafety]: the proofs about
      sessions.  [Serve.receive] is the abstract specification of [onData]: a function of
      the byte stream, without buffer, cursor and table.
    - [Trail]: the events of a session are its audit trail; replaying them on the database
      before gives the database after, for every handler.
    - [History]: properties that follow a session over everything it has handled, as the class
      [Steady]; its instances are in [Evidence], what the frames of a session's client have
      shown, and [Outbox], what the session has handed to the transport.
    - [ServerPackets]: the packets of the server as data, with their layout and the parser of
      the client.
    - [SessionProperties], [LogonProperties], [Outbox], [HonestClient], [ReconnectProperties],
      [PatchProperties], [RealmProperties]: the theorems about sessions.
    - [Closing]: [send], [close_connection], [onClose] and [ExpireAuthentication] cut into
      their atomic steps, for any number of threads.
    - [Vectors]: the unit tests of src/Tests evaluated on the definitions, and a conversation
      of a client with the server in numbers.
    - [AuthServer]: src/Auth/AuthServer.cpp and the statics of [AuthSocket]; many sessions,
      driven by the engine in any interleaving of whole operations.  [ServerEvidence]: what
      the clients of such a server must have sent.  [Supervision]: for which reasons a session
      may be without a deadline.  [Sweep]: [Update] step by step among the network threads,
      with the references that keep a session alive.
    - src/Main.cpp, both as the POSIX and as the Windows build have it ([Platform]):
      [CommandLine], the arguments and the usage text; [Daemon], everything up to the main
      loop, against the interface [AuthServerOps] of the listening server; [MainLoop], the
      loop, the signals, the shutdown, and [main] as a whole.
    - [System]: the server of [AuthServer] put behind that interface, so that [main] runs with
      the real sessions.

    ** What the theorems show

    - Whole sessions: any bytes in any chunks give a defined, terminating run with bounded
      pending input and a status that follows the state machine; [onData] refines
      [receive]; the cut into chunks does not matter within the limit on pending input; an
      authenticated session has published its account; on a server with many sessions over one database, a session
      is authenticated only by frames of its own client that carry a proof over the password
      verifier or the session key the database held when it was asked; all the bytes of a
      session are well-formed packets for the client's parser; statements contain escaped text only; the deadline closes
      exactly the sessions that are due.
    - Handlers: the verdict of each challenge and proof and everything that follows from
      it, wrong passwords and bans; a reconnect challenge is a new random value, and only the
      digest over it and the stored key is accepted; a client that knows the password is authenticated
      and ends with the server's session key, and that key lets it reconnect later.
    - Threads: however many threads close, expire or send on a session, the transport is
      asked at most once to close it, and nothing is sent on a closed session; alone, the
      steps of a call are the operation.  While the sweep visits the sessions the engine may
      accept, serve and let go of them: none is destroyed while it is used, none outlives its
      owners, and no deadline is missed.  A view of the realm list keeps its snapshot, whatever is
      published meanwhile, and a snapshot is freed when nobody holds it.
    - The guard: no read outside the buffer; a frame is complete exactly when it belongs to
      the grammar; verdicts are stable under more input, and an incomplete frame can be
      completed.
    - Patches: only servable files are offered, the client's locale and with it their name
      cannot leave the patch directory, and an accepted transfer delivers the file from the
      requested offset, with never more queued than the ceiling and one packet; the
      transfer ends on every archive, and closes the connection exactly if a byte it needs
      cannot be read.
    - Realms: the snapshot is the image of the database rows; the packet is read back by
      the client's parser; which realms a client sees; concurrent
      refreshes exclude each other without anybody waiting, every reader sees the table of
      one moment, never an older one than before, and a refresh is admitted exactly when one
      is due.
    - Server and process: the connection counters count; every operation is defined in every
      reachable state and keeps every session well formed; the sweep closes exactly the
      overdue sessions; the command line, the requirements of start-up, the one reason
      and the messages of each failed start-up, the scheduled exit and the cadence of the
      main loop are exact; told to stop, the process ends with its exit code and everything
      released.
    - The whole program: once started, the daemon leaves no client connected past its
      deadline without being authenticated or patched, whatever the clients send.

    ** Fuel and bounds

    Loops that are not structural take fuel.  [onData] gives its frame loop one pass per
    buffered byte and one more, and every frame has at least one byte; the digest and
    transfer loops get one pass per byte of the file and one more, and every pass but the last
    reads at least one; the command line gets one pass per argument.  That this is enough is
    proved: the theorems state that a result is reached.  Decimal text has at most 20 digits,
    as many as a 64-bit integer.  The client's parser gets one pass per byte of the stream,
    and every packet has at least one.  A streamed transfer ends within eight steps of thread and
    transport per byte of the archive, a sweep within two steps per session and three more.

    ** What is not modelled

    Informational log lines (error messages of the process are); [eAuthSrvCmd], which nothing
    uses; the crash reporter of the Windows build; the tests, except that they are evaluated,
    and the build files; the internals of the libraries behind [Interfaces] and of the
    operating system's services, of which the transport of a patch is an environment that obeys
    [Streaming.FlowControlLaws]; races between a handler and another thread beyond the atomic
    members of the session (the transport calls [onData] of one session from one thread at a
    time); the pauses of the patch thread and of the main loop. *)

From stdpp Require Export base numbers list option gmap strings.
From Stdlib Require Export ZArith Lia.

(** ** Bytes, machine integers and buffers

    A byte is a [Z] in [0, 256); a C++ [std::string], [std::vector<uint8_t>] or
    packed buffer is a [list Z].  Sizes ([size_t]) are [Z]. *)

Declare Scope realmd_scope.
Delimit Scope realmd_scope with realmd.

Abbreviation bytes := (list Z).

Open Scope Z_scope.

(** Unsigned wrap-around at [w] bits. *)
Definition wrap (w x : Z) : Z := x mod 2 ^ w.

Abbreviation u8 := (wrap 8).
Abbreviation u16 := (wrap 16).
Abbreviation u32 := (wrap 32).
Abbreviation u64 := (wrap 64).

Definition is_byte (b : Z) : Prop := 0 <= b < 256.

Definition zlen {A} (l : list A) : Z := Z.of_nat (length l).

(** [p[i]] on a buffer: [None] is a read outside the buffer. *)
Definition rd (d : bytes) (i : Z) : option Z :=
  if decide (0 <= i) then d !! Z.to_nat i else None.

(** [memcpy(dst, p + off, n)]: [None] when the source range leaves the buffer. *)
Definition rds (d : bytes) (off n : Z) : option bytes :=
  if decide (0 <= off /\ 0 <= n /\ off + n <= zlen d)
  then Some (take (Z.to_nat n) (drop (Z.to_nat off) d))
  else None.

(** The bytes of a C string literal. *)
Definition str (s : string) : bytes :=
  map (fun c => Z.of_N (Ascii.N_of_ascii c)) (String.list_ascii_of_string s).

(** A C string that starts at the head of [d]: the bytes before the first NUL,
    [None] when there is none (the scan leaves the buffer). *)
Fixpoint cstr (d : bytes) : option bytes :=
  match d with
  | [] => None
  | c :: d' => if c =? 0 then Some [] else (fun s => c :: s) <$> cstr d'
  end.

(** Little-endian encoding of the low [n] bytes of a number, and its inverse. *)
Fixpoint le_bytes (n : nat) (x : Z) : bytes :=
  match n with
  | O => []
  | S n' => x mod 256 :: le_bytes n' (x / 256)
  end.

Fixpoint le_val (l : bytes) : Z :=
  match l with
  | [] => 0
  | b :: l' => b + 256 * le_val l'
  end.

(** ** Decimal text *)

Definition is_digit (c : Z) : bool := (48 <=? c) && (c <=? 57).

Definition dec_val (l : bytes) : Z :=
  fold_left (fun acc c => 10 * acc + (c - 48)) l 0.

(** [std::to_string] on a non-negative integer.  Twenty digits cover 64 bits. *)
Fixpoint dec_digits (fuel : nat) (x : Z) (acc : bytes) : bytes :=
  match fuel with
  | O => acc
  | S f =>
      let acc' := (48 + x mod 10) :: acc in
      if x <? 10 then acc' else dec_digits f (x / 10) acc'
  end.

Definition to_string (x : Z) : bytes := dec_digits 20 x [].

(** [std::isspace] in the classic locale. *)
Definition isspace (c : Z) : bool := (c =? 32) || ((9 <=? c) && (c <=? 13)).

(** The longest prefix of decimal digits. *)
Fixpoint digit_prefix (t : bytes) : bytes :=
  match t with
  | [] => []
  | c :: t' => if is_digit c then c :: digit_prefix t' else []
  end.

(** ** Stateful computations

    [M W A] is a computation on a world [W].  [None] is what C++ leaves
    undefined or aborts on: a read outside a buffer, a failed assertion, or a
    loop that has not finished within its fuel. *)

Definition M (W A : Type) : Type := W -> option (A * W).

Definition retM {W A} (a : A) : M W A := fun w => Some (a, w).

Definition bindM {W A B} (m : M W A) (k : A -> M W B) : M W B := fun w =>
  match m w with
  | Some (a, w') => k a w'
  | None => None
  end.

Definition undef {W A} : M W A := fun _ => None.

Definition gets {W A} (f : W -> A) : M W A := fun w => Some (f w, w).

Definition modify {W} (f : W -> W) : M W unit := fun w => Some (tt, f w).

Definition liftO {W A} (o : option A) : M W A := fun w =>
  match o with
  | Some a => Some (a, w)
  | None => None
  end.

Notation "x <-- m ;; k" := (bindM m (fun x => k))
  (at level 100, m at next level, right associativity) : realmd_scope.
Notation "m ;; k" := (bindM m (fun _ => k))
  (at level 100, right associativity) : realmd_scope.

(** [wp m Q w]: [m] runs from [w] without undefined behaviour, to completion,
    and its result and final world satisfy [Q]. *)
Definition wp {W A} (m : M W A) (Q : A -> W -> Prop) (w : W) : Prop :=
  match m w with
  | Some (a, w') => Q a w'
  | None => False
  end.

(** ** Field update

    [r <| f := x |>] is the record [r] with field [f] set to [x]; the record
    type provides [rebuild], its own eta expansion, and the update of a field is
    obtained by abstracting that field in it. *)

Class Updatable (R : Type) : Type := Rebuild { rebuild : R -> R }.

Class FieldUpdate {R T : Type} (f : R -> T) : Type := upd : (T -> T) -> R -> R.

Ltac derive_update :=
  match goal with
  | |- @FieldUpdate ?R ?T ?f =>
      let inst := constr:(_ : Updatable R) in
      let whole := eval hnf in inst in
      match whole with
      | Rebuild _ ?body =>
          match eval pattern f in body with
          | ?abstracted _ => exact (fun h => abstracted (fun r => h (f r)))
          end
      end
  end.

#[export] Hint Extern 1 (FieldUpdate _) => derive_update : typeclass_instances.

Notation "r <| f := x |>" := (upd (f := f) (fun _ => x) r)
  (at level 1, f at next level, x at level 200, left associativity) : realmd_scope.

(** ** Lemmas on bytes and integers *)

Lemma wrap_range (w x : Z) : 0 <= w -> 0 <= wrap w x < 2 ^ w.
Proof. intros. unfold wrap. apply Z.mod_pos_bound. lia. Qed.

Lemma wrap_small (w x : Z) : 0 <= x < 2 ^ w -> wrap w x = x.
Proof. intros. unfold wrap. by apply Z.mod_small. Qed.

Lemma zlen_nonneg {A} (l : list A) : 0 <= zlen l.
Proof. unfold zlen. lia. Qed.

Lemma zlen_app {A} (l k : list A) : zlen (l ++ k) = zlen l + zlen k.
Proof. unfold zlen. rewrite length_app. lia. Qed.

Lemma zlen_cons {A} (x : A) (l : list A) : zlen (x :: l) = 1 + zlen l.
Proof. unfold zlen. cbn [length]. lia. Qed.

Lemma zlen_nil {A} : zlen (@nil A) = 0.
Proof. reflexivity. Qed.

Lemma rd_inside (d : bytes) (i : Z) :
  0 <= i < zlen d -> exists b, rd d i = Some b /\ d !! Z.to_nat i = Some b.
Proof.
  unfold zlen, rd. intros Hi. rewrite decide_True by lia.
  destruct (lookup_lt_is_Some_2 d (Z.to_nat i)) as [b Hb]; [lia|]. eauto.
Qed.

Lemma rd_Some_inside (d : bytes) (i b : Z) :
  rd d i = Some b -> 0 <= i < zlen d.
Proof.
  unfold rd, zlen. case_decide; [|done]. intros H'%lookup_lt_Some. lia.
Qed.

Lemma rd_byte (d : bytes) (i b : Z) :
  Forall is_byte d -> rd d i = Some b -> is_byte b.
Proof.
  unfold rd. intros Hd. case_decide; [|done]. by apply Forall_lookup_1.
Qed.

(** Reading within the first [n] bytes ignores what follows them. *)
Lemma rd_app_l (d e : bytes) (i : Z) : i < zlen d -> rd (d ++ e) i = rd d i.
Proof.
  unfold rd, zlen. intros. case_decide; [|done].
  apply lookup_app_l. lia.
Qed.

Lemma rds_inside (d : bytes) (off n : Z) :
  0 <= off -> 0 <= n -> off + n <= zlen d ->
  rds d off n = Some (take (Z.to_nat n) (drop (Z.to_nat off) d)).
Proof. intros. unfold rds. by rewrite decide_True by lia. Qed.

Lemma rds_length (d r : bytes) (off n : Z) : rds d off n = Some r -> zlen r = n.
Proof.
  unfold rds, zlen. case_decide as H; [|done]. intros [= <-].
  rewrite length_take, length_drop. lia.
Qed.

Lemma rds_byte (d r : bytes) (off n : Z) :
  Forall is_byte d -> rds d off n = Some r -> Forall is_byte r.
Proof.
  unfold rds. case_decide; [|done]. intros Hd [= <-].
  by apply Forall_take, Forall_drop.
Qed.

Lemma zlen_drop {A} (l : list A) (n : Z) :
  0 <= n <= zlen l -> zlen (drop (Z.to_nat n) l) = zlen l - n.
Proof. unfold zlen. rewrite length_drop. lia. Qed.

Lemma zlen_take {A} (l : list A) (n : Z) :
  0 <= n <= zlen l -> zlen (take (Z.to_nat n) l) = n.
Proof. unfold zlen. rewrite length_take. lia. Qed.

Lemma take_zlen {A} (l k : list A) : take (Z.to_nat (zlen l)) (l ++ k) = l.
Proof. unfold zlen. rewrite Nat2Z.id. apply take_app_length. Qed.

Lemma drop_zlen {A} (l k : list A) : drop (Z.to_nat (zlen l)) (l ++ k) = k.
Proof. unfold zlen. rewrite Nat2Z.id. apply drop_app_length. Qed.

Lemma rds_at (pre f suf : bytes) : rds (pre ++ f ++ suf) (zlen pre) (zlen f) = Some f.
Proof.
  pose proof (zlen_nonneg pre). pose proof (zlen_nonneg f). pose proof (zlen_nonneg suf).
  rewrite rds_inside by (rewrite ?zlen_app; lia). by rewrite drop_zlen, take_zlen.
Qed.

Lemma split_zlen {A} (l : list A) (n : Z) :
  0 <= n <= zlen l -> exists a b, l = a ++ b /\ zlen a = n.
Proof.
  intros Hn. exists (take (Z.to_nat n) l), (drop (Z.to_nat n) l).
  by rewrite take_drop, zlen_take.
Qed.

Lemma rd_app_at (a : bytes) (b : Z) (c : bytes) (i : Z) :
  zlen a = i -> rd (a ++ b :: c) i = Some b.
Proof.
  unfold rd, zlen. intros <-. rewrite decide_True by lia.
  rewrite Nat2Z.id. by apply list_lookup_middle.
Qed.

(** [lo | (hi << 8)] on two bytes is their little-endian value. *)
Lemma lor_shiftl_8 (a b : Z) :
  0 <= a < 256 -> 0 <= b -> Z.lor a (Z.shiftl b 8) = a + 256 * b.
Proof.
  intros Ha Hb.
  assert (Hland : Z.land a (Z.shiftl b 8) = 0).
  { apply Z.bits_inj_0. intros n. rewrite Z.land_spec.
    destruct (decide (n < 0)); [by rewrite Z.testbit_neg_r by lia|].
    destruct (decide (n < 8)).
    - rewrite Z.shiftl_spec_low by lia. apply andb_false_r.
    - rewrite <- (Z.mod_small a (2 ^ 8)) by lia.
      by rewrite Z.mod_pow2_bits_high by lia. }
  rewrite <- Z.lxor_lor, <- Z.add_nocarry_lxor by done.
  rewrite Z.shiftl_mul_pow2 by lia. lia.
Qed.

Lemma length_le_bytes (n : nat) (x : Z) : length (le_bytes n x) = n.
Proof. revert x; induction n; intros; cbn; [done|by rewrite IHn]. Qed.

Lemma le_bytes_byte (n : nat) (x : Z) : Forall is_byte (le_bytes n x).
Proof.
  revert x; induction n; intros; cbn; constructor; [|done].
  apply Z.mod_pos_bound; lia.
Qed.

Lemma le_val_range (l : bytes) :
  Forall is_byte l -> 0 <= le_val l < 256 ^ zlen l.
Proof.
  induction 1 as [|b l Hb Hl IH]; cbn [le_val]; [by vm_compute|].
  pose proof (zlen_nonneg l). rewrite zlen_cons, Z.pow_add_r, Z.pow_1_r by lia.
  unfold is_byte in Hb. lia.
Qed.

(** Encoding then decoding keeps the low bytes ... *)
Lemma le_val_bytes (n : nat) (x : Z) :
  le_val (le_bytes n x) = x mod 256 ^ Z.of_nat n.
Proof.
  revert x; induction n as [|n IH]; intros x; cbn [le_bytes le_val].
  - by rewrite Z.mod_1_r.
  - rewrite IH, Nat2Z.inj_succ, Z.pow_succ_r by lia.
    rewrite Z.rem_mul_r by lia. lia.
Qed.

(** ... and decoding then encoding is the identity on bytes. *)
Lemma le_bytes_val (l : bytes) :
  Forall is_byte l -> le_bytes (length l) (le_val l) = l.
Proof.
  induction 1 as [|b l Hb Hl IH]; cbn [length le_bytes le_val]; [done|].
  unfold is_byte in Hb.
  replace ((b + 256 * le_val l) mod 256) with b;
    [|rewrite Z.mul_comm, Z.mod_add by lia; by rewrite Z.mod_small by lia].
  replace ((b + 256 * le_val l) / 256) with (le_val l);
    [by rewrite IH|].
  rewrite Z.mul_comm, Z.div_add by lia. rewrite (Z.div_small b) by lia. lia.
Qed.

(** Only the low bytes of a number are encoded. *)
Lemma le_bytes_mod (n : nat) (x : Z) : le_bytes n (x mod 256 ^ Z.of_nat n) = le_bytes n x.
Proof.
  rewrite <- le_val_bytes. rewrite <- (length_le_bytes n x) at 1.
  apply le_bytes_val, le_bytes_byte.
Qed.

(** ** Lemmas on decimal text *)

Lemma is_digit_spec (c : Z) : is_digit c = true <-> 48 <= c <= 57.
Proof. unfold is_digit. rewrite andb_true_iff, !Z.leb_le. done. Qed.

Lemma dec_digits_val (fuel : nat) (x : Z) (acc : bytes) :
  0 <= x < 10 ^ Z.of_nat fuel ->
  fold_left (fun a c => 10 * a + (c - 48)) (dec_digits fuel x acc) 0 =
  fold_left (fun a c => 10 * a + (c - 48)) acc x.
Proof.
  revert x acc; induction fuel as [|f IH]; intros x acc Hx.
  { cbn in Hx. by replace x with 0 by lia. }
  cbn [dec_digits]. rewrite Nat2Z.inj_succ, Z.pow_succ_r in Hx by lia.
  pose proof (Z.div_mod x 10 ltac:(lia)). pose proof (Z.mod_pos_bound x 10 ltac:(lia)).
  destruct (Z.ltb_spec x 10).
  - cbn [fold_left]. f_equal. rewrite Z.mod_small by lia. lia.
  - rewrite IH by lia. cbn [fold_left]. f_equal. lia.
Qed.

Lemma dec_digits_digits (fuel : nat) (x : Z) (acc : bytes) :
  Forall (fun c => is_digit c = true) acc ->
  Forall (fun c => is_digit c = true) (dec_digits fuel x acc).
Proof.
  revert x acc; induction fuel as [|f IH]; intros x acc Ha; cbn [dec_digits]; [done|].
  pose proof (Z.mod_pos_bound x 10 ltac:(lia)).
  assert (Forall (fun c => is_digit c = true) ((48 + x mod 10) :: acc)).
  { constructor; [|done]. apply is_digit_spec. lia. }
  destruct (x <? 10); eauto.
Qed.

Lemma to_string_val (x : Z) : 0 <= x < 10 ^ 20 -> dec_val (to_string x) = x.
Proof. intros Hx. unfold dec_val, to_string. by rewrite dec_digits_val. Qed.

Lemma to_string_digits (x : Z) : Forall (fun c => is_digit c = true) (to_string x).
Proof. by apply dec_digits_digits. Qed.

Lemma dec_digits_nonempty (fuel : nat) (x c : Z) (acc : bytes) :
  dec_digits fuel x (c :: acc) <> [].
Proof.
  revert x c acc; induction fuel as [|f IH]; intros x c acc; cbn [dec_digits]; [done|].
  destruct (x <? 10); [done|apply IH].
Qed.

Lemma to_string_nonempty (x : Z) : to_string x <> [].
Proof.
  unfold to_string. cbn [dec_digits]. destruct (x <? 10); [done|].
  apply (dec_digits_nonempty 19).
Qed.

Lemma digit_prefix_all (t : bytes) :
  Forall (fun c => is_digit c = true) t -> digit_prefix t = t.
Proof. induction 1 as [|c t Hc Ht IH]; cbn; [done|]. by rewrite Hc, IH. Qed.

Lemma digit_prefix_digits (t : bytes) : Forall (fun c => is_digit c = true) (digit_prefix t).
Proof. induction t as [|c t IH]; cbn; [done|]. destruct (is_digit c) eqn:?; auto. Qed.

Lemma digit_prefix_whole (t : bytes) : zlen (digit_prefix t) = zlen t -> digit_prefix t = t.
Proof.
  induction t as [|c t IH]; cbn [digit_prefix]; [done|].
  destruct (is_digit c); rewrite ?zlen_cons; intros Hl.
  - f_equal. apply IH. lia.
  - rewrite zlen_nil in Hl. pose proof (zlen_nonneg t). lia.
Qed.

(** ** Lemmas on [wp] *)

Lemma wp_bind {W A B} (m : M W A) (k : A -> M W B) Q w :
  wp (bindM m k) Q w <-> wp m (fun a => wp (k a) Q) w.
Proof. unfold wp, bindM. destruct (m w) as [[a w']|]; done. Qed.

Lemma wp_ret {W A} (a : A) (Q : A -> W -> Prop) w : wp (retM a) Q w <-> Q a w.
Proof. done. Qed.

Lemma wp_gets {W A} (f : W -> A) Q w : wp (gets f) Q w <-> Q (f w) w.
Proof. done. Qed.

Lemma wp_modify {W} (f : W -> W) Q w : wp (modify f) Q w <-> Q tt (f w).
Proof. done. Qed.

Lemma wp_liftO {W A} (o : option A) (Q : A -> W -> Prop) w :
  wp (liftO o) Q w <-> exists a, o = Some a /\ Q a w.
Proof.
  unfold wp, liftO. destruct o as [a|]; split; [by exists a|by intros (? & [= <-] & ?)|done|by intros (? & ? & ?)].
Qed.

Lemma wp_liftO_Some {W A} (a : A) (Q : A -> W -> Prop) w : wp (liftO (Some a)) Q w <-> Q a w.
Proof. done. Qed.

Lemma wp_mono {W A} (m : M W A) (P Q : A -> W -> Prop) w :
  wp m P w -> (forall a w', P a w' -> Q a w') -> wp m Q w.
Proof. unfold wp. destruct (m w) as [[a w']|]; eauto. Qed.

Lemma wp_and {W A} (m : M W A) (P Q : A -> W -> Prop) w :
  wp m P w -> wp m Q w -> wp m (fun a w' => P a w' /\ Q a w') w.
Proof. unfold wp. destruct (m w) as [[a w']|]; eauto. Qed.

(** [wp] holds exactly when the computation returns a result in [Q]. *)
Lemma wp_run {W A} (m : M W A) (Q : A -> W -> Prop) w :
  wp m Q w <-> exists a w', m w = Some (a, w') /\ Q a w'.
Proof.
  unfold wp. destruct (m w) as [[a w']|]; split; [by exists a, w'| |done|].
  - by intros (? & ? & [= <- <-] & ?).
  - by intros (? & ? & ? & ?).
Qed.

(** ** Automation *)

Create HintDb realmd.
Create Rewrite HintDb zlen.
#[export] Hint Resolve zlen_nonneg le_bytes_byte : realmd.
#[export] Hint Rewrite @zlen_app @zlen_cons @zlen_nil : zlen.

(** One step of a symbolic run: the next operation, or a split on a branch. *)
Ltac wp_step :=
  match goal with
  | |- wp (bindM _ _) _ _ => refine (proj2 (wp_bind _ _ _ _) _)
  | |- wp (retM _) _ _ => refine (proj2 (wp_ret _ _ _) _)
  | |- wp (gets _) _ _ => refine (proj2 (wp_gets _ _ _) _)
  | |- wp (liftO (Some _)) _ _ => refine (proj2 (wp_liftO_Some _ _ _) _)
  | |- wp (if ?c then _ else _) _ _ => destruct c eqn:?
  | |- wp (match ?x with _ => _ end) _ _ => destruct x eqn:?
  end.

(** Turn boolean comparisons in hypotheses into their propositions. *)
Ltac bool_facts :=
  repeat match goal with
  | H : (_ && _)%bool = true |- _ => apply andb_true_iff in H as [? ?]
  | H : (_ || _)%bool = false |- _ => apply orb_false_iff in H as [? ?]
  | H : negb _ = true |- _ => apply negb_true_iff in H
  | H : negb _ = false |- _ => apply negb_false_iff in H
  | H : (_ =? _) = true |- _ => apply Z.eqb_eq in H
  | H : (_ =? _) = false |- _ => apply Z.eqb_neq in H
  | H : (_ <? _) = true |- _ => apply Z.ltb_lt in H
  | H : (_ <? _) = false |- _ => apply Z.ltb_ge in H
  | H : (_ <=? _) = true |- _ => apply Z.leb_le in H
  | H : (_ <=? _) = false |- _ => apply Z.leb_gt in H
  end.
