(* ===== verification/AuthCodes.v ===== *)
(** * Wire codes (src/Auth/AuthCodes.h)

    The command and result enumerations with the source's constructors, and
    their numeric values.  [cmd_of_byte] is what a [switch] on a received byte
    resolves to. *)

From S2P Require Import Prelude.

Inductive eAuthCmd : Set :=
| CMD_AUTH_LOGON_CHALLENGE
| CMD_AUTH_LOGON_PROOF
| CMD_AUTH_RECONNECT_CHALLENGE
| CMD_AUTH_RECONNECT_PROOF
| CMD_REALM_LIST
| CMD_XFER_INITIATE
| CMD_XFER_DATA
| CMD_XFER_ACCEPT
| CMD_XFER_RESUME
| CMD_XFER_CANCEL.

#[export] Instance eAuthCmd_eq_dec : EqDecision eAuthCmd.
Proof. solve_decision. Defined.

Definition cmd_code (c : eAuthCmd) : Z :=
  match c with
  | CMD_AUTH_LOGON_CHALLENGE => 0x00
  | CMD_AUTH_LOGON_PROOF => 0x01
  | CMD_AUTH_RECONNECT_CHALLENGE => 0x02
  | CMD_AUTH_RECONNECT_PROOF => 0x03
  | CMD_REALM_LIST => 0x10
  | CMD_XFER_INITIATE => 0x30
  | CMD_XFER_DATA => 0x31
  | CMD_XFER_ACCEPT => 0x32
  | CMD_XFER_RESUME => 0x33
  | CMD_XFER_CANCEL => 0x34
  end.

Definition all_cmds : list eAuthCmd :=
  [CMD_AUTH_LOGON_CHALLENGE; CMD_AUTH_LOGON_PROOF; CMD_AUTH_RECONNECT_CHALLENGE;
   CMD_AUTH_RECONNECT_PROOF; CMD_REALM_LIST; CMD_XFER_INITIATE; CMD_XFER_DATA;
   CMD_XFER_ACCEPT; CMD_XFER_RESUME; CMD_XFER_CANCEL].

(** The enumerator a [switch] on the byte [b] selects; [None] is [default]. *)
Definition cmd_of_byte (b : Z) : option eAuthCmd :=
  List.find (fun c => cmd_code c =? b) all_cmds.

Inductive AuthResult : Set :=
| WOW_SUCCESS
| WOW_FAIL_UNKNOWN0
| WOW_FAIL_UNKNOWN1
| WOW_FAIL_BANNED
| WOW_FAIL_UNKNOWN_ACCOUNT
| WOW_FAIL_INCORRECT_PASSWORD
| WOW_FAIL_ALREADY_ONLINE
| WOW_FAIL_NO_TIME
| WOW_FAIL_DB_BUSY
| WOW_FAIL_VERSION_INVALID
| WOW_FAIL_VERSION_UPDATE
| WOW_FAIL_INVALID_SERVER
| WOW_FAIL_SUSPENDED
| WOW_FAIL_FAIL_NOACCESS
| WOW_SUCCESS_SURVEY
| WOW_FAIL_PARENTCONTROL
| WOW_FAIL_LOCKED_ENFORCED
| WOW_FAIL_TRIAL_ENDED
| WOW_FAIL_USE_BATTLENET
| WOW_FAIL_ANTI_INDULGENCE
| WOW_FAIL_EXPIRED
| WOW_FAIL_NO_GAME_ACCOUNT
| WOW_FAIL_CHARGEBACK
| WOW_FAIL_IGR_WITHOUT_BNET
| WOW_FAIL_GAME_ACCOUNT_LOCKED
| WOW_FAIL_UNLOCKABLE_LOCK
| WOW_FAIL_CONVERSION_REQUIRED
| WOW_FAIL_DISCONNECTED.

#[export] Instance AuthResult_eq_dec : EqDecision AuthResult.
Proof. solve_decision. Defined.

Definition result_code (r : AuthResult) : Z :=
  match r with
  | WOW_SUCCESS => 0x00
  | WOW_FAIL_UNKNOWN0 => 0x01
  | WOW_FAIL_UNKNOWN1 => 0x02
  | WOW_FAIL_BANNED => 0x03
  | WOW_FAIL_UNKNOWN_ACCOUNT => 0x04
  | WOW_FAIL_INCORRECT_PASSWORD => 0x05
  | WOW_FAIL_ALREADY_ONLINE => 0x06
  | WOW_FAIL_NO_TIME => 0x07
  | WOW_FAIL_DB_BUSY => 0x08
  | WOW_FAIL_VERSION_INVALID => 0x09
  | WOW_FAIL_VERSION_UPDATE => 0x0A
  | WOW_FAIL_INVALID_SERVER => 0x0B
  | WOW_FAIL_SUSPENDED => 0x0C
  | WOW_FAIL_FAIL_NOACCESS => 0x0D
  | WOW_SUCCESS_SURVEY => 0x0E
  | WOW_FAIL_PARENTCONTROL => 0x0F
  | WOW_FAIL_LOCKED_ENFORCED => 0x10
  | WOW_FAIL_TRIAL_ENDED => 0x11
  | WOW_FAIL_USE_BATTLENET => 0x12
  | WOW_FAIL_ANTI_INDULGENCE => 0x13
  | WOW_FAIL_EXPIRED => 0x14
  | WOW_FAIL_NO_GAME_ACCOUNT => 0x15
  | WOW_FAIL_CHARGEBACK => 0x16
  | WOW_FAIL_IGR_WITHOUT_BNET => 0x17
  | WOW_FAIL_GAME_ACCOUNT_LOCKED => 0x18
  | WOW_FAIL_UNLOCKABLE_LOCK => 0x19
  | WOW_FAIL_CONVERSION_REQUIRED => 0x20
  | WOW_FAIL_DISCONNECTED => 0xFF
  end.

Lemma cmd_code_byte (c : eAuthCmd) : is_byte (cmd_code c).
Proof. by destruct c. Qed.

Lemma result_code_byte (r : AuthResult) : is_byte (result_code r).
Proof. by destruct r. Qed.

Lemma cmd_of_byte_code (c : eAuthCmd) : cmd_of_byte (cmd_code c) = Some c.
Proof. by destruct c. Qed.

Lemma cmd_of_byte_Some (b : Z) (c : eAuthCmd) :
  cmd_of_byte b = Some c -> cmd_code c = b.
Proof. intros [_ H]%List.find_some. by apply Z.eqb_eq. Qed.

Lemma result_code_inj (r r' : AuthResult) : result_code r = result_code r' -> r = r'.
Proof. by destruct r, r'. Qed.

#[export] Hint Resolve cmd_code_byte result_code_byte : realmd.
