(* ===== verification/ProtocolGuard.v ===== *)
(** * Frame guard and deadline (src/Auth/AuthProtocolGuard.{h,cpp})

    [InspectFrame] decides whether the bytes received so far are an incomplete,
    a complete or an unacceptable frame for the stream's state; [CanAppendPending]
    bounds what a connection may buffer; [Deadline] is the authentication timer.

    Reads of [data] go through [rd]: [InspectFrame] is [None] exactly when it
    would read outside the buffer. *)

From S2P Require Import Prelude AuthCodes.

Local Open Scope Z_scope.

Inductive StreamState : Set :=
| Challenge
| LogonProof
| ReconnectProof
| Patch
| Authenticated
| Closed.

#[export] Instance StreamState_eq_dec : EqDecision StreamState.
Proof. solve_decision. Defined.

Inductive FrameStatus : Set :=
| Incomplete
| Complete
| RejectFrame.

#[export] Instance FrameStatus_eq_dec : EqDecision FrameStatus.
Proof. solve_decision. Defined.

Inductive RejectReason : Set :=
| NoReason
| UnknownCommand
| UnauthorizedCommand
| MalformedLength
| UnsupportedKeyProof.

Record FrameDecision : Set := mkDecision {
  status : FrameStatus;
  reason : RejectReason;
  frameSize : Z
}.

Definition AuthChallengeHeaderSize : Z := 4.
Definition AuthChallengeMinimumBodySize : Z := 31.
Definition AuthLogonProofSize : Z := 75.
Definition AuthReconnectProofSize : Z := 58.
Definition AuthRealmListSize : Z := 5.
Definition AuthXferAcceptSize : Z := 1.
Definition AuthXferResumeSize : Z := 9.
Definition AuthXferCancelSize : Z := 1.
Definition MaxPendingInput : Z := AuthChallengeHeaderSize + (2 ^ 16 - 1).

Definition Reject (r : RejectReason) : FrameDecision := mkDecision RejectFrame r 0.

Definition IsState (actual expected : StreamState) : bool :=
  bool_decide (actual = expected).

Definition ChallengeAccountPrefixBodySize : Z := 30.
Definition ChallengeAccountLengthOffset : Z :=
  AuthChallengeHeaderSize + ChallengeAccountPrefixBodySize - 1.
Definition ChallengeAccountDataOffset : Z := ChallengeAccountLengthOffset + 1.
Definition LogonProofKeyCountOffset : Z := 73.
Definition ReconnectProofKeyCountOffset : Z := 57.

(** [for (i = 0; i < n; ++i) if (data[off + i] == 0) return true;] *)
Fixpoint scan_nul (d : bytes) (off : Z) (n : nat) : option bool :=
  match n with
  | O => Some false
  | S n' =>
      match rd d off with
      | None => None
      | Some c => if c =? 0 then Some true else scan_nul d (off + 1) n'
      end
  end.

(** The challenge cases of the [switch]. *)
Definition InspectChallenge (state : StreamState) (data : bytes) (size : Z)
    : option FrameDecision :=
  if negb (IsState state Challenge) then Some (Reject UnauthorizedCommand) else
  if size <? AuthChallengeHeaderSize
  then Some (mkDecision Incomplete NoReason AuthChallengeHeaderSize) else
  match rd data 2, rd data 3 with
  | Some lo, Some hi =>
      let body := u16 (Z.lor lo (Z.shiftl hi 8)) in
      if body <? AuthChallengeMinimumBodySize
      then Some (Reject MalformedLength) else
      let required := AuthChallengeHeaderSize + body in
      if size <? required
      then Some (mkDecision Incomplete NoReason required) else
      match rd data ChallengeAccountLengthOffset with
      | Some accountLength =>
          if negb (body =? ChallengeAccountPrefixBodySize + accountLength)
          then Some (Reject MalformedLength) else
          match scan_nul data ChallengeAccountDataOffset (Z.to_nat accountLength) with
          | Some true => Some (Reject MalformedLength)
          | Some false => Some (mkDecision Complete NoReason required)
          | None => None
          end
      | None => None
      end
  | _, _ => None
  end.

(** The tail of the [switch]: [size < required] or a complete frame. *)
Definition InspectRequired (size required : Z) : FrameDecision :=
  if size <? required
  then mkDecision Incomplete NoReason required
  else mkDecision Complete NoReason required.

(** The two proof cases: a key-count byte that must be zero. *)
Definition InspectProof (state expected : StreamState) (data : bytes)
    (size keyCountOffset required : Z) : option FrameDecision :=
  if negb (IsState state expected) then Some (Reject UnauthorizedCommand) else
  if size <=? keyCountOffset
  then Some (mkDecision Incomplete NoReason (keyCountOffset + 1)) else
  match rd data keyCountOffset with
  | Some keys =>
      if negb (keys =? 0) then Some (Reject UnsupportedKeyProof)
      else Some (InspectRequired size required)
  | None => None
  end.

(** The fixed-size cases. *)
Definition InspectFixed (state expected : StreamState) (size required : Z)
    : FrameDecision :=
  if negb (IsState state expected) then Reject UnauthorizedCommand
  else InspectRequired size required.

Definition InspectFrame (state : StreamState) (data : option bytes) (size : Z)
    : option FrameDecision :=
  if size =? 0 then Some (mkDecision Incomplete NoReason 0) else
  match data with
  | None => Some (Reject MalformedLength)
  | Some d =>
      match rd d 0 with
      | None => None
      | Some b =>
          match cmd_of_byte b with
          | Some CMD_AUTH_LOGON_CHALLENGE
          | Some CMD_AUTH_RECONNECT_CHALLENGE => InspectChallenge state d size
          | Some CMD_AUTH_LOGON_PROOF =>
              InspectProof state LogonProof d size
                LogonProofKeyCountOffset AuthLogonProofSize
          | Some CMD_AUTH_RECONNECT_PROOF =>
              InspectProof state ReconnectProof d size
                ReconnectProofKeyCountOffset AuthReconnectProofSize
          | Some CMD_REALM_LIST =>
              Some (InspectFixed state Authenticated size AuthRealmListSize)
          | Some CMD_XFER_ACCEPT =>
              Some (InspectFixed state Patch size AuthXferAcceptSize)
          | Some CMD_XFER_RESUME =>
              Some (InspectFixed state Patch size AuthXferResumeSize)
          | Some CMD_XFER_CANCEL =>
              Some (InspectFixed state Patch size AuthXferCancelSize)
          | Some CMD_XFER_INITIATE | Some CMD_XFER_DATA | None =>
              Some (Reject UnknownCommand)
          end
      end
  end.

(** [size_t] subtraction wraps at 64 bits. *)
Definition CanAppendPending (pending incoming : Z) : bool :=
  (pending <=? MaxPendingInput) && (incoming <=? u64 (MaxPendingInput - pending)).

(** Time points are nanoseconds of the steady clock. *)
Record Deadline : Set := mkDeadline {
  m_deadline : Z;
  m_active : bool
}.

Definition ns_per_second : Z := 1000000000.

Definition Deadline_new (start timeout : Z) : Deadline :=
  mkDeadline (start + timeout * ns_per_second) (0 <? timeout).

Definition Deadline_expired (d : Deadline) (now : Z) : bool :=
  m_active d && (m_deadline d <=? now).

Definition Deadline_deactivate (d : Deadline) : Deadline :=
  mkDeadline (m_deadline d) false.

Definition Deadline_active (d : Deadline) : bool := m_active d.

(** ** The frames each state accepts

    The wire grammar the guard enforces, stated on whole frames and without
    reference to how the guard inspects them. *)

Inductive WellFormedFrame : StreamState -> bytes -> Prop :=
| wf_challenge (cmd : eAuthCmd) (err lo hi : Z) (prefix login : bytes) :
    cmd = CMD_AUTH_LOGON_CHALLENGE \/ cmd = CMD_AUTH_RECONNECT_CHALLENGE ->
    zlen prefix = 29 ->
    1 <= zlen login ->
    lo + 256 * hi = 30 + zlen login ->
    Forall (fun c => c <> 0) login ->
    WellFormedFrame Challenge
      ([cmd_code cmd; err; lo; hi] ++ prefix ++ [zlen login] ++ login)
| wf_logon_proof (A_M1_crc : bytes) (securityFlags : Z) :
    zlen A_M1_crc = 72 ->
    WellFormedFrame LogonProof
      ([cmd_code CMD_AUTH_LOGON_PROOF] ++ A_M1_crc ++ [0; securityFlags])
| wf_reconnect_proof (R1_R2_R3 : bytes) :
    zlen R1_R2_R3 = 56 ->
    WellFormedFrame ReconnectProof
      ([cmd_code CMD_AUTH_RECONNECT_PROOF] ++ R1_R2_R3 ++ [0])
| wf_realm_list (unused : bytes) :
    zlen unused = 4 ->
    WellFormedFrame Authenticated ([cmd_code CMD_REALM_LIST] ++ unused)
| wf_xfer_accept :
    WellFormedFrame Patch [cmd_code CMD_XFER_ACCEPT]
| wf_xfer_resume (offset : bytes) :
    zlen offset = 8 ->
    WellFormedFrame Patch ([cmd_code CMD_XFER_RESUME] ++ offset)
| wf_xfer_cancel :
    WellFormedFrame Patch [cmd_code CMD_XFER_CANCEL].

(** ** Lemmas *)

Ltac size_consts :=
  unfold MaxPendingInput, ChallengeAccountDataOffset, ChallengeAccountLengthOffset,
    AuthChallengeHeaderSize, AuthChallengeMinimumBodySize,
    ChallengeAccountPrefixBodySize, AuthLogonProofSize, AuthReconnectProofSize,
    AuthRealmListSize, AuthXferAcceptSize, AuthXferResumeSize, AuthXferCancelSize,
    LogonProofKeyCountOffset, ReconnectProofKeyCountOffset in *.

Lemma scan_nul_spec (d : bytes) (off : Z) (n : nat) :
  0 <= off -> off + Z.of_nat n <= zlen d ->
  scan_nul d off n = Some (existsb (fun c => c =? 0) (take n (drop (Z.to_nat off) d))).
Proof.
  revert off; induction n as [|n IH]; intros off Hoff Hn; [done|].
  destruct (rd_inside d off) as (b & Hb & Hl); [lia|].
  cbn [scan_nul]. rewrite Hb, IH by lia.
  rewrite (drop_S d b (Z.to_nat off)) by done. cbn [take existsb].
  replace (Z.to_nat (off + 1)) with (S (Z.to_nat off)) by lia.
  by destruct (b =? 0).
Qed.

Lemma scan_nul_app (d e : bytes) (off : Z) (n : nat) :
  0 <= off -> off + Z.of_nat n <= zlen d ->
  scan_nul (d ++ e) off n = scan_nul d off n.
Proof.
  revert off; induction n as [|n IH]; intros off Hoff Hn; cbn [scan_nul]; [done|].
  rewrite rd_app_l, IH by lia. done.
Qed.

Lemma existsb_nul_false (l : bytes) :
  existsb (fun c => c =? 0) l = false <-> Forall (fun c => c <> 0) l.
Proof.
  induction l as [|c l IH]; cbn; [split; auto|].
  rewrite orb_false_iff, Z.eqb_neq, IH, Forall_cons. done.
Qed.

Lemma IsState_true (a b : StreamState) : IsState a b = true <-> a = b.
Proof. apply bool_decide_eq_true. Qed.

Lemma InspectRequired_cases (size required : Z) :
  (size < required /\ InspectRequired size required = mkDecision Incomplete NoReason required) \/
  (required <= size /\ InspectRequired size required = mkDecision Complete NoReason required).
Proof. unfold InspectRequired. destruct (Z.ltb_spec size required); auto. Qed.

(** Only the first [size] bytes matter: [data] may be replaced by any buffer
    that agrees with it on them. *)
Lemma InspectChallenge_prefix (st : StreamState) (d e : bytes) (size : Z) :
  0 <= size <= zlen d ->
  InspectChallenge st (d ++ e) size = InspectChallenge st d size.
Proof.
  intros Hs. unfold InspectChallenge.
  destruct (negb _); [done|]. case_match eqn:Hh; [done|]. bool_facts.
  size_consts. rewrite !(rd_app_l d e) by lia.
  destruct (rd_inside d 2) as (lo & -> & _); [lia|].
  destruct (rd_inside d 3) as (hi & -> & _); [lia|]. cbv zeta.
  destruct (_ <? 31) eqn:Hm; [done|].
  destruct (size <? _) eqn:Hreq; [done|]. bool_facts.
  rewrite (rd_app_l d e) by lia.
  destruct (rd d _) as [al|] eqn:Hal; [|done].
  destruct (negb _) eqn:Hb; [done|]. bool_facts.
  by rewrite scan_nul_app by lia.
Qed.

Lemma InspectFrame_prefix (st : StreamState) (d e : bytes) (size : Z) :
  0 <= size <= zlen d ->
  InspectFrame st (Some (d ++ e)) size = InspectFrame st (Some d) size.
Proof.
  intros Hs. unfold InspectFrame, InspectProof.
  destruct (Z.eqb_spec size 0); [done|].
  rewrite (rd_app_l d e 0) by lia.
  destruct (rd d 0) as [b|]; [|done].
  destruct (cmd_of_byte b) as [[]|]; try done; try (by apply InspectChallenge_prefix).
  all: destruct (negb _); [done|]; destruct (size <=? _) eqn:Hk; [done|];
    bool_facts; by rewrite (rd_app_l d e) by lia.
Qed.

(** No read leaves the first [size] bytes. *)
Lemma InspectChallenge_total (st : StreamState) (d : bytes) (size : Z) :
  0 <= size <= zlen d -> is_Some (InspectChallenge st d size).
Proof.
  intros Hs. unfold InspectChallenge.
  destruct (negb _); [done|]. case_match eqn:Hh; [done|]. bool_facts. size_consts.
  destruct (rd_inside d 2) as (lo & -> & _); [lia|].
  destruct (rd_inside d 3) as (hi & -> & _); [lia|]. cbv zeta.
  destruct (_ <? 31) eqn:Hm; [done|].
  destruct (size <? _) eqn:Hreq; [done|]. bool_facts.
  destruct (rd_inside d (4 + 30 - 1)) as (al & -> & _); [lia|].
  destruct (negb _) eqn:Hb; [done|]. bool_facts.
  rewrite scan_nul_spec by lia. by destruct (existsb _ _).
Qed.

Lemma InspectFrame_total (st : StreamState) (d : bytes) (size : Z) :
  0 <= size <= zlen d -> is_Some (InspectFrame st (Some d) size).
Proof.
  intros Hs. unfold InspectFrame, InspectProof.
  destruct (Z.eqb_spec size 0); [done|].
  destruct (rd_inside d 0) as (b & -> & _); [lia|].
  destruct (cmd_of_byte b) as [[]|]; try done; try (by apply InspectChallenge_total).
  all: destruct (negb _); [done|]; destruct (size <=? _) eqn:Hk; [done|];
    bool_facts; size_consts.
  1: destruct (rd_inside d 73) as (k & -> & _); [lia|].
  2: destruct (rd_inside d 57) as (k & -> & _); [lia|].
  all: by destruct (negb _).
Qed.

(** A verdict other than [Incomplete] does not change when more bytes are
    taken into account. *)
Lemma InspectRequired_mono (size size' required : Z) :
  size <= size' -> status (InspectRequired size required) <> Incomplete ->
  InspectRequired size' required = InspectRequired size required.
Proof.
  unfold InspectRequired. intros Hs.
  destruct (Z.ltb_spec size required), (Z.ltb_spec size' required); cbn; done || lia.
Qed.

Lemma InspectChallenge_mono (st : StreamState) (d : bytes) (size size' : Z) dec :
  size <= size' -> InspectChallenge st d size = Some dec -> status dec <> Incomplete ->
  InspectChallenge st d size' = Some dec.
Proof.
  unfold InspectChallenge. intros Hs. size_consts.
  destruct (negb _); [done|].
  destruct (Z.ltb_spec size 4); [intros [= <-]; done|].
  destruct (Z.ltb_spec size' 4); [lia|].
  destruct (rd d 2) as [lo|], (rd d 3) as [hi|]; try done. cbv zeta.
  destruct (_ <? 31); [done|].
  destruct (Z.ltb_spec size (4 + u16 (Z.lor lo (hi ≪ 8)))); [intros [= <-]; done|].
  by destruct (Z.ltb_spec size' (4 + u16 (Z.lor lo (hi ≪ 8)))); [lia|].
Qed.

Lemma InspectFrame_mono (st : StreamState) (d : bytes) (size size' : Z) dec :
  0 <= size <= size' -> InspectFrame st (Some d) size = Some dec ->
  status dec <> Incomplete ->
  InspectFrame st (Some d) size' = Some dec.
Proof.
  unfold InspectFrame, InspectProof, InspectFixed. intros Hs.
  destruct (Z.eqb_spec size 0); [intros [= <-]; done|].
  destruct (Z.eqb_spec size' 0); [lia|].
  destruct (rd d 0) as [b|]; [|done].
  destruct (cmd_of_byte b) as [[]|]; try done;
    try (by eapply InspectChallenge_mono; [lia|..]);
    (destruct (negb _); [done|]);
    try (intros [= <-] ?; f_equal; apply InspectRequired_mono; [lia|done]).
  all: size_consts;
    match goal with |- context [?s <=? ?k] =>
      destruct (Z.leb_spec s k); [intros [= <-]; done|];
      destruct (Z.leb_spec size' k); [lia|] end;
    destruct (rd d _); [|done]; destruct (negb _); [done|];
    intros [= <-] ?; f_equal; apply InspectRequired_mono; [lia|done].
Qed.

(** The fixed part of a challenge: four header bytes, 29 body bytes, the account
    length at offset 33, the account name from offset 34. *)
Lemma challenge_split (d : bytes) :
  34 <= zlen d ->
  exists b0 err lo hi prefix al rest,
    d = b0 :: err :: lo :: hi :: prefix ++ al :: rest /\ zlen prefix = 29.
Proof.
  intros Hs. destruct d as [|b0 [|err [|lo [|hi d']]]]; try (vm_compute in Hs; done).
  rewrite !zlen_cons in Hs. unfold zlen in Hs.
  destruct (drop 29 d') as [|al rest] eqn:Hdrop.
  { apply (f_equal length) in Hdrop. rewrite length_drop in Hdrop. cbn in Hdrop. lia. }
  exists b0, err, lo, hi, (take 29 d'), al, rest. split.
  - by rewrite <- Hdrop, take_drop.
  - unfold zlen. rewrite length_take. lia.
Qed.

Lemma challenge_rd (b0 err lo hi al : Z) (prefix rest : bytes) :
  zlen prefix = 29 ->
  rd (b0 :: err :: lo :: hi :: prefix ++ al :: rest) 33 = Some al /\
  drop 34 (b0 :: err :: lo :: hi :: prefix ++ al :: rest) = rest.
Proof.
  unfold zlen. intros Hp. split.
  - change (rd (b0 :: err :: lo :: hi :: prefix ++ al :: rest) 33)
      with ((prefix ++ al :: rest) !! 29%nat).
    rewrite lookup_app_r by lia. by replace (29 - length prefix)%nat with 0%nat by lia.
  - change ((drop 34 (b0 :: err :: lo :: hi :: prefix ++ al :: rest)))
      with (drop 30 (prefix ++ al :: rest)).
    rewrite drop_app_ge by lia. by replace (30 - length prefix)%nat with 1%nat by lia.
Qed.

Lemma InspectChallenge_sound (st : StreamState) (d : bytes) (r : RejectReason) (n : Z) :
  Forall is_byte d ->
  InspectChallenge st d (zlen d) = Some (mkDecision Complete r n) ->
  st = Challenge /\ exists b0 err lo hi prefix login rest,
    d = b0 :: err :: lo :: hi :: prefix ++ zlen login :: login ++ rest /\
    zlen prefix = 29 /\ 1 <= zlen login /\ lo + 256 * hi = 30 + zlen login /\
    Forall (fun c => c <> 0) login /\ n = 34 + zlen login.
Proof.
  intros Hd. unfold InspectChallenge. size_consts.
  destruct (IsState st Challenge) eqn:Hst; [apply IsState_true in Hst as ->|done].
  cbn [negb]. destruct (zlen d <? 4); [done|].
  destruct (rd d 2) as [lo|] eqn:Hlo, (rd d 3) as [hi|] eqn:Hhi; try done. cbv zeta.
  pose proof (rd_byte _ _ _ Hd Hlo) as Blo. pose proof (rd_byte _ _ _ Hd Hhi) as Bhi.
  unfold is_byte in Blo, Bhi. rewrite lor_shiftl_8, wrap_small by lia.
  destruct (_ <? 31) eqn:Hmin; [done|]. destruct (zlen d <? _) eqn:Hreq; [done|]. bool_facts.
  destruct (challenge_split d) as (b0 & err & lo' & hi' & prefix & al & rest & -> & Hp); [lia|].
  injection Hlo as ->. injection Hhi as ->.
  destruct (challenge_rd b0 err lo hi al prefix rest Hp) as [Hrd Hdrop].
  change (4 + 30 - 1) with 33. rewrite Hrd.
  pose proof (rd_byte _ _ _ Hd Hrd) as Bal. unfold is_byte in Bal.
  destruct (Z.eqb_spec (lo + 256 * hi) (30 + al)) as [Hb|]; [|done]. cbn [negb].
  rewrite !zlen_cons, zlen_app, zlen_cons in Hreq.
  rewrite scan_nul_spec by (rewrite ?zlen_cons, ?zlen_app, ?zlen_cons; lia).
  change (Z.to_nat (33 + 1)) with 34%nat. rewrite Hdrop.
  destruct (existsb _ _) eqn:Hnul; [done|]. intros [= <- <-]. split; [done|].
  assert (Hl : zlen (take (Z.to_nat al) rest) = al) by (apply zlen_take; lia).
  exists b0, err, lo, hi, prefix, (take (Z.to_nat al) rest), (drop (Z.to_nat al) rest).
  rewrite Hl, take_drop. apply existsb_nul_false in Hnul. repeat split; (done || lia).
Qed.

Lemma InspectChallenge_accepts (b0 err lo hi : Z) (prefix login : bytes) :
  is_byte lo -> is_byte hi -> is_byte (zlen login) ->
  zlen prefix = 29 -> 1 <= zlen login -> lo + 256 * hi = 30 + zlen login ->
  Forall (fun c => c <> 0) login ->
  InspectChallenge Challenge (b0 :: err :: lo :: hi :: prefix ++ zlen login :: login)
    (34 + zlen login) = Some (mkDecision Complete NoReason (34 + zlen login)).
Proof.
  unfold is_byte. intros Blo Bhi Bal Hp Hl Hb Hn. unfold InspectChallenge. size_consts.
  destruct (challenge_rd b0 err lo hi (zlen login) prefix login Hp) as [Hrd Hdrop].
  cbn [IsState negb]. change (negb (IsState Challenge Challenge)) with false. cbv iota.
  destruct (Z.ltb_spec (34 + zlen login) 4); [lia|].
  change (rd (b0 :: err :: lo :: hi :: prefix ++ zlen login :: login) 2) with (Some lo).
  change (rd (b0 :: err :: lo :: hi :: prefix ++ zlen login :: login) 3) with (Some hi).
  cbv zeta iota. rewrite lor_shiftl_8, wrap_small by lia.
  destruct (Z.ltb_spec (lo + 256 * hi) 31); [lia|].
  destruct (Z.ltb_spec (34 + zlen login) (4 + (lo + 256 * hi))); [lia|].
  change (4 + 30 - 1) with 33. rewrite Hrd.
  destruct (Z.eqb_spec (lo + 256 * hi) (30 + zlen login)); [|done]. cbn [negb].
  rewrite scan_nul_spec by (rewrite ?zlen_cons, ?zlen_app, ?zlen_cons; lia).
  change (Z.to_nat (33 + 1)) with 34%nat. rewrite Hdrop.
  rewrite take_ge by (unfold zlen; lia). apply existsb_nul_false in Hn as ->.
  do 2 f_equal. lia.
Qed.

(** A proof frame: everything up to a zero key count, then the rest. *)
Lemma InspectProof_sound (st e : StreamState) (d : bytes) (k m : Z) (r : RejectReason) (n : Z) :
  0 <= k < m -> InspectProof st e d (zlen d) k m = Some (mkDecision Complete r n) ->
  st = e /\ n = m /\ r = NoReason /\ exists head tail rest,
    d = (head ++ 0 :: tail) ++ rest /\ zlen head = k /\ zlen tail = m - k - 1.
Proof.
  intros Hk. unfold InspectProof.
  destruct (IsState st e) eqn:Hst; [apply IsState_true in Hst as ->|done]. cbn [negb].
  destruct (Z.leb_spec (zlen d) k); [done|].
  destruct (rd d k) as [c|] eqn:Hc; [|done].
  destruct (Z.eqb_spec c 0) as [->|]; [cbn [negb]|done].
  destruct (InspectRequired_cases (zlen d) m) as [[? ->]|[Hm ->]]; [done|].
  intros [= <- <-]. do 3 (split; [done|]).
  destruct (split_zlen d k) as (head & d' & -> & Hh); [lia|].
  destruct d' as [|c' d']; [autorewrite with zlen in *; lia|].
  rewrite rd_app_at in Hc by done. injection Hc as ->.
  autorewrite with zlen in Hm.
  destruct (split_zlen d' (m - k - 1)) as (tail & rest & -> & Ht); [lia|].
  exists head, tail, rest. by rewrite <- app_assoc.
Qed.

Lemma InspectFixed_sound (st e : StreamState) (size m : Z) (r : RejectReason) (n : Z) :
  InspectFixed st e size m = mkDecision Complete r n ->
  st = e /\ n = m /\ r = NoReason /\ m <= size.
Proof.
  unfold InspectFixed.
  destruct (IsState st e) eqn:Hst; [apply IsState_true in Hst as ->|done]. cbn [negb].
  destruct (InspectRequired_cases size m) as [[? ->]|[Hm ->]]; [done|].
  by intros [= <- <-].
Qed.

Lemma zlen_1 {A} (l : list A) : zlen l = 1 -> exists x, l = [x].
Proof. destruct l as [|x [|y l]]; rewrite ?zlen_cons; [done|eauto|]. pose proof (zlen_nonneg l). lia. Qed.

Lemma zlen_0 {A} (l : list A) : zlen l = 0 -> l = [].
Proof. destruct l; [done|]. rewrite zlen_cons. pose proof (zlen_nonneg l). lia. Qed.

Lemma InspectFrame_sound (st : StreamState) (d : bytes) (r : RejectReason) (n : Z) :
  Forall is_byte d ->
  InspectFrame st (Some d) (zlen d) = Some (mkDecision Complete r n) ->
  exists f rest, d = f ++ rest /\ zlen f = n /\ WellFormedFrame st f.
Proof.
  intros Hd. unfold InspectFrame. destruct (Z.eqb_spec (zlen d) 0); [done|].
  destruct (rd d 0) as [b|] eqn:Hb; [|done].
  destruct d as [|b' d']; [done|]. injection Hb as ->.
  destruct (cmd_of_byte b) as [c|] eqn:Hc; [apply cmd_of_byte_Some in Hc as <-|done].
  assert (Hchallenge : c = CMD_AUTH_LOGON_CHALLENGE \/ c = CMD_AUTH_RECONNECT_CHALLENGE ->
    InspectChallenge st (cmd_code c :: d') (zlen (cmd_code c :: d')) = Some (mkDecision Complete r n) ->
    exists f rest, cmd_code c :: d' = f ++ rest /\ zlen f = n /\ WellFormedFrame st f).
  { intros Hcmd Hi. apply InspectChallenge_sound in Hi as
      (-> & b0 & err & lo & hi & prefix & login & rest & Heq & Hp & Hl & Hbody & Hn & ->); [|done].
    injection Heq as <- ->.
    exists ([cmd_code c; err; lo; hi] ++ prefix ++ [zlen login] ++ login), rest.
    split; [by rewrite <- !app_assoc|]. split; [autorewrite with zlen; lia|].
    by constructor. }
  assert (Hfixed : forall e m, 1 <= m ->
    InspectFixed st e (zlen (cmd_code c :: d')) m = mkDecision Complete r n ->
    st = e /\ exists body rest, cmd_code c :: d' = (cmd_code c :: body) ++ rest /\
      zlen body = m - 1 /\ zlen (cmd_code c :: body) = n).
  { intros e m Hm (-> & -> & -> & Hs)%InspectFixed_sound. split; [done|].
    rewrite zlen_cons in Hs. destruct (split_zlen d' (m - 1)) as (a & rest & -> & Ha); [lia|].
    exists a, rest. rewrite zlen_cons. repeat split; [done|lia]. }
  destruct c; try done; try (by apply Hchallenge; auto); intros Hi; size_consts;
    try (apply (inj Some) in Hi; apply Hfixed in Hi as (-> & body & rest & Heq & Hl & Hn); [|lia];
         eexists (_ :: body), rest; split; [exact Heq|split; [exact Hn|]];
         solve [constructor; lia | rewrite (zlen_0 body) by lia; constructor]).
  - apply InspectProof_sound in Hi as (-> & -> & -> & head & tail & rest & Heq & Hh & Ht); [|lia].
    destruct head as [|x head]; [done|]. injection Heq as <- Heq.
    apply zlen_1 in Ht as [flags ->]. rewrite zlen_cons in Hh.
    exists ([cmd_code CMD_AUTH_LOGON_PROOF] ++ head ++ [0; flags]), rest.
    split; [by cbn; rewrite Heq|]. split; [autorewrite with zlen; lia|]. constructor; lia.
  - apply InspectProof_sound in Hi as (-> & -> & -> & head & tail & rest & Heq & Hh & Ht); [|lia].
    destruct head as [|x head]; [done|]. injection Heq as <- Heq.
    apply zlen_0 in Ht as ->. rewrite zlen_cons in Hh.
    exists ([cmd_code CMD_AUTH_RECONNECT_PROOF] ++ head ++ [0]), rest.
    split; [by cbn; rewrite Heq|]. split; [autorewrite with zlen; lia|]. constructor; lia.
Qed.

Lemma InspectProof_accepts (e : StreamState) (head tail : bytes) (k m : Z) :
  zlen head = k -> zlen tail = m - k - 1 ->
  InspectProof e e (head ++ 0 :: tail) m k m = Some (mkDecision Complete NoReason m).
Proof.
  intros Hh Ht. pose proof (zlen_nonneg tail). unfold InspectProof.
  unfold IsState. rewrite bool_decide_eq_true_2 by done. cbn [negb].
  destruct (Z.leb_spec m k); [lia|]. rewrite rd_app_at by done. cbn [negb Z.eqb].
  destruct (InspectRequired_cases m m) as [[? _]|[_ ->]]; [lia|done].
Qed.

Lemma InspectFrame_accepts (st : StreamState) (f : bytes) :
  Forall is_byte f -> WellFormedFrame st f ->
  InspectFrame st (Some f) (zlen f) = Some (mkDecision Complete NoReason (zlen f)).
Proof.
  intros Hf Hw. unfold InspectFrame.
  destruct Hw as [cmd err lo hi prefix login Hcmd Hp Hl Hb Hn|mid flags Hm|mid Hm|u Hu| |o Ho| ];
    autorewrite with zlen; size_consts.
  - cbn [app] in *. pose proof (zlen_nonneg prefix).
    destruct (Z.eqb_spec (1 + (1 + (1 + (1 + 0))) + (zlen prefix + (1 + 0 + zlen login))) 0); [lia|].
    assert (is_byte lo /\ is_byte hi /\ is_byte (zlen login)) as (? & ? & ?).
    { rewrite !Forall_cons, Forall_app, Forall_cons in Hf. tauto. }
    replace (1 + (1 + (1 + (1 + 0))) + (zlen prefix + (1 + 0 + zlen login)))
      with (34 + zlen login) by lia.
    change (rd (cmd_code cmd :: err :: lo :: hi :: prefix ++ zlen login :: login) 0)
      with (Some (cmd_code cmd)).
    destruct Hcmd as [-> | ->]; cbn [cmd_of_byte]; by apply InspectChallenge_accepts.
  - rewrite Hm. change (75) with (1 + 0 + (72 + (1 + (1 + 0)))).
    apply (InspectProof_accepts LogonProof (_ :: mid) [flags] 73 75); [rewrite zlen_cons; lia|done].
  - rewrite Hm. apply (InspectProof_accepts ReconnectProof (_ :: mid) [] 57 58); [rewrite zlen_cons; lia|done].
  - by rewrite Hu.
  - done.
  - by rewrite Ho.
  - done.
Qed.

(** What a verdict promises about sizes: a complete frame is within the bytes
    received and at most 289 bytes long; an incomplete one names a size that is
    still missing bytes and that the pending buffer has room for. *)
Definition decision_bounds (size : Z) (dec : FrameDecision) : Prop :=
  match status dec with
  | Complete => 0 < frameSize dec <= size /\ frameSize dec <= 4 + 30 + 255
  | Incomplete => size < frameSize dec <= MaxPendingInput \/ size = 0
  | RejectFrame => frameSize dec = 0
  end.

Lemma InspectRequired_decision (size required : Z) :
  0 < required <= 289 -> decision_bounds size (InspectRequired size required).
Proof.
  intros Hr. unfold decision_bounds. size_consts.
  destruct (InspectRequired_cases size required) as [[? ->]|[? ->]]; cbn; lia.
Qed.

Lemma InspectChallenge_decision (st : StreamState) (d : bytes) (size : Z) dec :
  Forall is_byte d -> InspectChallenge st d size = Some dec -> decision_bounds size dec.
Proof.
  intros Hd. unfold InspectChallenge, decision_bounds. size_consts.
  destruct (negb _); [by intros [= <-]|].
  destruct (Z.ltb_spec size 4); [intros [= <-]; cbn; lia|].
  destruct (rd d 2) as [lo|], (rd d 3) as [hi|]; try done. cbv zeta.
  pose proof (wrap_range 16 (Z.lor lo (Z.shiftl hi 8)) ltac:(lia)) as Hw.
  destruct (_ <? 31) eqn:?; [by intros [= <-]|]. bool_facts.
  destruct (size <? _) eqn:?; [intros [= <-]; cbn [status frameSize]; bool_facts; lia|]. bool_facts.
  destruct (rd d _) as [al|] eqn:Hal; [|done]. apply rd_byte in Hal; [|done]. unfold is_byte in Hal.
  destruct (negb _) eqn:?; [by intros [= <-]|]. bool_facts.
  destruct (scan_nul _ _ _) as [[]|]; [by intros [= <-]| |done].
  intros [= <-]. cbn [status frameSize]. lia.
Qed.

Lemma InspectFrame_decision (st : StreamState) (d : bytes) (size : Z) dec :
  0 <= size -> Forall is_byte d ->
  InspectFrame st (Some d) size = Some dec -> decision_bounds size dec.
Proof.
  intros Hs Hd. unfold InspectFrame, InspectProof, InspectFixed.
  destruct (Z.eqb_spec size 0); [intros [= <-]; right; done|].
  destruct (rd d 0) as [b|]; [|done].
  destruct (cmd_of_byte b) as [[]|]; try (by intros [= <-]);
    try (by apply InspectChallenge_decision);
    (destruct (negb _); [by intros [= <-]|]);
    try (intros [= <-]; apply InspectRequired_decision; by size_consts).
  all: match goal with |- context [?s <=? ?k] => destruct (Z.leb_spec s k) end;
    [intros [= <-]; unfold decision_bounds; cbn [status frameSize]; size_consts; lia|];
    destruct (rd d _); [|done]; destruct (negb _); [by intros [= <-]|];
    intros [= <-]; apply InspectRequired_decision; by size_consts.
Qed.

Lemma CanAppendPending_spec (pending incoming : Z) :
  0 <= pending < 2 ^ 64 -> 0 <= incoming < 2 ^ 64 ->
  CanAppendPending pending incoming = true <-> pending + incoming <= MaxPendingInput.
Proof.
  intros Hp Hi. unfold CanAppendPending. size_consts.
  destruct (Z.leb_spec pending (4 + (2 ^ 16 - 1))); cbn [andb]; [|split; [done|lia]].
  rewrite wrap_small by lia. rewrite Z.leb_le. lia.
Qed.

(** ** Properties *)

(** [InspectFrame] is memory safe: whenever the buffer holds at least [size]
    bytes it returns a verdict without reading outside it, and the verdict depends
    on the first [size] bytes only. *)
Theorem InspectFrame_memory_safe (st : StreamState) (d : bytes) (size : Z) :
  0 <= size <= zlen d ->
  exists dec, InspectFrame st (Some d) size = Some dec /\
    forall tail, InspectFrame st (Some (take (Z.to_nat size) d ++ tail)) size = Some dec.
Proof.
  intros Hs. destruct (InspectFrame_total st d size Hs) as [dec Hdec].
  exists dec. split; [done|]. intros tail.
  rewrite InspectFrame_prefix by (rewrite zlen_take; lia).
  rewrite <- Hdec. rewrite <- (take_drop (Z.to_nat size) d) at 2.
  by rewrite InspectFrame_prefix by (rewrite zlen_take; lia).
Qed.

Lemma InspectFrame_memory_safe_witness :
  exists dec, InspectFrame Patch (Some [0x33; 1; 2; 3]) 4 = Some dec /\
    forall tail, InspectFrame Patch (Some ([0x33; 1; 2; 3] ++ tail)) 4 = Some dec.
Proof. apply (InspectFrame_memory_safe Patch [0x33; 1; 2; 3] 4). by vm_compute. Defined.

(** C19. The guard implements the wire grammar: it reports a complete frame of [n]
    bytes exactly when the received bytes start with a well-formed frame of the
    current state of that length. *)
Theorem InspectFrame_refines_grammar (st : StreamState) (d : bytes) (n : Z) :
  Forall is_byte d ->
  InspectFrame st (Some d) (zlen d) = Some (mkDecision Complete NoReason n) <->
  exists f rest, d = f ++ rest /\ zlen f = n /\ WellFormedFrame st f.
Proof.
  intros Hd. split; [by apply InspectFrame_sound|].
  intros (f & rest & -> & <- & Hw). apply Forall_app in Hd as [Hf _].
  pose proof (zlen_nonneg f). pose proof (zlen_nonneg rest).
  apply InspectFrame_mono with (size := zlen f); [rewrite zlen_app; lia| |done].
  rewrite InspectFrame_prefix by lia. by apply InspectFrame_accepts.
Qed.

Lemma InspectFrame_refines_grammar_witness :
  exists f rest, [0x34; 7] = f ++ rest /\ zlen f = 1 /\ WellFormedFrame Patch f.
Proof.
  apply (proj1 (InspectFrame_refines_grammar Patch [0x34; 7] 1 ltac:(repeat constructor; done))).
  reflexivity.
Defined.

(** Fragmentation does not matter: once the guard has reached a verdict other
    than "incomplete" on the bytes received so far, bytes that arrive later never
    change it. *)
Theorem InspectFrame_stable (st : StreamState) (d more : bytes) (dec : FrameDecision) :
  InspectFrame st (Some d) (zlen d) = Some dec -> status dec <> Incomplete ->
  InspectFrame st (Some (d ++ more)) (zlen (d ++ more)) = Some dec.
Proof.
  intros Hdec Hst. pose proof (zlen_nonneg d). pose proof (zlen_nonneg more).
  apply InspectFrame_mono with (size := zlen d); [rewrite zlen_app; lia| |done].
  by rewrite InspectFrame_prefix by lia.
Qed.

Lemma InspectFrame_stable_witness :
  InspectFrame Patch (Some ([0x32] ++ [1; 2])) (zlen ([0x32] ++ [1; 2])) =
  Some (mkDecision Complete NoReason 1).
Proof. apply (InspectFrame_stable Patch [0x32] [1; 2]); [reflexivity|done]. Defined.

(** C20. Every frame the guard is still waiting for fits: an "incomplete" verdict on
    a non-empty buffer asks for more bytes, and the pending limit admits
    exactly the bytes that are missing. *)
Theorem InspectFrame_incomplete_completable (st : StreamState) (d : bytes) (dec : FrameDecision) :
  Forall is_byte d -> d <> [] ->
  InspectFrame st (Some d) (zlen d) = Some dec -> status dec = Incomplete ->
  zlen d < frameSize dec /\ CanAppendPending (zlen d) (frameSize dec - zlen d) = true.
Proof.
  intros Hd Hne Hdec Hst. pose proof (zlen_nonneg d) as Hz.
  assert (zlen d <> 0) by (by intros ?%zlen_0).
  apply InspectFrame_decision in Hdec; [|done..]. unfold decision_bounds in Hdec.
  rewrite Hst in Hdec. destruct Hdec as [Hb|?]; [|done]. split; [lia|].
  unfold CanAppendPending. size_consts.
  rewrite wrap_small by lia. apply andb_true_iff. split; apply Z.leb_le; lia.
Qed.

Lemma InspectFrame_incomplete_completable_witness :
  zlen [0x00; 8; 0xff; 0xff] < 65539 /\
  CanAppendPending (zlen [0x00; 8; 0xff; 0xff]) (65539 - zlen [0x00; 8; 0xff; 0xff]) = true.
Proof.
  apply (InspectFrame_incomplete_completable Challenge [0x00; 8; 0xff; 0xff]
           (mkDecision Incomplete NoReason 65539));
    [repeat constructor; done|done|reflexivity|reflexivity].
Defined.

(** The pending-input limit is exact and free of overflow: for any two 64-bit
    sizes, an append is admitted if and only if the mathematical sum stays within
    the limit. *)
Theorem CanAppendPending_exact (pending incoming : Z) :
  0 <= pending < 2 ^ 64 -> 0 <= incoming < 2 ^ 64 ->
  CanAppendPending pending incoming = true <-> pending + incoming <= MaxPendingInput.
Proof. apply CanAppendPending_spec. Qed.

Lemma CanAppendPending_exact_witness :
  CanAppendPending (2 ^ 64 - 1) 1 = true <-> 2 ^ 64 - 1 + 1 <= MaxPendingInput.
Proof. apply (CanAppendPending_exact (2 ^ 64 - 1) 1); by vm_compute. Defined.

(** The authentication deadline: a timer started at [start] with [timeout]
    seconds expires at [now] exactly when the timeout is enabled and that many
    seconds have passed, a disabled or deactivated timer never expires, and with a
    32-bit timeout the deadline fits the clock's 64-bit nanosecond counter. *)
Theorem Deadline_behaviour (start timeout now : Z) :
  0 <= start < 2 ^ 62 -> 0 <= timeout < 2 ^ 31 ->
  (Deadline_expired (Deadline_new start timeout) now = true <->
     0 < timeout /\ start + timeout * ns_per_second <= now) /\
  Deadline_active (Deadline_new start timeout) = (0 <? timeout) /\
  Deadline_expired (Deadline_deactivate (Deadline_new start timeout)) now = false /\
  m_deadline (Deadline_new start timeout) < 2 ^ 63.
Proof.
  intros Hs Ht. unfold Deadline_expired, Deadline_new, ns_per_second. cbn.
  rewrite andb_true_iff, Z.ltb_lt, Z.leb_le. repeat split; lia || tauto.
Qed.

Lemma Deadline_behaviour_witness :
  (Deadline_expired (Deadline_new 5 30) 30000000005 = true <->
     0 < 30 /\ 5 + 30 * ns_per_second <= 30000000005) /\
  Deadline_active (Deadline_new 5 30) = (0 <? 30) /\
  Deadline_expired (Deadline_deactivate (Deadline_new 5 30)) 30000000005 = false /\
  m_deadline (Deadline_new 5 30) < 2 ^ 63.
Proof. apply (Deadline_behaviour 5 30 30000000005); by vm_compute. Defined.
