(* ===== verification/Layouts.v ===== *)
(** * The packed structures of the wire (src/Auth/AuthSocket.cpp, [#pragma pack(1)])

    A structure is the list of its fields with their widths in bytes; sizes and offsets are
    computed from it, as the compiler does for a packed structure. *)

From Stdlib Require Import String.
From stdpp Require Import strings.
From S2P Require Import Prelude ProtocolGuard.

Local Open Scope Z_scope.
Local Open Scope realmd_scope.

Definition Layout : Type := list (string * Z).

Definition sizeof (l : Layout) : Z := foldr (fun f n => f.2 + n) 0 l.

(** The offset of a field, [None] when there is none of that name. *)
Fixpoint find_field (l : Layout) (name : string) : option Z :=
  match l with
  | [] => None
  | (n, width) :: l' => if decide (n = name) then Some 0 else (Z.add width) <$> find_field l' name
  end.

Definition offsetof (l : Layout) (name : string) : Z := default (sizeof l) (find_field l name).

(** The bytes of a structure from those of its fields. *)
Definition pack (l : Layout) (fields : list bytes) : bytes :=
  concat (zip_with (fun f v => take (Z.to_nat f.2) v) l fields).

Definition sAuthLogonChallenge_C : Layout :=
  [ ("cmd", 1); ("error", 1); ("size", 2); ("gamename", 4); ("version1", 1); ("version2", 1);
    ("version3", 1); ("build", 2); ("platform", 4); ("os", 4); ("country", 4);
    ("timezone_bias", 4); ("ip", 4); ("I_len", 1); ("I", 1) ]%string.

Definition sAuthLogonProof_C : Layout :=
  [ ("cmd", 1); ("A", 32); ("M1", 20); ("crc_hash", 20); ("number_of_keys", 1);
    ("securityFlags", 1) ]%string.

Definition sAuthLogonProof_S : Layout :=
  [ ("cmd", 1); ("error", 1); ("M2", 20); ("accountFlags", 4); ("surveyId", 4);
    ("unkFlags", 2) ]%string.

Definition sAuthLogonProof_S_BUILD_6005 : Layout :=
  [ ("cmd", 1); ("error", 1); ("M2", 20); ("unk2", 4) ]%string.

Definition sAuthReconnectProof_C : Layout :=
  [ ("cmd", 1); ("R1", 16); ("R2", 20); ("R3", 20); ("number_of_keys", 1) ]%string.

Definition XFER_INIT : Layout :=
  [ ("cmd", 1); ("fileNameLen", 1); ("fileName", 5); ("file_size", 8); ("md5", 16) ]%string.

(** Every field has its width. *)
Definition fits (l : Layout) (fields : list bytes) : Prop := Forall2 (fun f v => f.2 = zlen v) l fields.

Lemma pack_app (l1 l2 : Layout) (f1 f2 : list bytes) :
  length l1 = length f1 -> pack (l1 ++ l2) (f1 ++ f2) = pack l1 f1 ++ pack l2 f2.
Proof. intros Hl. unfold pack. by rewrite zip_with_app, concat_app. Qed.

Lemma pack_cons (f : string * Z) (b : bytes) (l : Layout) (fields : list bytes) :
  f.2 = zlen b -> pack (f :: l) (b :: fields) = b ++ pack l fields.
Proof. intros Hf. unfold pack. cbn. rewrite Hf. unfold zlen. by rewrite Nat2Z.id, firstn_all. Qed.

(** A packed structure has the size of its layout, *)
Lemma pack_length (l : Layout) (fields : list bytes) : fits l fields -> zlen (pack l fields) = sizeof l.
Proof.
  induction 1 as [|f b l fields Hf Hl IH]; [done|]. rewrite pack_cons, zlen_app, IH, <- Hf by done. done.
Qed.

Lemma find_field_at (l1 l2 : Layout) (name : string) (width : Z) :
  name ∉ l1.*1 -> find_field (l1 ++ (name, width) :: l2) name = Some (sizeof l1).
Proof.
  induction l1 as [|[n v] l1 IH]; cbn; intros Hn; [by rewrite decide_True|].
  apply not_elem_of_cons in Hn as [Hne Hn]. rewrite decide_False by done. by rewrite IH.
Qed.

(** and the bytes at the offset of a field are that field. *)
Lemma pack_field (l1 l2 : Layout) (name : string) (width : Z) (f1 f2 : list bytes) (b : bytes) :
  name ∉ l1.*1 -> fits l1 f1 -> width = zlen b ->
  rds (pack (l1 ++ (name, width) :: l2) (f1 ++ b :: f2)) (offsetof (l1 ++ (name, width) :: l2) name) width = Some b.
Proof.
  intros Hn Hf ->. unfold offsetof. rewrite find_field_at by done. cbn.
  rewrite pack_app, pack_cons, <- (pack_length _ _ Hf) by (done || by eapply Forall2_length). apply rds_at.
Qed.

(** The [static_assert]s of the source. *)
Definition static_asserts : bool :=
  (sizeof sAuthLogonChallenge_C =? AuthChallengeHeaderSize + AuthChallengeMinimumBodySize) &&
  (sizeof sAuthLogonProof_C =? AuthLogonProofSize) &&
  (sizeof sAuthReconnectProof_C =? AuthReconnectProofSize).

(** They hold, and so does what the source does not assert: the counters that the protocol
    guard looks at by number are the fields of these structures. *)
Lemma layouts_match_guard :
  static_asserts = true /\
  ChallengeAccountLengthOffset = offsetof sAuthLogonChallenge_C "I_len" /\
  ChallengeAccountDataOffset = offsetof sAuthLogonChallenge_C "I" /\
  LogonProofKeyCountOffset = offsetof sAuthLogonProof_C "number_of_keys" /\
  ReconnectProofKeyCountOffset = offsetof sAuthReconnectProof_C "number_of_keys".
Proof. by vm_compute. Qed.
