(* ===== verification/PatchPolicy.v ===== *)
(** * Patch policy (src/Auth/PatchPolicy.{h,cpp})

    Which authenticated builds are offered an upgrade archive instead of a
    login, and the parser of the [Patch.ForceBuilds] setting. *)

From S2P Require Import Prelude.

Local Open Scope Z_scope.

Record PatchPolicy : Type := mkPatchPolicy {
  m_enabled : bool;
  m_forcedBuilds : gset Z
}.

(** [PatchPolicy() = default]. *)
Definition PatchPolicy_default : PatchPolicy := mkPatchPolicy true ∅.

Definition ShouldPatch (p : PatchPolicy) (build : Z) (supported : bool) : bool :=
  m_enabled p && (negb supported || bool_decide (build ∈ m_forcedBuilds p)).

(** The words that successive [tokens >> token] extract; [word] is what the
    extraction under way has accumulated. *)
Fixpoint istream_words (word s : bytes) : list bytes :=
  match s with
  | [] => match word with [] => [] | _ => [word] end
  | c :: s' =>
      if isspace c
      then match word with [] => istream_words [] s' | _ => word :: istream_words [] s' end
      else istream_words (word ++ [c]) s'
  end.

Inductive errc : Set := errc_ok | invalid_argument | result_out_of_range.

#[export] Instance errc_eq_dec : EqDecision errc.
Proof. solve_decision. Defined.

(** [std::from_chars(first, last, value)] for [std::uint32_t] in base ten: the
    error code, the offset of [ptr], and the new value of [value] (unchanged on
    error). *)
Definition from_chars (t : bytes) (value : Z) : errc * Z * Z :=
  match digit_prefix t with
  | [] => (invalid_argument, 0, value)
  | ds =>
      if 2 ^ 32 - 1 <? dec_val ds
      then (result_out_of_range, zlen ds, value)
      else (errc_ok, zlen ds, dec_val ds)
  end.

(** The loop over the tokens, with its early [return std::nullopt]. *)
Fixpoint ParseTokens (policy : PatchPolicy) (tokens : list bytes) : option PatchPolicy :=
  match tokens with
  | [] => Some policy
  | token :: tokens' =>
      let '(ec, ptr, build) := from_chars token 0 in
      if negb (bool_decide (ec = errc_ok)) || negb (ptr =? zlen token) ||
         (build =? 0) || (2 ^ 16 - 1 <? build)
      then None
      else ParseTokens
             (mkPatchPolicy (m_enabled policy) ({[u16 build]} ∪ m_forcedBuilds policy))
             tokens'
  end.

Definition Parse (enabled : bool) (forcedBuilds : bytes) : option PatchPolicy :=
  ParseTokens (mkPatchPolicy enabled ∅) (istream_words [] forcedBuilds).

(** ** Specification

    A token names a build when it is a non-empty run of decimal digits whose
    value is a non-zero 16-bit number. *)

Definition names_build (t : bytes) : Prop :=
  t <> [] /\ Forall (fun c => is_digit c = true) t /\ 1 <= dec_val t <= 65535.

(** A setting text: builds in decimal, each followed by one blank. *)
Definition render_builds (builds : list Z) : bytes :=
  concat (map (fun b => to_string b ++ [32]) builds).

(** ** Lemmas *)

(** One iteration of the loop accepts a token exactly when it names a build. *)
Lemma ParseTokens_cons (p : PatchPolicy) (t : bytes) (ts : list bytes) :
  (names_build t /\
   ParseTokens p (t :: ts) =
   ParseTokens (mkPatchPolicy (m_enabled p) ({[dec_val t]} ∪ m_forcedBuilds p)) ts) \/
  (~ names_build t /\ ParseTokens p (t :: ts) = None).
Proof.
  cbn [ParseTokens]. unfold from_chars, names_build.
  destruct (digit_prefix t) as [|c ds] eqn:Hd.
  { right. split; [|done]. intros (Hne & Hf & _). apply digit_prefix_all in Hf. congruence. }
  destruct (Z.ltb_spec (2 ^ 32 - 1) (dec_val (c :: ds))).
  { right. split; [|done]. intros (_ & Hf & ?). apply digit_prefix_all in Hf.
    rewrite Hf in Hd. subst t. lia. }
  cbn [negb bool_decide]. rewrite bool_decide_eq_true_2 by done. cbn [negb orb].
  destruct (Z.eqb_spec (zlen (c :: ds)) (zlen t)) as [Hl|Hl]; cbn [negb orb].
  2: { right. split; [|done]. intros (_ & Hf & _). apply digit_prefix_all in Hf. congruence. }
  rewrite <- Hd in Hl. apply digit_prefix_whole in Hl.
  pose proof (digit_prefix_digits t) as Hds. rewrite Hl in Hd, Hds. subst t.
  destruct (Z.eqb_spec (dec_val (c :: ds)) 0); cbn [orb]; [right; split; [lia|done]|].
  destruct (Z.ltb_spec (2 ^ 16 - 1) (dec_val (c :: ds))); [right; split; [lia|done]|].
  assert (0 <= dec_val (c :: ds)).
  { assert (Hp : forall l a, Forall (fun c => is_digit c = true) l -> 0 <= a ->
      0 <= fold_left (fun acc c => 10 * acc + (c - 48)) l a).
    { induction l as [|x l IH]; intros a Hl' Ha; [done|]. cbn [fold_left].
      apply Forall_cons in Hl' as [Hx%is_digit_spec Hl']. apply IH; [done|lia]. }
    by apply Hp. }
  left. split; [repeat split; (done || lia)|]. by rewrite wrap_small by lia.
Qed.

Lemma ParseTokens_spec (p q : PatchPolicy) (ts : list bytes) :
  ParseTokens p ts = Some q <->
  Forall names_build ts /\
  q = mkPatchPolicy (m_enabled p) (list_to_set (map dec_val ts) ∪ m_forcedBuilds p).
Proof.
  revert p; induction ts as [|t ts IH]; intros p.
  - cbn. rewrite (left_id_L ∅ (∪)). destruct p; cbn. split; [intros [= <-]; auto|].
    by intros [_ ->].
  - rewrite Forall_cons. destruct (ParseTokens_cons p t ts) as [[Ht ->]|[Ht ->]];
      [|split; [done|tauto]].
    rewrite IH. cbn [m_enabled m_forcedBuilds map list_to_set].
    rewrite (assoc_L (∪)), (comm_L (∪) (list_to_set _) {[_]}). tauto.
Qed.

Lemma istream_words_word (w rest : bytes) :
  Forall (fun c => is_digit c = true) w ->
  forall acc, acc ++ w <> [] ->
  istream_words acc (w ++ 32 :: rest) = (acc ++ w) :: istream_words [] rest.
Proof.
  induction 1 as [|c w Hc Hw IH]; intros acc Hne.
  - rewrite app_nil_r in *. by destruct acc.
  - apply is_digit_spec in Hc. cbn [app istream_words].
    replace (isspace c) with false
      by (symmetry; unfold isspace; apply orb_false_iff; rewrite Z.eqb_neq, andb_false_iff, !Z.leb_gt; lia).
    rewrite IH by (destruct acc; done). by rewrite <- app_assoc.
Qed.

Lemma istream_words_render (builds : list Z) :
  istream_words [] (render_builds builds) = map to_string builds.
Proof.
  induction builds as [|b bs IH]; [done|].
  unfold render_builds. cbn [map concat]. rewrite <- app_assoc. cbn [app].
  rewrite (istream_words_word _ _ (to_string_digits b) []) by apply to_string_nonempty.
  unfold render_builds in IH. by rewrite IH.
Qed.

(** ** Properties *)

(** C40. [Parse] implements the documented setting: it succeeds exactly when every
    whitespace-separated token names a 16-bit non-zero build, and then the policy
    holds the given switch and precisely the named builds. *)
Theorem Parse_spec (enabled : bool) (text : bytes) (p : PatchPolicy) :
  Parse enabled text = Some p <->
  Forall names_build (istream_words [] text) /\
  p = mkPatchPolicy enabled (list_to_set (map dec_val (istream_words [] text))).
Proof.
  unfold Parse. rewrite ParseTokens_spec. cbn.
  by rewrite (right_id_L ∅ (∪)).
Qed.

(** Round trip: a setting rendered from any list of valid builds parses back to
    the policy that forces exactly those builds; a supported build is then patched
    if and only if patching is enabled and the build is listed. *)
Theorem Parse_render (enabled : bool) (builds : list Z) (build : Z) :
  Forall (fun b => 1 <= b <= 65535) builds ->
  exists p, Parse enabled (render_builds builds) = Some p /\
    (ShouldPatch p build true = true <-> enabled = true /\ build ∈ builds) /\
    ShouldPatch p build false = enabled.
Proof.
  intros Hb.
  assert (Hv : map dec_val (map to_string builds) = builds).
  { induction Hb as [|b bs H Hb IH]; [done|]. cbn [map]. rewrite IH, to_string_val by lia. done. }
  exists (mkPatchPolicy enabled (list_to_set builds)). split.
  - unfold Parse. rewrite ParseTokens_spec, istream_words_render. split.
    + clear Hv. induction Hb as [|b bs H Hb IH]; cbn [map]; constructor; [|done].
      split; [apply to_string_nonempty|]. split; [apply to_string_digits|].
      rewrite to_string_val; lia.
    + rewrite Hv. cbn. by rewrite (right_id_L ∅ (∪)).
  - unfold ShouldPatch. cbn [m_enabled m_forcedBuilds negb orb].
    rewrite andb_true_r, andb_true_iff, bool_decide_eq_true, elem_of_list_to_set. done.
Qed.

Lemma Parse_render_witness :
  exists p, Parse true (render_builds [5875; 6005]) = Some p /\
    (ShouldPatch p 6005 true = true <-> true = true /\ 6005 ∈ [5875; 6005]) /\
    ShouldPatch p 6005 false = true.
Proof. apply (Parse_render true [5875; 6005] 6005). repeat constructor; lia. Defined.

Example Parse_rejects_zero : Parse true (str "0") = None.
Proof. vm_compute. reflexivity. Qed.

Example Parse_rejects_wide : Parse true (str "65536") = None.
Proof. vm_compute. reflexivity. Qed.

Example Parse_rejects_suffix : Parse true (str "5875x") = None.
Proof. vm_compute. reflexivity. Qed.
