(* ===== verification/ClientLocale.v ===== *)
(** * Client locale claim (src/Auth/ClientLocale.{h,cpp})

    The reversed four-byte locale field of an authentication challenge. *)

From S2P Require Import Prelude.

Local Open Scope Z_scope.

(** The range tests hold of the same bytes whether [char] is signed or not: both
    ranges lie within 0..127. *)
Definition is_lower (c : Z) : bool := (97 <=? c) && (c <=? 122).
Definition is_upper (c : Z) : bool := (65 <=? c) && (c <=? 90).

Definition canonical (locale : bytes) : bool :=
  match locale with
  | [l0; l1; l2; l3] => is_lower l0 && is_lower l1 && is_upper l2 && is_upper l3
  | _ => false
  end.

Definition ParseClientLocaleClaim (wireLocale : bytes) : option bytes :=
  if negb (zlen wireLocale =? 4) then None else
  let locale := reverse wireLocale in
  if canonical locale then Some locale else None.

(** ASCII letters: what a syntax-validated locale consists of. *)
Definition is_letter (c : Z) : Prop := 65 <= c <= 90 \/ 97 <= c <= 122.

Lemma canonical_length (l : bytes) : canonical l = true -> length l = 4%nat.
Proof. by destruct l as [|? [|? [|? [|? [|? ?]]]]]. Qed.

Lemma canonical_letters (l : bytes) : canonical l = true -> Forall is_letter l.
Proof.
  destruct l as [|a [|b [|c [|d [|? ?]]]]]; try done. cbn. unfold is_lower, is_upper.
  intros H. bool_facts. repeat constructor; unfold is_letter; lia.
Qed.

(** What the parser returns, in terms of the wire bytes. *)
Lemma ParseClientLocaleClaim_Some (w l : bytes) :
  ParseClientLocaleClaim w = Some l <-> canonical l = true /\ w = reverse l.
Proof.
  unfold ParseClientLocaleClaim.
  destruct (Z.eqb_spec (zlen w) 4) as [Hw|Hw]; cbn [negb].
  - destruct (canonical (reverse w)) eqn:Hc.
    + split; [intros [= <-]; by rewrite reverse_involutive|].
      intros [_ ->]. by rewrite reverse_involutive.
    + split; [done|]. intros [Hl ->]. rewrite reverse_involutive in Hc. congruence.
  - split; [done|]. intros [Hl%canonical_length ->]. unfold zlen in Hw.
    rewrite length_reverse in Hw. lia.
Qed.



Example ParseClientLocaleClaim_wire : ParseClientLocaleClaim (str "NChz") = Some (str "zhCN").
Proof. reflexivity. Qed.

Example ParseClientLocaleClaim_quote : ParseClientLocaleClaim (str "SU'X") = None.
Proof. reflexivity. Qed.
