(* ===== verification/ClientBuild.v ===== *)
(** * Client builds (src/Realm/ClientBuildPolicy.{h,cpp},
    src/Auth/AuthResultPolicy.cpp and the build types of src/Realm/RealmSnapshot.h)

    The table of supported builds, its lookups, and the result code a locked
    account gets. *)

From S2P Require Import Prelude AuthCodes.

Local Open Scope Z_scope.

Record RealmBuildInfo : Set := mkBuildInfo {
  build : Z;
  major_version : Z;
  minor_version : Z;
  bugfix_version : Z;
  hotfix_version : Z
}.

Inductive RealmVersion : Set :=
| REALM_VERSION_VANILLA
| REALM_VERSION_TBC
| REALM_VERSION_WOTLK
| REALM_VERSION_CATA
| REALM_VERSION_MOP
| REALM_VERSION_WOD
| REALM_VERSION_LEGION
| REALM_VERSION_BFA
| REALM_VERSION_SHADOWLANDS.

#[export] Instance RealmVersion_eq_dec : EqDecision RealmVersion.
Proof. solve_decision. Defined.

(** The enumerators' values index [realmsByVersion]. *)
Definition version_index (v : RealmVersion) : Z :=
  match v with
  | REALM_VERSION_VANILLA => 0
  | REALM_VERSION_TBC => 1
  | REALM_VERSION_WOTLK => 2
  | REALM_VERSION_CATA => 3
  | REALM_VERSION_MOP => 4
  | REALM_VERSION_WOD => 5
  | REALM_VERSION_LEGION => 6
  | REALM_VERSION_BFA => 7
  | REALM_VERSION_SHADOWLANDS => 8
  end.

Definition REALM_VERSION_COUNT : Z := 9.

Record ClientBuildPolicy : Set := mkBuildPolicy {
  buildInfo : RealmBuildInfo;
  realmVersion : RealmVersion
}.

(** [' '] is 32 and ['a'] is 97. *)
Definition SupportedClientBuilds : list ClientBuildPolicy :=
  [ mkBuildPolicy (mkBuildInfo 40000 9 0 0 32) REALM_VERSION_SHADOWLANDS;
    mkBuildPolicy (mkBuildInfo 35662 8 3 7 32) REALM_VERSION_BFA;
    mkBuildPolicy (mkBuildInfo 26972 7 3 5 32) REALM_VERSION_LEGION;
    mkBuildPolicy (mkBuildInfo 21742 6 2 4 32) REALM_VERSION_WOD;
    mkBuildPolicy (mkBuildInfo 18414 5 4 8 32) REALM_VERSION_MOP;
    mkBuildPolicy (mkBuildInfo 18273 5 4 8 32) REALM_VERSION_MOP;
    mkBuildPolicy (mkBuildInfo 15595 4 3 4 32) REALM_VERSION_CATA;
    mkBuildPolicy (mkBuildInfo 12340 3 3 5 97) REALM_VERSION_WOTLK;
    mkBuildPolicy (mkBuildInfo 8606 2 4 3 32) REALM_VERSION_TBC;
    mkBuildPolicy (mkBuildInfo 6141 1 12 3 32) REALM_VERSION_VANILLA;
    mkBuildPolicy (mkBuildInfo 6005 1 12 2 32) REALM_VERSION_VANILLA;
    mkBuildPolicy (mkBuildInfo 5875 1 12 1 32) REALM_VERSION_VANILLA ].

(** The range-for over the table; [None] is [nullptr]. *)
Fixpoint FindInTable (table : list ClientBuildPolicy) (b : Z) : option ClientBuildPolicy :=
  match table with
  | [] => None
  | policy :: table' =>
      if u32 (build (buildInfo policy)) =? b then Some policy else FindInTable table' b
  end.

Definition FindClientBuildPolicy (b : Z) : option ClientBuildPolicy :=
  FindInTable SupportedClientBuilds b.

Definition FindBuildInfo (b : Z) : option RealmBuildInfo :=
  match FindClientBuildPolicy b with
  | Some policy => Some (buildInfo policy)
  | None => None
  end.

Definition LockedAccountResultForBuild (b : Z) : AuthResult :=
  match FindClientBuildPolicy b with
  | None => WOW_FAIL_DB_BUSY
  | Some policy =>
      if bool_decide (realmVersion policy = REALM_VERSION_VANILLA)
      then WOW_FAIL_DB_BUSY
      else WOW_FAIL_LOCKED_ENFORCED
  end.

(** ** Lemmas *)

Definition supported_numbers : list Z :=
  map (fun p => build (buildInfo p)) SupportedClientBuilds.

Lemma FindInTable_Some (table : list ClientBuildPolicy) (b : Z) (p : ClientBuildPolicy) :
  Forall (fun q => 0 <= build (buildInfo q) < 2 ^ 32) table ->
  NoDup (map (fun q => build (buildInfo q)) table) ->
  FindInTable table b = Some p <-> p ∈ table /\ build (buildInfo p) = b.
Proof.
  induction table as [|q table IH]; intros Hr Hd; cbn [FindInTable].
  - split; [done|]. intros [?%not_elem_of_nil _]. done.
  - apply Forall_cons in Hr as [Hq Hr]. cbn [map] in Hd. apply NoDup_cons in Hd as [Hn Hd].
    rewrite elem_of_cons, wrap_small by lia.
    destruct (Z.eqb_spec (build (buildInfo q)) b) as [<-|Hne].
    + split; [intros [= <-]; auto|]. intros [[->|Hp] Hb]; [done|].
      exfalso. apply Hn. rewrite <- Hb. by apply (list_elem_of_fmap_2 (fun q => build (buildInfo q))).
    + rewrite IH by done. split; [tauto|]. intros [[->|?] ?]; [done|tauto].
Qed.

Lemma SupportedClientBuilds_ok :
  Forall (fun q => 0 <= build (buildInfo q) < 2 ^ 16) SupportedClientBuilds /\
  NoDup supported_numbers.
Proof.
  split; [repeat constructor; cbn; lia|].
  apply (bool_decide_unpack _). vm_compute. exact I.
Qed.

Lemma FindClientBuildPolicy_Some (b : Z) (p : ClientBuildPolicy) :
  FindClientBuildPolicy b = Some p <-> p ∈ SupportedClientBuilds /\ build (buildInfo p) = b.
Proof.
  destruct SupportedClientBuilds_ok as [Hr Hd].
  apply FindInTable_Some; [|done].
  apply (Forall_impl _ _ _ Hr). cbn. lia.
Qed.

Lemma FindClientBuildPolicy_None (b : Z) :
  FindClientBuildPolicy b = None <-> b ∉ supported_numbers.
Proof.
  destruct (FindClientBuildPolicy b) as [p|] eqn:Hp.
  - apply FindClientBuildPolicy_Some in Hp as [Hp <-]. split; [done|].
    intros Hn. exfalso. apply Hn. by apply (list_elem_of_fmap_2 (fun q => build (buildInfo q))).
  - split; [|done]. intros _ (q & -> & Hq)%list_elem_of_fmap.
    assert (FindClientBuildPolicy (build (buildInfo q)) = Some q)
      by by apply FindClientBuildPolicy_Some.
    congruence.
Qed.

Lemma supported_numbers_u16 (b : Z) : b ∈ supported_numbers -> 0 < b < 2 ^ 16.
Proof.
  intros (q & -> & Hq)%list_elem_of_fmap.
  assert (H : Forall (fun q => 0 < build (buildInfo q) < 2 ^ 16) SupportedClientBuilds)
    by (repeat constructor; cbn; lia).
  rewrite Forall_forall in H. by apply H.
Qed.

Lemma version_index_inj (v v' : RealmVersion) : version_index v = version_index v' -> v = v'.
Proof. by destruct v, v'. Qed.

Lemma version_index_range (v : RealmVersion) : 0 <= version_index v < REALM_VERSION_COUNT.
Proof. by destruct v. Qed.

(** ** Properties *)

(** Build lookup is exact: a policy is found for a build number if and only if
    the table lists that build, it is the only entry with that number, and the
    16-bit lookup [FindBuildInfo] agrees with it on every 32-bit number (no listed
    build is changed by the narrowing). *)
Theorem FindClientBuildPolicy_exact (b : Z) :
  0 <= b < 2 ^ 32 ->
  (forall p, FindClientBuildPolicy b = Some p <->
     p ∈ SupportedClientBuilds /\ build (buildInfo p) = b) /\
  (forall p q, p ∈ SupportedClientBuilds -> q ∈ SupportedClientBuilds ->
     build (buildInfo p) = build (buildInfo q) -> p = q) /\
  (forall p, FindClientBuildPolicy b = Some p ->
     u16 b = b /\ FindBuildInfo (u16 b) = Some (buildInfo p)).
Proof.
  intros Hb. split; [apply FindClientBuildPolicy_Some|]. split.
  - intros p q Hp Hq He.
    assert (H1 : FindClientBuildPolicy (build (buildInfo q)) = Some p)
      by by apply FindClientBuildPolicy_Some.
    assert (H2 : FindClientBuildPolicy (build (buildInfo q)) = Some q)
      by by apply FindClientBuildPolicy_Some.
    congruence.
  - intros p Hp. unfold FindBuildInfo.
    assert (Hs : b ∈ supported_numbers).
    { apply FindClientBuildPolicy_Some in Hp as [Hp <-]. by apply (list_elem_of_fmap_2 (fun q => build (buildInfo q))). }
    apply supported_numbers_u16 in Hs. rewrite wrap_small by lia. by rewrite Hp.
Qed.

Lemma FindClientBuildPolicy_exact_witness :
  u16 12340 = 12340 /\ FindBuildInfo (u16 12340) = Some (mkBuildInfo 12340 3 3 5 97).
Proof.
  apply (proj2 (proj2 (FindClientBuildPolicy_exact 12340 ltac:(lia)))
    (mkBuildPolicy (mkBuildInfo 12340 3 3 5 97) REALM_VERSION_WOTLK)).
  reflexivity.
Defined.

(** A login refused by the IP lock is answered with a code the client knows:
    [WOW_FAIL_LOCKED_ENFORCED] for the listed builds after vanilla, and
    [WOW_FAIL_DB_BUSY] for the vanilla builds and every unlisted build. *)
Theorem LockedAccountResultForBuild_codes (b : Z) :
  LockedAccountResultForBuild b =
    (if bool_decide (b ∈ supported_numbers) && negb (bool_decide (b ∈ [5875; 6005; 6141]))
     then WOW_FAIL_LOCKED_ENFORCED else WOW_FAIL_DB_BUSY).
Proof.
  unfold LockedAccountResultForBuild.
  destruct (FindClientBuildPolicy b) as [p|] eqn:Hp.
  - apply FindClientBuildPolicy_Some in Hp as [Hp <-].
    assert (H : Forall (fun q =>
      (if bool_decide (realmVersion q = REALM_VERSION_VANILLA)
       then WOW_FAIL_DB_BUSY else WOW_FAIL_LOCKED_ENFORCED) =
      (if bool_decide (build (buildInfo q) ∈ supported_numbers) &&
          negb (bool_decide (build (buildInfo q) ∈ [5875; 6005; 6141]))
       then WOW_FAIL_LOCKED_ENFORCED else WOW_FAIL_DB_BUSY)) SupportedClientBuilds)
      by (repeat constructor).
    rewrite Forall_forall in H. by apply H.
  - apply FindClientBuildPolicy_None in Hp. by rewrite (bool_decide_eq_false_2 _ Hp).
Qed.
