(* ===== verification/RealmList.v ===== *)
(** * Realm list (src/Realm/RealmSnapshot.h, src/Realm/RealmList.{h,cpp})

    Realms read from the database, grouped by client version into an immutable
    snapshot that readers keep while a newer one is published, and the gate that
    lets one caller at a time refresh it.

    A [Realm const*] of [realmsByVersion] points into the node of [realms] that
    holds the realm, so it is modelled by that node's key and dereferenced in the
    snapshot: later writes to the realm are seen through the pointer. *)

From S2P Require Import Prelude ClientBuild.

Local Open Scope Z_scope.
Local Open Scope realmd_scope.

(** ** Data *)

Record RealmAddress : Set := mkAddress {
  ip : Z;
  port : Z;
  loopback : bool
}.

Definition RealmAddress_default : RealmAddress := mkAddress 0 0 false.

(** [populationLevel] is a [float] that is only stored and sent: its 32-bit
    pattern.  [realmbuilds] is the [std::set<uint32>]. *)
Record Realm : Type := mkRealm {
  name : bytes;
  ExternalAddress : RealmAddress;
  LocalAddress : RealmAddress;
  LocalSubnetMask : RealmAddress;
  icon : Z;
  realmflags : Z;
  timezone : Z;
  m_ID : Z;
  allowedSecurityLevel : Z;
  populationLevel : Z;
  realmbuilds : gset Z;
  realmBuildInfo : RealmBuildInfo
}.

#[export] Instance Realm_updatable : Updatable Realm :=
  Rebuild _ (fun r => mkRealm (name r) (ExternalAddress r) (LocalAddress r)
    (LocalSubnetMask r) (icon r) (realmflags r) (timezone r) (m_ID r)
    (allowedSecurityLevel r) (populationLevel r) (realmbuilds r) (realmBuildInfo r)).

(** What [realms[name]] value-initialises a new entry to. *)
Definition Realm_default : Realm :=
  mkRealm [] RealmAddress_default RealmAddress_default RealmAddress_default
    0 0 0 0 0 0 ∅ (mkBuildInfo 0 0 0 0 0).

Record RealmSnapshot : Type := mkSnapshot {
  realms : gmap bytes Realm;
  realmsByVersion : list (list bytes)
}.

Definition RealmSnapshot_empty : RealmSnapshot :=
  mkSnapshot ∅ (replicate (Z.to_nat REALM_VERSION_COUNT) []).

(** One row of the [realmlist] query, after the conversions of [Field]. *)
Record RealmRow : Type := mkRealmRow {
  row_id : Z;
  row_name : bytes;
  row_address : bytes;
  row_localAddress : bytes;
  row_localSubnetMask : bytes;
  row_port : Z;
  row_icon : Z;
  row_realmflags : Z;
  row_timezone : Z;
  row_allowedSecurityLevel : Z;
  row_population : Z;
  row_realmbuilds : bytes
}.

(** The flag masks, as the error message of [BuildSnapshot] spells them. *)
Definition REALM_FLAG_OFFLINE : Z := 0x02.
Definition REALM_FLAG_SPECIFYBUILD : Z := 0x04.
Definition REALM_FLAG_NEW_PLAYERS : Z := 0x20.
Definition REALM_FLAG_RECOMMENDED : Z := 0x40.

Definition AllowedFlags : Z :=
  Z.lor (Z.lor (Z.lor REALM_FLAG_OFFLINE REALM_FLAG_NEW_PLAYERS) REALM_FLAG_RECOMMENDED)
    REALM_FLAG_SPECIFYBUILD.

(** [*s.begin()]: the least element; [None] on an empty set. *)
Definition set_begin (s : gset Z) : option Z :=
  match elements s with
  | [] => None
  | x :: l => Some (fold_left Z.min l x)
  end.

(** [std::strtoul(s, NULL, 10)] with a 64-bit [unsigned long]. *)
Fixpoint skip_space (s : bytes) : bytes :=
  match s with
  | [] => []
  | c :: s' => if isspace c then skip_space s' else s
  end.

Definition strtoul (s : bytes) : Z :=
  let t := skip_space s in
  let '(neg, digits) :=
    match t with
    | 45 :: t' => (true, digit_prefix t')
    | 43 :: t' => (false, digit_prefix t')
    | _ => (false, digit_prefix t)
    end in
  let v := dec_val digits in
  if 2 ^ 64 - 1 <? v then 2 ^ 64 - 1 else if neg then u64 (- v) else v.

(** ** The code outside the repository that this component calls *)

Class RealmEnv : Type := {
  StrSplit : bytes -> bytes -> list bytes;
  (** [inet_pton] and [getaddrinfo], with the address in host order *)
  inet_pton : bytes -> option Z;
  getaddrinfo : bytes -> option Z;
  SEC_PLAYER : Z;
  SEC_ADMINISTRATOR : Z
}.

Section RealmList.
Context `{RE : RealmEnv}.

(** ** Operations *)

Definition ResolveRealmAddress (host : bytes) (port : Z) : RealmAddress :=
  let hostOrderIp :=
    match inet_pton host with
    | Some a => a
    | None => match getaddrinfo host with Some a => a | None => 0 end
    end in
  mkAddress hostOrderIp (u16 port) (Z.shiftr hostOrderIp 24 =? 127).

Definition BelongsToVersion (build : Z) : RealmVersion :=
  match FindClientBuildPolicy build with
  | Some policy => realmVersion policy
  | None => REALM_VERSION_VANILLA
  end.

(** [None]: dereferencing [begin()] of an empty set. *)
Definition AddRealmToBuildList (snapshot : RealmSnapshot) (realm : Realm)
    : option RealmSnapshot :=
  match set_begin (realmbuilds realm) with
  | None => None
  | Some buildNumber =>
      Some (mkSnapshot (realms snapshot)
        (alter (fun l => l ++ [name realm])
           (Z.to_nat (version_index (BelongsToVersion buildNumber)))
           (realmsByVersion snapshot)))
  end.

(** The [realmbuilds] loop. *)
Definition InsertBuilds (tokens : list bytes) (builds : gset Z) : gset Z :=
  fold_left (fun s token => {[u32 (strtoul token)]} ∪ s) tokens builds.

(** The assignments before the listing ... *)
Definition AssignRealm (realm : Realm) (ID : Z) (nm : bytes) (ic flags tz secLevel popu : Z)
    (builds : bytes) : Realm :=
  realm <| m_ID := ID |> <| name := nm |> <| icon := ic |> <| realmflags := flags |>
    <| timezone := tz |> <| allowedSecurityLevel := secLevel |>
    <| populationLevel := popu |>
    <| realmbuilds := InsertBuilds (StrSplit builds (str " ")) (realmbuilds realm) |>.

(** ... and those after it. *)
Definition FinishRealm (realm : Realm) (info : RealmBuildInfo)
    (address localAddr localSubmask : RealmAddress) : Realm :=
  realm <| realmBuildInfo := info |> <| ExternalAddress := address |>
    <| LocalAddress := localAddr |> <| LocalSubnetMask := localSubmask |>.

Definition UpdateRealm (snapshot : RealmSnapshot) (ID : Z) (nm : bytes)
    (address localAddr localSubmask : RealmAddress) (port : Z) (ic flags tz : Z)
    (secLevel popu : Z) (builds : bytes) : option RealmSnapshot :=
  let realm0 := default Realm_default (realms snapshot !! nm) in
  let realm1 := AssignRealm realm0 ID nm ic flags tz secLevel popu builds in
  let first_build := u16 (default 0 (set_begin (realmbuilds realm1))) in
  let stored := mkSnapshot (<[nm := realm1]> (realms snapshot)) (realmsByVersion snapshot) in
  match (if negb (first_build =? 0) then AddRealmToBuildList stored realm1 else Some stored) with
  | None => None
  | Some listed =>
      let info0 := mkBuildInfo first_build 0 0 0 32 in
      let info :=
        if negb (first_build =? 0) then
          match FindBuildInfo first_build with
          | Some bInfo => if build bInfo =? first_build then bInfo else info0
          | None => info0
          end
        else info0 in
      let realm2 := FinishRealm realm1 info address localAddr localSubmask in
      Some (mkSnapshot (<[nm := realm2]> (realms listed)) (realmsByVersion listed))
  end.

(** The body of the row loop. *)
Definition AddRow (snapshot : RealmSnapshot) (row : RealmRow) : option RealmSnapshot :=
  let externalAddr := ResolveRealmAddress (row_address row) (row_port row) in
  let localAddr := ResolveRealmAddress (row_localAddress row) (row_port row) in
  let submask := ResolveRealmAddress (row_localSubnetMask row) 0 in
  let flags :=
    if negb (Z.land (row_realmflags row) (Z.lnot AllowedFlags) =? 0)
    then Z.land (row_realmflags row) AllowedFlags
    else row_realmflags row in
  let level :=
    if row_allowedSecurityLevel row <=? SEC_ADMINISTRATOR
    then row_allowedSecurityLevel row else SEC_ADMINISTRATOR in
  UpdateRealm snapshot (row_id row) (row_name row) externalAddr localAddr submask
    (row_port row) (row_icon row) flags (row_timezone row) level
    (row_population row) (row_realmbuilds row).

Fixpoint AddRows (snapshot : RealmSnapshot) (rows : list RealmRow) : option RealmSnapshot :=
  match rows with
  | [] => Some snapshot
  | row :: rows' =>
      match AddRow snapshot row with
      | Some snapshot' => AddRows snapshot' rows'
      | None => None
      end
  end.

(** [rows] is the query's result; an empty result is the null [QueryResult*]. *)
Definition BuildSnapshot (rows : list RealmRow) : option RealmSnapshot :=
  AddRows RealmSnapshot_empty rows.

(** The realms a [RealmListView] iterates over. *)
Definition view_names (snapshot : RealmSnapshot) (version : RealmVersion) : list bytes :=
  default [] (realmsByVersion snapshot !! Z.to_nat (version_index version)).

Definition RealmListView (snapshot : RealmSnapshot) (version : RealmVersion) : list Realm :=
  omap (fun n => realms snapshot !! n) (view_names snapshot version).

Definition GetRealmsForBuild (snapshot : RealmSnapshot) (build : Z) : list Realm :=
  RealmListView snapshot (BelongsToVersion build).

(** ** The refresh gate

    [m_locked] is the state of the mutex: held by the caller whose refresh is
    running. *)

Record RealmRefreshGate : Set := mkGate {
  m_interval : Z;
  m_nextUpdate : Z;
  m_locked : bool
}.

Definition Gate_Reset (g : RealmRefreshGate) (interval nextUpdate : Z) : RealmRefreshGate :=
  mkGate interval nextUpdate (m_locked g).

(** [RunIfDue] up to the call of [refresh]: [None] is [return false], [Some] the
    gate with its lock held. *)
Definition RunIfDue_enter (g : RealmRefreshGate) (now : Z) : option RealmRefreshGate :=
  if m_locked g || (m_interval g =? 0) || (now <? m_nextUpdate g) then None
  else Some (mkGate (m_interval g) (now + m_interval g) true).

(** The end of [RunIfDue]: the lock is released. *)
Definition RunIfDue_leave (g : RealmRefreshGate) : RealmRefreshGate :=
  mkGate (m_interval g) (m_nextUpdate g) false.

Record RealmListState : Type := mkRealmList {
  m_snapshots : RealmSnapshot;
  m_refreshGate : RealmRefreshGate
}.

Definition Initialize (rows : list RealmRow) (updateInterval now : Z) (rl : RealmListState)
    : option RealmListState :=
  match BuildSnapshot rows with
  | Some snapshot =>
      Some (mkRealmList snapshot (Gate_Reset (m_refreshGate rl) updateInterval now))
  | None => None
  end.

Definition UpdateIfNeed (rows : list RealmRow) (now : Z) (rl : RealmListState)
    : option RealmListState :=
  match RunIfDue_enter (m_refreshGate rl) now with
  | None => Some rl
  | Some gate =>
      match BuildSnapshot rows with
      | Some snapshot => Some (mkRealmList snapshot (RunIfDue_leave gate))
      | None => None
      end
  end.

Definition RealmList_size (rl : RealmListState) : Z :=
  u32 (Z.of_nat (size (realms (m_snapshots rl)))).

(** ** Specification

    What a snapshot of rows with distinct names holds, stated without the update
    loop: every row as one realm, and each version's list the names of the rows of
    that version in the order of the query. *)

Definition row_builds (row : RealmRow) : gset Z :=
  list_to_set (map (fun t => u32 (strtoul t)) (StrSplit (row_realmbuilds row) (str " "))).

(** The build that decides where a realm is listed: the least one, at 16 bits;
    zero when there is none. *)
Definition first_build_of (builds : gset Z) : Z := u16 (default 0 (set_begin builds)).

Definition realm_of_row (row : RealmRow) : Realm :=
  mkRealm (row_name row)
    (ResolveRealmAddress (row_address row) (row_port row))
    (ResolveRealmAddress (row_localAddress row) (row_port row))
    (ResolveRealmAddress (row_localSubnetMask row) 0)
    (row_icon row) (Z.land (row_realmflags row) AllowedFlags) (row_timezone row)
    (row_id row) (Z.min (row_allowedSecurityLevel row) SEC_ADMINISTRATOR)
    (row_population row) (row_builds row)
    (default (mkBuildInfo (first_build_of (row_builds row)) 0 0 0 32)
       (FindBuildInfo (first_build_of (row_builds row)))).

Definition listed_version (builds : gset Z) : option RealmVersion :=
  if first_build_of builds =? 0 then None
  else BelongsToVersion <$> set_begin builds.

Definition rows_of_version (v : RealmVersion) (rows : list RealmRow) : list RealmRow :=
  filter (fun row => listed_version (row_builds row) = Some v) rows.

(** ** Lemmas *)

Lemma fold_min_spec (l : list Z) (x : Z) :
  (fold_left Z.min l x = x \/ fold_left Z.min l x ∈ l) /\
  fold_left Z.min l x <= x /\ Forall (fun y => fold_left Z.min l x <= y) l.
Proof.
  revert x; induction l as [|a l IH]; intros x; cbn [fold_left]; [by repeat split; [left|lia|]|].
  destruct (IH (Z.min x a)) as (Hin & Hle & Hall). rewrite Forall_cons, elem_of_cons.
  repeat split; [|lia..|done].
  destruct Hin as [->|?]; [|by auto]. destruct (Z.min_spec x a) as [[? ->]|[? ->]]; auto.
Qed.

Lemma set_begin_Some (s : gset Z) (m : Z) :
  set_begin s = Some m -> m ∈ s /\ forall x, x ∈ s -> m <= x.
Proof.
  unfold set_begin. destruct (elements s) as [|x l] eqn:He; [done|]. intros [= <-].
  destruct (fold_min_spec l x) as (Hin & Hle & Hall).
  assert (Hs : forall y, y ∈ s <-> y ∈ x :: l) by (intros y; by rewrite <- He, elem_of_elements).
  split.
  - apply Hs, elem_of_cons. tauto.
  - intros y [->|Hy]%Hs%elem_of_cons; [done|]. rewrite Forall_forall in Hall. by apply Hall.
Qed.

Lemma set_begin_None (s : gset Z) : set_begin s = None <-> s = ∅.
Proof.
  unfold set_begin. destruct (elements s) as [|x l] eqn:He.
  - by apply elements_empty_inv in He as ->%leibniz_equiv.
  - split; [done|]. intros ->. by rewrite elements_empty in He.
Qed.

Lemma InsertBuilds_spec (tokens : list bytes) (builds : gset Z) :
  InsertBuilds tokens builds = list_to_set (map (fun t => u32 (strtoul t)) tokens) ∪ builds.
Proof.
  unfold InsertBuilds. revert builds; induction tokens as [|t ts IH]; intros builds; cbn.
  - by rewrite (left_id_L ∅ (∪)).
  - by rewrite IH, (assoc_L (∪)), (comm_L (∪) (list_to_set _) {[_]}).
Qed.

Lemma mask_flags (f : Z) :
  (if negb (Z.land f (Z.lnot AllowedFlags) =? 0) then Z.land f AllowedFlags else f) =
  Z.land f AllowedFlags.
Proof.
  destruct (Z.eqb_spec (Z.land f (Z.lnot AllowedFlags)) 0) as [Hz|]; [|done]. cbn [negb].
  rewrite <- (Z.land_m1_r f) at 1. rewrite <- (Z.lor_lnot_diag AllowedFlags).
  by rewrite Z.land_lor_distr_r, Hz, Z.lor_0_r.
Qed.

Lemma FindBuildInfo_build (b : Z) (info : RealmBuildInfo) :
  FindBuildInfo b = Some info -> build info = b.
Proof.
  unfold FindBuildInfo. destruct (FindClientBuildPolicy b) as [p|] eqn:Hp; [|done].
  intros [= <-]. by apply FindClientBuildPolicy_Some in Hp as [_ ?].
Qed.

(** The version info a realm ends up with. *)
Lemma build_info_simpl (fb : Z) :
  (if negb (fb =? 0) then
     match FindBuildInfo fb with
     | Some bInfo => if build bInfo =? fb then bInfo else mkBuildInfo fb 0 0 0 32
     | None => mkBuildInfo fb 0 0 0 32
     end
   else mkBuildInfo fb 0 0 0 32) = default (mkBuildInfo fb 0 0 0 32) (FindBuildInfo fb).
Proof.
  destruct (Z.eqb_spec fb 0) as [->|]; [done|]. cbn [negb].
  destruct (FindBuildInfo fb) as [info|] eqn:Hi; [|done].
  apply FindBuildInfo_build in Hi as ->. by rewrite Z.eqb_refl.
Qed.

(** Adding a row whose name is new. *)
Lemma AddRow_fresh (s : RealmSnapshot) (row : RealmRow) :
  realms s !! row_name row = None ->
  AddRow s row = Some (mkSnapshot
    (<[row_name row := realm_of_row row]> (realms s))
    (match listed_version (row_builds row) with
     | Some v => alter (fun l => l ++ [row_name row]) (Z.to_nat (version_index v)) (realmsByVersion s)
     | None => realmsByVersion s
     end)).
Proof.
  intros Hnew. unfold AddRow, UpdateRealm. rewrite Hnew, mask_flags.
  change (default Realm_default None) with Realm_default. cbv zeta.
  set (realm1 := AssignRealm Realm_default _ _ _ _ _ _ _ _).
  assert (Hb : realmbuilds realm1 = row_builds row)
    by (unfold realm1; cbn; by rewrite InsertBuilds_spec, (right_id_L ∅ (∪))).
  rewrite build_info_simpl, Hb. fold (first_build_of (row_builds row)).
  replace (FinishRealm realm1 _ _ _ _) with (realm_of_row row).
  2: { unfold realm_of_row, realm1. rewrite <- Hb at 1.
       destruct (Z.leb_spec (row_allowedSecurityLevel row) SEC_ADMINISTRATOR);
         [rewrite Z.min_l by lia|rewrite Z.min_r by lia]; reflexivity. }
  assert (Hn : name realm1 = row_name row) by done.
  unfold listed_version, AddRealmToBuildList. rewrite Hb, Hn. clearbody realm1.
  destruct (Z.eqb_spec (first_build_of (row_builds row)) 0) as [Hz|Hz]; cbn [negb].
  - cbn [realms realmsByVersion]. by rewrite insert_insert_eq.
  - unfold first_build_of in Hz. destruct (set_begin (row_builds row)); [|by rewrite wrap_small in Hz].
    cbn [fmap option_fmap option_map realms realmsByVersion]. by rewrite insert_insert_eq.
Qed.

Lemma listed_version_Some (builds : gset Z) (v : RealmVersion) :
  listed_version builds = Some v <->
  exists b, b ∈ builds /\ (forall b', b' ∈ builds -> b <= b') /\
    u16 b <> 0 /\ BelongsToVersion b = v.
Proof.
  unfold listed_version, first_build_of. destruct (set_begin builds) as [m|] eqn:Hm.
  - apply set_begin_Some in Hm as [Hin Hle]. cbn [default fmap option_fmap option_map id].
    destruct (Z.eqb_spec (u16 m) 0) as [Hz|Hz].
    + split; [done|]. intros (b & Hb & Hmin & Hnz & _).
      assert (b = m) as -> by (apply Z.le_antisymm; auto). done.
    + split; [intros [= <-]; by exists m|]. intros (b & Hb & Hmin & _ & <-).
      by assert (b = m) as -> by (apply Z.le_antisymm; auto).
  - apply set_begin_None in Hm as ->. split; [by case_match|].
    by intros (b & ?%not_elem_of_empty & _).
Qed.

Lemma view_names_alter (m m' : gmap bytes Realm) (L : list (list bytes)) (n : bytes) (v0 v : RealmVersion) :
  length L = Z.to_nat REALM_VERSION_COUNT ->
  view_names (mkSnapshot m (alter (fun l => l ++ [n]) (Z.to_nat (version_index v0)) L)) v =
  view_names (mkSnapshot m' L) v ++ (if decide (v0 = v) then [n] else []).
Proof.
  intros HL. unfold view_names. cbn [realmsByVersion].
  pose proof (version_index_range v). pose proof (version_index_range v0).
  destruct (lookup_lt_is_Some_2 L (Z.to_nat (version_index v))) as [l Hl]; [lia|].
  case_decide as Hv.
  - subst v0. by rewrite list_lookup_alter, decide_True, Hl.
  - rewrite app_nil_r, list_lookup_alter_ne; [done|].
    intros He. apply Hv, version_index_inj. lia.
Qed.

(** The loop over rows with distinct, new names. *)
Lemma AddRows_spec (rows : list RealmRow) (s : RealmSnapshot) :
  length (realmsByVersion s) = Z.to_nat REALM_VERSION_COUNT ->
  NoDup (map row_name rows) ->
  (forall row, row ∈ rows -> realms s !! row_name row = None) ->
  exists s', AddRows s rows = Some s' /\
    length (realmsByVersion s') = Z.to_nat REALM_VERSION_COUNT /\
    (forall row, row ∈ rows -> realms s' !! row_name row = Some (realm_of_row row)) /\
    (forall n, n ∉ map row_name rows -> realms s' !! n = realms s !! n) /\
    (forall v, view_names s' v = view_names s v ++ map row_name (rows_of_version v rows)).
Proof.
  revert s; induction rows as [|row rows IH]; intros s HL Hd Hnew; cbn [AddRows map].
  { exists s. unfold rows_of_version. repeat split; try done; [by intros ? ?%not_elem_of_nil|].
    intros v. by rewrite app_nil_r. }
  cbn [map] in Hd. apply NoDup_cons in Hd as [Hn Hd].
  rewrite AddRow_fresh by (apply Hnew; left).
  destruct (IH (mkSnapshot (<[row_name row := realm_of_row row]> (realms s))
    (match listed_version (row_builds row) with
     | Some v => alter (fun l => l ++ [row_name row]) (Z.to_nat (version_index v)) (realmsByVersion s)
     | None => realmsByVersion s
     end))) as (s' & -> & HL' & Hin & Hout & Hv).
  - cbn [realmsByVersion]. destruct (listed_version _); [by rewrite length_alter|done].
  - done.
  - intros r Hr. cbn [realms]. rewrite lookup_insert_ne; [by apply Hnew; right|].
    intros He. apply Hn. rewrite He. by apply list_elem_of_fmap_2.
  - exists s'. split; [done|]. split; [done|]. split; [|split].
    + intros r [->|Hr]%elem_of_cons; [|by apply Hin]. rewrite Hout by done. apply lookup_insert_eq.
    + intros n [Hne Hn']%not_elem_of_cons. rewrite Hout by done. by apply lookup_insert_ne.
    + intros v. rewrite Hv. unfold rows_of_version. rewrite filter_cons.
      destruct (listed_version (row_builds row)) as [v0|] eqn:Hl.
      * rewrite (view_names_alter _ (realms s)) by done. destruct s as [m L]. cbn [realms realmsByVersion].
        rewrite <- app_assoc. f_equal.
        destruct (decide (v0 = v)) as [->|Hne]; [by rewrite decide_True|].
        by rewrite decide_False by congruence.
      * by rewrite decide_False by congruence.
Qed.

(** No row makes the update dereference an empty build set. *)
Lemma UpdateRealm_total (s : RealmSnapshot) ID nm address localAddr localSubmask port ic flags tz
    secLevel popu builds :
  is_Some (UpdateRealm s ID nm address localAddr localSubmask port ic flags tz secLevel popu builds).
Proof.
  unfold UpdateRealm. cbv zeta. set (realm1 := AssignRealm _ _ _ _ _ _ _ _ _).
  destruct (set_begin (realmbuilds realm1)) as [m|] eqn:Hb; cbn [default from_option id].
  - unfold AddRealmToBuildList. rewrite Hb. by destruct (negb _).
  - done.
Qed.

Lemma AddRows_total (rows : list RealmRow) (s : RealmSnapshot) : is_Some (AddRows s rows).
Proof.
  revert s; induction rows as [|row rows IH]; intros s; cbn [AddRows]; [done|].
  unfold AddRow. edestruct UpdateRealm_total as [s' ->]. apply IH.
Qed.

Lemma UpdateIfNeed_total (rows : list RealmRow) (now : Z) (rl : RealmListState) :
  is_Some (UpdateIfNeed rows now rl).
Proof.
  unfold UpdateIfNeed, BuildSnapshot. destruct (RunIfDue_enter _ _); [|done].
  by destruct (AddRows_total rows RealmSnapshot_empty) as [s ->].
Qed.

Lemma view_names_empty (v : RealmVersion) : view_names RealmSnapshot_empty v = [].
Proof. by destruct v. Qed.

Lemma BuildSnapshot_spec (rows : list RealmRow) :
  NoDup (map row_name rows) ->
  exists s, BuildSnapshot rows = Some s /\
    (forall row, row ∈ rows -> realms s !! row_name row = Some (realm_of_row row)) /\
    (forall n, n ∉ map row_name rows -> realms s !! n = None) /\
    (forall v, view_names s v = map row_name (rows_of_version v rows)).
Proof.
  intros Hd. destruct (AddRows_spec rows RealmSnapshot_empty) as (s & Hs & _ & Hin & Hout & Hv);
    [done|done|done|].
  exists s. split; [done|]. split; [done|]. split.
  - intros n Hn. by rewrite Hout.
  - intros v. by rewrite Hv, view_names_empty.
Qed.

(** The view of a version, dereferenced. *)
Lemma RealmListView_spec (rows : list RealmRow) (s : RealmSnapshot) (v : RealmVersion) :
  (forall row, row ∈ rows -> realms s !! row_name row = Some (realm_of_row row)) ->
  view_names s v = map row_name (rows_of_version v rows) ->
  RealmListView s v = map realm_of_row (rows_of_version v rows).
Proof.
  intros Hin Hv. unfold RealmListView. rewrite Hv.
  assert (Hsub : forall row, row ∈ rows_of_version v rows -> row ∈ rows)
    by (intros row [_ ?]%list_elem_of_filter; done).
  clear Hv. induction (rows_of_version v rows) as [|row l IH]; [done|]. cbn.
  rewrite (Hin row) by (apply Hsub; left). f_equal. apply IH. intros r Hr. apply Hsub. by right.
Qed.

Lemma listed_by_smallest (rows : list RealmRow) (row : RealmRow) (v : RealmVersion) :
  NoDup (map row_name rows) -> row ∈ rows ->
  row_name row ∈ map row_name (rows_of_version v rows) <->
  exists b, b ∈ row_builds row /\ (forall b', b' ∈ row_builds row -> b <= b') /\
    u16 b <> 0 /\ BelongsToVersion b = v.
Proof.
  intros Hd Hrow. rewrite list_elem_of_fmap, <- listed_version_Some. split.
  - intros (row' & He & [Hl Hr]%list_elem_of_filter).
    assert (row = row') as ->; [|done].
    apply list_elem_of_lookup in Hrow as [i Hi]. apply list_elem_of_lookup in Hr as [j Hj].
    assert (i = j) as ->; [|congruence].
    eapply (NoDup_lookup _ i j (row_name row) Hd); rewrite list_lookup_fmap, ?Hi, ?Hj; cbn; congruence.
  - intros Hl. exists row. split; [done|]. by apply list_elem_of_filter.
Qed.

End RealmList.

(** ** Properties *)

(** C38. A snapshot is a faithful image of the [realmlist] rows: for rows with distinct
    names the build succeeds, every row is stored as one realm with its flags
    reduced to the four permitted bits and its security level capped, nothing else
    is stored, and the list of a version enumerates, through pointers that all
    resolve, exactly the rows listed under that version, in query order.  A realm is listed
    by its numerically smallest build, whatever the order in which the builds are written,
    and only under the version of that build. *)
Theorem BuildSnapshot_image `{RealmEnv} (rows : list RealmRow) :
  NoDup (map row_name rows) ->
  exists s, BuildSnapshot rows = Some s /\
    (forall row, row ∈ rows -> realms s !! row_name row = Some (realm_of_row row)) /\
    (forall n, n ∉ map row_name rows -> realms s !! n = None) /\
    (forall v, RealmListView s v = map realm_of_row (rows_of_version v rows)) /\
    (forall row v, row ∈ rows ->
       row_name row ∈ view_names s v <->
       exists b, b ∈ row_builds row /\ (forall b', b' ∈ row_builds row -> b <= b') /\
         u16 b <> 0 /\ BelongsToVersion b = v).
Proof.
  intros Hd. destruct (BuildSnapshot_spec rows Hd) as (s & Hs & Hin & Hout & Hv).
  exists s. split_and!; [done..| |].
  - intros v. by apply RealmListView_spec.
  - intros row v Hrow. rewrite Hv. by apply listed_by_smallest.
Qed.

(** A concrete environment for the evaluations below: words split at single
    blanks, no name resolution. *)
Definition sample_RealmEnv : RealmEnv := {|
  StrSplit := fun s _ => fold_right (fun c acc =>
    if c =? 32 then [] :: acc else
    match acc with w :: ws => (c :: w) :: ws | [] => [[c]] end) [[]] s;
  inet_pton := fun _ => Some 0x0A000001;
  getaddrinfo := fun _ => None;
  SEC_PLAYER := 0;
  SEC_ADMINISTRATOR := 3
|}.

Definition sample_row (nm builds : bytes) (flags level : Z) : RealmRow :=
  mkRealmRow 1 nm (str "10.0.0.1") (str "10.0.0.1") (str "255.255.255.0") 8085 1 flags 1 level 0 builds.

Definition sample_rows : list RealmRow :=
  [sample_row (str "A") (str "8606 6141") 0xFF 200; sample_row (str "B") (str "8606") 0 0].

Lemma sample_rows_distinct : NoDup (map row_name sample_rows).
Proof. apply (bool_decide_unpack _). vm_compute. exact I. Qed.

Lemma BuildSnapshot_image_witness :
  exists s, BuildSnapshot (RE := sample_RealmEnv) sample_rows = Some s /\
    (forall row, row ∈ sample_rows ->
       realms s !! row_name row = Some (realm_of_row (RE := sample_RealmEnv) row)) /\
    (forall n, n ∉ map row_name sample_rows -> realms s !! n = None) /\
    (forall v, RealmListView s v =
       map (realm_of_row (RE := sample_RealmEnv)) (rows_of_version (RE := sample_RealmEnv) v sample_rows)) /\
    (forall row v, row ∈ sample_rows ->
       row_name row ∈ view_names s v <->
       exists b, b ∈ row_builds (RE := sample_RealmEnv) row /\
         (forall b', b' ∈ row_builds (RE := sample_RealmEnv) row -> b <= b') /\
         u16 b <> 0 /\ BelongsToVersion b = v).
Proof. apply (BuildSnapshot_image (H := sample_RealmEnv) sample_rows). apply sample_rows_distinct. Defined.

(** The example of the header comment ("8606 6141" makes a realm visible to TBC
    clients only) does not describe the code: however the two builds are split,
    such a realm is in the vanilla list and not in the TBC list. *)
Theorem header_example_is_vanilla `{RealmEnv} (row : RealmRow) :
  row_realmbuilds row = str "8606 6141" ->
  StrSplit (str "8606 6141") (str " ") = [str "8606"; str "6141"] ->
  exists s, BuildSnapshot [row] = Some s /\
    view_names s REALM_VERSION_VANILLA = [row_name row] /\ view_names s REALM_VERSION_TBC = [].
Proof.
  intros Hr Hsplit.
  assert (Hd : NoDup (map row_name [row])) by apply NoDup_singleton.
  destruct (BuildSnapshot_spec [row] Hd) as (s & Hs & _ & _ & Hv). exists s. split; [done|].
  assert (Hb : listed_version (row_builds row) = Some REALM_VERSION_VANILLA).
  { unfold row_builds. rewrite Hr, Hsplit. vm_compute. reflexivity. }
  rewrite !Hv. unfold rows_of_version. rewrite !filter_cons, Hb.
  by rewrite decide_True, decide_False.
Qed.

Lemma header_example_is_vanilla_witness :
  exists s, BuildSnapshot (RE := sample_RealmEnv) [sample_row (str "A") (str "8606 6141") 0 0] = Some s /\
    view_names s REALM_VERSION_VANILLA = [str "A"] /\ view_names s REALM_VERSION_TBC = [].
Proof.
  apply (header_example_is_vanilla (H := sample_RealmEnv) (sample_row (str "A") (str "8606 6141") 0 0));
    vm_compute; reflexivity.
Defined.

(** The gate admits a caller only when nobody refreshes and the refresh is due. *)
Lemma RunIfDue_enter_Some (g g' : RealmRefreshGate) (now : Z) :
  RunIfDue_enter g now = Some g' ->
  m_locked g = false /\ m_interval g <> 0 /\ m_nextUpdate g <= now /\
  g' = mkGate (m_interval g) (now + m_interval g) true.
Proof.
  unfold RunIfDue_enter. destruct (m_locked g); [done|].
  destruct (Z.eqb_spec (m_interval g) 0); [done|].
  destruct (Z.ltb_spec now (m_nextUpdate g)); [done|]. by intros [= <-].
Qed.
