(* ===== verification/SnapshotStore.v ===== *)
(** * The published realm list and its readers
    (src/Realm/RealmSnapshot.h: [RealmSnapshotStore], [RealmListView])

    A refresh publishes a new snapshot while network threads still iterate over old ones.
    The snapshots are owned by [std::shared_ptr]s: the control blocks and their counts are
    modelled, since a view holds a raw pointer into its snapshot. *)

From stdpp Require Import gmap.
From S2P Require Import Prelude ClientBuild RealmList.

Local Open Scope Z_scope.
Local Open Scope realmd_scope.

(** A snapshot on the heap with the number of [shared_ptr]s that own it. *)
Record Block : Type := mkBlock { b_snapshot : RealmSnapshot; b_count : nat }.

(** A view: the block it owns and the version list it points into. *)
Record View : Type := mkView { v_block : nat; v_version : RealmVersion }.

(** The heap, the store's member and the views that are alive. *)
Record Store : Type := mkStore {
  blocks : gmap nat Block;
  next_block : nat;
  m_snapshot : nat;
  views : gmap nat View;
  next_view : nat
}.

#[export] Instance Store_updatable : Updatable Store :=
  Rebuild _ (fun s => mkStore (blocks s) (next_block s) (m_snapshot s) (views s) (next_view s)).

(** ** Shared ownership *)

(** A copy of a [shared_ptr], and its destructor; [None] is the use of a freed block. *)
Definition acquire (b : nat) (s : Store) : option Store :=
  blk ← blocks s !! b;
  Some (s <| blocks := <[b := mkBlock (b_snapshot blk) (S (b_count blk))]> (blocks s) |>).

Definition drop_ref (b : nat) (s : Store) : option Store :=
  blk ← blocks s !! b;
  match b_count blk with
  | O => None
  | S O => Some (s <| blocks := delete b (blocks s) |>)
  | S n => Some (s <| blocks := <[b := mkBlock (b_snapshot blk) n]> (blocks s) |>)
  end.

(** ** The operations *)

Definition Store_new : Store := mkStore {[0%nat := mkBlock RealmSnapshot_empty 1]} 1 0 ∅ 0.

(** [GetRealmsForBuild]: [Load] copies the pointer, the view takes the copy over. *)
Definition OpenView (version : RealmVersion) (s : Store) : option (nat * Store) :=
  s' ← acquire (m_snapshot s) s;
  Some (next_view s, s' <| views := <[next_view s := mkView (m_snapshot s) version]> (views s) |>
                        <| next_view := S (next_view s) |>).

(** [make_shared] by the refresh, then [Publish]: the new pointer replaces the old one,
    which is released. *)
Definition Publish (snapshot : RealmSnapshot) (s : Store) : option Store :=
  let b := next_block s in
  drop_ref (m_snapshot s)
    (s <| blocks := <[b := mkBlock snapshot 1]> (blocks s) |> <| next_block := S b |> <| m_snapshot := b |>).

Definition CloseView (id : nat) (s : Store) : option Store :=
  v ← views s !! id;
  drop_ref (v_block v) (s <| views := delete id (views s) |>).

(** What iterating a view from [begin] to [end] sees, through the pointer it keeps. *)
Definition ReadView (id : nat) (s : Store) : option (list Realm) :=
  v ← views s !! id;
  blk ← blocks s !! v_block v;
  Some (RealmListView (b_snapshot blk) (v_version v)).

Definition View_size (id : nat) (s : Store) : option Z := zlen <$> ReadView id s.
Definition View_empty (id : nat) (s : Store) : option bool := (fun l => bool_decide (l = [])) <$> ReadView id s.

(** Threads load, publish and drop their views in any order. *)
Inductive store_step (s s' : Store) : Prop :=
| step_open version id : OpenView version s = Some (id, s') -> store_step s s'
| step_publish snapshot : Publish snapshot s = Some s' -> store_step s s'
| step_close id : CloseView id s = Some s' -> store_step s s'.

(** ** The invariant *)

Definition owns (b : nat) (p : nat * View) : Prop := v_block p.2 = b.

#[local] Instance owns_dec b p : Decision (owns b p).
Proof. unfold owns. apply _. Defined.

Definition views_of (b : nat) (vs : gmap nat View) : nat := size (filter (owns b) vs).

(** The pointers that own a block. *)
Definition owners (b : nat) (s : Store) : nat :=
  ((if decide (m_snapshot s = b) then 1 else 0) + views_of b (views s))%nat.

Record store_ok (s : Store) : Prop := {
  so_counts : forall b, match blocks s !! b with
    | Some blk => b_count blk = owners b s /\ (0 < b_count blk)%nat
    | None => owners b s = 0%nat
    end;
  so_blocks : forall b, (next_block s <= b)%nat -> blocks s !! b = None;
  so_views : forall id, (next_view s <= id)%nat -> views s !! id = None
}.

Lemma views_of_insert b vs id v :
  vs !! id = None -> views_of b (<[id := v]> vs) = (views_of b vs + if decide (v_block v = b) then 1 else 0)%nat.
Proof.
  intros Hid. unfold views_of. rewrite map_filter_insert. unfold owns at 1. cbn.
  repeat case_decide; try done.
  - rewrite map_size_insert_None; [lia|]. apply map_lookup_filter_None. by left.
  - rewrite delete_id by done. lia.
Qed.

Lemma views_of_delete b vs id v :
  vs !! id = Some v -> (views_of b (delete id vs) + if decide (v_block v = b) then 1 else 0)%nat = views_of b vs.
Proof.
  intros Hid. rewrite <- (insert_delete_id vs id v Hid) at 2. symmetry. apply views_of_insert, lookup_delete_eq.
Qed.

Lemma owner_alive s b : store_ok s -> owners b s <> 0%nat -> exists blk, blocks s !! b = Some blk.
Proof. intros Hok Ho. pose proof (so_counts s Hok b). destruct (blocks s !! b); [eauto|done]. Qed.

Lemma views_of_pos vs id v : vs !! id = Some v -> views_of (v_block v) vs <> 0%nat.
Proof. intros Hid. rewrite <- (views_of_delete _ _ _ _ Hid), decide_True by done. lia. Qed.

(** A block that gains or loses one owner. *)
Lemma drop_ref_run b s blk :
  blocks s !! b = Some blk -> (0 < b_count blk)%nat -> exists bs, drop_ref b s = Some (s <| blocks := bs |>) /\
    (forall b', b' <> b -> bs !! b' = blocks s !! b') /\
    (if decide (b_count blk = 1%nat) then bs !! b = None
     else bs !! b = Some (mkBlock (b_snapshot blk) (b_count blk - 1))).
Proof.
  intros Hb Hc. unfold drop_ref. rewrite Hb. cbn [mbind option_bind].
  destruct (b_count blk) as [|[|n]]; [lia| |]; eexists; (split; [reflexivity|]); split.
  - intros b' Hne. by rewrite lookup_delete_ne.
  - apply lookup_delete_eq.
  - intros b' Hne. by rewrite lookup_insert_ne.
  - rewrite decide_False by lia. cbn [Nat.sub]. by rewrite lookup_insert_eq.
Qed.

(** ** Every operation is defined and keeps the invariant *)

Lemma OpenView_run version s :
  store_ok s -> exists blk, blocks s !! m_snapshot s = Some blk /\
    OpenView version s = Some (next_view s,
      s <| blocks := <[m_snapshot s := mkBlock (b_snapshot blk) (S (b_count blk))]> (blocks s) |>
        <| views := <[next_view s := mkView (m_snapshot s) version]> (views s) |>
        <| next_view := S (next_view s) |>).
Proof.
  intros Hok. destruct (owner_alive s (m_snapshot s) Hok) as [blk Hb].
  { unfold owners. rewrite decide_True by done. lia. }
  exists blk. split; [done|]. unfold OpenView, acquire. rewrite Hb. by destruct s.
Qed.

Lemma OpenView_ok version s id s' : store_ok s -> OpenView version s = Some (id, s') -> store_ok s'.
Proof.
  intros Hok Ho. destruct (OpenView_run version s Hok) as (blk & Hb & Hr). rewrite Hr in Ho.
  injection Ho as <- <-. destruct Hok as [Hc Hnb Hnv].
  assert (Hnew : views s !! next_view s = None) by by apply Hnv.
  split; cbn.
  - intros b. specialize (Hc b). unfold owners in *. cbn. rewrite views_of_insert by done. cbn [v_block].
    destruct (decide (m_snapshot s = b)) as [<-|Hne].
    + rewrite Hb in Hc. rewrite lookup_insert_eq. cbn. lia.
    + rewrite lookup_insert_ne by done. by rewrite Nat.add_0_r.
  - intros b Hle. rewrite lookup_insert_ne; [by apply Hnb|]. intros <-. by rewrite Hnb in Hb.
  - intros id Hle. rewrite lookup_insert_ne by lia. apply Hnv. lia.
Qed.

(** Releasing one owner of [b] from a state whose counts are one too high for [b]. *)
Lemma drop_ref_ok b s :
  (forall b', match blocks s !! b' with
     | Some blk => b_count blk = (owners b' s + if decide (b' = b) then 1 else 0)%nat /\ (0 < b_count blk)%nat
     | None => (owners b' s + if decide (b' = b) then 1 else 0)%nat = 0%nat
     end) ->
  (forall b, (next_block s <= b)%nat -> blocks s !! b = None) ->
  (forall id, (next_view s <= id)%nat -> views s !! id = None) ->
  exists bs, drop_ref b s = Some (s <| blocks := bs |>) /\ store_ok (s <| blocks := bs |>) /\
    forall b' blk, bs !! b' = Some blk -> exists blk0, blocks s !! b' = Some blk0 /\ b_snapshot blk = b_snapshot blk0.
Proof.
  intros Hc Hnb Hnv. pose proof (Hc b) as Hb. rewrite decide_True in Hb by done.
  destruct (blocks s !! b) as [blk|] eqn:Eb; [|lia]. destruct Hb as [Hb Hpos].
  destruct (drop_ref_run b s blk Eb Hpos) as (bs & Hr & Hother & Hthis). exists bs. split; [done|]. split.
  - split; cbn; [|intros b' Hle|done].
    + intros b'. change (owners b' (s <| blocks := bs |>)) with (owners b' s). specialize (Hc b').
      destruct (decide (b' = b)) as [->|Hne].
      * rewrite Eb in Hc. case_decide; rewrite Hthis; cbn; lia.
      * rewrite (Hother b' Hne). destruct (blocks s !! b'); lia.
    + destruct (decide (b' = b)) as [->|Hne]; [by rewrite Hnb in Eb|]. rewrite Hother by done. by apply Hnb.
  - intros b' blk' Hb'. destruct (decide (b' = b)) as [->|Hne]; [|rewrite Hother in Hb' by done; eauto].
    exists blk. split; [done|]. case_decide; rewrite Hthis in Hb'; [done|]. by injection Hb' as <-.
Qed.

Lemma Publish_run snapshot s :
  store_ok s -> exists s', Publish snapshot s = Some s' /\ store_ok s' /\
    m_snapshot s' = next_block s /\ views s' = views s /\ next_view s' = next_view s /\
    (exists blk, blocks s' !! m_snapshot s' = Some blk /\ b_snapshot blk = snapshot) /\
    (forall b blk, b <> next_block s -> blocks s' !! b = Some blk ->
       exists blk0, blocks s !! b = Some blk0 /\ b_snapshot blk = b_snapshot blk0).
Proof.
  intros [Hc Hnb Hnv]. unfold Publish.
  set (s1 := s <| blocks := _ |> <| next_block := _ |> <| m_snapshot := _ |>).
  assert (Hnone : blocks s !! next_block s = None) by by apply Hnb.
  assert (Hz : views_of (next_block s) (views s) = 0%nat /\ m_snapshot s <> next_block s).
  { pose proof (Hc (next_block s)) as Hn. rewrite Hnone in Hn. unfold owners in Hn. case_decide; [lia|done]. }
  destruct Hz as [Hz Hne].
  destruct (drop_ref_ok (m_snapshot s) s1) as (bs & Hr & Hok & Hsame).
  - intros b. specialize (Hc b). unfold owners in *. cbn.
    destruct (decide (b = next_block s)) as [->|Hb].
    + rewrite lookup_insert_eq, Hz. cbn. repeat case_decide; lia || congruence.
    + rewrite lookup_insert_ne by done. destruct (blocks s !! b); repeat case_decide; lia || congruence.
  - intros b Hle. cbn in *. rewrite lookup_insert_ne by lia. apply Hnb. lia.
  - done.
  - exists (s1 <| blocks := bs |>). split_and!; [done..| |].
    + pose proof (so_counts _ Hok (next_block s)) as Hn. cbn in Hn |- *. unfold owners in Hn. cbn in Hn.
      rewrite decide_True in Hn by done. destruct (bs !! next_block s) as [blk|] eqn:E; [|lia].
      exists blk. split; [done|]. destruct (Hsame _ _ E) as (blk0 & Hb0 & ->). cbn in Hb0.
      rewrite lookup_insert_eq in Hb0. by injection Hb0 as <-.
    + intros b blk Hb E. cbn in E. destruct (Hsame _ _ E) as (blk0 & Hb0 & Heq). cbn in Hb0.
      rewrite lookup_insert_ne in Hb0 by done. eauto.
Qed.

Lemma CloseView_run id v s :
  store_ok s -> views s !! id = Some v -> exists s', CloseView id s = Some s' /\ store_ok s' /\
    m_snapshot s' = m_snapshot s /\ views s' = delete id (views s) /\ next_block s' = next_block s /\
    next_view s' = next_view s /\
    (forall b blk, blocks s' !! b = Some blk -> exists blk0, blocks s !! b = Some blk0 /\ b_snapshot blk = b_snapshot blk0).
Proof.
  intros [Hc Hnb Hnv] Hv. unfold CloseView. rewrite Hv. cbn [mbind option_bind].
  set (s1 := s <| views := _ |>). destruct (drop_ref_ok (v_block v) s1) as (bs & Hr & Hok & Hsame).
  - intros b. specialize (Hc b). unfold owners in *. cbn.
    pose proof (views_of_delete b _ _ _ Hv) as Hd.
    destruct (decide (b = v_block v)) as [->|Hne].
    + rewrite decide_True in Hd by done. destruct (blocks s !! v_block v); lia.
    + rewrite decide_False in Hd by done. destruct (blocks s !! b); lia.
  - done.
  - intros id' Hle. cbn. destruct (decide (id' = id)) as [->|Hne]; [apply lookup_delete_eq|].
    rewrite lookup_delete_ne by done. by apply Hnv.
  - exists (s1 <| blocks := bs |>). by split_and!.
Qed.

(** What a step may change of the views and of the snapshots that stay. *)
Lemma step_run s s' :
  store_step s s' -> store_ok s -> store_ok s' /\ (next_view s <= next_view s')%nat /\
  (forall id v, views s' !! id = Some v -> views s !! id = Some v \/ (next_view s <= id)%nat) /\
  (forall b blk blk', blocks s !! b = Some blk -> blocks s' !! b = Some blk' -> b_snapshot blk' = b_snapshot blk).
Proof.
  intros [version id Ho|snapshot Hp|id Hc] Hok.
  - pose proof (OpenView_ok version s id s' Hok Ho) as Hok'. destruct (OpenView_run version s Hok) as (blk & Hb & Hr).
    rewrite Hr in Ho. injection Ho as <- <-. split; [done|]. cbn. split; [lia|]. split.
    + intros id v [[<- _]|[_ ?]]%lookup_insert_Some; [right; lia|by left].
    + intros b blk1 blk2 H1 [[<- <-]|[_ H2]]%lookup_insert_Some; cbn; congruence.
  - destruct (Publish_run snapshot s Hok) as (s1 & Hr & Hok1 & _ & Hv & Hnv & _ & Hsame). rewrite Hr in Hp.
    injection Hp as <-. rewrite Hv, Hnv. split_and!; [done|lia|by left|].
    intros b blk blk' H1 H2. assert (b <> next_block s) by (intros ->; by rewrite (so_blocks s Hok) in H1).
    destruct (Hsame b blk') as (blk0 & H3 & ->); [done..|]. congruence.
  - destruct (views s !! id) as [v|] eqn:Hv; [|unfold CloseView in Hc; by rewrite Hv in Hc].
    destruct (CloseView_run id v s Hok Hv) as (s1 & Hr & Hok1 & _ & Hvs & _ & Hnv & Hsame). rewrite Hr in Hc.
    injection Hc as <-. rewrite Hvs, Hnv. split_and!; [done|lia| |].
    + intros id' v' [_ ?]%lookup_delete_Some. by left.
    + intros b blk blk' H1 H2. destruct (Hsame b blk' H2) as (blk0 & H3 & ->). congruence.
Qed.

Lemma ReadView_ok s id v : store_ok s -> views s !! id = Some v ->
  exists blk, blocks s !! v_block v = Some blk /\ ReadView id s = Some (RealmListView (b_snapshot blk) (v_version v)).
Proof.
  intros Hok Hv. destruct (owner_alive s (v_block v) Hok) as [blk Hb].
  { unfold owners. pose proof (views_of_pos _ _ _ Hv). lia. }
  exists blk. split; [done|]. unfold ReadView. rewrite Hv. cbn. by rewrite Hb.
Qed.

Lemma step_read s s' id v :
  store_step s s' -> store_ok s -> views s !! id = Some v -> is_Some (views s' !! id) ->
  views s' !! id = Some v /\ ReadView id s' = ReadView id s.
Proof.
  intros Hs Hok Hv [v' Hv']. destruct (step_run _ _ Hs Hok) as (Hok' & _ & Hviews & Hsame).
  assert (v' = v) as ->.
  { destruct (Hviews _ _ Hv') as [?|Hle]; [congruence|]. by rewrite (so_views s Hok) in Hv. }
  split; [done|]. destruct (ReadView_ok s id v Hok Hv) as (blk & Hb & ->).
  destruct (ReadView_ok s' id v Hok' Hv') as (blk' & Hb' & ->). by rewrite (Hsame _ _ _ Hb Hb').
Qed.

Lemma steps_read s s' id :
  rtc store_step s s' -> store_ok s -> is_Some (views s !! id) -> is_Some (views s' !! id) ->
  ReadView id s' = ReadView id s.
Proof.
  assert (Hgone : forall s s', rtc store_step s s' -> store_ok s -> (id < next_view s)%nat ->
    views s !! id = None -> views s' !! id = None).
  { induction 1 as [|s1 s2 s3 Hs _ IH]; [done|]. intros Hok Hlt Hn.
    destruct (step_run _ _ Hs Hok) as (Hok' & Hnv & Hviews & _). apply IH; [done|lia|].
    apply eq_None_not_Some. intros [v Hv]. destruct (Hviews _ _ Hv); [congruence|lia]. }
  induction 1 as [|s1 s2 s3 Hs Hr IH]; [done|]. intros Hok [v Hv] H3.
  destruct (step_run _ _ Hs Hok) as (Hok' & Hnv & _ & _).
  destruct (views s2 !! id) as [v2|] eqn:H2.
  - destruct (step_read _ _ _ _ Hs Hok Hv) as [_ <-]; [by rewrite H2|]. apply IH; [done|by eexists|done].
  - exfalso. rewrite (Hgone s2 s3) in H3; [by destruct H3|done|done| |done].
    destruct (decide (next_view s1 <= id)%nat) as [Hle|]; [by rewrite (so_views s1 Hok) in Hv|lia].
Qed.

Lemma Store_new_ok : store_ok Store_new.
Proof.
  split; cbn; [|intros b Hb; apply lookup_singleton_ne; lia|done].
  intros b. unfold owners, views_of. cbn. rewrite map_filter_empty, map_size_empty.
  destruct b as [|b]; [rewrite lookup_singleton_eq; cbn; case_decide; lia|].
  by rewrite lookup_singleton_ne.
Qed.

Lemma reach_ok s s' : rtc store_step s s' -> store_ok s -> store_ok s'.
Proof. induction 1 as [|s1 s2 s3 Hs _ IH]; [done|]. intros Hok. apply IH. by apply (step_run _ _ Hs). Qed.

(** Without views only the current snapshot is alive. *)
Lemma no_views_no_garbage s : store_ok s -> views s = ∅ -> dom (blocks s) = {[m_snapshot s]}.
Proof.
  intros Hok Hv. apply set_eq. intros b. rewrite elem_of_dom, elem_of_singleton.
  pose proof (so_counts s Hok b) as Hc. unfold owners, views_of in Hc. rewrite Hv, map_filter_empty, map_size_empty in Hc.
  destruct (blocks s !! b) as [blk|], (decide (m_snapshot s = b)) as [E|E]; cbn in Hc; split.
  all: try (intros [? ?]; done); try (intros; exfalso; lia); eauto; congruence.
Qed.

(** ** Property *)

(** C23. The published realm list: whatever the order in which snapshots are published and
    views are opened and dropped, every operation is defined, a view never dangles and
    shows the same realms from its opening to its end, namely those of the snapshot that was
    current when it was opened; a new view shows the latest snapshot, and a snapshot is
    freed exactly when nothing owns it: without views only the current one is alive. *)
Theorem views_stable (s : Store) :
  rtc store_step Store_new s ->
  (forall version, exists id s' blk, OpenView version s = Some (id, s') /\
     blocks s !! m_snapshot s = Some blk /\ ReadView id s' = Some (RealmListView (b_snapshot blk) version)) /\
  (forall snapshot, exists s' blk, Publish snapshot s = Some s' /\
     blocks s' !! m_snapshot s' = Some blk /\ b_snapshot blk = snapshot) /\
  (forall id, is_Some (views s !! id) -> is_Some (CloseView id s) /\ is_Some (ReadView id s) /\
     forall s', rtc store_step s s' -> is_Some (views s' !! id) -> ReadView id s' = ReadView id s) /\
  (views s = ∅ -> dom (blocks s) = {[m_snapshot s]}).
Proof.
  intros Hr. pose proof (reach_ok _ _ Hr Store_new_ok) as Hok. split_and!.
  - intros version. destruct (OpenView_run version s Hok) as (blk & Hb & Ho).
    pose proof (OpenView_ok version s _ _ Hok Ho) as Hok'. eexists _, _, blk. split; [exact Ho|]. split; [done|].
    edestruct (ReadView_ok _ (next_view s) (mkView (m_snapshot s) version) Hok') as (blk' & Hb' & ->).
    { cbn. apply lookup_insert_eq. }
    cbn in Hb' |- *. rewrite lookup_insert_eq in Hb'. by injection Hb' as <-.
  - intros snapshot. destruct (Publish_run snapshot s Hok) as (s' & Hp & _ & _ & _ & _ & (blk & ? & ?) & _). eauto.
  - intros id [v Hv]. destruct (CloseView_run id v s Hok Hv) as (s' & -> & _).
    destruct (ReadView_ok s id v Hok Hv) as (blk & _ & Hread). split_and!; [done|by rewrite Hread|].
    intros s1 Hr1 Hs1. apply steps_read; [done..|by eexists|done].
  - by apply no_views_no_garbage.
Qed.

Section SampleStore.

(** A view is open while two refreshes are published. *)
Definition sample_views : Store :=
  default Store_new ('(_, s) ← OpenView REALM_VERSION_VANILLA Store_new;
    s ← Publish (mkSnapshot ∅ []) s; Publish RealmSnapshot_empty s).

Lemma sample_views_reach : rtc store_step Store_new sample_views.
Proof.
  eapply rtc_l; [by apply (step_open _ _ REALM_VERSION_VANILLA 0)|].
  eapply rtc_l; [by apply (step_publish _ _ (mkSnapshot ∅ []))|].
  apply rtc_once. by apply (step_publish _ _ RealmSnapshot_empty).
Qed.

Lemma views_stable_witness :
  is_Some (views sample_views !! 0%nat) /\ is_Some (ReadView 0 sample_views) /\
  (views sample_views = ∅ -> dom (blocks sample_views) = {[m_snapshot sample_views]}).
Proof.
  destruct (views_stable sample_views) as (_ & _ & H3 & H4); [apply sample_views_reach|].
  assert (Hv : is_Some (views sample_views !! 0%nat)) by by apply (bool_decide_unpack (is_Some _)); vm_compute.
  split; [exact Hv|]. destruct (H3 0%nat Hv) as (_ & Hr & _). split; [exact Hr|exact H4].
Defined.

(** The first snapshot lives as long as its view; the one in between is gone. *)
Example sample_views_alive :
  (fun b => b_count <$> blocks sample_views !! b) <$> [0; 1; 2; 3]%nat = [Some 1%nat; None; Some 1%nat; None].
Proof. by vm_compute. Qed.

End SampleStore.
