(* ===== verification/Refresh.v ===== *)
(** * Refreshing the realm list while clients read it
    (src/Realm/RealmList.cpp: [UpdateIfNeed], [GetRealmsForBuild]; RealmSnapshot.h)

    The gate, the published snapshot and the loading of the table put together, for any
    number of network threads.  [UpdateIfNeed] is cut where other threads may come in between:
    the gate, the query, the publication, the release of the mutex.  Other programs write to
    the table at any time.  The contents the table has had and the moment each snapshot was
    read at are recorded beside the state; no operation looks at them. *)

From stdpp Require Import gmap.
From S2P Require Import Prelude ClientBuild RealmList SnapshotStore.

Local Open Scope nat_scope.
Local Open Scope realmd_scope.

(** Where a thread is inside [RunIfDue], once admitted. *)
Inductive Phase : Type :=
| Querying
| Fetched (rows : list RealmRow) (moment : nat)
| Leaving.

(** The steps a call has left. *)
Definition remaining (p : option Phase) : nat :=
  match p with
  | Some Querying => 3
  | Some (Fetched _ _) => 2
  | Some Leaving => 1
  | None => 0
  end.

Record RealmCache : Type := mkCache {
  rc_gate : RealmRefreshGate;
  rc_store : Store;
  rc_calls : gmap nat Phase;
  (** the contents of the table, oldest first, and the one each block was built from *)
  rc_tables : list (list RealmRow);
  rc_moments : list nat
}.

#[export] Instance RealmCache_updatable : Updatable RealmCache :=
  Rebuild _ (fun y => mkCache (rc_gate y) (rc_store y) (rc_calls y) (rc_tables y) (rc_moments y)).

(** What may happen next.  [Skip] is a call refused although the mutex is free: [try_to_lock]
    may fail spuriously, and meets the mutex of a caller about to be refused itself. *)
Inductive Action : Type :=
| Edit (rows : list RealmRow)
| Call (t : nat) (now : Z)
| Skip (t : nat)
| Advance (t : nat)
| Look (build : Z)
| Done (id : nat).

Section Refresh.
Context `{RE : RealmEnv}.

(** ** The operations *)

(** The constructors and [Initialize], before the server listens. *)
Definition Cache_new (rows : list RealmRow) (interval now : Z) : option RealmCache :=
  snapshot ← BuildSnapshot rows;
  s ← Publish snapshot Store_new;
  Some (mkCache (Gate_Reset (mkGate 0 0 false) interval now) s ∅ [rows] [0; 0]).

(** [UpdateIfNeed] up to the query: refused callers are back at once. *)
Definition UpdateIfNeed_call (t : nat) (now : Z) (y : RealmCache) : option RealmCache :=
  match rc_calls y !! t with
  | Some _ => None
  | None =>
      Some match RunIfDue_enter (rc_gate y) now with
           | None => y
           | Some gate => y <| rc_gate := gate |> <| rc_calls := <[t := Querying]> (rc_calls y) |>
           end
  end.

(** The rest of it, a step at a time. *)
Definition UpdateIfNeed_step (t : nat) (y : RealmCache) : option RealmCache :=
  p ← rc_calls y !! t;
  match p with
  | Querying =>
      rows ← last (rc_tables y);
      Some (y <| rc_calls := <[t := Fetched rows (pred (length (rc_tables y)))]> (rc_calls y) |>)
  | Fetched rows moment =>
      snapshot ← BuildSnapshot rows;
      s ← Publish snapshot (rc_store y);
      Some (y <| rc_store := s |> <| rc_calls := <[t := Leaving]> (rc_calls y) |>
              <| rc_moments := rc_moments y ++ [moment] |>)
  | Leaving =>
      Some (y <| rc_gate := RunIfDue_leave (rc_gate y) |> <| rc_calls := delete t (rc_calls y) |>)
  end.

(** [GetRealmsForBuild]: the view takes the snapshot that is current now. *)
Definition GetRealmsForBuild_view (build : Z) (y : RealmCache) : option RealmCache :=
  '(_, s) ← OpenView (BelongsToVersion build) (rc_store y);
  Some (y <| rc_store := s |>).

Definition act (a : Action) (y : RealmCache) : option RealmCache :=
  match a with
  | Edit rows => Some (y <| rc_tables := rc_tables y ++ [rows] |>)
  | Call t now => UpdateIfNeed_call t now y
  | Skip t => match rc_calls y !! t with Some _ => None | None => Some y end
  | Advance t => UpdateIfNeed_step t y
  | Look build => GetRealmsForBuild_view build y
  | Done id => s ← CloseView id (rc_store y); Some (y <| rc_store := s |>)
  end.

Fixpoint acts (l : list Action) (y : RealmCache) : option RealmCache :=
  match l with
  | [] => Some y
  | a :: l' => y' ← act a y; acts l' y'
  end.

(** The moment whose table a view shows. *)
Definition shown (y : RealmCache) (id : nat) : option nat :=
  v ← views (rc_store y) !! id; rc_moments y !! v_block v.

(** ** The invariant *)

(** [ms] is in order, and [m] comes after all of it. *)
Definition ordered (ms : list nat) : Prop :=
  forall i j a b, i <= j -> ms !! i = Some a -> ms !! j = Some b -> a <= b.

Definition after (ms : list nat) (m : nat) : Prop := Forall (fun a => a <= m) ms.

(** The store: every block is the image of the table at its moment; the moments of the blocks
    and the blocks of the views are in order. *)
Record shelf_ok (s : Store) (tables : list (list RealmRow)) (ms : list nat) : Prop := {
  sh_store : store_ok s;
  sh_length : length ms = next_block s;
  sh_current : next_block s = S (m_snapshot s);
  sh_image : forall b blk, blocks s !! b = Some blk -> exists m rows,
    ms !! b = Some m /\ tables !! m = Some rows /\ BuildSnapshot rows = Some (b_snapshot blk);
  sh_ordered : ordered ms;
  sh_past : Forall (fun m => m < length tables) ms;
  sh_views : forall i j v w, i <= j -> views s !! i = Some v -> views s !! j = Some w -> v_block v <= v_block w;
  sh_opened : forall i v, views s !! i = Some v -> v_block v <= m_snapshot s
}.

(** The calls: at most one refresh, which holds the mutex and whose rows are not older than
    what is published. *)
Record calls_ok (y : RealmCache) : Prop := {
  ca_locked : forall t, is_Some (rc_calls y !! t) -> m_locked (rc_gate y) = true;
  ca_alone : forall t u, is_Some (rc_calls y !! t) -> is_Some (rc_calls y !! u) -> t = u;
  ca_fetched : forall t rows m, rc_calls y !! t = Some (Fetched rows m) ->
    rc_tables y !! m = Some rows /\ after (rc_moments y) m;
  ca_table : rc_tables y <> []
}.

Definition cache_ok (y : RealmCache) : Prop :=
  shelf_ok (rc_store y) (rc_tables y) (rc_moments y) /\ calls_ok y.

Lemma BuildSnapshot_total (rows : list RealmRow) : exists snapshot, BuildSnapshot rows = Some snapshot.
Proof. apply AddRows_total. Qed.

Lemma Publish_next snapshot s s' : Publish snapshot s = Some s' -> next_block s' = S (next_block s).
Proof.
  unfold Publish, drop_ref. intros (blk & _ & H)%bind_Some. by destruct (b_count blk) as [|[|n]]; simplify_eq.
Qed.

Lemma ordered_snoc ms m : ordered ms -> after ms m -> ordered (ms ++ [m]).
Proof.
  intros Ho Ha i j a b Hij [[? Hi]|[-> <-]]%lookup_snoc_Some [[? Hj]|[-> <-]]%lookup_snoc_Some; [by eauto| |lia|lia].
  by apply (Forall_lookup_1 _ _ _ _ Ha Hi).
Qed.

(** Publishing rows that are newer than everything published. *)
Lemma shelf_publish s tables ms rows m snapshot :
  shelf_ok s tables ms -> tables !! m = Some rows -> after ms m -> BuildSnapshot rows = Some snapshot ->
  exists s', Publish snapshot s = Some s' /\ shelf_ok s' tables (ms ++ [m]).
Proof.
  intros [Hs Hl Hc Hi Ho Hp Hv Hv'] Hm Ha Hb.
  destruct (Publish_run snapshot s Hs) as (s' & Hpub & Hok & Hcur & Hvs & Hnv & (blk & Hblk & Hsnap) & Hold).
  exists s'. split; [done|]. pose proof (Publish_next _ _ _ Hpub) as Hnext. rewrite Hcur in Hblk.
  split; rewrite ?length_app, ?Hcur, ?Hnext; cbn [length]; try done; try lia.
  - intros b blk' Hb'. destruct (decide (b = next_block s)) as [->|Hne].
    + exists m, rows. simplify_eq. split_and!; try done. by apply list_lookup_middle.
    + destruct (Hold b blk' Hne Hb') as (blk0 & Hb0 & ->). destruct (Hi b blk0 Hb0) as (m0 & r0 & Hm0 & ?).
      exists m0, r0. split; [|done]. rewrite lookup_app_l; [done|]. by eapply lookup_lt_Some.
  - by apply ordered_snoc.
  - apply Forall_app. split; [done|]. apply Forall_singleton. by eapply lookup_lt_Some.
  - by rewrite Hvs.
  - intros i v. rewrite Hvs. intros Hiv%Hv'. lia.
Qed.

(** A view opened now shows the current block. *)
Lemma shelf_open s tables ms version :
  shelf_ok s tables ms -> exists s', OpenView version s = Some (next_view s, s') /\ shelf_ok s' tables ms /\
    views s' !! next_view s = Some (mkView (m_snapshot s) version) /\ m_snapshot s' = m_snapshot s.
Proof.
  intros [Hs Hl Hc Hi Ho Hp Hv Hv']. destruct (OpenView_run version s Hs) as (blk & Hb & Hrun).
  eexists. split; [exact Hrun|]. split; [|by cbn; rewrite lookup_insert_eq].
  split; cbn; try done; [exact (OpenView_ok _ _ _ _ Hs Hrun)| | |].
  - intros b blk' [[<- <-]|[_ Hb']]%lookup_insert_Some; [exact (Hi _ _ Hb)|exact (Hi _ _ Hb')].
  - intros i j v w Hij [[<- <-]|[? Hiv]]%lookup_insert_Some [[<- <-]|[? Hjw]]%lookup_insert_Some; cbn; try by eauto.
    destruct (decide (next_view s <= j)) as [Hle|]; [|lia]. by rewrite (so_views s Hs j Hle) in Hjw.
  - intros i v [[_ <-]|[_ Hiv]]%lookup_insert_Some; [done|by eauto].
Qed.

Lemma shelf_close s tables ms id v :
  shelf_ok s tables ms -> views s !! id = Some v -> exists s', CloseView id s = Some s' /\ shelf_ok s' tables ms /\
    m_snapshot s' = m_snapshot s.
Proof.
  intros [Hs Hl Hc Hi Ho Hp Hv Hv'] Hid.
  destruct (CloseView_run id v s Hs Hid) as (s' & Hrun & Hok & Hcur & Hvs & Hnb & Hnv & Hsame).
  exists s'. split_and!; [done| |done]. split; rewrite ?Hcur, ?Hnb, ?Hvs; try done.
  - intros b blk Hb. destruct (Hsame b blk Hb) as (blk0 & Hb0 & ->). by eauto.
  - intros i j v1 v2 Hij [_ H1]%lookup_delete_Some [_ H2]%lookup_delete_Some. by eauto.
  - intros i v1 [_ H1]%lookup_delete_Some. by eauto.
Qed.

(** The table changes. *)
Lemma shelf_edit s tables ms rows : shelf_ok s tables ms -> shelf_ok s (tables ++ [rows]) ms.
Proof.
  intros [Hs Hl Hc Hi Ho Hp Hv Hv']. split; try done.
  - intros b blk Hb. destruct (Hi b blk Hb) as (m & r & ? & Hr & ?). exists m, r. split_and!; try done.
    rewrite lookup_app_l; [done|]. by eapply lookup_lt_Some.
  - eapply Forall_impl; [exact Hp|]. cbn. intros m Hm. rewrite length_app. cbn. lia.
Qed.

(** ** Every action is defined and keeps the invariant *)

(** A call goes on. *)
Lemma calls_same (calls : gmap nat Phase) t p q u :
  calls !! t = Some p -> is_Some (<[t := q]> calls !! u) -> is_Some (calls !! u).
Proof. intros Ht. rewrite lookup_insert_is_Some. intros [<-|[_ ?]]; [by exists p|done]. Qed.

Lemma UpdateIfNeed_call_ok t now y :
  cache_ok y -> rc_calls y !! t = None -> exists y', UpdateIfNeed_call t now y = Some y' /\ cache_ok y'.
Proof.
  intros [Hs Hc] Ht. unfold UpdateIfNeed_call. rewrite Ht. eexists. split; [reflexivity|].
  destruct (RunIfDue_enter (rc_gate y) now) as [g|] eqn:Hg; [|done].
  apply RunIfDue_enter_Some in Hg as (Hfree & _ & _ & ->).
  assert (Hnone : forall u, ~ is_Some (rc_calls y !! u)) by (intros u Hu%(ca_locked y Hc); congruence).
  split; [done|]. destruct Hc as [_ _ Hf Htab]. split; cbn; try done.
  - intros u v [<-|[_ Hu%Hnone]]%lookup_insert_is_Some [<-|[_ Hv%Hnone]]%lookup_insert_is_Some; done.
  - intros u rows m [[_ ?]|[_ Hu]]%lookup_insert_Some; [done|by eauto].
Qed.

Lemma query_ok t y :
  cache_ok y -> rc_calls y !! t = Some Querying -> exists rows, last (rc_tables y) = Some rows /\
  cache_ok (y <| rc_calls := <[t := Fetched rows (pred (length (rc_tables y)))]> (rc_calls y) |>).
Proof.
  intros [Hs [Hl Ha Hf Htab]] Ht. destruct (last (rc_tables y)) as [rows|] eqn:Hlast; [|by apply last_None in Hlast].
  exists rows. split; [done|]. split; [done|]. split; cbn; try done.
  - intros u Hu%(calls_same _ _ _ _ _ Ht). by eauto.
  - intros u v Hu%(calls_same _ _ _ _ _ Ht) Hv%(calls_same _ _ _ _ _ Ht). by eauto.
  - intros u rows' m [[_ [= <- <-]]|[_ Hu]]%lookup_insert_Some; [|by eauto].
    split; [by rewrite <- last_lookup|]. eapply Forall_impl; [apply (sh_past _ _ _ Hs)|]. cbn. lia.
Qed.

Lemma publish_ok t rows m y :
  cache_ok y -> rc_calls y !! t = Some (Fetched rows m) -> exists snapshot s,
  BuildSnapshot rows = Some snapshot /\ Publish snapshot (rc_store y) = Some s /\
  cache_ok (y <| rc_store := s |> <| rc_calls := <[t := Leaving]> (rc_calls y) |>
              <| rc_moments := rc_moments y ++ [m] |>).
Proof.
  intros [Hs [Hl Ha Hf Htab]] Ht. destruct (Hf t rows m Ht) as [Hm Hafter].
  destruct (BuildSnapshot_total rows) as [snapshot Hb].
  destruct (shelf_publish _ _ _ rows m snapshot Hs Hm Hafter Hb) as (s & Hp & Hs'). exists snapshot, s.
  split_and!; [done..|]. split; [done|]. split; cbn; try done.
  - intros u Hu%(calls_same _ _ _ _ _ Ht). by eauto.
  - intros u v Hu%(calls_same _ _ _ _ _ Ht) Hv%(calls_same _ _ _ _ _ Ht). by eauto.
  - intros u rows' m' [[_ ?]|[Hne Hu]]%lookup_insert_Some; [done|]. destruct Hne. by apply Ha.
Qed.

Lemma leave_ok t y :
  cache_ok y -> rc_calls y !! t = Some Leaving ->
  cache_ok (y <| rc_gate := RunIfDue_leave (rc_gate y) |> <| rc_calls := delete t (rc_calls y) |>).
Proof.
  intros [Hs [Hl Ha Hf Htab]] Ht. split; [done|].
  assert (Hnone : forall u, delete t (rc_calls y) !! u = None).
  { intros u. apply eq_None_not_Some. rewrite lookup_delete_is_Some. intros [Hne Hu]. destruct Hne. by apply Ha. }
  split; cbn; [intros u|intros u v|intros u rows m|done]; by rewrite Hnone.
Qed.

(** A thread inside a refresh can always go on, and is one step nearer its end. *)
Lemma UpdateIfNeed_step_ok t p y :
  cache_ok y -> rc_calls y !! t = Some p -> exists y', UpdateIfNeed_step t y = Some y' /\ cache_ok y' /\
    remaining (rc_calls y' !! t) < remaining (Some p).
Proof.
  intros Hok Ht. unfold UpdateIfNeed_step. rewrite Ht. cbn [mbind option_bind]. destruct p as [|rows m|].
  - destruct (query_ok t y Hok Ht) as (rows & -> & Hok'). eexists. split; [reflexivity|]. split; [done|].
    cbn. rewrite lookup_insert_eq. cbn. lia.
  - destruct (publish_ok t rows m y Hok Ht) as (snapshot & s & -> & Hp & Hok'). cbn [mbind option_bind]. rewrite Hp.
    eexists. split; [reflexivity|]. split; [done|]. cbn. rewrite lookup_insert_eq. cbn. lia.
  - eexists. split; [reflexivity|]. split; [by apply leave_ok|]. cbn. rewrite lookup_delete_eq. cbn. lia.
Qed.

Lemma act_ok a y y' : cache_ok y -> act a y = Some y' -> cache_ok y'.
Proof.
  intros Hok Ha. destruct a as [rows|t now|t|t|b|id]; cbn [act] in Ha.
  - simplify_eq. destruct Hok as [Hs [Hl Hal Hf Htab]]. split; [by apply shelf_edit|].
    split; cbn; try done; [|by destruct (rc_tables y)].
    intros t r m Ht. destruct (Hf t r m Ht) as [Hm ?]. split; [|done].
    rewrite lookup_app_l; [done|]. by eapply lookup_lt_Some.
  - destruct (rc_calls y !! t) as [p|] eqn:Ht; [unfold UpdateIfNeed_call in Ha; by rewrite Ht in Ha|].
    destruct (UpdateIfNeed_call_ok t now y Hok Ht) as (y1 & Hy1 & ?). congruence.
  - by destruct (rc_calls y !! t); simplify_eq.
  - destruct (rc_calls y !! t) as [p|] eqn:Ht; [|unfold UpdateIfNeed_step in Ha; by rewrite Ht in Ha].
    destruct (UpdateIfNeed_step_ok t p y Hok Ht) as (y1 & Hy1 & ? & _). congruence.
  - destruct Hok as [Hs Hc]. destruct (shelf_open _ _ _ (BelongsToVersion b) Hs) as (s & Ho & Hs' & _).
    unfold GetRealmsForBuild_view in Ha. rewrite Ho in Ha. cbn in Ha. simplify_eq. split; [done|]. by destruct Hc.
  - destruct Hok as [Hs Hc]. apply bind_Some in Ha as (s & Hcl & Hy). simplify_eq.
    destruct (views (rc_store y) !! id) as [v|] eqn:Hv; [|unfold CloseView in Hcl; by rewrite Hv in Hcl].
    destruct (shelf_close _ _ _ id v Hs Hv) as (s' & Hcl' & Hs' & _). simplify_eq. split; [done|]. by destruct Hc.
Qed.

Lemma acts_ok l y y' : cache_ok y -> acts l y = Some y' -> cache_ok y'.
Proof.
  revert y. induction l as [|a l IH]; intros y Hok; cbn [acts]; [by intros [= <-]|].
  intros (y1 & Ha & Hl)%bind_Some. eapply IH; [|done]. by eapply act_ok.
Qed.

Lemma Publish_first snapshot : Publish snapshot Store_new = Some (mkStore {[1 := mkBlock snapshot 1]} 2 1 ∅ 0).
Proof. reflexivity. Qed.

Lemma Cache_new_ok rows interval now : exists y, Cache_new rows interval now = Some y /\ cache_ok y.
Proof.
  unfold Cache_new. destruct (BuildSnapshot_total rows) as [snapshot Hb]. rewrite Hb. cbn [mbind option_bind].
  rewrite Publish_first. eexists. split; [reflexivity|]. split;
    [|split; cbn; [intros t|intros t u|intros t r m|done]; rewrite lookup_empty; [by intros [? ?]..|done]].
  destruct (Publish_run snapshot Store_new Store_new_ok) as (s & Hs & Hok & _). rewrite Publish_first in Hs.
  injection Hs as <-. split; cbn; try done.
  - intros b blk [<- <-]%lookup_singleton_Some. by exists 0, rows.
  - assert (Hz : forall i a, [0; 0] !! i = Some a -> a = 0) by (by intros [|[|i]] a [= <-]).
    intros i j a b _ ->%Hz ->%Hz. done.
  - repeat constructor.
Qed.

(** ** What is published only gets newer *)

(** The moment of the current snapshot. *)
Definition current (y : RealmCache) : nat := default 0 (rc_moments y !! m_snapshot (rc_store y)).

Lemma current_lookup y : cache_ok y -> rc_moments y !! m_snapshot (rc_store y) = Some (current y).
Proof.
  intros [Hs _]. unfold current. destruct (lookup_lt_is_Some_2 (rc_moments y) (m_snapshot (rc_store y))) as [m Hm].
  { rewrite (sh_length _ _ _ Hs), (sh_current _ _ _ Hs). lia. }
  by rewrite Hm.
Qed.

(** A refresh of [t] that began when the table had had [n] contents: it is at its query, or
    what it has read, or what is published, is at least that new. *)
Definition since (n t : nat) (y : RealmCache) : Prop :=
  n <= length (rc_tables y) /\
  match rc_calls y !! t with
  | Some Querying => True
  | Some (Fetched _ m) => n <= S m
  | _ => n <= S (current y)
  end.

Lemma since_step n t u p y y' :
  cache_ok y -> rc_calls y !! u = Some p -> UpdateIfNeed_step u y = Some y' -> since n t y -> since n t y'.
Proof.
  intros Hok Hu Hstep [Hn Ht]. pose proof Hok as [Hs Hc]. unfold UpdateIfNeed_step in Hstep. rewrite Hu in Hstep.
  cbn [mbind option_bind] in Hstep. destruct p as [|rows m|].
  - apply bind_Some in Hstep as (rows & _ & Hy). simplify_eq. split; [done|]. cbn.
    destruct (decide (u = t)) as [->|Hne]; [rewrite lookup_insert_eq|by rewrite lookup_insert_ne].
    destruct (rc_tables y) eqn:E; [by destruct (ca_table y Hc)|]. cbn in *. lia.
  - destruct (publish_ok u rows m y Hok Hu) as (snap & s & Hb & Hp & Hok'). rewrite Hb in Hstep.
    cbn [mbind option_bind] in Hstep. rewrite Hp in Hstep. cbn [mbind option_bind] in Hstep. simplify_eq. split; [done|].
    pose proof (current_lookup _ Hok') as Hcur. set (y1 := y <| rc_store := s |> <| rc_calls := _ |> <| rc_moments := _ |>) in *.
    assert (current y1 = m) as ->.
    { destruct Hok' as [Hs' _]. pose proof (sh_current _ _ _ Hs') as Hc1. pose proof (sh_length _ _ _ Hs') as Hl1.
      cbn in Hc1, Hl1, Hcur. rewrite length_app in Hl1. cbn in Hl1.
      apply lookup_snoc_Some in Hcur as [[Hlt _]|[_ ?]]; [lia|done]. }
    assert (current y <= m).
    { destruct (ca_fetched y Hc u rows m Hu) as [_ Ha]. eapply (Forall_lookup_1 _ _ _ _ Ha), current_lookup, Hok. }
    cbn. destruct (decide (u = t)) as [->|Hne].
    + rewrite lookup_insert_eq. by rewrite Hu in Ht.
    + rewrite lookup_insert_ne by done. destruct (rc_calls y !! t) as [[]|]; try done; lia.
  - simplify_eq. split; [done|]. cbn. change (current _) with (current y).
    destruct (decide (u = t)) as [->|Hne]; [rewrite lookup_delete_eq; by rewrite Hu in Ht|].
    by rewrite lookup_delete_ne.
Qed.

Lemma since_act n t a y y' : cache_ok y -> act a y = Some y' -> since n t y -> since n t y'.
Proof.
  intros Hok Ha Hsince. destruct a as [rows|u now|u|u|b|id]; cbn [act] in Ha.
  - simplify_eq. destruct Hsince as [Hn Ht]. split; [|done]. cbn. rewrite length_app. cbn. lia.
  - unfold UpdateIfNeed_call in Ha. destruct (rc_calls y !! u) as [p|] eqn:Hu; [done|]. simplify_eq.
    destruct (RunIfDue_enter (rc_gate y) now); [|done]. destruct Hsince as [Hn Ht]. split; [done|]. cbn.
    destruct (decide (u = t)) as [->|Hne]; [by rewrite lookup_insert_eq|by rewrite lookup_insert_ne].
  - by destruct (rc_calls y !! u); simplify_eq.
  - destruct (rc_calls y !! u) as [p|] eqn:Hu; [|unfold UpdateIfNeed_step in Ha; by rewrite Hu in Ha].
    by eapply since_step.
  - destruct Hok as [Hs Hc]. destruct (shelf_open _ _ _ (BelongsToVersion b) Hs) as (s & Ho & _ & _ & Hm).
    unfold GetRealmsForBuild_view in Ha. rewrite Ho in Ha. cbn in Ha. simplify_eq. destruct Hsince as [Hn Ht]. split; [done|].
    unfold current. cbn. by rewrite Hm.
  - destruct Hok as [Hs Hc]. apply bind_Some in Ha as (s & Hcl & Hy). simplify_eq.
    destruct (views (rc_store y) !! id) as [v|] eqn:Hv; [|unfold CloseView in Hcl; by rewrite Hv in Hcl].
    destruct (shelf_close _ _ _ id v Hs Hv) as (s' & Hcl' & _ & Hm). simplify_eq.
    destruct Hsince as [Hn Ht]. split; [done|]. unfold current. cbn. by rewrite Hm.
Qed.

Lemma since_acts n t l y y' : cache_ok y -> acts l y = Some y' -> since n t y -> since n t y'.
Proof.
  revert y. induction l as [|a l IH]; intros y Hok; cbn [acts]; [by intros [= <-]|].
  intros (y1 & Ha & Hl)%bind_Some Hs. eapply IH; [|done|]; [by eapply act_ok|by eapply since_act].
Qed.

(** The interval never changes, and the time of the next refresh never moves back. *)
Lemma step_next t y y' :
  UpdateIfNeed_step t y = Some y' ->
  m_interval (rc_gate y') = m_interval (rc_gate y) /\ m_nextUpdate (rc_gate y') = m_nextUpdate (rc_gate y).
Proof.
  unfold UpdateIfNeed_step. intros ([|rows m|] & _ & Hy)%bind_Some.
  - by apply bind_Some in Hy as (rows & _ & [= <-]).
  - by apply bind_Some in Hy as (snapshot & _ & (s & _ & [= <-])%bind_Some).
  - by injection Hy as <-.
Qed.

(** An admission is due and sets the next one an interval later. *)
Lemma call_admitted t now y y' :
  rc_calls y !! t = None -> UpdateIfNeed_call t now y = Some y' -> is_Some (rc_calls y' !! t) ->
  (m_nextUpdate (rc_gate y) <= now)%Z /\ m_interval (rc_gate y') = m_interval (rc_gate y) /\
  m_nextUpdate (rc_gate y') = (now + m_interval (rc_gate y))%Z.
Proof.
  intros Ht Hy. unfold UpdateIfNeed_call in Hy. rewrite Ht in Hy. injection Hy as <-.
  destruct (RunIfDue_enter (rc_gate y) now) as [g|] eqn:Hg; [|by rewrite Ht; intros [? ?]].
  by apply RunIfDue_enter_Some in Hg as (_ & _ & ? & ->).
Qed.

Lemma act_next a y y' :
  (0 <= m_interval (rc_gate y))%Z -> act a y = Some y' ->
  m_interval (rc_gate y') = m_interval (rc_gate y) /\ (m_nextUpdate (rc_gate y) <= m_nextUpdate (rc_gate y'))%Z.
Proof.
  intros Hi. destruct a as [rows|t now|t|t|b|id]; cbn [act].
  - by intros [= <-].
  - unfold UpdateIfNeed_call. destruct (rc_calls y !! t); [done|]. intros [= <-].
    destruct (RunIfDue_enter (rc_gate y) now) as [g|] eqn:Hg; [|done].
    apply RunIfDue_enter_Some in Hg as (_ & _ & ? & ->). cbn. lia.
  - by destruct (rc_calls y !! t); intros [= <-].
  - intros [-> ->]%step_next. done.
  - by intros ([i s] & _ & [= <-])%bind_Some.
  - by intros (s & _ & [= <-])%bind_Some.
Qed.

Lemma acts_next l y y' :
  (0 <= m_interval (rc_gate y))%Z -> acts l y = Some y' ->
  m_interval (rc_gate y') = m_interval (rc_gate y) /\ (m_nextUpdate (rc_gate y) <= m_nextUpdate (rc_gate y'))%Z.
Proof.
  revert y. induction l as [|a l IH]; intros y Hi; cbn [acts]; [by intros [= <-]|].
  intros (y1 & [H1 H2]%act_next & Hl)%bind_Some; [|done]. destruct (IH y1) as [H3 H4]; [lia|done|]. lia.
Qed.

(** The gate is not left locked. *)
Definition held (y : RealmCache) : Prop := m_locked (rc_gate y) = true -> rc_calls y <> ∅.

Lemma act_held a y y' : held y -> act a y = Some y' -> held y'.
Proof.
  unfold held. intros Hh. destruct a as [rows|t now|t|t|b|id]; cbn [act].
  - by intros [= <-].
  - unfold UpdateIfNeed_call. destruct (rc_calls y !! t); [done|]. intros [= <-].
    destruct (RunIfDue_enter _ _); [|done]. intros _. apply insert_non_empty.
  - by destruct (rc_calls y !! t); intros [= <-].
  - unfold UpdateIfNeed_step. intros (p & _ & Hp)%bind_Some. destruct p as [|rows m|].
    + apply bind_Some in Hp as (? & _ & [= <-]). intros _. apply insert_non_empty.
    + apply bind_Some in Hp as (? & _ & (? & _ & [= <-])%bind_Some). intros _. apply insert_non_empty.
    + by injection Hp as <-.
  - by intros ([i s] & _ & [= <-])%bind_Some.
  - by intros (s & _ & [= <-])%bind_Some.
Qed.

Lemma acts_held l y y' : held y -> acts l y = Some y' -> held y'.
Proof.
  revert y. induction l as [|a l IH]; intros y Hh; cbn [acts]; [by intros [= <-]|].
  intros (y1 & Ha & Hl)%bind_Some. eapply IH; [|done]. by eapply act_held.
Qed.

(** Admission is decided by the gate, which is locked exactly during a refresh. *)
Lemma call_admitted_iff t now y y' :
  cache_ok y -> held y -> rc_calls y !! t = None -> UpdateIfNeed_call t now y = Some y' ->
  is_Some (rc_calls y' !! t) <->
  m_interval (rc_gate y) <> 0%Z /\ rc_calls y = ∅ /\ (m_nextUpdate (rc_gate y) <= now)%Z.
Proof.
  intros [_ Hok] Hheld Ht Hy.
  assert (Hlock : m_locked (rc_gate y) = bool_decide (rc_calls y <> ∅)).
  { case_bool_decide as E.
    - apply map_choose in E as (u & ? & ?). by apply (ca_locked _ Hok u).
    - apply not_true_iff_false. intros Hl. by apply (Hheld Hl). }
  unfold UpdateIfNeed_call in Hy. rewrite Ht in Hy. injection Hy as <-.
  unfold RunIfDue_enter. rewrite Hlock. clear Hlock.
  case_bool_decide as E; destruct (Z.eqb_spec (m_interval (rc_gate y)) 0) as [Hz|Hz],
    (Z.ltb_spec now (m_nextUpdate (rc_gate y))) as [Hd|Hd]; cbn; rewrite ?Ht, ?lookup_insert_eq;
    (split; [try by intros [? ?]|intros (? & ? & ?); try by (done || lia)]); done.
Qed.

(** With the interval 0 nothing is ever admitted. *)
Lemma call_idle t now y y' :
  m_interval (rc_gate y) = 0%Z -> UpdateIfNeed_call t now y = Some y' -> y' = y.
Proof.
  intros Hi. unfold UpdateIfNeed_call, RunIfDue_enter. rewrite Hi, orb_true_r.
  by destruct (rc_calls y !! t); intros [= <-].
Qed.

Lemma acts_idle l y y' :
  m_interval (rc_gate y) = 0%Z -> rc_calls y = ∅ -> acts l y = Some y' -> rc_calls y' = ∅.
Proof.
  revert y. induction l as [|a l IH]; intros y Hi Hc; cbn [acts]; [by intros [= <-]|].
  intros (y1 & Ha & Hl)%bind_Some. apply act_next in Ha as Hn; [|lia]. destruct Hn as [Hi1 _].
  apply (IH y1); [lia| |done]. clear IH Hl Hi1. destruct a as [rows|t now|t|t|b|id]; cbn [act] in Ha.
  - by injection Ha as <-.
  - by apply call_idle in Ha as ->.
  - rewrite Hc, lookup_empty in Ha. by injection Ha as <-.
  - unfold UpdateIfNeed_step in Ha. by rewrite Hc, lookup_empty in Ha.
  - by apply bind_Some in Ha as ([i s] & _ & [= <-]).
  - by apply bind_Some in Ha as (s & _ & [= <-]).
Qed.

Lemma Cache_new_gate rows interval now y :
  Cache_new rows interval now = Some y ->
  m_interval (rc_gate y) = interval /\ m_nextUpdate (rc_gate y) = now /\ rc_calls y = ∅ /\ held y.
Proof. unfold Cache_new. by intros (? & _ & (? & _ & [= <-])%bind_Some)%bind_Some. Qed.

(** A view shows the table of one moment. *)
Lemma view_image y id v :
  cache_ok y -> views (rc_store y) !! id = Some v -> exists m rows snapshot,
    shown y id = Some m /\ rc_tables y !! m = Some rows /\ BuildSnapshot rows = Some snapshot /\
    ReadView id (rc_store y) = Some (RealmListView snapshot (v_version v)).
Proof.
  intros [Hs _] Hv. destruct (ReadView_ok _ _ _ (sh_store _ _ _ Hs) Hv) as (blk & Hblk & Hread).
  destruct (sh_image _ _ _ Hs _ _ Hblk) as (m & rows & Hm & Hrows & Hb). exists m, rows, (b_snapshot blk).
  unfold shown. rewrite Hv. by split_and!.
Qed.

Lemma views_ordered y i j m n :
  cache_ok y -> i <= j -> shown y i = Some m -> shown y j = Some n -> m <= n.
Proof.
  intros [Hs _] Hij (v & Hv & Hm)%bind_Some (w & Hw & Hn)%bind_Some.
  eapply (sh_ordered _ _ _ Hs); [|exact Hm|exact Hn]. by eapply (sh_views _ _ _ Hs).
Qed.

Lemma open_current b y :
  cache_ok y -> exists y', act (Look b) y = Some y' /\ shown y' (next_view (rc_store y)) = Some (current y).
Proof.
  intros Hok. pose proof (current_lookup y Hok) as Hcur. destruct Hok as [Hs _].
  destruct (shelf_open _ _ _ (BelongsToVersion b) Hs) as (s & Ho & _ & Hv & _).
  cbn [act]. unfold GetRealmsForBuild_view. rewrite Ho. eexists. split; [reflexivity|]. unfold shown. cbn. by rewrite Hv.
Qed.

End Refresh.

(** ** Property *)

(** C22. The realm list under concurrent refreshes and readers: however threads interleave
    with each other and with writes to the table, at most one of them refreshes, and none ever
    waits: a call of [UpdateIfNeed] returns at once or after three steps of its own, which
    are always possible, and a view can always be opened.  Every view shows exactly the
    realms of the table as it was at one moment, a later view never those of an earlier moment, and
    a view opened when a refresh has published shows nothing older than the table was when
    that refresh began. *)
Theorem refreshes_linear `{RealmEnv} (rows : list RealmRow) (interval now : Z) (l : list Action) (y0 y : RealmCache) :
  Cache_new rows interval now = Some y0 -> acts l y0 = Some y ->
  (forall t u, is_Some (rc_calls y !! t) -> is_Some (rc_calls y !! u) -> t = u) /\
  (forall t, match rc_calls y !! t with
     | Some p => exists y', act (Advance t) y = Some y' /\ remaining (rc_calls y' !! t) < remaining (Some p)
     | None => forall now', is_Some (act (Call t now') y)
     end) /\
  (forall build, is_Some (act (Look build) y)) /\
  (forall id v, views (rc_store y) !! id = Some v -> exists m table snapshot,
     shown y id = Some m /\ rc_tables y !! m = Some table /\ BuildSnapshot table = Some snapshot /\
     ReadView id (rc_store y) = Some (RealmListView snapshot (v_version v))) /\
  (forall i j m n, i <= j -> shown y i = Some m -> shown y j = Some n -> m <= n) /\
  (forall t l' y' build, rc_calls y !! t = Some Querying -> acts l' y = Some y' -> rc_calls y' !! t = Some Leaving ->
     exists y'' m, act (Look build) y' = Some y'' /\ shown y'' (next_view (rc_store y')) = Some m /\
       length (rc_tables y) <= S m).
Proof.
  intros Hnew Hrun. destruct (Cache_new_ok rows interval now) as (y1 & Hy1 & Hok0). rewrite Hy1 in Hnew.
  injection Hnew as <-. pose proof (acts_ok _ _ _ Hok0 Hrun) as Hok. split_and!.
  - intros t u. destruct Hok as [_ Hc]. apply Hc.
  - intros t. destruct (rc_calls y !! t) as [p|] eqn:Ht.
    + destruct (UpdateIfNeed_step_ok t p y Hok Ht) as (y' & ? & _ & ?). by exists y'.
    + intros now'. destruct (UpdateIfNeed_call_ok t now' y Hok Ht) as (y' & Hy' & _). by exists y'.
  - intros build. destruct (open_current build y Hok) as (y' & ? & _). by exists y'.
  - intros id v. by apply view_image.
  - intros i j m n. by apply views_ordered.
  - intros t l' y' build Ht Hrun' Hend. destruct (since_acts (length (rc_tables y)) t l' y y' Hok Hrun') as [_ Hn].
    { split; [done|]. by rewrite Ht. }
    rewrite Hend in Hn. destruct (open_current build y' (acts_ok _ _ _ Hok Hrun')) as (y'' & Hlook & Hshown).
    by exists y'', (current y').
Qed.


Section SampleRefresh.

Definition sample_table (nm : bytes) : list RealmRow := [sample_row nm (str "5875") 0 0].

(** A refresh is overtaken by a write, a second caller and readers. *)
Definition sample_before : list Action :=
  [Look 5875; Edit (sample_table (str "B")); Call 1 100; Skip 2].

Definition sample_after : list Action :=
  [Advance 1; Edit (sample_table (str "C")); Call 2 200; Look 5875; Advance 1; Look 5875].

Definition sample_from (y : option RealmCache) : RealmCache :=
  default (mkCache (mkGate 0 0 false) Store_new ∅ [] []) y.

Definition sample_start : RealmCache :=
  sample_from (Cache_new (RE := sample_RealmEnv) (sample_table (str "A")) 20 100).
Definition sample_middle : RealmCache := sample_from (acts (RE := sample_RealmEnv) sample_before sample_start).
Definition sample_end : RealmCache := sample_from (acts (RE := sample_RealmEnv) sample_after sample_middle).

(** The three views show the realms A, A and B, while the table holds C. *)
Example sample_cache_reads :
  map (fun id => option_map (map name) (ReadView id (rc_store sample_end))) [0; 1; 2]
  = [Some [str "A"]; Some [str "A"]; Some [str "B"]].
Proof. by vm_compute. Qed.

Lemma refreshes_linear_witness :
  rc_calls sample_middle !! 1 = Some Querying /\ exists y m,
    act (RE := sample_RealmEnv) (Look 5875) sample_end = Some y /\ shown y 3 = Some m /\
    length (rc_tables sample_middle) <= S m.
Proof.
  assert (Ht : rc_calls sample_middle !! 1 = Some Querying) by (vm_compute; reflexivity). split; [exact Ht|].
  refine (proj2 (proj2 (proj2 (proj2 (proj2 (refreshes_linear (H := sample_RealmEnv) (sample_table (str "A")) 20 100
    sample_before sample_start sample_middle _ _))))) 1 sample_after sample_end 5875%Z Ht _ _); vm_compute; reflexivity.
Defined.


End SampleRefresh.
