(* ===== verification/PatchArtifact.v ===== *)
(** * Patch archives and their transfer (src/Auth/PatchArtifact.{h,cpp},
    src/Auth/PatchHandler.{h,cpp})

    An archive is opened once: its size and MD5 are computed from the stream that
    is later served, and that stream is framed into [CMD_XFER_DATA] packets by a
    background thread.

    The part of [std::ifstream] the code uses is modelled with its state bits.  A
    read that meets a device error delivers nothing and sets [badbit]. *)

From S2P Require Import Prelude AuthCodes.

Local Open Scope Z_scope.
Local Open Scope realmd_scope.

(** ** Files and input streams *)

(** [file_fault] is the offset of a byte the device cannot read, if any. *)
Record File : Type := mkFile {
  file_regular : bool;
  file_opens : bool;
  file_bytes : bytes;
  file_fault : option Z
}.

(** The file system, as [is_regular_file] and [ifstream] see it. *)
Abbreviation FileSystem := (bytes -> option File).

Record ifstream : Type := mkStream {
  content : bytes;
  fault : option Z;
  pos : Z;
  eofbit : bool;
  failbit : bool;
  badbit : bool
}.

Definition good (s : ifstream) : bool := negb (eofbit s || failbit s || badbit s).

(** [operator bool]: no [failbit] and no [badbit]. *)
Definition stream_ok (s : ifstream) : bool := negb (failbit s || badbit s).

Definition clear (s : ifstream) : ifstream :=
  mkStream (content s) (fault s) (pos s) false false false.

(** [seekg(off, beg)] clears [eofbit]; on a failed stream it only sets [failbit]. *)
Definition seekg (s : ifstream) (off : Z) : ifstream :=
  if failbit s || badbit s
  then mkStream (content s) (fault s) (pos s) false true (badbit s)
  else mkStream (content s) (fault s) off false false false.

(** [tellg()]: a position that [std::streamoff] cannot hold is reported as -1. *)
Definition tellg (s : ifstream) : Z := if pos s <? 2 ^ 63 then pos s else -1.

(** Whether reading [n] bytes from the current position meets the unreadable byte. *)
Definition meets_fault (s : ifstream) (n : Z) : bool :=
  match fault s with
  | Some f => (pos s <=? f) && (f <? pos s + n) && (f <? zlen (content s))
  | None => false
  end.

(** [read(buf, n)]: the bytes stored ([gcount] is their number) and the stream. *)
Definition read (s : ifstream) (n : Z) : bytes * ifstream :=
  if negb (good s)
  then ([], mkStream (content s) (fault s) (pos s) (eofbit s) true (badbit s)) else
  if meets_fault s n
  then ([], mkStream (content s) (fault s) (pos s) false false true) else
  let got := take (Z.to_nat n) (drop (Z.to_nat (pos s)) (content s)) in
  let short := zlen got <? n in
  (got, mkStream (content s) (fault s) (pos s + zlen got) short short false).

(** ** MD5, from the shared library *)

Class Md5Hash : Type := {
  md5_ctx : Type;
  md5_init : md5_ctx;
  UpdateData : md5_ctx -> bytes -> md5_ctx;
  Finalize : md5_ctx -> bytes
}.

(** Feeding a message in pieces is feeding the message; a digest has 16 bytes. *)
Class Md5Laws `{Md5Hash} : Prop := {
  md5_update_app : forall c a b, UpdateData (UpdateData c a) b = UpdateData c (a ++ b);
  md5_update_nil : forall c, UpdateData c [] = c;
  md5_length : forall c, zlen (Finalize c) = 16
}.

Section PatchArtifact.
Context `{MD5 : Md5Hash}.

(** ** PatchArtifact *)

Definition DigestChunkSize : Z := 4096.

Record PatchArtifact : Type := mkArtifact {
  m_stream : ifstream;
  m_size : Z;
  m_digest : bytes
}.

(** [while (stream) { read; if (gcount > 0) md5.UpdateData(...); }] *)
Fixpoint DigestLoop (fuel : nat) (s : ifstream) (md5 : md5_ctx) : option (ifstream * md5_ctx) :=
  if negb (stream_ok s) then Some (s, md5) else
  match fuel with
  | O => None
  | S fuel' =>
      let '(buffer, s') := read s DigestChunkSize in
      DigestLoop fuel' s' (if 0 <? zlen buffer then UpdateData md5 buffer else md5)
  end.

(** [None]: the digest loop does not finish; [Some None]: [nullptr]. *)
Definition Open (fs : FileSystem) (path : bytes) : option (option PatchArtifact) :=
  match fs path with
  | None => Some None
  | Some file =>
      if negb (file_regular file) then Some None else
      if negb (file_opens file) then Some None else
      let stream := mkStream (file_bytes file) (file_fault file) (zlen (file_bytes file)) false false false in
      let end_ := tellg stream in
      if end_ <=? 0 then Some None else
      if (end_ <=? 0) || (2 ^ 64 - 1 <? end_) then Some None else
      let sz := u64 end_ in
      let stream := seekg stream 0 in
      if negb (good stream) then Some None else
      match DigestLoop (S (length (file_bytes file))) stream md5_init with
      | None => None
      | Some (stream, md5) =>
          if badbit stream then Some None else
          let digest := take 16 (Finalize md5) in
          let stream := seekg (clear stream) 0 in
          if negb (good stream) then Some None
          else Some (Some (mkArtifact stream sz digest))
      end
  end.

Definition Seek (a : PatchArtifact) (offset : Z) : bool * PatchArtifact :=
  if (m_size a <? offset) || (2 ^ 63 - 1 <? offset) then (false, a) else
  let s := seekg (clear (m_stream a)) offset in
  (good s, mkArtifact s (m_size a) (m_digest a)).

(** [Read] into a non-null destination: the bytes stored, whose number is the
    result. *)
Definition Read (a : PatchArtifact) (capacity : Z) : bytes * PatchArtifact :=
  if capacity =? 0 then ([], a) else
  let bounded := Z.min capacity (2 ^ 63 - 1) in
  let '(got, s) := read (m_stream a) bounded in
  (got, mkArtifact s (m_size a) (m_digest a)).

Definition bad (a : PatchArtifact) : bool := badbit (m_stream a).

(** ** PatchHandler *)

Definition kChunkSize : Z := 4096.
Definition kMaxOutstandingBytes : Z := 256 * 1024.

Inductive TransferAction : Type :=
| XferSend (pkt : bytes)
| XferClose.

(** The framing of one chunk: command, little-endian size, payload. *)
Definition XferFrame (payload : bytes) : bytes :=
  let got := zlen payload in
  [cmd_code CMD_XFER_DATA; u8 (Z.land got 0xFF); u8 (Z.land (Z.shiftr got 8) 0xFF)] ++ payload.

(** The loop of the streaming thread.  [flow] is the flow control, if any: the
    answers of its successive [awaitWritable] calls. *)
Fixpoint TransferLoop (fuel : nat) (flow : option (Z -> nat -> bool)) (pass : nat)
    (a : PatchArtifact) : option (list TransferAction) :=
  match fuel with
  | O => None
  | S fuel' =>
      if match flow with Some awaitWritable => negb (awaitWritable kMaxOutstandingBytes pass) | None => false end
      then Some []
      else
        let '(payload, a') := Read a kChunkSize in
        if zlen payload <=? 0
        then Some (if bad a' then [XferClose] else [])
        else match TransferLoop fuel' flow (S pass) a' with
             | Some acts => Some (XferSend (XferFrame payload) :: acts)
             | None => None
             end
  end.

(** The return value, and what the detached thread does when one is started. *)
Definition StartPatchTransfer (flow : option (Z -> nat -> bool))
    (artifact : option PatchArtifact) (startOffset : Z)
    : bool * option (option (list TransferAction)) :=
  match artifact with
  | None => (false, None)
  | Some a =>
      if m_size a <? startOffset then (false, None) else
      let '(ok, a') := Seek a startOffset in
      if negb ok then (false, None)
      else (true, Some (TransferLoop (S (length (content (m_stream a')))) flow 0 a'))
  end.

(** ** Specification *)

(** A stream over [d] at [p], ready to read. *)
Definition fresh_stream (d : bytes) (flt : option Z) (p : Z) : ifstream :=
  mkStream d flt p false false false.

(** Every byte of the file can be read. *)
Definition readable (d : bytes) (flt : option Z) : bool :=
  match flt with
  | Some f => (f <? 0) || (zlen d <=? f)
  | None => true
  end.

(** The file a path must name for the archive to be offered. *)
Definition servable (file : File) : bool :=
  file_regular file && file_opens file && (0 <? zlen (file_bytes file)) &&
  (zlen (file_bytes file) <? 2 ^ 63) && readable (file_bytes file) (file_fault file).

Definition artifact_of (file : File) : PatchArtifact :=
  mkArtifact (fresh_stream (file_bytes file) (file_fault file) 0) (zlen (file_bytes file))
    (Finalize (UpdateData md5_init (file_bytes file))).

(** The payloads a client collects from the packets sent. *)
Fixpoint received (acts : list TransferAction) : bytes :=
  match acts with
  | [] => []
  | XferSend pkt :: acts' => drop 3 pkt ++ received acts'
  | XferClose :: acts' => received acts'
  end.

(** A packet as the protocol defines it. *)
Definition xfer_packet (act : TransferAction) : Prop :=
  match act with
  | XferSend pkt =>
      exists lo hi payload, pkt = [0x31; lo; hi] ++ payload /\
        is_byte lo /\ is_byte hi /\ zlen payload = lo + 256 * hi /\ 1 <= zlen payload <= 4096
  | XferClose => False
  end.

(** ** Lemmas *)

Lemma readable_no_fault (d : bytes) (flt : option Z) (p n : Z) :
  readable d flt = true -> 0 <= p -> meets_fault (fresh_stream d flt p) n = false.
Proof.
  unfold readable, meets_fault, fresh_stream. cbn. destruct flt as [f|]; [|done].
  rewrite orb_true_iff, Z.ltb_lt, Z.leb_le. intros Hf Hp.
  apply andb_false_iff. rewrite andb_false_iff, Z.leb_gt, Z.ltb_ge, Z.ltb_ge. lia.
Qed.

(** A read from a ready stream of readable bytes: either a full chunk and a ready
    stream further on, or the rest and the end of the file. *)
Lemma read_fresh (d : bytes) (flt : option Z) (p n : Z) :
  readable d flt = true -> 0 <= p <= zlen d -> 0 < n ->
  (p + n <= zlen d /\
   read (fresh_stream d flt p) n =
     (take (Z.to_nat n) (drop (Z.to_nat p) d), fresh_stream d flt (p + n))) \/
  (zlen d < p + n /\
   read (fresh_stream d flt p) n =
     (drop (Z.to_nat p) d, mkStream d flt (zlen d) true true false)).
Proof.
  intros Hr Hp Hn. unfold read. rewrite (readable_no_fault d flt p n Hr) by lia.
  cbn [good fresh_stream eofbit failbit badbit negb orb content pos fault].
  destruct (decide (p + n <= zlen d)) as [Hfull|Hshort]; [left|right].
  - assert (Hl : zlen (take (Z.to_nat n) (drop (Z.to_nat p) d)) = n)
      by (apply zlen_take; rewrite zlen_drop; lia).
    rewrite Hl, Z.ltb_irrefl. done.
  - split; [lia|]. rewrite take_ge by (rewrite length_drop; unfold zlen in *; lia).
    rewrite zlen_drop by lia. destruct (Z.ltb_spec (zlen d - p) n); [|lia].
    by replace (p + (zlen d - p)) with (zlen d) by lia.
Qed.

Lemma drop_split (d : bytes) (p n : Z) :
  0 <= p -> 0 <= n -> p + n <= zlen d ->
  drop (Z.to_nat p) d =
  take (Z.to_nat n) (drop (Z.to_nat p) d) ++ drop (Z.to_nat (p + n)) d.
Proof.
  intros. rewrite <- (take_drop (Z.to_nat n) (drop (Z.to_nat p) d)) at 1.
  by rewrite drop_drop, <- Z2Nat.inj_add by lia.
Qed.

Context {ML : Md5Laws}.

Lemma update_nonempty (c : md5_ctx) (b : bytes) :
  (if 0 <? zlen b then UpdateData c b else c) = UpdateData c b.
Proof.
  destruct (Z.ltb_spec 0 (zlen b)) as [|Hz]; [done|].
  destruct b; [by rewrite md5_update_nil|]. rewrite zlen_cons in Hz.
  pose proof (zlen_nonneg b). lia.
Qed.

Lemma DigestLoop_readable (fuel : nat) (d : bytes) (flt : option Z) (p : Z) (c : md5_ctx) :
  readable d flt = true -> 0 <= p <= zlen d -> zlen d - p < DigestChunkSize * Z.of_nat fuel ->
  DigestLoop fuel (fresh_stream d flt p) c =
  Some (mkStream d flt (zlen d) true true false, UpdateData c (drop (Z.to_nat p) d)).
Proof.
  intros Hr. unfold DigestChunkSize. revert p c.
  induction fuel as [|fuel IH]; intros p c Hp Hf; [lia|]. cbn [DigestLoop].
  destruct (read_fresh d flt p DigestChunkSize Hr Hp) as [[Hn ->]|[Hn ->]]; [done| |];
    cbn [fresh_stream stream_ok failbit badbit orb negb]; unfold DigestChunkSize in *.
  - rewrite update_nonempty, IH by lia. rewrite md5_update_app, <- drop_split by lia. done.
  - rewrite update_nonempty. by destruct fuel.
Qed.

(** An unreadable byte ahead ends the loop with [badbit]. *)
Lemma DigestLoop_fault (fuel : nat) (d : bytes) (f : Z) (p : Z) (c : md5_ctx) :
  0 <= p <= f -> f < zlen d -> zlen d - p < DigestChunkSize * Z.of_nat fuel ->
  exists s c', DigestLoop fuel (fresh_stream d (Some f) p) c = Some (s, c') /\ badbit s = true.
Proof.
  unfold DigestChunkSize. revert p c.
  induction fuel as [|fuel IH]; intros p c Hp Hd Hf; [lia|]. cbn [DigestLoop].
  change (stream_ok (fresh_stream d (Some f) p)) with true. cbn [negb].
  unfold read. cbn [good fresh_stream eofbit failbit badbit negb orb content pos fault].
  destruct (meets_fault _ _) eqn:Hm.
  - eexists _, _. split; [by destruct fuel|done].
  - unfold meets_fault in Hm. cbn [fresh_stream fault pos content] in Hm.
    apply andb_false_iff in Hm. rewrite andb_false_iff, Z.leb_gt, !Z.ltb_ge in Hm.
    unfold DigestChunkSize in *.
    assert (Hl : zlen (take (Z.to_nat 4096) (drop (Z.to_nat p) d)) = 4096)
      by (apply zlen_take; rewrite zlen_drop; lia).
    rewrite Hl. change (4096 <? 4096) with false. apply IH; lia.
Qed.

Lemma Open_servable (fs : FileSystem) (path : bytes) :
  Open fs path =
  Some (match fs path with
        | Some file => if servable file then Some (artifact_of file) else None
        | None => None
        end).
Proof.
  unfold Open, servable. destruct (fs path) as [[reg op d flt]|]; [|done].
  cbn [file_regular file_opens file_bytes file_fault seekg good failbit badbit eofbit content fault orb negb].
  destruct reg, op; cbn [negb andb]; try done. unfold tellg. cbn [pos].
  destruct (Z.ltb_spec (zlen d) (2 ^ 63)); [|by rewrite andb_false_r].
  destruct (Z.leb_spec (zlen d) 0), (Z.ltb_spec 0 (zlen d)); try lia; cbn [orb andb]; [done|].
  destruct (Z.ltb_spec (2 ^ 64 - 1) (zlen d)); [lia|].
  change (mkStream d flt 0 false false false) with (fresh_stream d flt 0).
  destruct (readable d flt) eqn:Hr.
  - rewrite DigestLoop_readable; [|done|lia|unfold DigestChunkSize, zlen; lia].
    cbn. rewrite wrap_small by lia. unfold artifact_of. cbn.
    change (drop (Z.to_nat 0) d) with d.
    rewrite take_ge; [done|]. pose proof (md5_length (UpdateData md5_init d)). unfold zlen in *. lia.
  - destruct flt as [f|]; [|done]. cbn in Hr. bool_facts.
    destruct (DigestLoop_fault (S (length d)) d f 0 md5_init) as (s & c' & -> & ->);
      [lia|lia|unfold DigestChunkSize, zlen; lia|done].
Qed.

(** ** Transfer *)

Lemma XferFrame_packet (payload : bytes) :
  1 <= zlen payload <= 4096 -> xfer_packet (XferSend (XferFrame payload)).
Proof.
  intros Hl. unfold xfer_packet, XferFrame.
  set (n := zlen payload) in *.
  assert (Hlo : Z.land n 0xFF = n mod 256) by (apply (Z.land_ones n 8); lia).
  assert (Hhi : Z.land (Z.shiftr n 8) 0xFF = n / 256).
  { change 0xFF with (Z.ones 8). rewrite (Z.land_ones (Z.shiftr n 8) 8), Z.shiftr_div_pow2 by lia.
    change (2 ^ 8) with 256. apply Z.mod_small. split; [apply Z.div_pos; lia|].
    apply Z.div_lt_upper_bound; lia. }
  pose proof (Z.mod_pos_bound n 256 ltac:(lia)). pose proof (Z.div_mod n 256 ltac:(lia)).
  assert (0 <= n / 256 < 256) by (split; [apply Z.div_pos|apply Z.div_lt_upper_bound]; lia).
  rewrite Hlo, Hhi, !wrap_small by lia.
  exists (n mod 256), (n / 256), payload. unfold is_byte. repeat split; (done || lia).
Qed.

(** At the end of the file the next read delivers nothing and is not an error. *)
Lemma TransferLoop_eof (fuel : nat) (flow : option (Z -> nat -> bool)) (pass : nat)
    (d : bytes) (flt : option Z) (p sz : Z) (dg : bytes) :
  TransferLoop (S fuel) flow pass (mkArtifact (mkStream d flt p true true false) sz dg) = Some [].
Proof. cbn. by destruct (match flow with Some _ => _ | None => _ end). Qed.

(** The thread's loop on a readable archive, with any flow control. *)
Lemma TransferLoop_spec (fuel : nat) (flow : option (Z -> nat -> bool)) (pass : nat)
    (d : bytes) (flt : option Z) (p sz : Z) (dg : bytes) :
  readable d flt = true -> 0 <= p <= zlen d -> zlen d - p < Z.of_nat fuel ->
  exists acts, TransferLoop fuel flow pass (mkArtifact (fresh_stream d flt p) sz dg) = Some acts /\
    Forall xfer_packet acts /\
    (exists rest, drop (Z.to_nat p) d = received acts ++ rest) /\
    ((forall f k, flow = Some f -> f kMaxOutstandingBytes k = true) -> received acts = drop (Z.to_nat p) d).
Proof.
  intros Hr. revert pass p. induction fuel as [|fuel IH]; intros pass p Hp Hf; [lia|].
  cbn [TransferLoop].
  destruct (match flow with Some _ => _ | None => _ end) eqn:Hflow.
  { exists []. split; [done|]. split; [done|]. split; [by eexists|].
    intros Hw. destruct flow as [f|]; [|done]. by rewrite (Hw f pass) in Hflow. }
  unfold Read. change (kChunkSize =? 0) with false.
  change (Z.min kChunkSize (2 ^ 63 - 1)) with 4096. cbn [m_stream m_size m_digest].
  destruct (read_fresh d flt p 4096 Hr Hp) as [[Hn ->]|[Hn ->]]; [done| |].
  - assert (Hl : zlen (take (Z.to_nat 4096) (drop (Z.to_nat p) d)) = 4096)
      by (apply zlen_take; rewrite zlen_drop; lia).
    rewrite Hl. change (4096 <=? 0) with false.
    destruct (IH (S pass) (p + 4096)) as (acts & -> & Hpk & [rest Hrest] & Hall); [lia|lia|].
    eexists. split; [reflexivity|]. cbn [received drop XferFrame app].
    split; [constructor; [apply XferFrame_packet; lia|done]|]. split.
    + exists rest. rewrite <- app_assoc, <- Hrest. apply drop_split; lia.
    + intros Hw. rewrite Hall by done. symmetry. apply drop_split; lia.
  - rewrite zlen_drop by lia. destruct (Z.leb_spec (zlen d - p) 0) as [Hz|Hz].
    + exists []. cbn. replace (drop (Z.to_nat p) d) with (@nil Z);
        [|symmetry; apply drop_ge; unfold zlen in *; lia].
      repeat split; [done|]. by exists [].
    + destruct fuel as [|fuel]; [lia|]. rewrite TransferLoop_eof.
      eexists. split; [reflexivity|]. cbn [received drop XferFrame app]. rewrite app_nil_r.
      split; [repeat constructor; apply XferFrame_packet; rewrite zlen_drop; lia|].
      split; [exists []; by rewrite app_nil_r|done].
Qed.

End PatchArtifact.

(** ** Properties *)

(** C27. Opening an archive always terminates, and yields an artifact exactly for a
    regular, openable, non-empty file of less than 2^63 bytes, all of which can be read; the advertised
    size and digest are then those of the whole file, and the retained stream stands
    at its start, ready to be served. *)
Theorem Open_exact `{Md5Hash} `{!Md5Laws} (fs : FileSystem) (path : bytes) (a : PatchArtifact) :
  is_Some (Open fs path) /\
  (Open fs path = Some (Some a) <->
   exists file, fs path = Some file /\ servable file = true /\
     m_size a = zlen (file_bytes file) /\
     m_digest a = Finalize (UpdateData md5_init (file_bytes file)) /\
     m_stream a = fresh_stream (file_bytes file) (file_fault file) 0).
Proof.
  rewrite Open_servable. split; [done|].
  destruct (fs path) as [file|]; [|split; [done|by intros (? & ? & _)]].
  destruct (servable file) eqn:Hs.
  - split.
    + intros [= <-]. exists file. done.
    + intros (f & [= <-] & _ & H1 & H2 & H3). do 2 f_equal. destruct a. cbn in *. by subst.
  - split; [done|]. intros (f & [= <-] & ? & _). congruence.
Qed.

(** A stand-in digest for concrete evaluations: it keeps the whole message. *)
Definition sample_Md5 : Md5Hash := {|
  md5_ctx := bytes;
  md5_init := [];
  UpdateData := fun c b => c ++ b;
  Finalize := fun c => take 16 (c ++ replicate 16 0)
|}.

Lemma sample_Md5Laws : Md5Laws (H := sample_Md5).
Proof.
  split; intros; [apply eq_sym, app_assoc|apply app_nil_r|].
  change (zlen (take 16 (c ++ replicate 16 0)) = 16). unfold zlen. rewrite length_take, length_app, length_replicate. lia.
Qed.

Definition sample_fs (d : bytes) : FileSystem := fun _ => Some (mkFile true true d None).

Lemma Open_exact_witness :
  is_Some (Open (MD5 := sample_Md5) (sample_fs (str "abcdef")) (str "p")) /\
  (Open (MD5 := sample_Md5) (sample_fs (str "abcdef")) (str "p") =
     Some (Some (artifact_of (MD5 := sample_Md5) (mkFile true true (str "abcdef") None))) <->
   exists file, sample_fs (str "abcdef") (str "p") = Some file /\ servable file = true /\
     6 = zlen (file_bytes file) /\
     take 16 (str "abcdef" ++ replicate 16 0) =
       Finalize (Md5Hash := sample_Md5) (UpdateData (Md5Hash := sample_Md5) [] (file_bytes file)) /\
     fresh_stream (str "abcdef") None 0 = fresh_stream (file_bytes file) (file_fault file) 0).
Proof.
  apply (@Open_exact sample_Md5 sample_Md5Laws (sample_fs (str "abcdef")) (str "p")
    (artifact_of (MD5 := sample_Md5) (mkFile true true (str "abcdef") None))).
Defined.

Lemma StartPatchTransfer_spec (file : File) (dg : bytes)
    (flow : option (Z -> nat -> bool)) (offset : Z) :
  servable file = true -> 0 <= offset ->
  let a := mkArtifact (fresh_stream (file_bytes file) (file_fault file) 0) (zlen (file_bytes file)) dg in
  if offset <=? zlen (file_bytes file) then
    exists acts, StartPatchTransfer flow (Some a) offset = (true, Some (Some acts)) /\
      Forall xfer_packet acts /\
      (exists rest, drop (Z.to_nat offset) (file_bytes file) = received acts ++ rest) /\
      ((forall f k, flow = Some f -> f kMaxOutstandingBytes k = true) ->
       received acts = drop (Z.to_nat offset) (file_bytes file))
  else StartPatchTransfer flow (Some a) offset = (false, None).
Proof.
  intros Hs Ho a. unfold servable in Hs. bool_facts.
  unfold StartPatchTransfer, Seek. subst a. cbn [m_size m_stream m_digest].
  destruct (Z.leb_spec offset (zlen (file_bytes file))) as [Hle|Hgt].
  - destruct (Z.ltb_spec (zlen (file_bytes file)) offset); [lia|].
    destruct (Z.ltb_spec (2 ^ 63 - 1) offset); [lia|]. cbn [orb].
    change (seekg (clear (fresh_stream (file_bytes file) (file_fault file) 0)) offset)
      with (fresh_stream (file_bytes file) (file_fault file) offset).
    change (good (fresh_stream (file_bytes file) (file_fault file) offset)) with true.
    cbn [negb m_stream].
    destruct (TransferLoop_spec (S (length (file_bytes file))) flow 0 (file_bytes file)
      (file_fault file) offset (zlen (file_bytes file)) dg) as (acts & Hl & Hrest);
      [done|lia|unfold zlen; lia|].
    exists acts. split; [|done]. change (content (fresh_stream ?d ?f ?o)) with d. by rewrite Hl.
  - destruct (Z.ltb_spec (zlen (file_bytes file)) offset); [done|lia].
Qed.

(** The transfer delivers the archive: from an opened artifact and an offset within
    it, a transfer starts, the thread terminates, every packet is a well-formed
    [CMD_XFER_DATA] frame of 1 to 4096 bytes, the connection is not closed, what the
    client has received is always a prefix of the file from the offset, and it is all
    of it when the flow control never reports the connection gone; an offset beyond
    the file starts nothing. *)
Theorem StartPatchTransfer_delivers (file : File) (dg : bytes)
    (flow : option (Z -> nat -> bool)) (offset : Z) :
  servable file = true -> 0 <= offset ->
  let a := mkArtifact (fresh_stream (file_bytes file) (file_fault file) 0) (zlen (file_bytes file)) dg in
  if offset <=? zlen (file_bytes file) then
    exists acts, StartPatchTransfer flow (Some a) offset = (true, Some (Some acts)) /\
      Forall xfer_packet acts /\
      (exists rest, drop (Z.to_nat offset) (file_bytes file) = received acts ++ rest) /\
      ((forall f k, flow = Some f -> f kMaxOutstandingBytes k = true) ->
       received acts = drop (Z.to_nat offset) (file_bytes file))
  else StartPatchTransfer flow (Some a) offset = (false, None).
Proof. apply StartPatchTransfer_spec. Qed.

Lemma StartPatchTransfer_delivers_witness :
  exists acts, StartPatchTransfer None
      (Some (mkArtifact (fresh_stream (str "abcdef") None 0) 6 [])) 3 = (true, Some (Some acts)) /\
    Forall xfer_packet acts /\
    (exists rest, drop 3 (str "abcdef") = received acts ++ rest) /\
    ((forall f k, @None (Z -> nat -> bool) = Some f -> f kMaxOutstandingBytes k = true) ->
     received acts = drop 3 (str "abcdef")).
Proof.
  apply (StartPatchTransfer_delivers (mkFile true true (str "abcdef") None) [] None 3);
    [reflexivity|lia].
Defined.
