(* ===== verification/Streaming.v ===== *)
(** * Streaming a patch against a slow client (src/Auth/PatchHandler.cpp)

    The thread of [StartPatchTransfer] cut into its steps, beside the transport that writes
    what is queued, a piece at a time, and may lose the connection at any moment.  The
    transport is not part of the sources; what the thread relies on is the class
    [FlowControl]. *)

From S2P Require Import Prelude AuthCodes PatchArtifact.

Local Open Scope Z_scope.
Local Open Scope realmd_scope.

(** [awaitWritable limit] on an open connection returns once [writable limit outstanding]
    holds of the number of bytes handed over and not yet written: the backlog is down to
    the limit, and an empty one always is. *)
Class FlowControl : Type := { writable : Z -> Z -> bool }.

Class FlowControlLaws `{FlowControl} : Prop := {
  writable_limit : forall limit outstanding, writable limit outstanding = true -> outstanding <= limit;
  writable_drained : forall limit, 0 < limit -> writable limit 0 = true
}.

(** Where the thread is: before [awaitWritable], before [Read], before the call of the sender
    with a framed packet, behind the loop, or ended. *)
Inductive ThreadPoint : Type :=
| AtWait
| AtRead
| AtSend (pkt : bytes)
| BehindLoop
| Ended.

(** The thread, whether it has a flow control, its archive, and the connection: what is
    queued, what is written, whether it is still there and whether the thread has asked to
    close it. *)
Record Transfer : Type := mkTransfer {
  t_flow : bool;
  t_point : ThreadPoint;
  t_artifact : PatchArtifact;
  t_queue : bytes;
  t_wire : bytes;
  t_open : bool;
  t_closing : bool
}.

#[export] Instance Transfer_updatable : Updatable Transfer :=
  Rebuild _ (fun t => mkTransfer (t_flow t) (t_point t) (t_artifact t) (t_queue t) (t_wire t) (t_open t) (t_closing t)).

Section Streaming.
Context `{FC : FlowControl}.

(** ** The steps *)

(** The checks of [StartPatchTransfer]; [None] is [return false]. *)
Definition Launch (flow : bool) (artifact : option PatchArtifact) (startOffset : Z) : option Transfer :=
  a ← artifact;
  if m_size a <? startOffset then None else
  let '(ok, a') := Seek a startOffset in
  if negb ok then None else Some (mkTransfer flow AtWait a' [] [] true false).

(** One step of the thread; [None] when it is blocked or has ended.  Packets for a connection
    that is gone are lost. *)
Definition thread_step (t : Transfer) : option Transfer :=
  match t_point t with
  | AtWait =>
      if negb (t_flow t) then Some (t <| t_point := AtRead |>) else
      if negb (t_open t) then Some (t <| t_point := Ended |>) else
      if writable kMaxOutstandingBytes (zlen (t_queue t)) then Some (t <| t_point := AtRead |>) else None
  | AtRead =>
      let '(payload, a) := Read (t_artifact t) kChunkSize in
      Some (t <| t_artifact := a |>
              <| t_point := if zlen payload <=? 0 then BehindLoop else AtSend (XferFrame payload) |>)
  | AtSend pkt =>
      Some (t <| t_queue := if t_open t then t_queue t ++ pkt else t_queue t |> <| t_point := AtWait |>)
  | BehindLoop =>
      Some (t <| t_closing := t_closing t || bad (t_artifact t) |> <| t_point := Ended |>)
  | Ended => None
  end.

(** The transport writes some of the backlog, or the connection goes, and the backlog with it. *)
Inductive stream_step (t : Transfer) : Transfer -> Prop :=
| stream_thread t' : thread_step t = Some t' -> stream_step t t'
| stream_write n : t_open t = true -> (0 < n <= length (t_queue t))%nat ->
    stream_step t (t <| t_wire := t_wire t ++ take n (t_queue t) |> <| t_queue := drop n (t_queue t) |>)
| stream_lost : t_open t = true -> stream_step t (t <| t_open := false |> <| t_queue := [] |>).

(** ** Specification *)

(** The bytes and the closing requests of a list of actions. *)
Definition sends (acts : list TransferAction) : bytes :=
  concat ((fun act => match act with XferSend pkt => pkt | XferClose => [] end) <$> acts).

Definition closes (acts : list TransferAction) : bool :=
  existsb (fun act => match act with XferClose => true | _ => false end) acts.

(** A byte from [p] on cannot be read. *)
Definition faulty (d : bytes) (flt : option Z) (p : Z) : Prop := exists f, flt = Some f /\ p <= f < zlen d.

(** What the transfer of the archive [d] from [p] amounts to: the connection is closed exactly
    if a byte from the offset on cannot be read, the client has received a prefix of the
    rest of the archive, and all of it if the connection is not closed. *)
Definition outcome (d : bytes) (flt : option Z) (p : Z) (acts : list TransferAction) : Prop :=
  (closes acts = true <-> faulty d flt p) /\
  (exists rest, drop (Z.to_nat p) d = received acts ++ rest) /\
  (closes acts = false -> received acts = drop (Z.to_nat p) d).

(** The actions the thread has still to do, by the loop that runs in one piece. *)
Definition owes (t : Transfer) (acts : list TransferAction) : Prop :=
  match t_point t with
  | AtWait | AtRead => exists fuel pass, TransferLoop fuel None pass (t_artifact t) = Some acts
  | AtSend pkt => exists fuel pass acts', acts = XferSend pkt :: acts' /\
      TransferLoop fuel None pass (t_artifact t) = Some acts'
  | BehindLoop => acts = if bad (t_artifact t) then [XferClose] else []
  | Ended => acts = []
  end.

(** What the thread does in one piece is what has been and what will be done. *)
Definition keeps_script (script : list TransferAction) (t : Transfer) : Prop :=
  if t_open t then
    exists acts, owes t acts /\ sends script = t_wire t ++ t_queue t ++ sends acts /\
      closes script = t_closing t || closes acts
  else exists rest, sends script = t_wire t ++ rest.

(** The backlog. *)
Definition bounded (t : Transfer) : Prop :=
  t_flow t = true ->
  match t_point t with
  | AtRead => zlen (t_queue t) <= kMaxOutstandingBytes
  | AtSend pkt => zlen (t_queue t) <= kMaxOutstandingBytes /\ zlen pkt <= 3 + kChunkSize
  | _ => zlen (t_queue t) <= kMaxOutstandingBytes + (3 + kChunkSize)
  end.

(** The bytes of the archive the thread has not read. *)
Definition unread (a : PatchArtifact) : nat :=
  length (drop (Z.to_nat (pos (m_stream a))) (content (m_stream a))).

(** The steps of thread and transport together that can still follow. *)
Definition steps_left (t : Transfer) : nat :=
  (8 * unread (t_artifact t) + length (t_queue t) + (if t_open t then 1 else 0) +
   match t_point t with AtWait => 4 | AtRead => 3 | AtSend pkt => 5 + length pkt | BehindLoop => 1 | Ended => 0 end)%nat.

(** Nothing is left to do: the thread has ended, and what it sent is written or lost. *)
Definition settled (t : Transfer) : Prop :=
  t_point t = Ended /\ t_queue t = [].

(** ** Lemmas *)

Lemma Read_spec (a a' : PatchArtifact) payload :
  0 <= pos (m_stream a) -> Read a kChunkSize = (payload, a') ->
  0 <= pos (m_stream a') /\ (unread a' + length payload = unread a)%nat /\ zlen payload <= kChunkSize.
Proof.
  intros Hp. unfold Read. change (kChunkSize =? 0) with false.
  change (Z.min kChunkSize (2 ^ 63 - 1)) with kChunkSize. unfold read.
  destruct (negb (good (m_stream a))); [|destruct (meets_fault (m_stream a) kChunkSize)];
    intros [= <- <-]; unfold unread; cbn; [by split_and!; [lia|lia|]..|].
  set (got := take _ _). pose proof (zlen_nonneg got) as Hg. split_and!.
  - lia.
  - rewrite Z2Nat.inj_add by lia. unfold zlen. rewrite Nat2Z.id, <- drop_drop, length_drop.
    subst got. rewrite length_take. lia.
  - subst got. unfold zlen. rewrite length_take. unfold kChunkSize. lia.
Qed.

Lemma length_XferFrame payload : length (XferFrame payload) = (3 + length payload)%nat.
Proof. done. Qed.

(** Reading a chunk at [p]: it meets the unreadable byte, it is full, or it is the rest. *)
Lemma Read_fresh d flt p sz dg got a' :
  0 <= p -> Read (mkArtifact (fresh_stream d flt p) sz dg) kChunkSize = (got, a') ->
  (faulty d flt p /\ got = [] /\ bad a' = true) \/
  ((faulty d flt p <-> faulty d flt (p + kChunkSize)) /\ zlen got = kChunkSize /\
   drop (Z.to_nat p) d = got ++ drop (Z.to_nat (p + kChunkSize)) d /\
   a' = mkArtifact (fresh_stream d flt (p + kChunkSize)) sz dg) \/
  (~ faulty d flt p /\ got = drop (Z.to_nat p) d /\
   a' = mkArtifact (mkStream d flt (p + zlen got) true true false) sz dg).
Proof.
  intros Hp. unfold Read, read, faulty. change (kChunkSize =? 0) with false.
  change (Z.min kChunkSize (2 ^ 63 - 1)) with kChunkSize. cbn [m_stream m_size m_digest].
  change (good (fresh_stream d flt p)) with true. cbn [negb].
  destruct (meets_fault (fresh_stream d flt p) kChunkSize) eqn:Hm; unfold meets_fault in Hm; cbn in Hm.
  - intros [= <- <-]. left. destruct flt as [f|]; [|done]. bool_facts. split; [|done]. exists f. split; [done|lia].
  - intros [= <- <-]. right. cbn. set (rest := drop (Z.to_nat p) d).
    assert (Hrest : forall f, flt = Some f -> p <= f < zlen d -> p + kChunkSize <= f).
    { intros f -> Hf. apply Z.nlt_ge. intros Hlt. by rewrite !(proj2 (Z.leb_le _ _)), !(proj2 (Z.ltb_lt _ _)) in Hm by lia. }
    assert (Hlen : zlen rest = Z.max 0 (zlen d - p)) by (unfold rest, zlen; rewrite length_drop; lia).
    destruct (Z.le_gt_cases kChunkSize (zlen rest)) as [Hl|Hl]; [left|right].
    + rewrite zlen_take, Z.ltb_irrefl by (unfold kChunkSize in *; lia). split_and!; [|done| |done].
      * split; intros (f & -> & Hf); exists f; (split; [done|]); [|unfold kChunkSize in *; lia].
        specialize (Hrest f eq_refl Hf). lia.
      * rewrite Z2Nat.inj_add, <- drop_drop by (done || lia). by rewrite take_drop.
    + rewrite take_ge by (unfold zlen in Hl; lia). rewrite (proj2 (Z.ltb_lt _ _)) by done.
      split_and!; [|done|done]. intros (f & -> & Hf). specialize (Hrest f eq_refl Hf). unfold kChunkSize in *. lia.
Qed.

(** A pass of the loop, in one piece. *)
Lemma TransferLoop_pass fuel pass a acts :
  TransferLoop fuel None pass a = Some acts -> forall payload a', Read a kChunkSize = (payload, a') ->
  if zlen payload <=? 0 then acts = if bad a' then [XferClose] else []
  else exists fuel' acts', acts = XferSend (XferFrame payload) :: acts' /\
    TransferLoop fuel' None (S pass) a' = Some acts'.
Proof.
  destruct fuel as [|fuel]; [done|]. cbn [TransferLoop]. intros H payload a' Hr. rewrite Hr in H.
  destruct (zlen payload <=? 0); [by injection H|].
  destruct (TransferLoop fuel None (S pass) a') as [acts'|] eqn:E; [|done]. injection H as <-. by exists fuel, acts'.
Qed.

(** The loop in one piece ends, and the archive determines what it does. *)
Lemma TransferLoop_outcome fuel pass d flt p sz dg :
  0 <= p -> (length (drop (Z.to_nat p) d) < fuel)%nat ->
  exists acts, TransferLoop fuel None pass (mkArtifact (fresh_stream d flt p) sz dg) = Some acts /\
    outcome d flt p acts.
Proof.
  revert pass p. induction fuel as [|fuel IH]; intros pass p Hp Hf; [lia|]. cbn [TransferLoop].
  destruct (Read _ kChunkSize) as [got a'] eqn:Hr. unfold outcome.
  destruct (Read_fresh _ _ _ _ _ _ _ Hp Hr) as [(Hflt & -> & Hbad)|[(Hflt & Hlen & Hdrop & ->)|(Hflt & -> & ->)]].
  - exists [XferClose]. change (zlen [] <=? 0) with true. rewrite Hbad. by split_and!; [|split|exists (drop (Z.to_nat p) d)|].
  - rewrite Hlen. change (kChunkSize <=? 0) with false.
    destruct (IH (S pass) (p + kChunkSize)) as (acts & -> & Hcl & [rest Hrest] & Hall); [unfold kChunkSize; lia| |].
    { rewrite Hdrop, length_app in Hf. unfold zlen, kChunkSize in *. lia. }
    eexists. split; [reflexivity|]. cbn [closes existsb orb received drop XferFrame app]. rewrite Hdrop, Hflt.
    split_and!; [done|exists rest; by rewrite Hrest, app_assoc|]. intros Hc. by rewrite Hall.
  - destruct (Z.leb_spec (zlen (drop (Z.to_nat p) d)) 0) as [Hz|Hz].
    + exists []. assert (Hnil : drop (Z.to_nat p) d = []) by (apply nil_length_inv; unfold zlen in Hz; lia).
      rewrite Hnil. by split_and!; [|split|exists []|].
    + destruct fuel as [|fuel]; [unfold zlen in Hz; lia|]. rewrite TransferLoop_eof. eexists. split; [reflexivity|].
      cbn [closes existsb orb received drop XferFrame app]. rewrite app_nil_r.
      by split_and!; [split|exists []; rewrite app_nil_r|].
Qed.

(** Every step keeps the script. *)
Lemma thread_step_script script t t' :
  thread_step t = Some t' -> keeps_script script t -> keeps_script script t'.
Proof.
  unfold thread_step, keeps_script, owes. destruct (t_open t) eqn:Ho.
  - intros Hs (acts & Howes & Hsends & Hcloses). destruct (t_point t) as [| |pkt| |] eqn:Hp; cbn [negb] in Hs.
    + destruct (negb (t_flow t)); [|destruct (writable _ _); [|done]]; injection Hs as <-; cbn; rewrite Ho; by exists acts.
    + destruct (Read (t_artifact t) kChunkSize) as [payload a] eqn:Hr. injection Hs as <-. cbn. rewrite Ho.
      destruct Howes as (fuel & pass & Hloop). pose proof (TransferLoop_pass _ _ _ _ Hloop _ _ Hr) as Hpass.
      exists acts. split; [|done]. destruct (zlen payload <=? 0); [done|].
      destruct Hpass as (fuel' & acts' & ? & ?). by exists fuel', (S pass), acts'.
    + injection Hs as <-. cbn. rewrite Ho. destruct Howes as (fuel & pass & acts' & -> & Hloop).
      exists acts'. split_and!; [by exists fuel, pass| |done]. by rewrite Hsends, <- app_assoc.
    + injection Hs as <-. cbn. rewrite Ho, Howes in *. exists []. split; [done|].
      destruct (bad (t_artifact t)); cbn in *; by rewrite ?orb_false_r, ?orb_true_r in *.
    + done.
  - intros Hs Hrest.
    assert (t_wire t' = t_wire t /\ t_open t' = t_open t) as [-> ->]; [|by rewrite Ho].
    destruct (t_point t), (t_flow t); cbn [negb] in Hs; try destruct (Read _ _); by simplify_eq.
Qed.

Lemma stream_step_script script t t' : stream_step t t' -> keeps_script script t -> keeps_script script t'.
Proof.
  intros [t1 Hs|n Ho Hn|Ho]; [by apply thread_step_script|..]; unfold keeps_script; rewrite Ho; cbn.
  - rewrite Ho. intros (acts & Howes & Hsends & Hcloses). exists acts. split_and!; [done| |done].
    by rewrite Hsends, <- app_assoc, (app_assoc (take n _)), take_drop.
  - intros (acts & _ & Hsends & _). by eexists.
Qed.

Context {LAWS : FlowControlLaws}.

(** Every step keeps the bound, and there is one step less to come. *)
Definition in_range (t : Transfer) : Prop :=
  0 <= pos (m_stream (t_artifact t)) /\ bounded t /\ (t_open t = false -> t_queue t = []).

Lemma thread_step_range t t' :
  thread_step t = Some t' -> in_range t -> in_range t' /\ (steps_left t' < steps_left t)%nat.
Proof.
  unfold thread_step, in_range, bounded, steps_left. intros Hs (Hpos & Hb & Hq).
  destruct (t_point t) as [| |pkt| |] eqn:Hp.
  - destruct (t_flow t) eqn:Hf; cbn [negb] in Hs;
      [|injection Hs as <-; cbn; rewrite Hf; split; [split_and!; done|lia]].
    destruct (t_open t) eqn:Ho; cbn [negb] in Hs;
      [|injection Hs as <-; cbn; rewrite Hf, Ho; split; [split_and!; by auto|lia]].
    destruct (writable kMaxOutstandingBytes (zlen (t_queue t))) eqn:Hw; [|done]. injection Hs as <-. cbn. rewrite Hf, Ho.
    split; [|lia]. split_and!; [done| |done]. intros _. by apply writable_limit.
  - destruct (Read (t_artifact t) kChunkSize) as [payload a] eqn:Hr. injection Hs as <-.
    destruct (Read_spec _ _ _ Hpos Hr) as (Hpos' & Hunread & Hchunk). cbn.
    destruct (Z.leb_spec (zlen payload) 0) as [Hz|Hz].
    + split; [|lia]. split_and!; [done| |done]. intros Hf%Hb. unfold kChunkSize. lia.
    + split; [|unfold zlen in Hz; cbn [length]; lia]. split_and!; [done| |done].
      intros Hf%Hb. rewrite !zlen_cons. lia.
  - injection Hs as <-. cbn. destruct (t_open t); (split; [split_and!; [done|intros Hf%Hb|done]|]);
      rewrite ?zlen_app, ?length_app; unfold kChunkSize in *; lia.
  - injection Hs as <-. cbn. split; [done|lia].
  - done.
Qed.

Lemma stream_step_range t t' : stream_step t t' -> in_range t -> in_range t' /\ (steps_left t' < steps_left t)%nat.
Proof.
  intros [t1 Hs|n Ho Hn|Ho] Hr; [by apply thread_step_range|..]; destruct Hr as (Hpos & Hb & Hq).
  - split; [split_and!; [done| |by cbn; rewrite Ho]|unfold steps_left; cbn; rewrite Ho, length_drop; lia].
    assert (zlen (drop n (t_queue t)) <= zlen (t_queue t)) by (unfold zlen; rewrite length_drop; lia).
    unfold bounded in *. cbn. intros Hf%Hb. destruct (t_point t); lia.
  - split; [split_and!; [done| |done]|unfold steps_left; cbn; rewrite Ho; lia].
    pose proof (zlen_nonneg (t_queue t)). unfold bounded in *. cbn. change (zlen []) with 0. intros Hf%Hb.
    destruct (t_point t); lia.
Qed.

(** Unless everything is settled, the thread goes on or the transport has something to write. *)
Lemma stream_progress t :
  in_range t -> settled t \/ is_Some (thread_step t) \/ t_open t = true /\ (0 < length (t_queue t))%nat.
Proof.
  intros (_ & _ & Hq). unfold settled, thread_step.
  destruct (t_queue t) as [|b q] eqn:E; cbn [length].
  - destruct (t_point t); [|destruct (Read _ _)|..]; try by eauto.
    change (zlen []) with 0. rewrite writable_drained by done. destruct (t_flow t), (t_open t); by eauto.
  - destruct (t_open t); [|by specialize (Hq eq_refl)]. right. right. split; [done|lia].
Qed.

Lemma stream_step_flow t t' : stream_step t t' -> t_flow t' = t_flow t.
Proof.
  intros [t1 Hs|n _ _|_]; [|done..]. unfold thread_step in Hs.
  destruct (t_point t); repeat case_match; by simplify_eq.
Qed.

Lemma stream_run_ok script n t t' :
  nsteps stream_step n t t' -> in_range t -> keeps_script script t ->
  t_flow t' = t_flow t /\ in_range t' /\ keeps_script script t' /\ (n + steps_left t' <= steps_left t)%nat.
Proof.
  induction 1 as [|n t1 t2 t3 Hs _ IH]; [done|]. intros Hr Hk.
  destruct (stream_step_range _ _ Hs Hr) as [Hr2 Hlt].
  destruct IH as (Hf & ? & ? & ?); [done|by eapply stream_step_script|].
  rewrite Hf, (stream_step_flow _ _ Hs). split_and!; [done..|lia].
Qed.

(** A seek leaves the stream ready at its target. *)
Lemma Seek_fresh a offset a' :
  Seek a offset = (true, a') ->
  a' = mkArtifact (fresh_stream (content (m_stream a)) (fault (m_stream a)) offset) (m_size a) (m_digest a).
Proof. unfold Seek. by destruct (_ || _); intros; simplify_eq. Qed.

(** The start: the thread ends, and its script is what [StartPatchTransfer] does in one
    piece. *)
Lemma Launch_spec flow a offset t :
  0 <= offset -> Launch flow (Some a) offset = Some t ->
  t_flow t = flow /\ in_range t /\ (steps_left t <= 8 * length (content (m_stream a)) + 5)%nat /\
  exists acts, StartPatchTransfer None (Some a) offset = (true, Some (Some acts)) /\
    keeps_script acts t /\ outcome (content (m_stream a)) (fault (m_stream a)) offset acts.
Proof.
  intros Ho. unfold Launch, StartPatchTransfer. cbn [mbind option_bind].
  destruct (m_size a <? offset); [done|]. destruct (Seek a offset) as [ok a'] eqn:Hseek.
  destruct ok; [|done]. intros [= <-]. apply Seek_fresh in Hseek as ->. cbn [negb m_stream fresh_stream content].
  destruct (TransferLoop_outcome (S (length (content (m_stream a)))) 0 (content (m_stream a)) (fault (m_stream a))
    offset (m_size a) (m_digest a)) as (acts & Hloop & Hout); [done|rewrite length_drop; lia|].
  split_and!; [done|by split_and!|unfold steps_left, unread; cbn; rewrite length_drop; lia|].
  exists acts. split_and!; [by rewrite <- Hloop| |done].
  exists acts. split_and!; [by exists (S (length (content (m_stream a)))), 0%nat|done|done].
Qed.

End Streaming.

(** ** Property *)

(** C26. Streaming a patch: once a transfer is started at an offset, the thread's loop ends; it
    asks to close the connection exactly if a byte of the archive from the offset on cannot be
    read, the payloads are a prefix of the archive from the offset, and all of it
    if no byte is unreadable.  In every interleaving of the thread with a transport that
    writes the backlog in pieces of any size and may lose the connection at any moment, the
    bytes queued for the client, if there is a flow control, never exceed the ceiling by more
    than one packet, however large the archive and however slow the client; what is on the
    wire is always a prefix of these packets.  The run takes at most eight steps per byte of
    the archive and five more: until the thread has ended and nothing is queued, the thread
    can go on or the transport has something to write, and if the connection was not lost,
    then all the packets have been written, and the thread has asked to close exactly if the
    archive could not be read. *)
Theorem transfer_backpressure `{FlowControlLaws} (flow : bool) (artifact : PatchArtifact) (offset : Z)
    (t0 : Transfer) :
  0 <= offset -> Launch flow (Some artifact) offset = Some t0 ->
  let d := content (m_stream artifact) in
  let unreadable := exists f, fault (m_stream artifact) = Some f /\ offset <= f < zlen d in
  exists acts, StartPatchTransfer None (Some artifact) offset = (true, Some (Some acts)) /\
    (closes acts = true <-> unreadable) /\
    (exists rest, drop (Z.to_nat offset) d = received acts ++ rest) /\
    (~ unreadable -> received acts = drop (Z.to_nat offset) d) /\
    forall t n, nsteps stream_step n t0 t ->
    (flow = true -> zlen (t_queue t) <= kMaxOutstandingBytes + (3 + kChunkSize)) /\
    (exists rest, sends acts = t_wire t ++ rest) /\
    (n <= 8 * length d + 5)%nat /\
    (settled t \/ is_Some (thread_step t) \/ t_open t = true /\ (0 < length (t_queue t))%nat) /\
    (settled t -> t_open t = true -> t_wire t = sends acts /\ (t_closing t = true <-> unreadable)).
Proof.
  intros Ho Hl d unreadable. destruct (Launch_spec _ _ _ _ Ho Hl) as (Hf0 & Hr0 & Hn0 & acts & Hacts & Hk0 & Hcl & Hpre & Hall).
  exists acts. change (closes acts = true <-> unreadable) in Hcl. split_and!; [done..| |].
  { intros Hno. apply Hall, not_true_iff_false. tauto. }
  intros t n Hrun. destruct (stream_run_ok _ _ _ _ Hrun Hr0 Hk0) as (Hf & Hr & Hk & Hn).
  pose proof Hr as (_ & Hb & _). split_and!.
  - intros Hflow. rewrite <- Hf0, <- Hf in Hflow. apply Hb in Hflow. destruct (t_point t); unfold kChunkSize in *; lia.
  - unfold keeps_script in Hk. destruct (t_open t); [|done]. destruct Hk as (? & _ & -> & _). by eexists.
  - unfold d. lia.
  - by apply stream_progress.
  - intros [Hp Hq] Hopen. unfold keeps_script, owes in Hk. rewrite Hopen, Hp, Hq in Hk.
    destruct Hk as (? & -> & Hs & Hc). rewrite app_nil_r in Hs. rewrite orb_false_r in Hc. by rewrite <- Hc, <- Hs, Hcl.
Qed.

Section SampleStream.

Definition sample_flow : FlowControl := {| writable := fun limit outstanding => outstanding <? limit |}.

#[local] Existing Instance sample_flow.

#[local] Instance sample_flow_laws : FlowControlLaws.
Proof. split; cbn; [intros limit n; rewrite Z.ltb_lt|intros limit; rewrite Z.ltb_lt]; lia. Qed.

Definition sample_archive : PatchArtifact := mkArtifact (fresh_stream (str "abcdef") None 0) 6 [].

(** The thread has sent its only packet, of which two bytes are written. *)
Definition sample_sent : Transfer :=
  mkTransfer true AtWait (mkArtifact (mkStream (str "abcdef") None 6 true true false) 6 []) (0 :: str "def") [0x31; 3] true false.

Lemma sample_stream_run : exists t0, Launch true (Some sample_archive) 3 = Some t0 /\ nsteps stream_step 4 t0 sample_sent.
Proof.
  eexists. split; [reflexivity|].
  eapply nsteps_l; [apply stream_thread; reflexivity|].
  eapply nsteps_l; [apply stream_thread; reflexivity|].
  eapply nsteps_l; [apply stream_thread; reflexivity|].
  eapply nsteps_l; [apply (stream_write _ 2); [done|cbn; lia]|]. apply nsteps_O.
Qed.

Lemma transfer_backpressure_witness :
  exists acts, StartPatchTransfer None (Some sample_archive) 3 = (true, Some (Some acts)) /\
    received acts = str "def" /\
    zlen (t_queue sample_sent) <= kMaxOutstandingBytes + (3 + kChunkSize) /\
    exists rest, sends acts = t_wire sample_sent ++ rest.
Proof.
  destruct sample_stream_run as (t0 & Hl & Hrun).
  destruct (transfer_backpressure true sample_archive 3 t0) as (acts & Hacts & _ & _ & Hall & Hruns); [lia|exact Hl|].
  exists acts. destruct (Hruns sample_sent 4%nat Hrun) as (Hq & Hw & _).
  split; [exact Hacts|]. split; [apply Hall; by intros (f & ? & _)|]. split; [exact (Hq eq_refl)|exact Hw].
Defined.

End SampleStream.
