(* ===== verification/Interfaces.v ===== *)
(** * What realmd uses of code outside the repository

    Big numbers, SHA-1, byte buffers, the login database, the configuration and a
    few utilities come from MaNGOS' shared libraries, which are not part of this
    repository.  Each is a class of operations; a second class states the documented
    behaviour the authentication code relies on.  Theorems are proved against these
    classes, so they hold for every implementation that satisfies them. *)

From S2P Require Import Prelude RealmList PatchArtifact.

Local Open Scope Z_scope.

(** ** BigNumber *)

Class BigNumber : Type := {
  bn : Type;
  bn_new : bn;
  SetHexStr : bytes -> bn;
  SetDword : Z -> bn;
  SetBinary : bytes -> bn;
  AsByteArray : bn -> Z -> bytes;
  AsHexStr : bn -> bytes;
  GetNumBytes : bn -> Z;
  isZero : bn -> bool;
  ModExp : bn -> bn -> bn -> bn;
  bn_add : bn -> bn -> bn;
  bn_mul : bn -> bn -> bn;
  bn_mod : bn -> bn -> bn;
  (** the random source of [SetRand], which takes a number of bits *)
  rng : Type;
  SetRand : Z -> rng -> bn * rng
}.

(** The value of a text of hexadecimal digits. *)
Definition hex_digit (c : Z) : Z :=
  if (48 <=? c) && (c <=? 57) then c - 48
  else if (65 <=? c) && (c <=? 70) then c - 55
  else if (97 <=? c) && (c <=? 102) then c - 87
  else 0.

Definition hex_val (l : bytes) : Z := fold_left (fun acc c => 16 * acc + hex_digit c) l 0.

Definition is_hex (c : Z) : bool :=
  ((48 <=? c) && (c <=? 57)) || ((65 <=? c) && (c <=? 70)) || ((97 <=? c) && (c <=? 102)).

(** A big number is a non-negative integer; asking for its bytes at a width gives at
    least that many, and at a width that holds the number exactly that many, from
    which the number can be read back. *)
Class BigNumberLaws `{BigNumber} : Type := {
  bn_val : bn -> Z;
  bn_val_nonneg : forall n, 0 <= bn_val n;
  SetHexStr_val : forall l, Forall (fun c => is_hex c = true) l -> bn_val (SetHexStr l) = hex_val l;
  AsHexStr_hex : forall n, Forall (fun c => is_hex c = true) (AsHexStr n);
  AsHexStr_val : forall n, hex_val (AsHexStr n) = bn_val n;
  SetDword_val : forall z, 0 <= z < 2 ^ 32 -> bn_val (SetDword z) = z;
  AsByteArray_width : forall n w, 0 <= w -> w <= zlen (AsByteArray n w);
  AsByteArray_fits : forall n w, 0 <= w -> bn_val n < 256 ^ w -> zlen (AsByteArray n w) = w;
  AsByteArray_byte : forall n w, Forall is_byte (AsByteArray n w);
  AsByteArray_ext : forall m n w, bn_val m = bn_val n -> AsByteArray m w = AsByteArray n w;
  AsByteArray_SetBinary : forall l, Forall is_byte l -> AsByteArray (SetBinary l) (zlen l) = l;
  SetBinary_AsByteArray : forall n w, 0 <= w -> bn_val n < 256 ^ w ->
    bn_val (SetBinary (AsByteArray n w)) = bn_val n;
  GetNumBytes_le : forall n k, 0 <= k -> GetNumBytes n <= k <-> bn_val n < 256 ^ k;
  isZero_val : forall n, isZero n = true <-> bn_val n = 0;
  ModExp_val : forall g e n, 0 < bn_val n -> bn_val (ModExp g e n) = bn_val g ^ bn_val e mod bn_val n;
  bn_add_val : forall a b, bn_val (bn_add a b) = bn_val a + bn_val b;
  bn_mul_val : forall a b, bn_val (bn_mul a b) = bn_val a * bn_val b;
  bn_mod_val : forall a n, 0 < bn_val n -> bn_val (bn_mod a n) = bn_val a mod bn_val n
}.

(** ** SHA-1

    [Sha1Hash] accumulates what [UpdateData] is given; [GetDigest] after [Finalize]
    is the digest of the accumulated bytes. *)

Class Sha1 : Type := { Sha1Digest : bytes -> bytes }.

Definition SHA_DIGEST_LENGTH : Z := 20.

Class Sha1Laws `{Sha1} : Prop := {
  sha1_length : forall m, zlen (Sha1Digest m) = SHA_DIGEST_LENGTH;
  sha1_byte : forall m, Forall is_byte (Sha1Digest m)
}.

(** ** ByteBuffer: what [<<] appends for each type of operand *)

Class ByteBuffer : Type := {
  put_u8 : Z -> bytes;
  put_u16 : Z -> bytes;
  put_u32 : Z -> bytes;
  put_u64 : Z -> bytes;
  put_float : Z -> bytes;
  put_string : bytes -> bytes
}.

Class ByteBufferLaws `{ByteBuffer} : Prop := {
  put_u8_le : forall x, put_u8 x = le_bytes 1 x;
  put_u16_le : forall x, put_u16 x = le_bytes 2 x;
  put_u32_le : forall x, put_u32 x = le_bytes 4 x;
  put_u64_le : forall x, put_u64 x = le_bytes 8 x;
  put_float_le : forall x, put_float x = le_bytes 4 x;
  put_string_nul : forall s, put_string s = s ++ [0]
}.

(** ** The login database

    One constructor per SQL statement of the sources, with its parameters; a row
    holds the columns the code reads, after the conversions of [Field]. *)

Record AccountRow : Type := mkAccountRow {
  acc_sha_pass_hash : bytes;
  acc_id : Z;
  acc_locked : Z;
  acc_last_ip : bytes;
  acc_gmlevel : Z;
  acc_v : bytes;
  acc_s : bytes
}.

Inductive Query : Type :=
| SelIpBanned (ip : bytes)
| SelAccount (username : bytes)
| SelAccountBanned (id : Z)
| SelFailedLogins (username : bytes)
| SelSessionKey (username : bytes)
| SelAccountId (username : bytes)
| SelNumChars (realmid acctid : Z)
| SelRealmList.

(** The first row of a result ([SelRealmList]: all its rows). *)
Definition Row (q : Query) : Type :=
  match q with
  | SelIpBanned _ => unit
  | SelAccount _ => AccountRow
  | SelAccountBanned _ => Z * Z
  | SelFailedLogins _ => Z * Z
  | SelSessionKey _ => bytes
  | SelAccountId _ => Z * bytes
  | SelNumChars _ _ => Z
  | SelRealmList => list RealmRow
  end.

Inductive Statement : Type :=
| UpdVerifier (v s username : bytes)
| UpdSession (sessionkey last_ip : bytes) (locale : Z) (client_locale os username : bytes)
| UpdFailedLogins (username : bytes)
| InsAccountBanned (id bantime : Z)
| InsIpBanned (ip : bytes) (bantime : Z)
| UpdClientIdentity (client_locale os username : bytes)
| ExpireAccountBans
| ExpireIpBans.

Class LoginDatabase : Type := {
  db : Type;
  PQuery : forall q : Query, db -> option (Row q) * db;
  PExecute : Statement -> db -> db;
  DirectPExecute : Statement -> db -> bool * db;
  escape_string : bytes -> bytes
}.

(** What the tables answer: an account that can be selected has a session key column, no
    statement of the sources removes an account, and an update that reported success is
    what later selects of that column return. *)
Definition known `{LoginDatabase} (user : bytes) (d : db) : Prop :=
  is_Some (PQuery (SelSessionKey user) d).1.

Class LoginDatabaseLaws `{LoginDatabase} : Prop := {
  select_known : forall user d row, (PQuery (SelAccount user) d).1 = Some row -> known user d;
  query_known : forall user q d, known user (PQuery q d).2 <-> known user d;
  execute_known : forall user st d, known user d -> known user (PExecute st d);
  direct_known : forall user st d, known user d -> known user (DirectPExecute st d).2;
  session_key_stored : forall key ip loc cl os user d, known user d ->
    (DirectPExecute (UpdSession key ip loc cl os user) d).1 = true ->
    (PQuery (SelSessionKey user) (DirectPExecute (UpdSession key ip loc cl os user) d).2).1 = Some key
}.

(** ** Configuration and utilities *)

Class ConfigUtil : Type := {
  GetIntDefault : string -> Z -> Z;
  GetBoolDefault : string -> bool -> bool;
  GetStringDefault : string -> bytes -> bytes;
  GetLocaleByName : bytes -> Z;
  IsIPAddrInNetwork : Z -> Z -> Z -> bool;
  GetAddressString : Z -> Z -> bytes
}.

(** ** The whole environment

    Everything the session code calls outside the repository, and the file system
    its patch archives are in. *)

Class RealmdEnv : Type := {
  env_bn :: BigNumber;
  env_sha :: Sha1;
  env_buffer :: ByteBuffer;
  env_db :: LoginDatabase;
  env_config :: ConfigUtil;
  env_realm :: RealmEnv;
  env_md5 :: Md5Hash;
  env_fs : FileSystem
}.

Class RealmdLaws `{RealmdEnv} : Type := {
  laws_bn :: BigNumberLaws;
  laws_sha :: Sha1Laws;
  laws_buffer :: ByteBufferLaws;
  laws_md5 :: Md5Laws
}.
