(* ===== verification/Samples.v ===== *)
(** * A concrete environment

    Small executable instances of the classes of [Interfaces], with their laws: they
    show that the laws can hold together, and let sessions be evaluated. *)

From Stdlib Require Import Zpow_facts.
From S2P Require Import Prelude ClientBuild RealmList PatchArtifact Interfaces.

Local Open Scope Z_scope.

(** ** Big numbers as natural numbers *)

Definition num_bytes (z : Z) : Z := if z <=? 0 then 0 else Z.log2 z / 8 + 1.

Definition hex_char (d : Z) : Z := if d <? 10 then 48 + d else 55 + d.

Definition hex_text (z : Z) : bytes :=
  flat_map (fun b => [hex_char (b / 16); hex_char (b mod 16)])
    (reverse (le_bytes (Z.to_nat (num_bytes z)) z)).

Definition sample_BN : BigNumber := {|
  bn := N;
  bn_new := 0%N;
  SetHexStr l := Z.to_N (hex_val l);
  SetDword z := Z.to_N z;
  SetBinary l := Z.to_N (le_val l);
  AsByteArray n w := le_bytes (Z.to_nat (Z.max w (num_bytes (Z.of_N n)))) (Z.of_N n);
  AsHexStr n := hex_text (Z.of_N n);
  GetNumBytes n := num_bytes (Z.of_N n);
  isZero n := N.eqb n 0;
  ModExp g e n := Z.to_N (Zpow_mod (Z.of_N g) (Z.of_N e) (Z.of_N n));
  bn_add := N.add;
  bn_mul := N.mul;
  bn_mod := N.modulo;
  rng := Z;
  SetRand bits r := (Z.to_N ((r * 6364136223846793005 + 1442695040888963407) ^ 5 mod 2 ^ bits), r + 1)
|}.

Lemma num_bytes_le (z k : Z) : 0 <= z -> 0 <= k -> num_bytes z <= k <-> z < 256 ^ k.
Proof.
  intros Hz Hk. unfold num_bytes. change 256 with (2 ^ 8). rewrite <- Z.pow_mul_r by lia.
  pose proof (Z.pow_pos_nonneg 2 (8 * k) ltac:(lia) ltac:(lia)).
  destruct (Z.leb_spec z 0); [lia|]. pose proof (Z.div_mod (Z.log2 z) 8 ltac:(lia)) as Hdiv.
  pose proof (Z.mod_pos_bound (Z.log2 z) 8 ltac:(lia)).
  rewrite (Z.log2_lt_pow2 z (8 * k)) by lia. lia.
Qed.

Lemma num_bytes_nonneg (z : Z) : 0 <= num_bytes z.
Proof.
  unfold num_bytes. destruct (z <=? 0); [lia|]. pose proof (Z.log2_nonneg z).
  pose proof (Z.div_pos (Z.log2 z) 8). lia.
Qed.

Lemma hex_val_nonneg (l : bytes) : 0 <= hex_val l.
Proof.
  unfold hex_val. assert (Hgen : forall acc, 0 <= acc ->
    0 <= fold_left (fun acc c => 16 * acc + hex_digit c) l acc); [|by apply Hgen].
  induction l as [|c l IH]; intros acc Hacc; cbn [fold_left]; [done|]. apply IH.
  unfold hex_digit.
  destruct ((48 <=? c) && (c <=? 57)) eqn:?; [bool_facts; lia|].
  destruct ((65 <=? c) && (c <=? 70)) eqn:?; [bool_facts; lia|].
  destruct ((97 <=? c) && (c <=? 102)) eqn:?; [bool_facts; lia|lia].
Qed.

Lemma le_bytes_fits (k : nat) (z : Z) : 0 <= z < 256 ^ Z.of_nat k -> le_val (le_bytes k z) = z.
Proof. intros Hz. rewrite le_val_bytes. by apply Z.mod_small. Qed.

Lemma hex_byte (b : Z) : 0 <= b < 256 ->
  is_hex (hex_char (b / 16)) = true /\ is_hex (hex_char (b mod 16)) = true /\
  16 * hex_digit (hex_char (b / 16)) + hex_digit (hex_char (b mod 16)) = b.
Proof.
  intros Hb. assert (H : Forall (fun b => is_hex (hex_char (b / 16)) = true /\
    is_hex (hex_char (b mod 16)) = true /\
    16 * hex_digit (hex_char (b / 16)) + hex_digit (hex_char (b mod 16)) = b) (seqZ 0 256)).
  { apply (bool_decide_unpack _). by vm_compute. }
  rewrite Forall_forall in H. apply H, elem_of_seqZ. lia.
Qed.

Lemma hex_bytes_val (n : nat) (z : Z) :
  let t := flat_map (fun b => [hex_char (b / 16); hex_char (b mod 16)]) (reverse (le_bytes n z)) in
  hex_val t = z mod 256 ^ Z.of_nat n /\ Forall (fun c => is_hex c = true) t.
Proof.
  revert z. induction n as [|n IH]; intros z; [split; [symmetry; apply Z.mod_1_r|constructor]|].
  cbn [le_bytes]. cbv zeta. rewrite reverse_cons, flat_map_app.
  destruct (IH (z / 256)) as [Hv Hf]. destruct (hex_byte (z mod 256)) as (H1 & H2 & H3);
    [by apply Z.mod_pos_bound|].
  split.
  - unfold hex_val in *. rewrite fold_left_app, Hv. cbn [flat_map fold_left app].
    rewrite Nat2Z.inj_succ, Z.pow_succ_r by lia.
    rewrite (Z.rem_mul_r z 256) by lia. lia.
  - apply Forall_app. split; [done|]. by repeat constructor.
Qed.

Lemma hex_text_spec (z : Z) : 0 <= z ->
  Forall (fun c => is_hex c = true) (hex_text z) /\ hex_val (hex_text z) = z.
Proof.
  intros Hz. unfold hex_text. destruct (hex_bytes_val (Z.to_nat (num_bytes z)) z) as [Hv Hf].
  split; [done|]. rewrite Hv. pose proof (num_bytes_nonneg z). apply Z.mod_small.
  split; [done|]. rewrite Z2Nat.id by done. apply num_bytes_le; lia.
Qed.

Lemma sample_BNLaws : BigNumberLaws (H := sample_BN).
Proof.
  unshelve econstructor; [exact Z.of_N|..]; cbn.
  - intros n. lia.
  - intros l _. apply Z2N.id, hex_val_nonneg.
  - intros n. apply hex_text_spec. lia.
  - intros n. apply hex_text_spec. lia.
  - intros z Hz. lia.
  - intros n w Hw. unfold zlen. rewrite length_le_bytes. lia.
  - intros n w Hw Hn. unfold zlen. rewrite length_le_bytes.
    apply num_bytes_le in Hn; lia.
  - intros n w. apply le_bytes_byte.
  - intros m n w ->%N2Z.inj. done.
  - intros l Hl. pose proof (le_val_range l Hl) as Hr. rewrite Z2N.id by lia.
    rewrite Z.max_l; [|by apply num_bytes_le; [lia|auto with realmd|lia]].
    unfold zlen. rewrite Nat2Z.id. by apply le_bytes_val.
  - intros n w Hw Hn. rewrite Z.max_l by (apply num_bytes_le; lia).
    rewrite le_bytes_fits by (rewrite Z2Nat.id; lia). by rewrite Z2N.id by lia.
  - intros n k Hk. apply num_bytes_le; lia.
  - intros n. rewrite N.eqb_eq. lia.
  - intros g e n Hn. rewrite Zpow_mod_correct by lia.
    pose proof (Z.mod_pos_bound (Z.of_N g ^ Z.of_N e) (Z.of_N n)). lia.
  - intros a b. lia.
  - intros a b. lia.
  - intros a n Hn. apply N2Z.inj_mod.
Defined.

(** ** A hash that is not SHA-1 but has its shape *)

Definition sample_digest (m : bytes) : bytes :=
  le_bytes 20 (fold_left (fun acc c => (acc * 1099511628211 + c + 7) mod 2 ^ 160) m 14695981039346656037).

Definition sample_Sha1 : Sha1 := {| Sha1Digest := sample_digest |}.

Lemma sample_Sha1Laws : Sha1Laws (H := sample_Sha1).
Proof.
  split; intros m; [|apply le_bytes_byte].
  unfold zlen. change (Sha1Digest m) with (sample_digest m). unfold sample_digest.
  by rewrite length_le_bytes.
Qed.

(** ** Byte buffers *)

Definition sample_Buffer : ByteBuffer := {|
  put_u8 := le_bytes 1; put_u16 := le_bytes 2; put_u32 := le_bytes 4; put_u64 := le_bytes 8;
  put_float := le_bytes 4; put_string := fun s => s ++ [0]
|}.

Lemma sample_BufferLaws : ByteBufferLaws (H := sample_Buffer).
Proof. by split. Qed.

(** ** A database of one account *)

Record SampleDb : Type := mkSampleDb {
  sd_account : AccountRow;
  sd_name : bytes;
  sd_key : bytes;
  sd_failed : Z;
  sd_realms : list RealmRow
}.

Definition sample_query (q : Query) (d : SampleDb) : option (Row q) :=
  match q with
  | SelIpBanned _ => None
  | SelAccount u => if decide (u = sd_name d) then Some (sd_account d) else None
  | SelAccountBanned _ => None
  | SelFailedLogins u => if decide (u = sd_name d) then Some (acc_id (sd_account d), sd_failed d) else None
  | SelSessionKey u => if decide (u = sd_name d) then Some (sd_key d) else None
  | SelAccountId u =>
      if decide (u = sd_name d) then Some (acc_id (sd_account d), acc_sha_pass_hash (sd_account d)) else None
  | SelNumChars _ _ => Some 2
  | SelRealmList => Some (sd_realms d)
  end.

Definition sample_statement (st : Statement) (d : SampleDb) : SampleDb :=
  match st with
  | UpdSession key _ _ _ _ _ => mkSampleDb (sd_account d) (sd_name d) key 0 (sd_realms d)
  | UpdFailedLogins _ => mkSampleDb (sd_account d) (sd_name d) (sd_key d) (sd_failed d + 1) (sd_realms d)
  | _ => d
  end.

(** Quotes and backslashes are escaped. *)
Definition sample_escape (s : bytes) : bytes :=
  flat_map (fun c => if (c =? 39) || (c =? 92) then [92; c] else [c]) s.

Definition sample_Db : LoginDatabase := {|
  db := SampleDb;
  PQuery := fun q d => (sample_query q d, d);
  PExecute := sample_statement;
  DirectPExecute := fun st d => (true, sample_statement st d);
  escape_string := sample_escape
|}.

Lemma sample_DbLaws : LoginDatabaseLaws (H := sample_Db).
Proof.
  split; unfold known; cbn; unfold sample_query.
  - intros user d row. by repeat case_decide.
  - done.
  - intros user st d. destruct st; cbn; auto; repeat case_decide; done || by eexists.
  - intros user st d. destruct st; cbn; auto; repeat case_decide; done || by eexists.
  - intros key ip loc cl os user d [? Hk] _. by repeat case_decide.
Qed.

Definition sample_Config : ConfigUtil := {|
  GetIntDefault := fun _ dflt => dflt;
  GetBoolDefault := fun _ dflt => dflt;
  GetStringDefault := fun _ dflt => dflt;
  GetLocaleByName := fun _ => 0;
  IsIPAddrInNetwork := fun a c m => Z.land a m =? Z.land c m;
  GetAddressString := fun a p => to_string a ++ str ":" ++ to_string p
|}.

Definition sample_Env : RealmdEnv := {|
  env_bn := sample_BN; env_sha := sample_Sha1; env_buffer := sample_Buffer; env_db := sample_Db;
  env_config := sample_Config; env_realm := sample_RealmEnv; env_md5 := sample_Md5;
  env_fs := sample_fs (str "patch archive")
|}.

Definition sample_Laws : RealmdLaws (H := sample_Env) :=
  @Build_RealmdLaws sample_Env sample_BNLaws sample_Sha1Laws sample_BufferLaws sample_Md5Laws.

(** The same with a limit of one wrong password. *)
Definition sample_strict_Env : RealmdEnv := {|
  env_bn := sample_BN; env_sha := sample_Sha1; env_buffer := sample_Buffer; env_db := sample_Db;
  env_config := {|
    GetIntDefault := fun key dflt => if String.eqb key "WrongPass.MaxCount" then 1 else dflt;
    GetBoolDefault := fun _ dflt => dflt;
    GetStringDefault := fun _ dflt => dflt;
    GetLocaleByName := fun _ => 0;
    IsIPAddrInNetwork := fun a c m => Z.land a m =? Z.land c m;
    GetAddressString := fun a p => to_string a ++ str ":" ++ to_string p |};
  env_realm := sample_RealmEnv; env_md5 := sample_Md5; env_fs := sample_fs (str "patch archive")
|}.

Definition sample_strict_Laws : RealmdLaws (H := sample_strict_Env) :=
  @Build_RealmdLaws sample_strict_Env sample_BNLaws sample_Sha1Laws sample_BufferLaws sample_Md5Laws.

(** The account [ALICE], with the digest of her password and no stored verifier. *)
Definition alice_sha : bytes := str "00112233445566778899AABBCCDDEEFF00112233".

Definition sample_account : AccountRow :=
  mkAccountRow alice_sha 7 0 (str "10.0.0.9") 0 [] [].

Definition sample_db0 : SampleDb := mkSampleDb sample_account (str "ALICE") [] 0 sample_rows.
