(* ===== verification/Srp6.v ===== *)
(** * SRP6 arithmetic of the authentication handlers
    (the calculations of src/Auth/AuthSocket.cpp: [_SetVSFields],
    [_HandleLogonChallenge], [_HandleLogonProof] and [_HandleReconnectProof])

    Every quantity is serialised at the width the protocol fixes. *)

From Stdlib Require Import Zpow_facts.
From S2P Require Import Prelude Interfaces Samples.

Local Open Scope Z_scope.

Definition SRP_EPHEMERAL_WIDTH : Z := 32.
Definition SRP_SESSION_KEY_WIDTH : Z := 40.
Definition SRP_GENERATOR_WIDTH : Z := 1.
Definition SRP_RECONNECT_WIDTH : Z := 16.
Definition s_BYTE_SIZE : Z := 32.

Section Srp6.
Context `{BN : BigNumber} `{SH : Sha1}.

(** The constructor's [N] and [g]. *)
Definition N_hex : bytes :=
  str "894B645E89E1535BBDAD5B8B290650530801B18EBFBF5E8FAB3C82872A3E9BB7".
Definition srp_N : bn := SetHexStr N_hex.
Definition srp_g : bn := SetDword 7.

(** [value.AsByteArray(width)] read for [width] bytes: what [UpdateFixed] feeds to
    the hash and what the packets append. *)
Definition fixed (value : bn) (width : Z) : bytes :=
  take (Z.to_nat width) (AsByteArray value width).

(** The password digest of [_SetVSFields], with its zero fill and reversal. *)
Definition password_digest (rI : bytes) : bytes :=
  let I := SetHexStr rI in
  let mDigest :=
    if GetNumBytes I <=? SHA_DIGEST_LENGTH
    then fixed I SHA_DIGEST_LENGTH
    else replicate (Z.to_nat SHA_DIGEST_LENGTH) 0 in
  reverse mDigest.

(** [x = H(s | H(USER:PASS))]. *)
Definition srp_x (s : bn) (mDigest : bytes) : bn :=
  SetBinary (Sha1Digest (fixed s s_BYTE_SIZE ++ mDigest)).

Definition srp_v (g N x : bn) : bn := ModExp g x N.

(** The server's public value, [B = (3v + g^b) % N]. *)
Definition srp_gmod (g N b : bn) : bn := ModExp g b N.
Definition srp_B (N v gmod : bn) : bn := bn_mod (bn_add (bn_mul v (SetDword 3)) gmod) N.

Definition srp_u (A B : bn) : bn :=
  SetBinary (Sha1Digest (fixed A SRP_EPHEMERAL_WIDTH ++ fixed B SRP_EPHEMERAL_WIDTH)).

(** The server's premaster secret, [S = (A * v^u)^b % N]. *)
Definition srp_S (N A v u b : bn) : bn := ModExp (bn_mul A (ModExp v u N)) b N.

(** [t1[i] = t[i * 2 + r]] for [i < 16]. *)
Definition every_other (t : bytes) (r : nat) : bytes :=
  map (fun i => t !!! (2 * i + r)%nat) (seq 0 16).

(** [vK[i * 2] = d0[i]] and [vK[i * 2 + 1] = d1[i]]. *)
Definition interleave (d0 d1 : bytes) : bytes :=
  concat (zip_with (fun a b => [a; b]) d0 d1).

(** The session key from the premaster secret. *)
Definition srp_vK (S : bn) : bytes :=
  let t := fixed S SRP_EPHEMERAL_WIDTH in
  interleave (Sha1Digest (every_other t 0)) (Sha1Digest (every_other t 1)).

Definition srp_K (S : bn) : bn := SetBinary (srp_vK S).

(** [hash = H(N) xor H(g)]. *)
Definition srp_t3 (N g : bn) : bn :=
  SetBinary (zip_with Z.lxor
    (Sha1Digest (fixed N SRP_EPHEMERAL_WIDTH)) (Sha1Digest (fixed g SRP_GENERATOR_WIDTH))).

(** The proof of the client. *)
Definition srp_M (N g s A B K : bn) (login : bytes) : bn :=
  SetBinary (Sha1Digest
    (fixed (srp_t3 N g) SHA_DIGEST_LENGTH ++ Sha1Digest login ++ fixed s s_BYTE_SIZE ++
     fixed A SRP_EPHEMERAL_WIDTH ++ fixed B SRP_EPHEMERAL_WIDTH ++ fixed K SRP_SESSION_KEY_WIDTH)).

(** The proof of the server. *)
Definition srp_M2 (A M K : bn) : bytes :=
  Sha1Digest (fixed A SRP_EPHEMERAL_WIDTH ++ fixed M SHA_DIGEST_LENGTH ++ fixed K SRP_SESSION_KEY_WIDTH).

(** The reconnect proof, [H(login | R1 | challenge | K)]. *)
Definition reconnect_digest (login : bytes) (t1 reconnectProof K : bn) : bytes :=
  Sha1Digest (login ++ fixed t1 SRP_RECONNECT_WIDTH ++ fixed reconnectProof SRP_RECONNECT_WIDTH ++
              fixed K SRP_SESSION_KEY_WIDTH).

(** ** The client's side

    A client that knows the password digest, as the SRP6 protocol defines it: it
    draws [a], sends [A = g^a % N], and computes the premaster secret
    [(B - 3 g^x)^(a + u x) % N] from the salt and the [B] it receives. *)

Definition client_S (N g B x a u : Z) : Z := (B - 3 * g ^ x) ^ (a + u * x) mod N.

(** ** Lemmas *)

Context {BL : BigNumberLaws} {SL : Sha1Laws}.

Definition N_val : Z := Eval vm_compute in hex_val N_hex.

Lemma srp_N_val : bn_val srp_N = N_val.
Proof.
  unfold srp_N. rewrite SetHexStr_val; [by vm_compute|].
  apply (bool_decide_unpack _). vm_compute. exact I.
Qed.

Lemma N_val_range : 0 < N_val < 256 ^ 32.
Proof. by vm_compute. Qed.

Lemma srp_g_val : bn_val srp_g = 7.
Proof. unfold srp_g. by apply SetDword_val. Qed.

Lemma zlen_fixed (n : bn) (w : Z) : 0 <= w -> zlen (fixed n w) = w.
Proof.
  intros Hw. pose proof (AsByteArray_width n w Hw). unfold fixed. apply zlen_take. lia.
Qed.

Lemma fixed_byte (n : bn) (w : Z) : Forall is_byte (fixed n w).
Proof. apply Forall_take, AsByteArray_byte. Qed.

Lemma fixed_ext (m n : bn) (w : Z) : bn_val m = bn_val n -> fixed m w = fixed n w.
Proof. intros H. unfold fixed. by rewrite (AsByteArray_ext m n w H). Qed.

Lemma fixed_SetBinary (l : bytes) (w : Z) :
  Forall is_byte l -> zlen l = w -> fixed (SetBinary l) w = l.
Proof.
  intros Hl <-. unfold fixed. rewrite AsByteArray_SetBinary by done.
  apply take_ge. unfold zlen. lia.
Qed.

Lemma fixed_fits (n : bn) (w : Z) :
  0 <= w -> bn_val n < 256 ^ w -> bn_val (SetBinary (fixed n w)) = bn_val n.
Proof.
  intros Hw Hn. unfold fixed.
  rewrite take_ge by (pose proof (AsByteArray_fits n w Hw Hn); unfold zlen in *; lia).
  by apply SetBinary_AsByteArray.
Qed.

Lemma srp_gmod_val (b : bn) : bn_val (srp_gmod srp_g srp_N b) = 7 ^ bn_val b mod N_val.
Proof.
  unfold srp_gmod. pose proof N_val_range.
  by rewrite ModExp_val, srp_N_val, srp_g_val by (rewrite srp_N_val; lia).
Qed.

Lemma srp_B_val (v gmod : bn) :
  bn_val (srp_B srp_N v gmod) = (3 * bn_val v + bn_val gmod) mod N_val.
Proof.
  unfold srp_B. pose proof N_val_range.
  rewrite bn_mod_val, srp_N_val, bn_add_val, bn_mul_val, SetDword_val by (rewrite ?srp_N_val; lia).
  f_equal. lia.
Qed.

(** [MANGOS_ASSERT(gmod.GetNumBytes() <= 32)] always holds. *)
Lemma srp_gmod_fits (b : bn) : GetNumBytes (srp_gmod srp_g srp_N b) <= 32.
Proof.
  apply GetNumBytes_le; [lia|]. rewrite srp_gmod_val. pose proof N_val_range.
  pose proof (Z.mod_pos_bound (7 ^ bn_val b) N_val). lia.
Qed.

(** What is left of [B] after the client subtracts [3 g^x] is [g^b]. *)
Lemma strip_verifier (n gx gb : Z) :
  0 < n -> ((3 * (gx mod n) + gb mod n) mod n - 3 * gx) mod n = gb mod n.
Proof.
  intros Hn. rewrite Zminus_mod_idemp_l.
  transitivity ((gb + (-3 * (gx / n) - gb / n) * n) mod n); [f_equal|apply Z_mod_plus_full].
  rewrite (Z.mod_eq gx n), (Z.mod_eq gb n) by lia. ring.
Qed.

Lemma pow_mod (x e n : Z) : 0 < n -> (x mod n) ^ e mod n = x ^ e mod n.
Proof. intros Hn. symmetry. by apply Zpow_facts.Zpower_mod. Qed.

Lemma srp_exponents (n g x a b u : Z) :
  0 < n -> 0 <= x -> 0 <= a -> 0 <= b -> 0 <= u ->
  ((g ^ a mod n) * ((g ^ x mod n) ^ u mod n)) ^ b mod n =
  client_S n g ((3 * (g ^ x mod n) + g ^ b mod n) mod n) x a u.
Proof.
  intros Hn Hx Ha Hb Hu. unfold client_S.
  rewrite <- (pow_mod (_ - _)), strip_verifier, (pow_mod (g ^ b)) by done.
  assert (Hbase : ((g ^ a mod n) * ((g ^ x mod n) ^ u mod n)) mod n = (g ^ a * (g ^ x) ^ u) mod n).
  { by rewrite pow_mod, <- Zmult_mod. }
  rewrite <- (pow_mod ((g ^ a mod n) * ((g ^ x mod n) ^ u mod n)) b n), Hbase, pow_mod by done.
  f_equal. rewrite <- !Z.pow_mul_r, <- Z.pow_add_r, <- Z.pow_mul_r by nia. f_equal. ring.
Qed.

Lemma zlen_interleave (d0 d1 : bytes) :
  length d0 = length d1 -> zlen (interleave d0 d1) = 2 * zlen d0.
Proof.
  unfold interleave. revert d1; induction d0 as [|a d0 IH]; intros [|b d1] Hl; try done.
  cbn [zip_with concat]. rewrite zlen_app, IH by (cbn in Hl; lia).
  rewrite !zlen_cons, zlen_nil. lia.
Qed.

Lemma interleave_byte (d0 d1 : bytes) :
  Forall is_byte d0 -> Forall is_byte d1 -> Forall is_byte (interleave d0 d1).
Proof.
  unfold interleave. intros H0. revert d1; induction H0 as [|a d0 Ha H0 IH]; intros d1 H1; [done|].
  destruct H1 as [|b d1 Hb H1]; [done|]. do 2 (constructor; [done|]). by apply IH.
Qed.

Lemma srp_vK_bytes (S : bn) : Forall is_byte (srp_vK S) /\ zlen (srp_vK S) = SRP_SESSION_KEY_WIDTH.
Proof.
  unfold srp_vK. split; [apply interleave_byte; apply sha1_byte|].
  rewrite zlen_interleave; [by rewrite sha1_length|].
  pose proof (sha1_length (every_other (fixed S SRP_EPHEMERAL_WIDTH) 0)).
  pose proof (sha1_length (every_other (fixed S SRP_EPHEMERAL_WIDTH) 1)).
  unfold zlen in *. lia.
Qed.

(** The session key survives being stored in a big number: what is hashed at 40
    bytes is the interleaved digest. *)
Lemma fixed_srp_K (S : bn) : fixed (srp_K S) SRP_SESSION_KEY_WIDTH = srp_vK S.
Proof. destruct (srp_vK_bytes S). by apply fixed_SetBinary. Qed.

Lemma fixed_srp_M (N g s A B K : bn) (login : bytes) :
  fixed (srp_M N g s A B K login) SHA_DIGEST_LENGTH =
  Sha1Digest (fixed (srp_t3 N g) SHA_DIGEST_LENGTH ++ Sha1Digest login ++ fixed s s_BYTE_SIZE ++
    fixed A SRP_EPHEMERAL_WIDTH ++ fixed B SRP_EPHEMERAL_WIDTH ++ fixed K SRP_SESSION_KEY_WIDTH).
Proof. apply fixed_SetBinary; [apply sha1_byte|apply sha1_length]. Qed.

Lemma srp_vK_ext (S S' : bn) : bn_val S = bn_val S' -> srp_vK S = srp_vK S'.
Proof. intros H. unfold srp_vK. by rewrite (fixed_ext S S' _ H). Qed.

Lemma srp_S_client (A v b u : bn) (a x : Z) :
  0 <= a -> 0 <= x ->
  bn_val A = 7 ^ a mod N_val -> bn_val v = 7 ^ x mod N_val ->
  bn_val (srp_S srp_N A v u b) =
  client_S N_val 7 (bn_val (srp_B srp_N v (srp_gmod srp_g srp_N b))) x a (bn_val u).
Proof.
  intros Ha Hx HA Hv. pose proof N_val_range.
  rewrite srp_B_val, srp_gmod_val, Hv, <- srp_exponents by (apply bn_val_nonneg || lia).
  unfold srp_S. rewrite ModExp_val, bn_mul_val, ModExp_val, srp_N_val, HA, Hv by (rewrite srp_N_val; lia).
  done.
Qed.

End Srp6.

(** ** Properties *)

(** C28. SRP6 agreement: for every salt, password digest, client secret [a] and server
    secret [b], the server's premaster secret is the one a client that knows the
    password computes from the [B] it is sent, and both derive the same session key. *)
Theorem srp_agreement `{BN : BigNumber} `{SH : Sha1} {BL : BigNumberLaws} {SL : Sha1Laws}
    (s A b S_client : bn) (rI : bytes) (a : Z) :
  let x := srp_x s (password_digest rI) in
  let v := srp_v srp_g srp_N x in
  let B := srp_B srp_N v (srp_gmod srp_g srp_N b) in
  let u := srp_u A B in
  0 <= a -> bn_val A = 7 ^ a mod N_val ->
  bn_val S_client = client_S N_val 7 (bn_val B) (bn_val x) a (bn_val u) ->
  bn_val (srp_S srp_N A v u b) = bn_val S_client /\
  fixed (srp_K (srp_S srp_N A v u b)) SRP_SESSION_KEY_WIDTH =
  fixed (srp_K S_client) SRP_SESSION_KEY_WIDTH.
Proof.
  intros x v B u Ha HA HS. pose proof N_val_range.
  assert (Heq : bn_val (srp_S srp_N A v u b) = bn_val S_client).
  { rewrite HS. apply srp_S_client; [done|apply bn_val_nonneg|done|].
    unfold v, srp_v. by rewrite ModExp_val, srp_N_val, srp_g_val by (rewrite srp_N_val; lia). }
  split; [done|]. rewrite !fixed_srp_K. by apply srp_vK_ext.
Qed.

Definition sample_A : N := Z.to_N (7 ^ 5).
Definition sample_b : N := Z.to_N 11.
Definition sample_s : N := Z.to_N 3.

Section AgreementWitness.
#[local] Existing Instances sample_BN sample_BNLaws sample_Sha1 sample_Sha1Laws.

Lemma srp_agreement_witness :
  let x := srp_x sample_s (password_digest alice_sha) in
  let v := srp_v srp_g srp_N x in
  let B := srp_B srp_N v (srp_gmod srp_g srp_N sample_b) in
  let u := srp_u sample_A B in
  let S_client := Z.to_N (client_S N_val 7 (bn_val B) (bn_val x) 5 (bn_val u)) in
  bn_val (srp_S srp_N sample_A v u sample_b) = bn_val S_client /\
  fixed (srp_K (srp_S srp_N sample_A v u sample_b)) SRP_SESSION_KEY_WIDTH =
  fixed (srp_K S_client) SRP_SESSION_KEY_WIDTH.
Proof.
  cbv zeta. eapply (@srp_agreement sample_BN sample_Sha1 sample_BNLaws sample_Sha1Laws sample_s sample_A sample_b _ alice_sha 5).
  - lia.
  - by vm_compute.
  - apply Z2N.id, Z.mod_pos_bound. by vm_compute.
Defined.

End AgreementWitness.
