(* ===== verification/Session.v ===== *)
(** * The state of an authentication session and its primitives
    (src/Auth/AuthSocket.h and the buffered-stream part of src/Auth/AuthSocket.cpp)

    One [AuthSocket] object, the statics it shares with the others, and what it does
    to the outside world, recorded as a list of events in the order they happen. *)

From S2P Require Import Prelude AuthCodes ProtocolGuard PatchPolicy RealmList PatchArtifact.
From S2P Require Import Interfaces Srp6.

Local Open Scope Z_scope.
Local Open Scope realmd_scope.

Inductive eStatus : Set :=
| STATUS_CHALLENGE
| STATUS_LOGON_PROOF
| STATUS_RECON_PROOF
| STATUS_PATCH
| STATUS_AUTHED
| STATUS_CLOSED.

#[export] Instance eStatus_eq_dec : EqDecision eStatus.
Proof. solve_decision. Defined.

(** What leaves the session: bytes handed to the transport, a request to tear the
    connection down, database traffic, a started patch thread. *)
Inductive Event : Type :=
| EvSend (pkt : bytes)
| EvClose
| EvQuery (q : Query)
| EvExecute (st : Statement)
| EvDirect (st : Statement) (ok : bool)
| EvThread (acts : option (list TransferAction)).

(** The bytes a C string made of [s] holds ([s.c_str()] passed as [%s]). *)
Definition c_str (s : bytes) : bytes := default s (cstr (s ++ [0])).

Section Session.
Context `{ENV : RealmdEnv}.

(** The members of [AuthSocket].  [m_sender] and [m_closer] are callbacks of the
    transport; what matters of them here is whether they are set.  The big numbers
    [N], [s], [g], [v], [b], [B] and [K] are prefixed with [bn_]. *)
Record AuthSocket : Type := mkAuthSocket {
  m_readBuf : bytes;
  m_readPos : Z;
  m_sender : bool;
  m_closer : bool;
  m_flowControl : option (Z -> nat -> bool);
  m_closed : bool;
  remote_address_ : bytes;
  bn_N : bn;
  bn_s : bn;
  bn_g : bn;
  bn_v : bn;
  bn_b : bn;
  bn_B : bn;
  bn_K : bn;
  _reconnectProof : bn;
  _status : eStatus;
  m_authDeadline : Deadline;
  _login : bytes;
  _safelogin : bytes;
  _localizationName : bytes;
  _os : bytes;
  _patchPolicy : PatchPolicy;
  m_patchArtifact : option PatchArtifact;
  _build : Z;
  _accountSecurityLevel : Z
}.

#[export] Instance AuthSocket_updatable : Updatable AuthSocket :=
  Rebuild _ (fun k => mkAuthSocket (m_readBuf k) (m_readPos k) (m_sender k) (m_closer k)
    (m_flowControl k) (m_closed k) (remote_address_ k) (bn_N k) (bn_s k) (bn_g k) (bn_v k)
    (bn_b k) (bn_B k) (bn_K k) (_reconnectProof k) (_status k) (m_authDeadline k) (_login k)
    (_safelogin k) (_localizationName k) (_os k) (_patchPolicy k) (m_patchArtifact k)
    (_build k) (_accountSecurityLevel k)).

(** A session in its environment: the object, the database and the random source
    behind the calls, the events so far, the static counters, the realm list and the
    wall clock [time(NULL)]. *)
Record World : Type := mkWorld {
  sock : AuthSocket;
  w_db : db;
  w_rng : rng;
  w_log : list Event;
  s_connections : Z;
  s_authed : Z;
  sRealmList : RealmListState;
  w_time : Z
}.

#[export] Instance World_updatable : Updatable World :=
  Rebuild _ (fun w => mkWorld (sock w) (w_db w) (w_rng w) (w_log w) (s_connections w)
    (s_authed w) (sRealmList w) (w_time w)).

(** The default initialisers of the members and the constructor's list and body. *)
Definition AuthSocket_new (now authTimeout : Z) (patchPolicy : PatchPolicy) : AuthSocket :=
  {| m_readBuf := []; m_readPos := 0;
     m_sender := false; m_closer := false; m_flowControl := None; m_closed := false;
     remote_address_ := str "<unknown>";
     bn_N := srp_N; bn_s := bn_new; bn_g := srp_g; bn_v := bn_new;
     bn_b := bn_new; bn_B := bn_new; bn_K := bn_new; _reconnectProof := bn_new;
     _status := STATUS_CHALLENGE;
     m_authDeadline := Deadline_new now authTimeout;
     _login := []; _safelogin := []; _localizationName := []; _os := [];
     _patchPolicy := patchPolicy; m_patchArtifact := None;
     _build := 0; _accountSecurityLevel := SEC_PLAYER |}.

(** The statics' side of the constructor and of the destructor. *)
Definition construct_counters (c : Z * Z) : Z * Z := (u32 (c.1 + 1), c.2).

Definition destruct_counters (k : AuthSocket) (c : Z * Z) : Z * Z :=
  (u32 (c.1 - 1), if decide (_status k = STATUS_AUTHED) then u32 (c.2 - 1) else c.2).

(** ** Access to the state *)

Definition get {A} (f : AuthSocket -> A) : M World A := gets (fun w => f (sock w)).

Definition on_sock (h : AuthSocket -> AuthSocket) : M World unit :=
  modify (fun w => w <| sock := h (sock w) |>).

Definition set_status (x : eStatus) : M World unit := on_sock (fun k => k <| _status := x |>).

Definition emit (e : Event) : M World unit := modify (fun w => w <| w_log := w_log w ++ [e] |>).

Definition query (q : Query) : M World (option (Row q)) := fun w =>
  let '(r, d) := PQuery q (w_db w) in
  Some (r, w <| w_db := d |> <| w_log := w_log w ++ [EvQuery q] |>).

Definition execute (st : Statement) : M World unit := fun w =>
  Some (tt, w <| w_db := PExecute st (w_db w) |> <| w_log := w_log w ++ [EvExecute st] |>).

Definition direct (st : Statement) : M World bool := fun w =>
  let '(ok, d) := DirectPExecute st (w_db w) in
  Some (ok, w <| w_db := d |> <| w_log := w_log w ++ [EvDirect st ok] |>).

Definition set_rand (bits : Z) : M World bn := fun w =>
  let '(n, r) := SetRand bits (w_rng w) in Some (n, w <| w_rng := r |>).

(** [s_authed.fetch_add(1)] *)
Definition authed_fetch_add : M World unit :=
  modify (fun w => w <| s_authed := u32 (s_authed w + 1) |>).

(** ** The setters of [net::ISession] *)

Definition setPeerAddress (addr : bytes) : M World unit :=
  on_sock (fun k => k <| remote_address_ := addr |>).
Definition setSender (set : bool) : M World unit := on_sock (fun k => k <| m_sender := set |>).
Definition setCloser (set : bool) : M World unit := on_sock (fun k => k <| m_closer := set |>).
Definition setFlowControl (fc : option (Z -> nat -> bool)) : M World unit :=
  on_sock (fun k => k <| m_flowControl := fc |>).

(** ** Buffered-stream emulation *)

(** [m_readBuf.size() - m_readPos], at 64 bits. *)
Definition recv_len : M World Z := get (fun k => u64 (zlen (m_readBuf k) - m_readPos k)).

(** [None] is [return false]; otherwise the bytes copied. *)
Definition recv_soft (len : Z) : M World (option bytes) :=
  n <-- recv_len ;;
  if n <? len then retM None else
  k <-- get id ;;
  d <-- liftO (rds (m_readBuf k) (m_readPos k) len) ;;
  retM (Some d).

Definition recv_skip (len : Z) : M World unit :=
  on_sock (fun k => k <| m_readPos := u64 (m_readPos k + len) |>).

Definition recv (len : Z) : M World (option bytes) :=
  d <-- recv_soft len ;;
  match d with
  | None => retM None
  | Some d => recv_skip len ;; retM (Some d)
  end.

Definition send (buf : bytes) : M World bool :=
  if zlen buf =? 0 then retM true else
  k <-- get id ;;
  if m_closed k || negb (m_sender k) then retM false
  else emit (EvSend buf) ;; retM true.

Definition deactivate_auth_deadline : M World unit :=
  on_sock (fun k => k <| m_authDeadline := Deadline_deactivate (m_authDeadline k) |>).

Definition close_connection : M World unit :=
  deactivate_auth_deadline ;;
  was <-- get m_closed ;;
  on_sock (fun k => k <| m_closed := true |>) ;;
  if negb was then
    closer <-- get m_closer ;;
    if (closer : bool) then emit EvClose else retM tt
  else retM tt.

Definition onClose : M World unit :=
  deactivate_auth_deadline ;;
  on_sock (fun k => k <| m_closed := true |>).

Definition ExpireAuthentication (now : Z) : M World bool :=
  d <-- get m_authDeadline ;;
  if negb (Deadline_expired d now) then retM false
  else close_connection ;; retM true.

Definition stream_state (st : eStatus) : StreamState :=
  match st with
  | STATUS_CHALLENGE => Challenge
  | STATUS_LOGON_PROOF => LogonProof
  | STATUS_RECON_PROOF => ReconnectProof
  | STATUS_PATCH => Patch
  | STATUS_AUTHED => Authenticated
  | STATUS_CLOSED => Closed
  end.

(** The accepted connection is logged; nothing is sent. *)
Definition onConnect : M World bytes := retM [].

End Session.
