(* ===== verification/SessionLogic.v ===== *)
(** * Reasoning about session code

    Weakest preconditions of the primitives of [Session], stated on a world in
    constructor form so that a symbolic run stays linear in the number of updates, and
    the class of computations that do not look at the input stream. *)

From S2P Require Import Prelude AuthCodes ProtocolGuard PatchPolicy RealmList PatchArtifact.
From S2P Require Import Interfaces Srp6 Session.

Local Open Scope Z_scope.
Local Open Scope realmd_scope.

Section SessionLogic.
Context `{ENV : RealmdEnv}.
Implicit Types (k : AuthSocket) (w : World) (l : list Event).

(** ** Primitives *)

Lemma wp_get {A} (f : AuthSocket -> A) Q w : wp (get f) Q w <-> Q (f (sock w)) w.
Proof. done. Qed.

Lemma bind_get {A B} (f : AuthSocket -> A) (g : A -> M World B) w :
  bindM (get f) g w = g (f (sock w)) w.
Proof. done. Qed.

Lemma wp_on_sock h Q k d r l c a rl t :
  wp (on_sock h) Q (mkWorld k d r l c a rl t) <-> Q tt (mkWorld (h k) d r l c a rl t).
Proof. done. Qed.

Lemma wp_set_status x Q k d r l c a rl t :
  wp (set_status x) Q (mkWorld k d r l c a rl t) <->
  Q tt (mkWorld (k <| _status := x |>) d r l c a rl t).
Proof. done. Qed.

Lemma wp_emit e Q k d r l c a rl t :
  wp (emit e) Q (mkWorld k d r l c a rl t) <-> Q tt (mkWorld k d r (l ++ [e]) c a rl t).
Proof. done. Qed.

Lemma wp_authed_fetch_add Q k d r l c a rl t :
  wp authed_fetch_add Q (mkWorld k d r l c a rl t) <->
  Q tt (mkWorld k d r l c (u32 (a + 1)) rl t).
Proof. done. Qed.

Lemma wp_query q Q k d r l c a rl t :
  wp (query q) Q (mkWorld k d r l c a rl t) <->
  Q (PQuery q d).1 (mkWorld k (PQuery q d).2 r (l ++ [EvQuery q]) c a rl t).
Proof. unfold wp, query. cbn [w_db]. by destruct (PQuery q d). Qed.

Lemma wp_execute st Q k d r l c a rl t :
  wp (execute st) Q (mkWorld k d r l c a rl t) <->
  Q tt (mkWorld k (PExecute st d) r (l ++ [EvExecute st]) c a rl t).
Proof. done. Qed.

Lemma wp_direct st Q k d r l c a rl t :
  wp (direct st) Q (mkWorld k d r l c a rl t) <->
  Q (DirectPExecute st d).1
    (mkWorld k (DirectPExecute st d).2 r (l ++ [EvDirect st (DirectPExecute st d).1]) c a rl t).
Proof. unfold wp, direct. cbn [w_db]. by destruct (DirectPExecute st d). Qed.

Lemma wp_set_rand bits Q k d r l c a rl t :
  wp (set_rand bits) Q (mkWorld k d r l c a rl t) <->
  Q (SetRand bits r).1 (mkWorld k d (SetRand bits r).2 l c a rl t).
Proof. unfold wp, set_rand. cbn [w_rng]. by destruct (SetRand bits r). Qed.

(** What [send] hands to the transport. *)
Definition sent (closed sender : bool) (buf : bytes) : list Event :=
  if (zlen buf =? 0) || closed || negb sender then [] else [EvSend buf].

Definition send_result (closed sender : bool) (buf : bytes) : bool :=
  (zlen buf =? 0) || negb (closed || negb sender).

Lemma wp_send buf Q k d r l c a rl t :
  wp (send buf) Q (mkWorld k d r l c a rl t) <->
  Q (send_result (m_closed k) (m_sender k) buf)
    (mkWorld k d r (l ++ sent (m_closed k) (m_sender k) buf) c a rl t).
Proof.
  unfold send, sent, send_result. destruct (zlen buf =? 0).
  - cbn [orb]. by rewrite app_nil_r.
  - rewrite wp_bind, wp_get. cbn [id sock orb].
    destruct (m_closed k || negb (m_sender k)); cbn [negb orb].
    + by rewrite app_nil_r.
    + done.
Qed.

(** The socket after [close_connection], and the teardown it requests. *)
Definition closed_sock k : AuthSocket :=
  k <| m_authDeadline := Deadline_deactivate (m_authDeadline k) |> <| m_closed := true |>.

Definition close_events (closed closer : bool) : list Event :=
  if negb closed && closer then [EvClose] else [].

Lemma wp_close_connection Q k d r l c a rl t :
  wp close_connection Q (mkWorld k d r l c a rl t) <->
  Q tt (mkWorld (closed_sock k) d r (l ++ close_events (m_closed k) (m_closer k)) c a rl t).
Proof.
  unfold close_connection, close_events. rewrite wp_bind. unfold deactivate_auth_deadline.
  rewrite wp_on_sock, wp_bind, wp_get, wp_bind, wp_on_sock. cbn [sock].
  change (m_closed (k <| m_authDeadline := _ |>)) with (m_closed k).
  destruct (m_closed k); cbn [negb andb].
  - by rewrite wp_ret, app_nil_r.
  - rewrite wp_bind, wp_get. cbn [sock].
    change (m_closer (_ <| m_closed := true |>)) with (m_closer k).
    destruct (m_closer k); [by rewrite wp_emit|by rewrite wp_ret, app_nil_r].
Qed.

Lemma wp_deactivate Q k d r l c a rl t :
  wp deactivate_auth_deadline Q (mkWorld k d r l c a rl t) <->
  Q tt (mkWorld (k <| m_authDeadline := Deadline_deactivate (m_authDeadline k) |>) d r l c a rl t).
Proof. done. Qed.

(** Opening an archive always finishes. *)
Definition opened (path : bytes) : option PatchArtifact :=
  match env_fs path with
  | Some file => if servable file then Some (artifact_of file) else None
  | None => None
  end.

Lemma wp_Open `{!Md5Laws} path (Q : option PatchArtifact -> World -> Prop) w :
  wp (liftO (Open env_fs path)) Q w <-> Q (opened path) w.
Proof. by rewrite Open_servable. Qed.

(** ** Computations that do not look at the input stream *)

Definition with_stream (buf : bytes) (pos : Z) (w : World) : World :=
  w <| sock := (sock w) <| m_readBuf := buf |> <| m_readPos := pos |> |>.

Class Oblivious {A} (m : M World A) : Prop :=
  oblivious : forall buf pos w, m (with_stream buf pos w) =
    (fun '(a, w') => (a, with_stream buf pos w')) <$> m w.

Lemma oblivious_ret {A} (a : A) : Oblivious (retM a).
Proof. done. Qed.

Lemma oblivious_undef {A} : Oblivious (@undef World A).
Proof. done. Qed.

Lemma oblivious_liftO {A} (o : option A) : Oblivious (liftO o).
Proof. intros buf pos w. by destruct o. Qed.

Lemma oblivious_bind {A B} (m : M World A) (f : A -> M World B) :
  Oblivious m -> (forall a, Oblivious (f a)) -> Oblivious (bindM m f).
Proof.
  intros Hm Hf buf pos w. unfold bindM. rewrite Hm. destruct (m w) as [[a w']|]; [|done].
  cbn. apply Hf.
Qed.

(** Reading members other than the stream: what is done with them is the same
    computation whatever the stream is. *)
Lemma oblivious_get {A B} (f : AuthSocket -> A) (g : A -> M World B) :
  (forall a, Oblivious (g a)) ->
  (forall buf pos k, g (f (k <| m_readBuf := buf |> <| m_readPos := pos |>)) = g (f k)) ->
  Oblivious (bindM (get f) g).
Proof.
  intros Hg Hf buf pos w. unfold bindM, get, gets.
  change (sock (with_stream buf pos w)) with ((sock w) <| m_readBuf := buf |> <| m_readPos := pos |>).
  rewrite Hf. apply Hg.
Qed.

Lemma oblivious_gets {A} (f : World -> A) :
  (forall buf pos w, f (with_stream buf pos w) = f w) -> Oblivious (gets f).
Proof. intros Hf buf pos w. unfold gets. cbn. by rewrite Hf. Qed.

Lemma oblivious_on_sock (h : AuthSocket -> AuthSocket) :
  (forall buf pos k, h (k <| m_readBuf := buf |> <| m_readPos := pos |>) =
                     (h k) <| m_readBuf := buf |> <| m_readPos := pos |>) ->
  Oblivious (on_sock h).
Proof.
  intros Hh buf pos w. unfold on_sock, modify. cbn [fmap option_fmap option_map].
  change (sock (with_stream buf pos w)) with ((sock w) <| m_readBuf := buf |> <| m_readPos := pos |>).
  by rewrite Hh.
Qed.

Lemma oblivious_modify (h : World -> World) :
  (forall buf pos w, h (with_stream buf pos w) = with_stream buf pos (h w)) ->
  Oblivious (modify h).
Proof. intros Hh buf pos w. unfold modify. by rewrite Hh. Qed.

Lemma oblivious_query (q : Query) : Oblivious (query q).
Proof.
  intros buf pos w. unfold query. change (w_db (with_stream buf pos w)) with (w_db w).
  by destruct (PQuery q (w_db w)).
Qed.

Lemma oblivious_execute (st : Statement) : Oblivious (execute st).
Proof. done. Qed.

Lemma oblivious_direct (st : Statement) : Oblivious (direct st).
Proof.
  intros buf pos w. unfold direct. change (w_db (with_stream buf pos w)) with (w_db w).
  by destruct (DirectPExecute st (w_db w)).
Qed.

Lemma oblivious_set_rand (bits : Z) : Oblivious (set_rand bits).
Proof.
  intros buf pos w. unfold set_rand. change (w_rng (with_stream buf pos w)) with (w_rng w).
  by destruct (SetRand bits (w_rng w)).
Qed.

Lemma with_stream_eta (w : World) : with_stream (m_readBuf (sock w)) (m_readPos (sock w)) w = w.
Proof. by destruct w as [[]]. Qed.

Lemma with_stream_twice (b b' : bytes) (p p' : Z) (w : World) :
  with_stream b p (with_stream b' p' w) = with_stream b p w.
Proof. done. Qed.

End SessionLogic.

(** Prove [Oblivious m] by following the structure of [m]. *)
Create HintDb oblivious.
#[export] Hint Resolve oblivious_ret oblivious_undef oblivious_liftO oblivious_query
  oblivious_execute oblivious_direct oblivious_set_rand : oblivious.

Ltac oblivious_step :=
  match goal with
  | |- Oblivious (bindM (get _) _) => apply oblivious_get; [intros ?|reflexivity]
  | |- Oblivious (bindM _ _) => apply oblivious_bind; [|intros ?]
  | |- Oblivious (on_sock _) => apply oblivious_on_sock; reflexivity
  | |- Oblivious (modify _) => apply oblivious_modify; reflexivity
  | |- Oblivious (gets _) => apply oblivious_gets; reflexivity
  | |- Oblivious (if ?c then _ else _) => destruct c
  | |- Oblivious (match ?x with _ => _ end) => destruct x
  | |- Oblivious (let x := _ in _) => cbv zeta
  | |- _ => solve [eauto 2 with oblivious]
  end.

Ltac oblivious := repeat oblivious_step.

Section ObliviousPrimitives.
Context `{ENV : RealmdEnv}.

Lemma oblivious_send (buf : bytes) : Oblivious (send buf).
Proof. unfold send, emit. oblivious. Qed.

Lemma oblivious_close_connection : Oblivious close_connection.
Proof. unfold close_connection, deactivate_auth_deadline, emit. oblivious. Qed.

End ObliviousPrimitives.

#[export] Hint Resolve oblivious_send oblivious_close_connection : oblivious.

(** Symbolic runs on a session in constructor form: every update and every access to a
    member is evaluated, nothing else is. *)
Ltac sock_cbn :=
  cbn [upd id sock w_db w_rng w_log s_connections s_authed sRealmList w_time
    m_readBuf m_readPos m_sender m_closer m_flowControl m_closed remote_address_ bn_N bn_s bn_g
    bn_v bn_b bn_B bn_K _reconnectProof _status m_authDeadline _login _safelogin
    _localizationName _os _patchPolicy m_patchArtifact _build _accountSecurityLevel closed_sock
    negb].

Ltac session_step :=
  match goal with
  | |- wp (get _) _ _ => refine (proj2 (wp_get _ _ _) _)
  | |- wp (on_sock _) _ _ => refine (proj2 (wp_on_sock _ _ _ _ _ _ _ _ _ _) _)
  | |- wp (set_status _) _ _ => refine (proj2 (wp_set_status _ _ _ _ _ _ _ _ _ _) _)
  | |- wp (emit _) _ _ => refine (proj2 (wp_emit _ _ _ _ _ _ _ _ _ _) _)
  | |- wp authed_fetch_add _ _ => refine (proj2 (wp_authed_fetch_add _ _ _ _ _ _ _ _ _) _)
  | |- wp (query _) _ _ => refine (proj2 (wp_query _ _ _ _ _ _ _ _ _ _) _)
  | |- wp (execute _) _ _ => refine (proj2 (wp_execute _ _ _ _ _ _ _ _ _ _) _)
  | |- wp (direct _) _ _ => refine (proj2 (wp_direct _ _ _ _ _ _ _ _ _ _) _)
  | |- wp (set_rand _) _ _ => refine (proj2 (wp_set_rand _ _ _ _ _ _ _ _ _ _) _)
  | |- wp (send _) _ _ => refine (proj2 (wp_send _ _ _ _ _ _ _ _ _ _) _)
  | |- wp close_connection _ _ => refine (proj2 (wp_close_connection _ _ _ _ _ _ _ _ _) _)
  | |- wp deactivate_auth_deadline _ _ => refine (proj2 (wp_deactivate _ _ _ _ _ _ _ _ _) _)
  | |- wp (liftO (Open _ _)) _ _ => refine (proj2 (wp_Open _ _ _) _)
  end.

Ltac run := repeat (first [wp_step | session_step]; sock_cbn; cbn beta iota zeta).

Ltac open_world w := destruct w as [k d r l c a rl t]; cbn [sock w_log s_authed] in *.

(** Use the branch conditions collected by a symbolic run. *)
Ltac by_cases :=
  repeat match goal with
    | H : negb _ = true |- _ => apply negb_true_iff in H
    | H : negb _ = false |- _ => apply negb_false_iff in H
    end;
  repeat (cbn [negb fst snd]; match goal with
    | H : ShouldPatch _ _ _ = _ |- _ => rewrite H
    | H : ?b = true |- _ => rewrite H
    | H : ?b = false |- _ => rewrite H
    | H : (PQuery _ _).1 = _ |- _ => rewrite H
    | H : opened _ = _ |- _ => rewrite H
    end).

(** The assertion on the size of [g ^ b mod N] holds in the group of the session. *)
Ltac gmod_fits HN Hg :=
  try match goal with
    | H : negb (GetNumBytes (srp_gmod _ _ ?b) <=? 32) = true |- _ => exfalso;
        rewrite HN, Hg in H; pose proof (srp_gmod_fits b); bool_facts; lia
    end.
