(* ===== verification/Logon.v ===== *)
(** * The logon handlers (src/Auth/AuthSocket.cpp: [_SetVSFields], [SendProof],
    [_HandleLogonChallenge], [_HandleLogonProof], [OfferPatch], [SendInvalidVersion])

    A handler first takes its frame from the stream and then works on the frame; the
    two parts are separate definitions, so that what follows the frame in the stream
    visibly plays no role in the second. *)

From S2P Require Import Prelude AuthCodes ProtocolGuard PatchPolicy ClientLocale ClientBuild.
From S2P Require Import Layouts RealmList PatchArtifact Interfaces Srp6 Session.

Local Open Scope Z_scope.
Local Open Scope realmd_scope.

Definition sizeof_sAuthLogonChallenge_C : Z := Eval cbv in sizeof sAuthLogonChallenge_C.
Definition sizeof_sAuthLogonProof_C : Z := Eval cbv in sizeof sAuthLogonProof_C.

(** The offsets of the members that the handlers read. *)
Definition ch_build_off : Z := Eval cbv in offsetof sAuthLogonChallenge_C "build".
Definition ch_os_off : Z := Eval cbv in offsetof sAuthLogonChallenge_C "os".
Definition ch_country_off : Z := Eval cbv in offsetof sAuthLogonChallenge_C "country".
Definition ch_I_len_off : Z := Eval cbv in offsetof sAuthLogonChallenge_C "I_len".
Definition ch_I_off : Z := Eval cbv in offsetof sAuthLogonChallenge_C "I".
Definition lp_A_off : Z := Eval cbv in offsetof sAuthLogonProof_C "A".
Definition lp_M1_off : Z := Eval cbv in offsetof sAuthLogonProof_C "M1".

(** [enum AccountFlags] *)
Definition ACCOUNT_FLAG_GM : Z := 0x00000001.
Definition ACCOUNT_FLAG_TRIAL : Z := 0x00000008.
Definition ACCOUNT_FLAG_PROPASS : Z := 0x00800000.

Section Logon.
Context `{ENV : RealmdEnv}.

(** ** Reading the frames *)

(** The start of both challenge handlers, up to the second [recv]:
    [None] is [return false]; otherwise [buf], with its terminating zero. *)
Definition ReadChallenge : M World (option bytes) :=
  n <-- recv_len ;;
  if n <? sizeof_sAuthLogonChallenge_C then retM None else
  header <-- recv 4 ;;
  let buf := default (replicate 4 0) header in
  lo <-- liftO (rd buf 2) ;;
  hi <-- liftO (rd buf 3) ;;
  let remaining := u16 (Z.lor lo (Z.shiftl hi 8)) in
  n <-- recv_len ;;
  if (remaining <? sizeof_sAuthLogonChallenge_C - zlen buf) || (n <? remaining)
  then retM None else
  set_status STATUS_CLOSED ;;
  body <-- recv remaining ;;
  retM (Some (buf ++ default (replicate (Z.to_nat remaining) 0) body ++ [0])).

(** [_login] and [_build] from the challenge. *)
Definition AssignIdentity (buf : bytes) : M World unit :=
  I_len <-- liftO (rd buf ch_I_len_off) ;;
  login <-- liftO (rds buf ch_I_off I_len) ;;
  on_sock (fun k => k <| _login := login |>) ;;
  bld <-- liftO (rds buf ch_build_off 2) ;;
  on_sock (fun k => k <| _build := le_val bld |>).

(** [_os], in reading order; [false] is [return false]. *)
Definition AssignOs (buf : bytes) : M World bool :=
  os <-- liftO (cstr (drop (Z.to_nat ch_os_off) buf)) ;;
  on_sock (fun k => k <| _os := os |>) ;;
  if 4 <? zlen os then retM false else
  on_sock (fun k => k <| _os := reverse os |>) ;; retM true.

Definition EscapeLogin : M World unit :=
  on_sock (fun k => k <| _safelogin := escape_string (_login k) |>).

(** ** The challenge *)

Definition _SetVSFields (rI : bytes) : M World unit :=
  s <-- set_rand (s_BYTE_SIZE * 8) ;;
  on_sock (fun k => k <| bn_s := s |>) ;;
  k <-- get id ;;
  let x := srp_x s (password_digest (c_str rI)) in
  let v := srp_v (bn_g k) (bn_N k) x in
  on_sock (fun k => k <| bn_v := v |>) ;;
  execute (UpdVerifier (AsHexStr v) (AsHexStr s) (c_str (_safelogin k))).

(** The part of the success packet after the result code. *)
Definition ChallengeFields (B g N s unk3 : bn) : bytes :=
  fixed B SRP_EPHEMERAL_WIDTH ++ put_u8 SRP_GENERATOR_WIDTH ++ fixed g SRP_GENERATOR_WIDTH ++
  put_u8 SRP_EPHEMERAL_WIDTH ++ fixed N SRP_EPHEMERAL_WIDTH ++ fixed s s_BYTE_SIZE ++
  fixed unk3 SRP_RECONNECT_WIDTH ++ put_u8 0.

(** An account that is neither locked to another address nor banned: the SRP6
    values are set and the challenge is built.  [undef] is the failed assertion. *)
Definition ChallengeAccepted (row : AccountRow) (clientLocale : option bytes) : M World bytes :=
  (if negb (zlen (acc_v row) =? s_BYTE_SIZE * 2) || negb (zlen (acc_s row) =? s_BYTE_SIZE * 2)
   then _SetVSFields (acc_sha_pass_hash row)
   else on_sock (fun k => k <| bn_s := SetHexStr (c_str (acc_s row)) |>
                            <| bn_v := SetHexStr (c_str (acc_v row)) |>)) ;;
  b <-- set_rand (19 * 8) ;;
  on_sock (fun k => k <| bn_b := b |>) ;;
  k <-- get id ;;
  let gmod := srp_gmod (bn_g k) (bn_N k) b in
  on_sock (fun k => k <| bn_B := srp_B (bn_N k) (bn_v k) gmod |>) ;;
  if negb (GetNumBytes gmod <=? 32) then undef else
  unk3 <-- set_rand (16 * 8) ;;
  k <-- get id ;;
  let secLevel := acc_gmlevel row in
  on_sock (fun k => k <| _accountSecurityLevel :=
    if secLevel <=? SEC_ADMINISTRATOR then secLevel else SEC_ADMINISTRATOR |>) ;;
  on_sock (fun k => k <| _localizationName := default [] clientLocale |>) ;;
  set_status STATUS_LOGON_PROOF ;;
  retM (put_u8 (result_code WOW_SUCCESS) ++
        ChallengeFields (bn_B k) (bn_g k) (bn_N k) (bn_s k) unk3).

(** The account row: address lock, then bans. *)
Definition ChallengeAccount (row : AccountRow) (clientLocale : option bytes) : M World bytes :=
  k <-- get id ;;
  if (acc_locked row =? 1) && negb (bool_decide (c_str (acc_last_ip row) = c_str (remote_address_ k)))
  then retM (put_u8 (result_code (LockedAccountResultForBuild (_build k))))
  else
    ban <-- query (SelAccountBanned (acc_id row)) ;;
    match ban with
    | Some (bandate, unbandate) =>
        retM (put_u8 (result_code (if bandate =? unbandate then WOW_FAIL_BANNED else WOW_FAIL_SUSPENDED)))
    | None => ChallengeAccepted row clientLocale
    end.

Definition LogonChallenge_body (buf : bytes) : M World bool :=
  country <-- liftO (rds buf ch_country_off 4) ;;
  let clientLocale := ParseClientLocaleClaim country in
  AssignIdentity buf ;;
  ok <-- AssignOs buf ;;
  if negb ok then retM false else
  EscapeLogin ;;
  k <-- get id ;;
  banned <-- query (SelIpBanned (c_str (escape_string (remote_address_ k)))) ;;
  answer <--
    match banned with
    | Some _ => retM (put_u8 (result_code WOW_FAIL_BANNED))
    | None =>
        result <-- query (SelAccount (c_str (_safelogin k))) ;;
        match result with
        | Some row => ChallengeAccount row clientLocale
        | None => retM (put_u8 (result_code WOW_FAIL_UNKNOWN_ACCOUNT))
        end
    end ;;
  send (put_u8 (cmd_code CMD_AUTH_LOGON_CHALLENGE) ++ put_u8 0 ++ answer) ;;
  retM true.

Definition _HandleLogonChallenge : M World bool :=
  buf <-- ReadChallenge ;;
  match buf with
  | None => retM false
  | Some buf => LogonChallenge_body buf
  end.

(** ** The proof *)

(** The vanilla builds of the [switch] statements. *)
Definition vanilla_layout (b : Z) : bool := (b =? 5875) || (b =? 6005) || (b =? 6141).

Definition SendProof (M2 : bytes) : M World unit :=
  bld <-- get _build ;;
  let proof :=
    if vanilla_layout bld
    then pack sAuthLogonProof_S_BUILD_6005 [[cmd_code CMD_AUTH_LOGON_PROOF]; [0]; M2; le_bytes 4 0]
    else pack sAuthLogonProof_S
           [[cmd_code CMD_AUTH_LOGON_PROOF]; [0]; M2; le_bytes 4 ACCOUNT_FLAG_PROPASS; le_bytes 4 0; le_bytes 2 0] in
  send proof ;; retM tt.

Definition SendInvalidVersion : M World unit :=
  send (put_u8 (cmd_code CMD_AUTH_LOGON_CHALLENGE) ++ put_u8 0 ++
        put_u8 (result_code WOW_FAIL_VERSION_INVALID)) ;;
  retM tt.

(** The offer of an archive. *)
Definition transfer (file_size : Z) (md5 : bytes) : bytes :=
  pack XFER_INIT [[cmd_code CMD_XFER_INITIATE]; [5]; str "Patch"; le_bytes 8 file_size; md5].

Definition patch_path (bld : Z) (locale : bytes) : bytes :=
  str "./patches/" ++ to_string bld ++ locale ++ str ".mpq".

Definition OfferPatch : M World bool :=
  k <-- get id ;;
  artifact <-- liftO (Open env_fs (patch_path (_build k) (_localizationName k))) ;;
  match artifact with
  | None => SendInvalidVersion ;; retM true
  | Some a =>
      on_sock (fun k => k <| m_patchArtifact := Some a |>) ;;
      send [cmd_code CMD_AUTH_LOGON_PROOF; result_code WOW_FAIL_VERSION_UPDATE] ;;
      send (transfer (m_size a) (m_digest a)) ;;
      set_status STATUS_PATCH ;;
      deactivate_auth_deadline ;;
      retM true
  end.

(** The failed-login accounting. *)
Definition CountWrongPassword : M World unit :=
  k <-- get id ;;
  let MaxWrongPassCount := u32 (GetIntDefault "WrongPass.MaxCount" 0) in
  if 0 <? MaxWrongPassCount then
    execute (UpdFailedLogins (c_str (_safelogin k))) ;;
    loginfail <-- query (SelFailedLogins (c_str (_safelogin k))) ;;
    match loginfail with
    | Some (id, failed_logins) =>
        if MaxWrongPassCount <=? failed_logins then
          let WrongPassBanTime := u32 (GetIntDefault "WrongPass.BanTime" 600) in
          if GetBoolDefault "WrongPass.BanType" false
          then execute (InsAccountBanned id WrongPassBanTime)
          else execute (InsIpBanned (c_str (escape_string (remote_address_ k))) WrongPassBanTime)
        else retM tt
    | None => retM tt
    end
  else retM tt.

Definition WrongPassword : M World unit :=
  bld <-- get _build ;;
  send (if 6005 <? bld
        then [cmd_code CMD_AUTH_LOGON_PROOF; result_code WOW_FAIL_UNKNOWN_ACCOUNT; 3; 0]
        else [cmd_code CMD_AUTH_LOGON_PROOF; result_code WOW_FAIL_UNKNOWN_ACCOUNT]) ;;
  CountWrongPassword.

(** The proof matches: patch, refuse, or publish the session key and authenticate. *)
Definition ProofAccepted (A M1 : bn) : M World bool :=
  k <-- get id ;;
  let supported := bool_decide (is_Some (FindBuildInfo (_build k))) in
  if ShouldPatch (_patchPolicy k) (_build k) supported then OfferPatch else
  if negb supported then SendInvalidVersion ;; retM true else
  on_sock (fun k => k <| _os := escape_string (_os k) |>) ;;
  k <-- get id ;;
  ok <-- direct (UpdSession (AsHexStr (bn_K k)) (c_str (remote_address_ k))
                  (GetLocaleByName (_localizationName k))
                  (c_str (escape_string (_localizationName k))) (c_str (_os k))
                  (c_str (_safelogin k))) ;;
  if negb ok then close_connection ;; retM false else
  SendProof (srp_M2 A M1 (bn_K k)) ;;
  set_status STATUS_AUTHED ;;
  deactivate_auth_deadline ;;
  authed_fetch_add ;;
  retM true.

Definition LogonProof_body (lp : bytes) : M World bool :=
  set_status STATUS_CLOSED ;;
  lpA <-- liftO (rds lp lp_A_off 32) ;;
  lpM1 <-- liftO (rds lp lp_M1_off 20) ;;
  k <-- get id ;;
  let A := SetBinary lpA in
  if isZero (bn_mod A (bn_N k)) then retM false else
  let u := srp_u A (bn_B k) in
  let S := srp_S (bn_N k) A (bn_v k) u (bn_b k) in
  let K := srp_K S in
  on_sock (fun k => k <| bn_K := K |>) ;;
  let M := srp_M (bn_N k) (bn_g k) (bn_s k) A (bn_B k) K (_login k) in
  if bool_decide (fixed M SHA_DIGEST_LENGTH = lpM1)
  then ProofAccepted A M
  else WrongPassword ;; retM true.

Definition _HandleLogonProof : M World bool :=
  lp <-- recv sizeof_sAuthLogonProof_C ;;
  match lp with
  | None => retM false
  | Some lp => LogonProof_body lp
  end.

End Logon.
