(* ===== verification/Reconnect.v ===== *)
(** * The reconnect and patch-transfer handlers (src/Auth/AuthSocket.cpp:
    [_HandleReconnectChallenge], [_HandleReconnectProof], [_HandleXferAccept],
    [_HandleXferResume], [_HandleXferCancel], [BeginPatchStream]) *)

From S2P Require Import Prelude AuthCodes ProtocolGuard ClientLocale PatchArtifact Interfaces.
From S2P Require Import Layouts Srp6 Session Logon.

Local Open Scope Z_scope.
Local Open Scope realmd_scope.

Definition sizeof_sAuthReconnectProof_C : Z := Eval cbv in sizeof sAuthReconnectProof_C.
Definition lp_R1_off : Z := Eval cbv in offsetof sAuthReconnectProof_C "R1".
Definition lp_R2_off : Z := Eval cbv in offsetof sAuthReconnectProof_C "R2".

Section Reconnect.
Context `{ENV : RealmdEnv}.

Definition ReconnectChallenge_body (buf : bytes) : M World bool :=
  country <-- liftO (rds buf ch_country_off 4) ;;
  let clientLocale := ParseClientLocaleClaim country in
  AssignIdentity buf ;;
  EscapeLogin ;;
  on_sock (fun k => k <| _localizationName := default [] clientLocale |>) ;;
  ok <-- AssignOs buf ;;
  if negb ok then retM false else
  k <-- get id ;;
  result <-- query (SelSessionKey (c_str (_safelogin k))) ;;
  match result with
  | None => close_connection ;; retM false
  | Some sessionkey =>
      on_sock (fun k => k <| bn_K := SetHexStr (c_str sessionkey) |>) ;;
      set_status STATUS_RECON_PROOF ;;
      proof <-- set_rand (16 * 8) ;;
      on_sock (fun k => k <| _reconnectProof := proof |>) ;;
      send (put_u8 (cmd_code CMD_AUTH_RECONNECT_CHALLENGE) ++ put_u8 0 ++
            fixed proof SRP_RECONNECT_WIDTH ++ put_u64 0 ++ put_u64 0) ;;
      retM true
  end.

Definition _HandleReconnectChallenge : M World bool :=
  buf <-- ReadChallenge ;;
  match buf with
  | None => retM false
  | Some buf => ReconnectChallenge_body buf
  end.

(** The session is known to both sides: record the client's identity, authenticate. *)
Definition ReconnectAccepted : M World bool :=
  k <-- get id ;;
  ok <-- direct (UpdClientIdentity (c_str (escape_string (_localizationName k)))
                  (c_str (escape_string (_os k))) (c_str (_safelogin k))) ;;
  if negb ok then close_connection ;; retM false else
  send (put_u8 (cmd_code CMD_AUTH_RECONNECT_PROOF) ++ put_u8 0 ++
        (if 6141 <? _build k then put_u16 0 else [])) ;;
  set_status STATUS_AUTHED ;;
  deactivate_auth_deadline ;;
  authed_fetch_add ;;
  retM true.

Definition ReconnectProof_body (lp : bytes) : M World bool :=
  set_status STATUS_CLOSED ;;
  R1 <-- liftO (rds lp lp_R1_off 16) ;;
  R2 <-- liftO (rds lp lp_R2_off 20) ;;
  k <-- get id ;;
  if (zlen (_login k) =? 0) || (GetNumBytes (_reconnectProof k) =? 0) || (GetNumBytes (bn_K k) =? 0)
  then retM false else
  if bool_decide (reconnect_digest (_login k) (SetBinary R1) (_reconnectProof k) (bn_K k) = R2)
  then ReconnectAccepted
  else close_connection ;; retM false.

Definition _HandleReconnectProof : M World bool :=
  lp <-- recv sizeof_sAuthReconnectProof_C ;;
  match lp with
  | None => retM false
  | Some lp => ReconnectProof_body lp
  end.

(** ** Patch transfer *)

Definition BeginPatchStream (startOffset : Z) : M World bool :=
  k <-- get id ;;
  match m_patchArtifact k with
  | None => close_connection ;; retM false
  | Some artifact =>
      set_status STATUS_CLOSED ;;
      on_sock (fun k => k <| m_patchArtifact := None |>) ;;
      match StartPatchTransfer (m_flowControl k) (Some artifact) startOffset with
      | (true, Some acts) => emit (EvThread acts) ;; retM true
      | (true, None) => retM true
      | (false, _) => close_connection ;; retM false
      end
  end.

Definition _HandleXferAccept : M World bool :=
  recv_skip AuthXferAcceptSize ;;
  BeginPatchStream 0.

(** [start_pos] is read after the command byte; the result of [recv] is ignored
    because the length was checked. *)
Definition _HandleXferResume : M World bool :=
  n <-- recv_len ;;
  if n <? AuthXferResumeSize then retM false else
  recv_skip (AuthXferResumeSize - 8) ;;
  start_pos <-- recv 8 ;;
  match start_pos with
  | None => undef
  | Some d => BeginPatchStream (le_val d)
  end.

Definition _HandleXferCancel : M World bool :=
  recv_skip AuthXferCancelSize ;;
  close_connection ;;
  retM true.

End Reconnect.
