(* ===== verification/RealmPacket.v ===== *)
(** * The realm list answer (src/Auth/AuthSocket.cpp: [GetAddressForClient],
    [ParseClientIPv4], [_HandleRealmList], [LoadRealmlist]) *)

From S2P Require Import Prelude AuthCodes ProtocolGuard ClientBuild RealmList Interfaces Srp6.
From S2P Require Import Session Logon.

Local Open Scope Z_scope.
Local Open Scope realmd_scope.

Section RealmPacket.
Context `{ENV : RealmdEnv}.

Definition GetAddressForClient (realm : Realm) (clientIp : Z) : RealmAddress :=
  if Z.shiftr clientIp 24 =? 127 then
    if loopback (LocalAddress realm) || loopback (ExternalAddress realm)
    then mkAddress clientIp (port (ExternalAddress realm)) (loopback (ExternalAddress realm))
    else LocalAddress realm
  else if IsIPAddrInNetwork (ip (LocalAddress realm)) clientIp (ip (LocalSubnetMask realm))
  then LocalAddress realm
  else ExternalAddress realm.

Definition ParseClientIPv4 (addr : bytes) : Z :=
  match inet_pton (c_str addr) with
  | Some a => a
  | None => 0
  end.

(** The number of characters of the account on the realm. *)
Definition AmountOfCharacters (realm : Realm) (acctid : Z) : M World Z :=
  result <-- query (SelNumChars (m_ID realm) acctid) ;;
  retM (match result with Some n => n | None => 0 end).

(** [ok_build ? FindBuildInfo(_build) : NULL], or the realm's own build. *)
Definition ShownBuild (realm : Realm) (bld : Z) : RealmBuildInfo :=
  match (if decide (bld ∈ realmbuilds realm) then FindBuildInfo bld else None) with
  | Some info => info
  | None => realmBuildInfo realm
  end.

(** [snprintf(buf, 20, ...)] keeps 19 characters. *)
Definition VersionSuffix (info : RealmBuildInfo) : bytes :=
  take 19 (str " (" ++ to_string (major_version info) ++ str "," ++
           to_string (minor_version info) ++ str "," ++ to_string (bugfix_version info) ++ str ")").

Definition has_flag (flags mask : Z) : bool := negb (Z.land flags mask =? 0).

(** One realm as 1.x clients read it. *)
Definition VanillaEntry (k : AuthSocket) (realm : Realm) (clientIp chars : Z) : bytes :=
  let ok_build := bool_decide (_build k ∈ realmbuilds realm) in
  let info := ShownBuild realm (_build k) in
  let nm := if has_flag (realmflags realm) REALM_FLAG_SPECIFYBUILD
            then name realm ++ VersionSuffix info else name realm in
  let flags := if negb ok_build || (_accountSecurityLevel k <? allowedSecurityLevel realm)
               then Z.lor (realmflags realm) REALM_FLAG_OFFLINE else realmflags realm in
  let srvAddr := GetAddressForClient realm clientIp in
  put_u32 (icon realm) ++ put_u8 flags ++ put_string nm ++
  put_string (GetAddressString (ip srvAddr) (port (ExternalAddress realm))) ++
  put_float (populationLevel realm) ++ put_u8 chars ++ put_u8 (timezone realm) ++ put_u8 0.

(** One realm as later clients read it.  [buildInfo] is never null at the second
    test, so [REALM_FLAG_SPECIFYBUILD] is kept. *)
Definition LaterEntry (k : AuthSocket) (realm : Realm) (clientIp chars : Z) : bytes :=
  let ok_build := bool_decide (_build k ∈ realmbuilds realm) in
  let info := ShownBuild realm (_build k) in
  let lock := if _accountSecurityLevel k <? allowedSecurityLevel realm then 1 else 0 in
  let flags := if negb ok_build then Z.lor (realmflags realm) REALM_FLAG_OFFLINE
               else realmflags realm in
  let srvAddr := GetAddressForClient realm clientIp in
  put_u8 (icon realm) ++ put_u8 lock ++ put_u8 flags ++ put_string (name realm) ++
  put_string (GetAddressString (ip srvAddr) (port (ExternalAddress realm))) ++
  put_float (populationLevel realm) ++ put_u8 chars ++ put_u8 (timezone realm) ++ put_u8 0x2C ++
  (if has_flag flags REALM_FLAG_SPECIFYBUILD
   then put_u8 (major_version info) ++ put_u8 (minor_version info) ++
        put_u8 (bugfix_version info) ++ put_u16 (_build k)
   else []).

Fixpoint RealmEntries (entry : Realm -> Z -> bytes) (acctid : Z) (realms : list Realm)
    : M World bytes :=
  match realms with
  | [] => retM []
  | realm :: realms' =>
      chars <-- AmountOfCharacters realm acctid ;;
      rest <-- RealmEntries entry acctid realms' ;;
      retM (entry realm chars ++ rest)
  end.

Definition LoadRealmlist (acctid : Z) : M World bytes :=
  k <-- get id ;;
  rl <-- gets sRealmList ;;
  let realms := GetRealmsForBuild (m_snapshots rl) (_build k) in
  let numRealms := u32 (zlen realms) in
  let clientIp := ParseClientIPv4 (remote_address_ k) in
  if vanilla_layout (_build k) then
    entries <-- RealmEntries (fun r => VanillaEntry k r clientIp) acctid realms ;;
    retM (put_u32 0 ++ put_u8 (u8 numRealms) ++ entries ++ put_u16 0x0002)
  else
    entries <-- RealmEntries (fun r => LaterEntry k r clientIp) acctid realms ;;
    retM (put_u32 0 ++ put_u16 (u16 numRealms) ++ entries ++ put_u16 0x0010).

(** [sRealmList.UpdateIfNeed()]: the realm table is read only when a refresh is due. *)
Definition RefreshRealmList : M World unit :=
  rl <-- gets sRealmList ;;
  now <-- gets w_time ;;
  match RunIfDue_enter (m_refreshGate rl) now with
  | None => retM tt
  | Some _ =>
      rows <-- query SelRealmList ;;
      rl' <-- liftO (UpdateIfNeed (default [] rows) now rl) ;;
      modify (fun w => w <| sRealmList := rl' |>)
  end.

(** [_HandleRealmList] after its frame is taken. *)
Definition RealmList_body : M World bool :=
  k <-- get id ;;
  result <-- query (SelAccountId (c_str (_safelogin k))) ;;
  match result with
  | None => close_connection ;; retM false
  | Some (id, _) =>
      RefreshRealmList ;;
      pkt <-- LoadRealmlist id ;;
      send (put_u8 (cmd_code CMD_REALM_LIST) ++ put_u16 (u16 (zlen pkt)) ++ pkt) ;;
      retM true
  end.

Definition _HandleRealmList : M World bool :=
  n <-- recv_len ;;
  if n <? AuthRealmListSize then retM false else
  recv_skip AuthRealmListSize ;;
  RealmList_body.

End RealmPacket.
