(* ===== verification/Dispatch.v ===== *)
(** * The dispatch loop (src/Auth/AuthSocket.cpp: [onData]) *)

From S2P Require Import Prelude AuthCodes ProtocolGuard PatchPolicy RealmList PatchArtifact.
From S2P Require Import Interfaces Srp6 Session Logon Reconnect RealmPacket.

Local Open Scope Z_scope.
Local Open Scope realmd_scope.

Section Dispatch.
Context `{ENV : RealmdEnv}.

(** [AuthHandler] and its table. *)
Record AuthHandler : Type := mkHandler {
  h_cmd : eAuthCmd;
  h_status : eStatus;
  h_handler : M World bool
}.

Definition table : list AuthHandler :=
  [ mkHandler CMD_AUTH_LOGON_CHALLENGE STATUS_CHALLENGE _HandleLogonChallenge;
    mkHandler CMD_AUTH_LOGON_PROOF STATUS_LOGON_PROOF _HandleLogonProof;
    mkHandler CMD_AUTH_RECONNECT_CHALLENGE STATUS_CHALLENGE _HandleReconnectChallenge;
    mkHandler CMD_AUTH_RECONNECT_PROOF STATUS_RECON_PROOF _HandleReconnectProof;
    mkHandler CMD_REALM_LIST STATUS_AUTHED _HandleRealmList;
    mkHandler CMD_XFER_ACCEPT STATUS_PATCH _HandleXferAccept;
    mkHandler CMD_XFER_RESUME STATUS_PATCH _HandleXferResume;
    mkHandler CMD_XFER_CANCEL STATUS_PATCH _HandleXferCancel ].

(** The [for] loop over the table: [false] is [i == AUTH_TOTAL_COMMANDS]. *)
Fixpoint dispatch (handlers : list AuthHandler) (cmd frameStart size : Z) : M World bool :=
  match handlers with
  | [] => retM false
  | h :: handlers' =>
      if negb (cmd_code (h_cmd h) =? cmd) then dispatch handlers' cmd frameStart size else
      st <-- get _status ;;
      if negb (bool_decide (h_status h = st)) then retM false else
      ok <-- h_handler h ;;
      if negb ok then retM false else
      pos <-- get m_readPos ;;
      retM (u64 (pos - frameStart) =? size)
  end.

(** [m_readBuf.clear(); m_readPos = 0; close_connection();] *)
Definition drop_stream : M World unit :=
  on_sock (fun k => k <| m_readBuf := [] |> <| m_readPos := 0 |>) ;;
  close_connection.

(** The [while] loop: [true] is the [return] of a rejected frame. *)
Fixpoint frame_loop (fuel : nat) : M World bool :=
  closed <-- get m_closed ;;
  if (closed : bool) then retM false else
  match fuel with
  | O => undef
  | S fuel' =>
      k <-- get id ;;
      n <-- recv_len ;;
      decision <-- liftO (InspectFrame (stream_state (_status k))
                            (Some (drop (Z.to_nat (m_readPos k)) (m_readBuf k))) n) ;;
      match status decision with
      | Incomplete => retM false
      | RejectFrame => drop_stream ;; retM true
      | Complete =>
          cmd <-- liftO (rd (m_readBuf k) (m_readPos k)) ;;
          ok <-- dispatch table cmd (m_readPos k) (frameSize decision) ;;
          if negb ok then drop_stream ;; retM false
          else frame_loop fuel'
      end
  end.

(** Dropping the consumed bytes. *)
Definition crunch : M World unit :=
  on_sock (fun k =>
    (if zlen (m_readBuf k) <=? m_readPos k then k <| m_readBuf := [] |>
     else if 0 <? m_readPos k
     then k <| m_readBuf := drop (Z.to_nat (m_readPos k)) (m_readBuf k) |>
     else k) <| m_readPos := 0 |>).

(** The fuel is one pass per byte and one more. *)
Definition onData (data : bytes) : M World bytes :=
  closed <-- get m_closed ;;
  if (closed : bool) then retM [] else
  k <-- get id ;;
  if negb (CanAppendPending (zlen (m_readBuf k)) (zlen data))
  then drop_stream ;; retM [] else
  on_sock (fun k => k <| m_readBuf := m_readBuf k ++ data |> <| m_readPos := 0 |>) ;;
  k <-- get id ;;
  rejected <-- frame_loop (S (length (m_readBuf k))) ;;
  if (rejected : bool) then retM [] else
  crunch ;; retM [].

End Dispatch.
