(* ===== verification/Bodies.v ===== *)
(** * What each handler does with its frame

    [frame_body] is the part of a handler that comes after its frame has been taken
    from the stream.  A handler run on a stream that holds its frame at the cursor is
    [frame_body] on that frame with the cursor moved behind it. *)

From S2P Require Import Prelude AuthCodes ProtocolGuard PatchPolicy ClientLocale ClientBuild.
From S2P Require Import RealmList PatchArtifact Interfaces Srp6 Session SessionLogic Logon.
From S2P Require Import Reconnect RealmPacket Dispatch.

Local Open Scope Z_scope.
Local Open Scope realmd_scope.

Section Bodies.
Context `{ENV : RealmdEnv}.

Definition frame_body (f : bytes) : M World bool :=
  match cmd_of_byte (default (-1) (rd f 0)) with
  | Some CMD_AUTH_LOGON_CHALLENGE => set_status STATUS_CLOSED ;; LogonChallenge_body (f ++ [0])
  | Some CMD_AUTH_RECONNECT_CHALLENGE => set_status STATUS_CLOSED ;; ReconnectChallenge_body (f ++ [0])
  | Some CMD_AUTH_LOGON_PROOF => LogonProof_body f
  | Some CMD_AUTH_RECONNECT_PROOF => ReconnectProof_body f
  | Some CMD_REALM_LIST => RealmList_body
  | Some CMD_XFER_ACCEPT => BeginPatchStream 0
  | Some CMD_XFER_RESUME => BeginPatchStream (le_val (drop 1 f))
  | Some CMD_XFER_CANCEL => close_connection ;; retM true
  | _ => retM false
  end.

(** ** No body looks at the stream *)

Lemma oblivious_set_status x : Oblivious (set_status x).
Proof. unfold set_status. oblivious. Qed.

Lemma oblivious_SendInvalidVersion : Oblivious SendInvalidVersion.
Proof. unfold SendInvalidVersion. oblivious. Qed.

Lemma oblivious_deactivate : Oblivious deactivate_auth_deadline.
Proof. unfold deactivate_auth_deadline. oblivious. Qed.

Lemma oblivious_authed : Oblivious authed_fetch_add.
Proof. unfold authed_fetch_add. oblivious. Qed.

Lemma oblivious_AssignIdentity buf : Oblivious (AssignIdentity buf).
Proof. unfold AssignIdentity. oblivious. Qed.

Lemma oblivious_AssignOs buf : Oblivious (AssignOs buf).
Proof. unfold AssignOs. oblivious. Qed.

Lemma oblivious_EscapeLogin : Oblivious EscapeLogin.
Proof. unfold EscapeLogin. oblivious. Qed.

Hint Resolve oblivious_set_status oblivious_SendInvalidVersion oblivious_deactivate
  oblivious_authed oblivious_AssignIdentity oblivious_AssignOs oblivious_EscapeLogin : oblivious.

Lemma oblivious_LogonChallenge buf : Oblivious (LogonChallenge_body buf).
Proof.
  unfold LogonChallenge_body, ChallengeAccount, ChallengeAccepted, _SetVSFields. oblivious.
Qed.

Lemma oblivious_LogonProof f : Oblivious (LogonProof_body f).
Proof.
  unfold LogonProof_body, ProofAccepted, OfferPatch, SendProof, WrongPassword, CountWrongPassword.
  oblivious.
Qed.

Lemma oblivious_ReconnectChallenge buf : Oblivious (ReconnectChallenge_body buf).
Proof. unfold ReconnectChallenge_body. oblivious. Qed.

Lemma oblivious_ReconnectProof f : Oblivious (ReconnectProof_body f).
Proof. unfold ReconnectProof_body, ReconnectAccepted. oblivious. Qed.

Lemma oblivious_BeginPatchStream off : Oblivious (BeginPatchStream off).
Proof. unfold BeginPatchStream, emit. oblivious. Qed.

Lemma oblivious_RealmEntries entry acctid rs : Oblivious (RealmEntries entry acctid rs).
Proof.
  induction rs as [|r rs IH]; cbn [RealmEntries]; unfold AmountOfCharacters; oblivious.
Qed.

Hint Resolve oblivious_RealmEntries : oblivious.

Lemma oblivious_RealmList : Oblivious RealmList_body.
Proof. unfold RealmList_body, RefreshRealmList, LoadRealmlist. oblivious. Qed.

Hint Resolve oblivious_LogonChallenge oblivious_LogonProof oblivious_ReconnectChallenge
  oblivious_ReconnectProof oblivious_BeginPatchStream oblivious_RealmList : oblivious.

Lemma oblivious_frame_body f : Oblivious (frame_body f).
Proof. unfold frame_body. oblivious. Qed.

(** ** Taking a frame from the stream *)

(** A stream with [f] at the cursor. *)
Definition at_frame (pre f suf : bytes) (w : World) : World :=
  with_stream (pre ++ f ++ suf) (zlen pre) w.

Definition after_frame (pre f suf : bytes) (w : World) : World :=
  with_stream (pre ++ f ++ suf) (zlen pre + zlen f) w.

Lemma after_frame_shift pre f g suf w :
  after_frame pre f (g ++ suf) w = at_frame (pre ++ f) g suf w.
Proof. unfold after_frame, at_frame. by rewrite zlen_app, <- app_assoc. Qed.

Lemma after_frame_app pre f g suf w :
  after_frame (pre ++ f) g suf w = after_frame pre (f ++ g) suf w.
Proof. unfold after_frame. rewrite !zlen_app, <- !app_assoc. by rewrite Z.add_assoc. Qed.

Lemma recv_len_at pre f suf w :
  zlen (pre ++ f ++ suf) < 2 ^ 64 ->
  recv_len (at_frame pre f suf w) = Some (zlen f + zlen suf, at_frame pre f suf w).
Proof.
  intros Hl. unfold recv_len, get, gets, at_frame. f_equal. f_equal.
  change (u64 (zlen (pre ++ f ++ suf) - zlen pre) = zlen f + zlen suf).
  rewrite wrap_small; autorewrite with zlen in *; [lia|].
  pose proof (zlen_nonneg pre). pose proof (zlen_nonneg f). pose proof (zlen_nonneg suf). lia.
Qed.

Lemma recv_skip_at pre f suf w n :
  zlen f = n -> zlen (pre ++ f ++ suf) < 2 ^ 64 ->
  recv_skip n (at_frame pre f suf w) = Some (tt, after_frame pre f suf w).
Proof.
  intros <- Hl. unfold recv_skip, on_sock, modify, at_frame, after_frame. f_equal. f_equal.
  change (with_stream (pre ++ f ++ suf) (u64 (zlen pre + zlen f)) w =
          with_stream (pre ++ f ++ suf) (zlen pre + zlen f) w).
  rewrite wrap_small; [done|]. autorewrite with zlen in Hl.
  pose proof (zlen_nonneg pre). pose proof (zlen_nonneg f). pose proof (zlen_nonneg suf). lia.
Qed.

Lemma recv_at pre f suf w n :
  zlen f = n -> zlen (pre ++ f ++ suf) < 2 ^ 64 ->
  recv n (at_frame pre f suf w) = Some (Some f, after_frame pre f suf w).
Proof.
  intros Hn Hl. unfold recv, recv_soft, bindM. rewrite recv_len_at by done. subst n.
  pose proof (zlen_nonneg suf). rewrite (proj2 (Z.ltb_ge _ _)) by lia.
  cbn [get gets id]. unfold liftO.
  change (rds _ _ _) with (rds (pre ++ f ++ suf) (zlen pre) (zlen f)). rewrite rds_at.
  unfold retM. by rewrite recv_skip_at.
Qed.

(** The two challenge handlers read the whole frame and add a terminating zero. *)
Lemma ReadChallenge_at pre c e lo hi body suf w :
  is_byte lo -> is_byte hi -> lo + 256 * hi = zlen body -> 31 <= zlen body ->
  let f := [c; e; lo; hi] ++ body in
  zlen (pre ++ f ++ suf) < 2 ^ 64 ->
  ReadChallenge (at_frame pre f suf w) =
  Some (Some (f ++ [0]), after_frame pre f suf (w <| sock := (sock w) <| _status := STATUS_CLOSED |> |>)).
Proof.
  intros Hlo Hhi Hlen Hmin f Hl. unfold is_byte in *. pose proof (zlen_nonneg suf).
  assert (Hf : zlen f = 4 + zlen body) by (unfold f; autorewrite with zlen; lia).
  unfold ReadChallenge, bindM. rewrite recv_len_at by done. unfold sizeof_sAuthLogonChallenge_C.
  rewrite (proj2 (Z.ltb_ge _ _)) by lia.
  replace (at_frame pre f suf w) with (at_frame pre [c; e; lo; hi] (body ++ suf) w)
    by (unfold at_frame, f; by rewrite <- (app_assoc [c; e; lo; hi])).
  assert (Hl4 : zlen (pre ++ [c; e; lo; hi] ++ body ++ suf) < 2 ^ 64)
    by (unfold f in Hl; by rewrite <- (app_assoc [c; e; lo; hi]) in Hl).
  rewrite (recv_at pre [c; e; lo; hi] (body ++ suf) w 4) by done.
  cbn [default from_option id]. change (rd [c; e; lo; hi] 2) with (Some lo).
  change (rd [c; e; lo; hi] 3) with (Some hi). cbn [liftO].
  rewrite lor_shiftl_8, Hlen by lia. rewrite after_frame_shift.
  assert (Hl' : zlen ((pre ++ [c; e; lo; hi]) ++ body ++ suf) < 2 ^ 64) by by rewrite <- app_assoc.
  rewrite recv_len_at by done. rewrite (wrap_small 16) by lia.
  change (zlen [c; e; lo; hi]) with 4.
  rewrite (proj2 (Z.ltb_ge (zlen body) _)) by lia. rewrite (proj2 (Z.ltb_ge (_ + _) _)) by lia.
  cbn [orb]. unfold set_status, on_sock, modify.
  change ((at_frame (pre ++ [c; e; lo; hi]) body suf w)
            <| sock := (sock (at_frame (pre ++ [c; e; lo; hi]) body suf w)) <| _status := STATUS_CLOSED |> |>)
    with (at_frame (pre ++ [c; e; lo; hi]) body suf (w <| sock := (sock w) <| _status := STATUS_CLOSED |> |>)).
  rewrite recv_at by done. unfold retM. cbn [default from_option id].
  rewrite after_frame_app. unfold f. by rewrite <- (app_assoc [c; e; lo; hi]).
Qed.

(** ** Dispatch of a well-formed frame *)

(** The result of running a body on a frame, seen on the stream. *)
Definition on_frame (pre f suf : bytes) (w : World) : option (bool * World) :=
  (fun '(ok, w') => (ok, after_frame pre f suf w')) <$> frame_body f w.

Lemma on_frame_oblivious pre f suf w m :
  frame_body f = m -> m (after_frame pre f suf w) = on_frame pre f suf w.
Proof. intros <-. apply oblivious_frame_body. Qed.

(** The entry of the table for the frame's command runs the body and accepts the
    number of bytes the handler took. *)
Lemma dispatch_entry pre f suf w (h : AuthHandler) (hs : list AuthHandler) :
  zlen (pre ++ f ++ suf) < 2 ^ 64 -> h_status h = _status (sock w) ->
  h_handler h (at_frame pre f suf w) = on_frame pre f suf w ->
  dispatch (h :: hs) (cmd_code (h_cmd h)) (zlen pre) (zlen f) (at_frame pre f suf w) =
  on_frame pre f suf w.
Proof.
  intros Hl Hst Hh. cbn [dispatch]. rewrite Z.eqb_refl. cbn [negb]. unfold bindM, get, gets.
  change (_status (sock (at_frame pre f suf w))) with (_status (sock w)).
  rewrite bool_decide_true by done. cbn [negb]. rewrite Hh. unfold on_frame.
  destruct (frame_body f w) as [[[] w']|]; cbn [fmap option_fmap option_map negb]; [|done..].
  unfold retM. f_equal. f_equal.
  change ((u64 (zlen pre + zlen f - zlen pre) =? zlen f) = true).
  rewrite wrap_small; [apply Z.eqb_eq; lia|]. autorewrite with zlen in Hl.
  pose proof (zlen_nonneg pre). pose proof (zlen_nonneg f). pose proof (zlen_nonneg suf). lia.
Qed.

Lemma dispatch_skip (h : AuthHandler) (hs : list AuthHandler) (c : eAuthCmd) (start size : Z) :
  h_cmd h <> c -> dispatch (h :: hs) (cmd_code c) start size = dispatch hs (cmd_code c) start size.
Proof.
  intros Hc. cbn [dispatch]. destruct (Z.eqb_spec (cmd_code (h_cmd h)) (cmd_code c)) as [He|]; [|done].
  apply (f_equal cmd_of_byte) in He. rewrite !cmd_of_byte_code in He. congruence.
Qed.

Lemma XferResume_at pre o suf w :
  zlen o = 8 ->
  let f := [cmd_code CMD_XFER_RESUME] ++ o in
  zlen (pre ++ f ++ suf) < 2 ^ 64 ->
  _HandleXferResume (at_frame pre f suf w) = on_frame pre f suf w.
Proof.
  intros Ho f Hl. pose proof (zlen_nonneg suf). unfold _HandleXferResume, bindM.
  rewrite recv_len_at by done. unfold AuthXferResumeSize.
  rewrite (proj2 (Z.ltb_ge _ _)) by (unfold f; autorewrite with zlen; lia).
  replace (at_frame pre f suf w) with (at_frame pre [cmd_code CMD_XFER_RESUME] (o ++ suf) w)
    by (unfold at_frame, f; by rewrite <- (app_assoc [_])).
  unfold f in Hl. rewrite <- (app_assoc [cmd_code CMD_XFER_RESUME]) in Hl.
  change (9 - 8) with 1. rewrite recv_skip_at by done. rewrite after_frame_shift.
  rewrite recv_at by (rewrite <- ?app_assoc; done).
  rewrite after_frame_app. by apply on_frame_oblivious.
Qed.

Lemma dispatch_frame pre f suf w :
  WellFormedFrame (stream_state (_status (sock w))) f -> Forall is_byte f ->
  zlen (pre ++ f ++ suf) < 2 ^ 64 ->
  exists c, rd f 0 = Some c /\
  dispatch table c (zlen pre) (zlen f) (at_frame pre f suf w) = on_frame pre f suf w.
Proof.
  intros Hw Hb Hl. unfold table. pose proof (zlen_nonneg suf).
  assert (Hst : forall st, (stream_state (_status (sock w)) = stream_state st) -> (st = _status (sock w)))
    by (intros st; by destruct (_status (sock w)), st).
  inversion Hw as [cmd err lo hi prefix login Hcmd Hp Hlog Hlen Hn Hs Heq|mid fl Hm Hs Heq
    |mid Hm Hs Heq|u Hu Hs Heq|Hs Heq|o Ho Hs Heq|Hs Heq]; subst f;
    eexists; (split; [reflexivity|]).
  - rewrite !Forall_app, !Forall_cons in Hb. destruct Hb as [(_ & _ & Hlo & Hhi & _) _].
    pose proof (ReadChallenge_at pre (cmd_code cmd) err lo hi (prefix ++ [zlen login] ++ login) suf w
      Hlo Hhi ltac:(autorewrite with zlen; lia) ltac:(autorewrite with zlen; lia) Hl) as Hread.
    destruct Hcmd as [-> | ->]; [|do 2 (rewrite dispatch_skip by done)]; apply dispatch_entry; auto;
      cbn [h_handler]; unfold _HandleLogonChallenge, _HandleReconnectChallenge, bindM;
      rewrite Hread; rewrite <- (on_frame_oblivious pre _ suf w _ eq_refl); reflexivity.
  - rewrite dispatch_skip by done. apply dispatch_entry; auto. cbn [h_handler].
    unfold _HandleLogonProof, bindM. rewrite recv_at by (unfold sizeof_sAuthLogonProof_C; autorewrite with zlen in *; lia).
    by apply on_frame_oblivious.
  - do 3 (rewrite dispatch_skip by done). apply dispatch_entry; auto. cbn [h_handler].
    unfold _HandleReconnectProof, bindM. rewrite recv_at by (unfold sizeof_sAuthReconnectProof_C; autorewrite with zlen in *; lia).
    by apply on_frame_oblivious.
  - do 4 (rewrite dispatch_skip by done). apply dispatch_entry; auto. cbn [h_handler].
    unfold _HandleRealmList, bindM. rewrite recv_len_at by done. unfold AuthRealmListSize.
    rewrite (proj2 (Z.ltb_ge _ _)) by (autorewrite with zlen; lia).
    rewrite recv_skip_at by (autorewrite with zlen in *; lia). by apply on_frame_oblivious.
  - do 5 (rewrite dispatch_skip by done). apply dispatch_entry; auto. cbn [h_handler].
    unfold _HandleXferAccept, bindM. rewrite recv_skip_at by done. by apply on_frame_oblivious.
  - do 6 (rewrite dispatch_skip by done). apply dispatch_entry; auto. cbn [h_handler].
    by apply XferResume_at.
  - do 7 (rewrite dispatch_skip by done). apply dispatch_entry; auto. cbn [h_handler].
    unfold _HandleXferCancel. rewrite <- (on_frame_oblivious _ _ _ _ (close_connection ;; retM true)) by done.
    unfold bindM at 1. by rewrite recv_skip_at by done.
Qed.

(** ** The frames of a session *)

(** The eight kinds of frame, each with the status it needs and the body that handles it. *)
Variant frame_view (st : eStatus) (f : bytes) : Prop :=
| fv_logon_challenge : st = STATUS_CHALLENGE -> WellFormedFrame Challenge f ->
    rd f 0 = Some (cmd_code CMD_AUTH_LOGON_CHALLENGE) ->
    frame_body f = (set_status STATUS_CLOSED ;; LogonChallenge_body (f ++ [0])) -> frame_view st f
| fv_recon_challenge : st = STATUS_CHALLENGE -> WellFormedFrame Challenge f ->
    rd f 0 = Some (cmd_code CMD_AUTH_RECONNECT_CHALLENGE) ->
    frame_body f = (set_status STATUS_CLOSED ;; ReconnectChallenge_body (f ++ [0])) -> frame_view st f
| fv_logon_proof : st = STATUS_LOGON_PROOF -> WellFormedFrame LogonProof f -> zlen f = 75 ->
    frame_body f = LogonProof_body f -> frame_view st f
| fv_recon_proof : st = STATUS_RECON_PROOF -> WellFormedFrame ReconnectProof f -> zlen f = 58 ->
    frame_body f = ReconnectProof_body f -> frame_view st f
| fv_realm_list : st = STATUS_AUTHED -> frame_body f = RealmList_body -> frame_view st f
| fv_transfer off : st = STATUS_PATCH -> (Forall is_byte f -> 0 <= off) ->
    frame_body f = BeginPatchStream off -> frame_view st f
| fv_cancel : st = STATUS_PATCH -> frame_body f = (close_connection ;; retM true) -> frame_view st f.

Lemma view_frame st f : WellFormedFrame (stream_state st) f -> frame_view st f.
Proof.
  intros Hw.
  assert (Hst : forall st', stream_state st = stream_state st' -> st = st')
    by (intros st'; by destruct st, st').
  inversion Hw as [cmd err lo hi prefix login Hcmd Hp Hlog Hlen Hn Hs Heq|mid fl Hm Hs Heq
    |mid Hm Hs Heq|u Hu Hs Heq|Hs Heq|o Ho Hs Heq|Hs Heq];
    rewrite <- Hs in Hw; symmetry in Hs; change Challenge with (stream_state STATUS_CHALLENGE) in Hs.
  - destruct Hcmd as [-> | ->]; rewrite Heq; [apply fv_logon_challenge|apply fv_recon_challenge]; auto;
      by rewrite <- Heq.
  - apply fv_logon_proof; auto; [by rewrite Heq|autorewrite with zlen; lia].
  - apply fv_recon_proof; auto; [by rewrite Heq|autorewrite with zlen; lia].
  - apply fv_realm_list; auto.
  - apply (fv_transfer _ _ 0); auto; lia.
  - apply (fv_transfer _ _ (le_val o)); auto.
    intros [_ Hb]%Forall_app. by apply le_val_range.
  - apply fv_cancel; auto.
Qed.

End Bodies.
