(* ===== verification/Serve.v ===== *)
(** * The session as a function of its byte stream

    [serve] is what [onData] promises, without the buffer, the cursor and the handler
    table: as long as the session is open, the next frame is split off the stream and
    handled; a stream that is refused, or whose handler fails, closes the session.
    [onData] refines it, for every buffer content and every chunk. *)

From S2P Require Import Prelude AuthCodes ProtocolGuard PatchPolicy RealmList PatchArtifact.
From S2P Require Import Interfaces Srp6 Session SessionLogic Logon Reconnect RealmPacket Dispatch.
From S2P Require Import Bodies.

Local Open Scope Z_scope.
Local Open Scope realmd_scope.

Section Serve.
Context `{ENV : RealmdEnv}.

(** The bytes that are left when the session waits for more or is closed. *)
Fixpoint serve (fuel : nat) (stream : bytes) : M World bytes :=
  closed <-- get m_closed ;;
  if (closed : bool) then retM stream else
  match fuel with
  | O => undef
  | S fuel' =>
      st <-- get _status ;;
      decision <-- liftO (InspectFrame (stream_state st) (Some stream) (zlen stream)) ;;
      match status decision with
      | Incomplete => retM stream
      | RejectFrame => close_connection ;; retM []
      | Complete =>
          let n := Z.to_nat (frameSize decision) in
          ok <-- frame_body (take n stream) ;;
          if (ok : bool) then serve fuel' (drop n stream)
          else close_connection ;; retM []
      end
  end.

(** A chunk from the transport. *)
Definition receive (data : bytes) : M World unit :=
  closed <-- get m_closed ;;
  if (closed : bool) then retM tt else
  pending <-- get m_readBuf ;;
  if MaxPendingInput <? zlen pending + zlen data
  then close_connection ;; modify (with_stream [] 0)
  else
    rest <-- serve (S (length (pending ++ data))) (pending ++ data) ;;
    modify (with_stream rest 0).

(** ** Refinement *)

Lemma crunch_at (pre stream : bytes) (w : World) :
  crunch (with_stream (pre ++ stream) (zlen pre) w) = Some (tt, with_stream stream 0 w).
Proof.
  unfold crunch, on_sock, modify. f_equal. f_equal.
  change (m_readBuf (sock (with_stream (pre ++ stream) (zlen pre) w))) with (pre ++ stream).
  change (m_readPos (sock (with_stream (pre ++ stream) (zlen pre) w))) with (zlen pre).
  pose proof (zlen_nonneg pre). pose proof (zlen_nonneg stream). rewrite zlen_app.
  destruct (Z.leb_spec (zlen pre + zlen stream) (zlen pre)).
  - destruct stream; [done|]. rewrite zlen_cons in *. pose proof (zlen_nonneg stream). lia.
  - destruct (Z.ltb_spec 0 (zlen pre)); [by rewrite drop_zlen|].
    destruct pre; [done|]. rewrite zlen_cons in *. pose proof (zlen_nonneg pre). lia.
Qed.

Lemma drop_stream_close (b : bytes) (p : Z) (w : World) :
  drop_stream (with_stream b p w) = (fun '(_, w') => (tt, with_stream [] 0 w')) <$> close_connection w.
Proof.
  unfold drop_stream. unfold bindM at 1, on_sock at 1, modify at 1.
  change (_ <| sock := _ |>) with (with_stream [] 0 w).
  rewrite oblivious_close_connection. by destruct (close_connection w) as [[[] ?]|].
Qed.

(** The loop with its final crunch. *)
Definition run_loop (fuel : nat) : M World unit :=
  rejected <-- frame_loop fuel ;;
  if (rejected : bool) then retM tt else crunch.

Lemma frame_loop_refines (fuel : nat) (pre stream : bytes) (w : World) :
  Forall is_byte stream -> zlen (pre ++ stream) < 2 ^ 64 ->
  run_loop fuel (with_stream (pre ++ stream) (zlen pre) w) =
  (fun '(rest, w') => (tt, with_stream rest 0 w')) <$> serve fuel stream w.
Proof.
  revert pre stream w. induction fuel as [|fuel IH]; intros pre stream w Hb Hl;
    unfold run_loop; cbn [frame_loop serve]; unfold bindM, get, gets, id, retM, undef;
    change (m_closed (sock (with_stream (pre ++ stream) (zlen pre) w))) with (m_closed (sock w));
    destruct (m_closed (sock w)) eqn:Hc; try (by rewrite crunch_at); [done|].
  change (m_readBuf (sock (with_stream (pre ++ stream) (zlen pre) w))) with (pre ++ stream).
  change (m_readPos (sock (with_stream (pre ++ stream) (zlen pre) w))) with (zlen pre).
  change (_status (sock (with_stream (pre ++ stream) (zlen pre) w))) with (_status (sock w)).
  rewrite drop_zlen.
  pose proof (recv_len_at pre [] stream w Hl) as Hrl. unfold at_frame in Hrl. cbn [app] in Hrl.
  rewrite zlen_nil, Z.add_0_l in Hrl. rewrite Hrl. unfold liftO.
  destruct (InspectFrame _ _ _) as [[st r n]|] eqn:Hi; [|done]. cbn [status frameSize].
  destruct st.
  - by rewrite crunch_at.
  - destruct (InspectFrame_sound _ _ _ _ Hb Hi) as (f & rest & -> & <- & Hw).
    apply Forall_app in Hb as [Hbf Hbr].
    destruct (dispatch_frame pre f rest w Hw Hbf Hl) as (c & Hc0 & Hd).
    assert (rd (pre ++ f ++ rest) (zlen pre) = Some c) as ->.
    { destruct f as [|c' f]; [done|]. injection Hc0 as ->. by apply rd_app_at. }
    unfold at_frame in Hd. rewrite Hd, take_zlen, drop_zlen. unfold on_frame.
    destruct (frame_body f w) as [[[] w']|]; cbn [fmap option_fmap option_map negb]; [..|done].
    + rewrite <- IH with (pre := pre ++ f) by (rewrite <- ?app_assoc; done).
      unfold run_loop, bindM, after_frame. by rewrite zlen_app, app_assoc.
    + unfold after_frame. rewrite drop_stream_close.
      destruct (close_connection w') as [[[] w'']|]; [|done]. apply (crunch_at [] []).
  - rewrite drop_stream_close. by destruct (close_connection w) as [[[] w'']|].
Qed.

Lemma run_loop_answer (fuel : nat) (w : World) :
  (rejected <-- frame_loop fuel ;;
   if (rejected : bool) then retM (@nil Z) else crunch ;; retM []) w =
  (fun '(_, w') => ([], w')) <$> run_loop fuel w.
Proof.
  unfold run_loop, bindM. destruct (frame_loop fuel w) as [[[] w']|]; [done| |done].
  by destruct (crunch w') as [[[] ?]|].
Qed.

Lemma onData_receive (data : bytes) (w : World) :
  Forall is_byte data -> Forall is_byte (m_readBuf (sock w)) ->
  zlen data < 2 ^ 64 -> zlen (m_readBuf (sock w)) < 2 ^ 64 ->
  onData data w = (fun '(_, w') => ([], w')) <$> receive data w.
Proof.
  intros Hd Hp Hld Hlp. pose proof (zlen_nonneg data). pose proof (zlen_nonneg (m_readBuf (sock w))).
  unfold onData, receive. rewrite !bind_get. destruct (m_closed (sock w)); [done|].
  rewrite !bind_get. unfold id at 1.
  pose proof (CanAppendPending_spec (zlen (m_readBuf (sock w))) (zlen data) ltac:(lia) ltac:(lia)) as Hcan.
  destruct (CanAppendPending _ _) eqn:Hc.
  - assert (zlen (m_readBuf (sock w)) + zlen data <= MaxPendingInput) as Hmax by by apply Hcan.
    rewrite (proj2 (Z.ltb_ge _ _)) by done. cbn [negb].
    unfold bindM at 1, on_sock, modify at 1. rewrite bind_get. unfold id.
    set (w0 := w <| sock := _ |>).
    change w0 with (with_stream ([] ++ (m_readBuf (sock w) ++ data)) (zlen (@nil Z)) w).
    change (m_readBuf (sock (with_stream ([] ++ (m_readBuf (sock w) ++ data)) (zlen (@nil Z)) w)))
      with (m_readBuf (sock w) ++ data).
    assert (Hlt : MaxPendingInput < 2 ^ 64) by by vm_compute.
    rewrite run_loop_answer, frame_loop_refines.
    + unfold bindM. by destruct (serve _ _ w) as [[]|].
    + by apply Forall_app.
    + cbn [app]. rewrite zlen_app. lia.
  - rewrite (proj2 (Z.ltb_lt _ _)) by (apply Z.nle_gt; rewrite <- Hcan; done). cbn [negb].
    rewrite <- (with_stream_eta w) at 1. unfold bindM. rewrite drop_stream_close.
    by destruct (close_connection w) as [[[] ?]|].
Qed.

End Serve.
