(* ===== verification/SessionInv.v ===== *)
(** * The invariant of a session and what one frame may change

    [session_ok] is the well-formedness of a session object; [handled] bounds the
    effect of handling one frame.  Both are established for every handler. *)

From S2P Require Import Prelude AuthCodes ProtocolGuard PatchPolicy ClientLocale ClientBuild.
From S2P Require Import RealmList PatchArtifact Interfaces Srp6 Session SessionLogic Logon.
From S2P Require Import Reconnect RealmPacket Dispatch Bodies Serve.

Local Open Scope Z_scope.
Local Open Scope realmd_scope.

#[local] Set Warnings "-clear-no-such-hyp".

Section SessionInv.
Context `{ENV : RealmdEnv}.
Implicit Types (k : AuthSocket) (w : World).

(** The group of SRP6 never changes; past the challenge the escaped account name is the
    escaped form of the account name; an offered archive is a servable file's; the locale
    is empty or validated text and the build has 16 bits; the
    deadline runs neither for an authenticated session, nor for one that was offered a
    patch, nor for a closed one. *)
Record session_ok k : Prop := {
  ok_N : bn_N k = srp_N;
  ok_g : bn_g k = srp_g;
  ok_login : _status k <> STATUS_CHALLENGE -> _status k <> STATUS_CLOSED ->
    _safelogin k = escape_string (_login k);
  ok_patch : _status k = STATUS_PATCH -> m_patchArtifact k <> None;
  ok_artifact : forall a, m_patchArtifact k = Some a ->
    exists file, servable file = true /\ a = artifact_of file;
  ok_locale : Forall is_letter (_localizationName k);
  ok_build : 0 <= _build k < 2 ^ 16;
  ok_deadline : _status k = STATUS_AUTHED \/ _status k = STATUS_PATCH \/ m_closed k = true ->
    m_active (m_authDeadline k) = false
}.

(** The transitions of [_status] made by one frame. *)
Inductive status_step : eStatus -> eStatus -> Prop :=
| step_challenge_refused : status_step STATUS_CHALLENGE STATUS_CLOSED
| step_logon_challenge : status_step STATUS_CHALLENGE STATUS_LOGON_PROOF
| step_recon_challenge : status_step STATUS_CHALLENGE STATUS_RECON_PROOF
| step_logon_refused : status_step STATUS_LOGON_PROOF STATUS_CLOSED
| step_logon_patch : status_step STATUS_LOGON_PROOF STATUS_PATCH
| step_logon_authed : status_step STATUS_LOGON_PROOF STATUS_AUTHED
| step_recon_refused : status_step STATUS_RECON_PROOF STATUS_CLOSED
| step_recon_authed : status_step STATUS_RECON_PROOF STATUS_AUTHED
| step_patch_started : status_step STATUS_PATCH STATUS_CLOSED
| step_patch_cancelled : status_step STATUS_PATCH STATUS_PATCH
| step_realm_list : status_step STATUS_AUTHED STATUS_AUTHED.

(** Escaped text, as it is pasted into a statement. *)
Definition escaped (p : bytes) : Prop := exists raw, p = c_str (escape_string raw).

(** Every client-supplied string of a query or statement is escaped; the peer address
    of [UpdSession] is the transport's, and hexadecimal text comes from big numbers.  The two
    statements of the start-up are not a session's. *)
Definition query_safe (q : Query) : Prop :=
  match q with
  | SelIpBanned p | SelAccount p | SelFailedLogins p | SelSessionKey p | SelAccountId p => escaped p
  | SelAccountBanned _ | SelNumChars _ _ | SelRealmList => True
  end.

Definition statement_safe (addr : bytes) (st : Statement) : Prop :=
  match st with
  | UpdVerifier v s u => (exists n, v = AsHexStr n) /\ (exists n, s = AsHexStr n) /\ escaped u
  | UpdSession key last_ip _ loc os u =>
      (exists n, key = AsHexStr n) /\ last_ip = c_str addr /\ escaped loc /\ escaped os /\ escaped u
  | UpdFailedLogins u => escaped u
  | InsAccountBanned _ _ => True
  | InsIpBanned p _ => escaped p
  | UpdClientIdentity loc os u => escaped loc /\ escaped os /\ escaped u
  | ExpireAccountBans | ExpireIpBans => False
  end.

Definition event_safe (addr : bytes) (e : Event) : Prop :=
  match e with
  | EvQuery q => query_safe q
  | EvExecute st | EvDirect st _ => statement_safe addr st
  | EvThread acts => is_Some acts
  | EvSend _ | EvClose => True
  end.

(** The database write that makes a session an authenticated one: it names the account
    of the session and, at a logon, carries the session key. *)
Definition published (st : Statement) k : Prop :=
  match st with
  | UpdSession key _ _ _ _ u => key = AsHexStr (bn_K k) /\ u = c_str (_safelogin k)
  | UpdClientIdentity _ _ u => u = c_str (_safelogin k)
  | _ => False
  end.

(** A patch thread was started between two moments. *)
Definition thread_started w w' : Prop :=
  exists acts evs, w_log w' = w_log w ++ evs /\ EvThread acts ∈ evs.

(** What handling a frame does and does not change. *)
Record handled w w' : Prop := {
  hd_ok : session_ok (sock w');
  hd_status : status_step (_status (sock w)) (_status (sock w'));
  hd_log : exists evs, w_log w' = w_log w ++ evs /\
    Forall (event_safe (remote_address_ (sock w))) evs /\
    (_status (sock w) <> STATUS_AUTHED -> _status (sock w') = STATUS_AUTHED ->
     exists st, EvDirect st true ∈ evs /\ published st (sock w'));
  hd_authed : s_authed w' =
    if decide (_status (sock w) <> STATUS_AUTHED /\ _status (sock w') = STATUS_AUTHED)
    then u32 (s_authed w + 1) else s_authed w;
  hd_connections : s_connections w' = s_connections w;
  hd_time : w_time w' = w_time w;
  hd_address : remote_address_ (sock w') = remote_address_ (sock w);
  hd_policy : _patchPolicy (sock w') = _patchPolicy (sock w);
  hd_sender : m_sender (sock w') = m_sender (sock w);
  hd_closed : m_closed (sock w) = true -> m_closed (sock w') = true;
  hd_deadline : m_authDeadline (sock w') = m_authDeadline (sock w) \/ m_closed (sock w') = true \/
    _status (sock w') = STATUS_AUTHED \/ _status (sock w') = STATUS_PATCH;
  hd_patch : _status (sock w) = STATUS_PATCH -> _status (sock w') <> STATUS_PATCH ->
    m_closed (sock w') = true \/ thread_started w w';
  hd_identity : _status (sock w) = STATUS_AUTHED ->
    bn_K (sock w') = bn_K (sock w) /\ _safelogin (sock w') = _safelogin (sock w)
}.

Context {LAWS : RealmdLaws}.

(** ** The reads of the challenge handlers are inside the frame *)

Lemma cstr_terminated (d : bytes) : is_Some (cstr (d ++ [0])).
Proof.
  induction d as [|c d [s IH]]; cbn; [done|]. destruct (c =? 0); [done|]. by rewrite IH.
Qed.

Lemma locale_letters (country : bytes) : Forall is_letter (default [] (ParseClientLocaleClaim country)).
Proof.
  destruct (ParseClientLocaleClaim country) as [loc|] eqn:Hl; [|constructor].
  apply ParseClientLocaleClaim_Some in Hl as [Hc _]. by apply canonical_letters.
Qed.

Lemma build_range (d b : bytes) (off : Z) :
  Forall is_byte d -> rds d off 2 = Some b -> 0 <= le_val b < 2 ^ 16.
Proof.
  intros Hd Hb. pose proof (le_val_range b (rds_byte _ _ _ _ Hd Hb)) as Hr.
  rewrite (rds_length _ _ _ _ Hb) in Hr. done.
Qed.

(** The account name of a challenge frame, and the reads that find it. *)
Definition challenge_login (f : bytes) : bytes := drop 34 f.

Lemma challenge_reads (f : bytes) :
  WellFormedFrame Challenge f ->
  exists I_len country bld os, rd (f ++ [0]) ch_I_len_off = Some I_len /\
    rds (f ++ [0]) ch_I_off I_len = Some (challenge_login f) /\
    rds (f ++ [0]) ch_country_off 4 = Some country /\
    rds (f ++ [0]) ch_build_off 2 = Some bld /\
    cstr (drop (Z.to_nat ch_os_off) (f ++ [0])) = Some os.
Proof.
  intros Hw. inversion Hw as [cmd err lo hi prefix login Hcmd Hp Hlog Hlen Hn Hs Heq| | | | | |].
  set (hdr := [cmd_code cmd; err; lo; hi] ++ prefix).
  assert (Hf : ([cmd_code cmd; err; lo; hi] ++ prefix ++ [zlen login] ++ login) ++ [0] =
               hdr ++ [zlen login] ++ login ++ [0]) by (unfold hdr; by rewrite <- !app_assoc).
  assert (Hh : zlen hdr = 33) by (unfold hdr; autorewrite with zlen; lia).
  pose proof (zlen_nonneg login).
  assert (Hz : zlen (([cmd_code cmd; err; lo; hi] ++ prefix ++ [zlen login] ++ login) ++ [0]) =
               35 + zlen login) by (rewrite Hf; autorewrite with zlen; lia).
  destruct (cstr_terminated (drop 17 f)) as [os Hos]. subst f.
  eexists (zlen login), _, _, os. unfold challenge_login. repeat split.
  - rewrite Hf. by apply rd_app_at.
  - replace (drop 34 _) with login.
    + rewrite Hf. change ch_I_off with (33 + 1). rewrite <- Hh.
      change (zlen hdr + 1) with (zlen hdr + zlen [zlen login]). rewrite <- zlen_app.
      rewrite (app_assoc hdr). apply rds_at.
    + rewrite app_assoc. fold hdr. rewrite app_assoc.
      replace 34%nat with (Z.to_nat (zlen (hdr ++ [zlen login]))) by (rewrite zlen_app, Hh; done).
      by rewrite drop_zlen.
  - apply rds_inside; unfold ch_country_off; lia.
  - apply rds_inside; unfold ch_build_off; lia.
  - rewrite <- Hos. f_equal. rewrite drop_app_le; [done|].
    rewrite zlen_app in Hz. unfold zlen in Hz at 1. cbn [zlen length] in Hz. unfold ch_os_off.
    change (zlen [0]) with 1 in Hz. lia.
Qed.

(** ** The account name past the challenge *)

Lemma escaped_intro raw : escaped (c_str (escape_string raw)).
Proof. by exists raw. Qed.

Lemma escaped_login k :
  session_ok k -> _status k <> STATUS_CHALLENGE -> _status k <> STATUS_CLOSED ->
  escaped (c_str (_safelogin k)).
Proof. intros Hok H1 H2. rewrite (ok_login k Hok H1 H2). apply escaped_intro. Qed.

Lemma Forall_sent addr closed sender buf : Forall (event_safe addr) (sent closed sender buf).
Proof. unfold sent. destruct (_ || _); repeat constructor. Qed.

Lemma Forall_close_events addr closed closer : Forall (event_safe addr) (close_events closed closer).
Proof. unfold close_events. destruct (_ && _); repeat constructor. Qed.

Lemma rds_frame (f : bytes) (off n : Z) :
  0 <= off -> 0 <= n -> off + n <= zlen f -> exists d, rds f off n = Some d.
Proof. intros. eexists. by apply rds_inside. Qed.

Lemma opened_servable path art :
  opened path = Some art -> exists file, servable file = true /\ art = artifact_of file.
Proof.
  unfold opened. destruct (env_fs path) as [file|]; [|done].
  destruct (servable file) eqn:?; [|done]. intros [= <-]. eauto.
Qed.

Lemma elem_of_direct st (ok : bool) (evs : list Event) :
  negb ok = false -> EvDirect st true ∈ EvDirect st ok :: evs.
Proof. intros ->%negb_false_iff. by left. Qed.

(** The leaves of a symbolic run. *)
Ltac safe_events Hok Hst :=
  repeat first [apply Forall_app_2 | apply Forall_sent | apply Forall_close_events
    | apply Forall_cons_2 | apply Forall_nil_2];
  cbn [event_safe query_safe statement_safe]; repeat split; eauto using escaped_intro;
  try (apply (escaped_login _ Hok); congruence).

Ltac leaf Hok Hst :=
  split; sock_cbn; rewrite ?Hst;
  [ destruct Hok as [HokN Hokg HokL HokP HokA HokLoc HokB HokD]; split; sock_cbn; rewrite ?Hst; try done;
    try (intros; apply HokL; congruence); naive_solver eauto using opened_servable, locale_letters
  | constructor
  | eexists; split; [rewrite <- ?app_assoc; first [reflexivity | symmetry; apply app_nil_r]
                    | split; [safe_events Hok Hst|intros ??;
                        first [congruence|eexists; split; [by apply elem_of_direct|done]]]]
  | case_decide; naive_solver
  | first [naive_solver | intros _ _; right; eexists _, [_]; split; [reflexivity|by left]] .. ].

Lemma LogonProof_handled f w :
  session_ok (sock w) -> _status (sock w) = STATUS_LOGON_PROOF -> zlen f = 75 ->
  wp (LogonProof_body f) (fun _ w' => handled w w') w.
Proof.
  intros Hok Hst Hf. open_world w.
  destruct (rds_frame f lp_A_off 32) as [lpA HA]; [unfold lp_A_off; lia..|].
  destruct (rds_frame f lp_M1_off 20) as [lpM HM]; [unfold lp_M1_off; lia..|].
  unfold LogonProof_body. rewrite HA, HM.
  unfold ProofAccepted, OfferPatch, SendProof, SendInvalidVersion, WrongPassword, CountWrongPassword.
  run; leaf Hok Hst.
Qed.

Lemma ReconnectProof_handled f w :
  session_ok (sock w) -> _status (sock w) = STATUS_RECON_PROOF -> zlen f = 58 ->
  wp (ReconnectProof_body f) (fun _ w' => handled w w') w.
Proof.
  intros Hok Hst Hf. open_world w.
  destruct (rds_frame f lp_R1_off 16) as [R1 H1]; [unfold lp_R1_off; lia..|].
  destruct (rds_frame f lp_R2_off 20) as [R2 H2]; [unfold lp_R2_off; lia..|].
  unfold ReconnectProof_body. rewrite H1, H2. unfold ReconnectAccepted.
  run; leaf Hok Hst.
Qed.

(** The transfer of a servable file is planned completely. *)
Lemma StartPatchTransfer_total flow file off :
  servable file = true -> 0 <= off ->
  (exists acts, StartPatchTransfer flow (Some (artifact_of file)) off = (true, Some (Some acts)) /\
     Forall xfer_packet acts) \/
  StartPatchTransfer flow (Some (artifact_of file)) off = (false, None).
Proof.
  intros Hs Hoff. unfold servable in Hs. bool_facts. unfold StartPatchTransfer, artifact_of.
  cbn [m_size]. destruct (Z.ltb_spec (zlen (file_bytes file)) off); [by right|].
  unfold Seek. cbn [m_size m_stream m_digest].
  rewrite (proj2 (Z.ltb_ge _ _)) by done. cbn [orb].
  destruct (Z.ltb_spec (2 ^ 63 - 1) off); [by right|]. cbn [negb]. left.
  destruct (TransferLoop_spec (S (length (file_bytes file))) flow 0 (file_bytes file) (file_fault file)
    off (zlen (file_bytes file)) (Finalize (UpdateData md5_init (file_bytes file))))
    as (acts & Hacts & Hx & _); [done|lia|unfold zlen; lia|].
  exists acts. by rewrite <- Hacts.
Qed.

Lemma BeginPatchStream_handled off w :
  session_ok (sock w) -> _status (sock w) = STATUS_PATCH -> 0 <= off ->
  wp (BeginPatchStream off) (fun _ w' => handled w w') w.
Proof.
  intros Hok Hst Hoff. open_world w. unfold BeginPatchStream. do 2 (first [wp_step|session_step]).
  sock_cbn. destruct (m_patchArtifact k) as [art|] eqn:Ha; [|by destruct (ok_patch _ Hok Hst)].
  destruct (ok_artifact _ Hok _ Ha) as (file & Hs & ->).
  destruct (StartPatchTransfer_total (m_flowControl k) file off Hs Hoff) as [(acts & -> & _)| ->];
    run; leaf Hok Hst.
Qed.

Lemma XferCancel_handled w :
  session_ok (sock w) -> _status (sock w) = STATUS_PATCH ->
  wp (close_connection ;; retM true) (fun _ w' => handled w w') w.
Proof. intros Hok Hst. open_world w. run. leaf Hok Hst. Qed.

(** Building the realm list reads the database and refreshes the snapshot; the session
    itself is untouched. *)
Definition reads_only w w' : Prop := exists d' rl' qs,
  w' = mkWorld (sock w) d' (w_rng w) (w_log w ++ (EvQuery <$> qs)) (s_connections w) (s_authed w) rl' (w_time w) /\
  Forall query_safe qs.

Lemma Forall_queries addr qs : Forall query_safe qs -> Forall (event_safe addr) (EvQuery <$> qs).
Proof. induction 1; cbn; by constructor. Qed.

Lemma reads_only_refl w : reads_only w w.
Proof. exists (w_db w), (sRealmList w), []. rewrite app_nil_r. by destruct w. Qed.

Lemma reads_only_trans w1 w2 w3 : reads_only w1 w2 -> reads_only w2 w3 -> reads_only w1 w3.
Proof.
  intros (d & rl & qs & -> & He) (d' & rl' & qs' & -> & He'). exists d', rl', (qs ++ qs').
  cbn in *. rewrite fmap_app, app_assoc. split; [done|by apply Forall_app].
Qed.

Lemma reads_only_query q w :
  query_safe q -> wp (query q) (fun _ => reads_only w) w.
Proof.
  intros Hq. open_world w. run. exists (PQuery q d).2, rl, [q]. split; [done|].
  by repeat constructor.
Qed.

Lemma RealmEntries_reads entry acctid realms w :
  wp (RealmEntries entry acctid realms) (fun _ => reads_only w) w.
Proof.
  revert w. induction realms as [|r rs IH]; intros w; cbn [RealmEntries].
  - apply reads_only_refl.
  - unfold AmountOfCharacters. do 2 wp_step. eapply wp_mono; [apply reads_only_query; exact I|].
    intros n w1 H1. do 2 wp_step. eapply wp_mono; [apply IH|]. intros bs w2 H2.
    wp_step. exact (reads_only_trans _ _ _ H1 H2).
Qed.

Lemma RefreshRealmList_reads w : wp RefreshRealmList (fun _ => reads_only w) w.
Proof.
  unfold RefreshRealmList. do 4 wp_step. wp_step.
  - wp_step. eapply wp_mono; [apply reads_only_query; exact I|]. intros rows w1 H1. wp_step.
    destruct (UpdateIfNeed_total (default [] rows) (w_time w) (sRealmList w)) as [rl' ->]. wp_step.
    apply (reads_only_trans _ _ _ H1). exists (w_db w1), rl', []. rewrite app_nil_r. by destruct w1.
  - wp_step. apply reads_only_refl.
Qed.

Lemma LoadRealmlist_reads acctid w : wp (LoadRealmlist acctid) (fun _ => reads_only w) w.
Proof.
  unfold LoadRealmlist. wp_step. session_step. do 2 wp_step. cbv zeta.
  wp_step; wp_step; (eapply wp_mono; [apply RealmEntries_reads|done]).
Qed.

Lemma RealmList_handled w :
  session_ok (sock w) -> _status (sock w) = STATUS_AUTHED ->
  wp RealmList_body (fun _ w' => handled w w') w.
Proof.
  intros Hok Hst. unfold RealmList_body. wp_step. session_step. unfold id. wp_step.
  eapply wp_mono; [apply reads_only_query, escaped_login; [done|by rewrite Hst..]|].
  intros [[acct sha]|] w1 H1.
  - wp_step. eapply wp_mono; [apply RefreshRealmList_reads|]. intros [] w2 H2. wp_step.
    eapply wp_mono; [apply LoadRealmlist_reads|]. intros pkt w3 H3.
    destruct (reads_only_trans _ _ _ (reads_only_trans _ _ _ H1 H2) H3) as (d & rl & qs & -> & Hqs).
    apply (Forall_queries (remote_address_ (sock w))) in Hqs. run. leaf Hok Hst.
  - destruct H1 as (d & rl & qs & -> & Hqs). apply (Forall_queries (remote_address_ (sock w))) in Hqs.
    run. leaf Hok Hst.
Qed.

Lemma ReconnectChallenge_handled f w :
  session_ok (sock w) -> _status (sock w) = STATUS_CHALLENGE -> WellFormedFrame Challenge f ->
  Forall is_byte f ->
  wp (set_status STATUS_CLOSED ;; ReconnectChallenge_body (f ++ [0])) (fun _ w' => handled w w') w.
Proof.
  intros Hok Hst Hf Hbytes. open_world w.
  destruct (challenge_reads f Hf) as (I_len & country & bld & os & HI & Hlogin & Hcountry & Hbld & Hos).
  assert (Hrange : 0 <= le_val bld < 2 ^ 16) by (eapply build_range; [|exact Hbld]; by apply Forall_app_2; [|by repeat constructor]).
  unfold ReconnectChallenge_body, AssignIdentity, AssignOs, EscapeLogin.
  rewrite Hcountry, HI, Hbld, Hos. run. rewrite Hlogin. run; leaf Hok Hst.
Qed.

Lemma LogonChallenge_handled f w :
  session_ok (sock w) -> _status (sock w) = STATUS_CHALLENGE -> WellFormedFrame Challenge f ->
  Forall is_byte f ->
  wp (set_status STATUS_CLOSED ;; LogonChallenge_body (f ++ [0])) (fun _ w' => handled w w') w.
Proof.
  intros Hok Hst Hf Hbytes. open_world w.
  destruct (challenge_reads f Hf) as (I_len & country & bld & os & HI & Hlogin & Hcountry & Hbld & Hos).
  assert (Hrange : 0 <= le_val bld < 2 ^ 16) by (eapply build_range; [|exact Hbld]; by apply Forall_app_2; [|by repeat constructor]).
  unfold LogonChallenge_body, AssignIdentity, AssignOs, EscapeLogin, ChallengeAccount,
    ChallengeAccepted, _SetVSFields.
  rewrite Hcountry, HI, Hbld, Hos. run. rewrite Hlogin. run.
  all: gmod_fits (ok_N _ Hok) (ok_g _ Hok).
  all: leaf Hok Hst.
Qed.

(** ** Every frame *)

Lemma frame_body_handled f w :
  session_ok (sock w) -> WellFormedFrame (stream_state (_status (sock w))) f -> Forall is_byte f ->
  wp (frame_body f) (fun _ w' => handled w w') w.
Proof.
  intros Hok Hw Hb. destruct (view_frame _ _ Hw) as [Hst Hf _ ->|Hst Hf _ ->|Hst _ Hl ->|Hst _ Hl ->
    |Hst ->|off Hst Ho ->|Hst ->].
  - by apply LogonChallenge_handled.
  - by apply ReconnectChallenge_handled.
  - by apply LogonProof_handled.
  - by apply ReconnectProof_handled.
  - by apply RealmList_handled.
  - apply BeginPatchStream_handled; auto.
  - by apply XferCancel_handled.
Qed.

End SessionInv.
