(* ===== verification/SessionSafety.v ===== *)
(** * Safety of a whole session

    The transitions of a session, the theorems that every delivery of bytes is defined
    and stays within them, and that how the transport cuts the stream into chunks does
    not matter. *)

From S2P Require Import Prelude AuthCodes ProtocolGuard PatchPolicy RealmList PatchArtifact.
From S2P Require Import Interfaces Samples Srp6 Session SessionLogic Logon Reconnect RealmPacket.
From S2P Require Import Dispatch Bodies Serve SessionInv.

Local Open Scope Z_scope.
Local Open Scope realmd_scope.

#[local] Set Warnings "-clear-no-such-hyp".

Section SessionSafety.
Context `{ENV : RealmdEnv}.
Implicit Types (w : World).

(** ** Transitions *)

Inductive transition w : World -> Prop :=
| tr_frame w' : handled w w' -> transition w w'
| tr_close w' : close_connection w = Some (tt, w') -> transition w w'
| tr_stream buf pos : transition w (with_stream buf pos w).

Definition wf_session w : Prop :=
  session_ok (sock w) /\ Forall is_byte (m_readBuf (sock w)) /\
  zlen (m_readBuf (sock w)) <= MaxPendingInput.

Context {LAWS : RealmdLaws}.

Lemma close_connection_run w : exists w', close_connection w = Some (tt, w') /\
  sock w' = closed_sock (sock w) /\ s_authed w' = s_authed w /\ s_connections w' = s_connections w /\
  w_time w' = w_time w /\
  w_log w' = w_log w ++ close_events (m_closed (sock w)) (m_closer (sock w)) /\ w_rng w' = w_rng w.
Proof.
  destruct w as [k d r l c a rl t].
  pose proof (proj2 (wp_close_connection (fun _ w' => w' =
    mkWorld (closed_sock k) d r (l ++ close_events (m_closed k) (m_closer k)) c a rl t)
    k d r l c a rl t) eq_refl) as Hwp.
  apply wp_run in Hwp as ([] & w' & Hrun & ->). eauto 10.
Qed.

Lemma session_ok_closed k : session_ok k -> session_ok (closed_sock k).
Proof. intros []. split; unfold closed_sock; sock_cbn; auto. Qed.

Lemma session_ok_stream k buf pos :
  session_ok k -> session_ok (k <| m_readBuf := buf |> <| m_readPos := pos |>).
Proof. intros []. split; sock_cbn; auto. Qed.

Lemma transition_ok w w' : session_ok (sock w) -> transition w w' -> session_ok (sock w').
Proof.
  intros Hok [w'' Hh|w'' Hc|buf pos].
  - apply Hh.
  - destruct (close_connection_run w) as (w1 & Hr & Hs & _). rewrite Hc in Hr.
    injection Hr as <-. rewrite Hs. by apply session_ok_closed.
  - by apply session_ok_stream.
Qed.

(** ** [serve] is defined and moves by transitions *)

Lemma frame_split st stream n r :
  Forall is_byte stream ->
  InspectFrame st (Some stream) (zlen stream) = Some (mkDecision Complete r n) ->
  exists f rest, stream = f ++ rest /\ n = zlen f /\ 0 < zlen f /\ WellFormedFrame st f /\
    Forall is_byte f /\ Forall is_byte rest.
Proof.
  intros Hb Hi. destruct (InspectFrame_sound _ _ _ _ Hb Hi) as (f & rest & -> & <- & Hw).
  apply (InspectFrame_decision) in Hi as [Hn _]; [|by auto with realmd|done]. cbn in Hn.
  apply Forall_app in Hb as [? ?]. exists f, rest. repeat split; auto; lia.
Qed.

Lemma serve_safe fuel stream w :
  session_ok (sock w) -> Forall is_byte stream -> (length stream < fuel)%nat ->
  wp (serve fuel stream) (fun rest w' => rtc transition w w' /\ Forall is_byte rest /\
    zlen rest <= zlen stream) w.
Proof.
  revert stream w. induction fuel as [|fuel IH]; intros stream w Hok Hb Hf; [lia|].
  cbn [serve]. wp_step. session_step. wp_step; [wp_step; split; [done|split; [done|lia]]|].
  wp_step. session_step. wp_step.
  destruct (InspectFrame_total (stream_state (_status (sock w))) stream (zlen stream)) as [[st r n] Hi];
    [split; [by auto with realmd|lia]|].
  rewrite Hi. wp_step. cbn [status frameSize]. destruct st.
  - wp_step. split; [done|split; [done|lia]].
  - destruct (frame_split _ _ _ _ Hb Hi) as (f & rest & -> & -> & Hpos & Hw & Hbf & Hbr).
    cbv zeta. wp_step. rewrite take_zlen, drop_zlen.
    eapply wp_mono; [by apply frame_body_handled|]. intros ok w1 Hh.
    assert (Hl : zlen rest <= zlen (f ++ rest)) by (rewrite zlen_app; lia).
    destruct ok.
    + eapply wp_mono; [apply IH; [apply Hh|done|]|].
      * rewrite length_app in Hf. unfold zlen in Hpos. lia.
      * intros rest' w2 (Hr & Hb' & Hl'). split; [|split; [done|lia]].
        eapply rtc_l; [by apply tr_frame|done].
    + wp_step. destruct (close_connection_run w1) as (w2 & Hc & _). unfold wp at 1. rewrite Hc.
      wp_step. split; [|split; [done|by auto with realmd]].
      eapply rtc_l; [by apply tr_frame|]. apply rtc_once. by apply tr_close.
  - wp_step. destruct (close_connection_run w) as (w2 & Hc & _). unfold wp at 1. rewrite Hc.
    wp_step. split; [|split; [done|by auto with realmd]]. apply rtc_once. by apply tr_close.
Qed.

Lemma receive_safe data w :
  wf_session w -> Forall is_byte data ->
  wp (receive data) (fun _ w' => rtc transition w w' /\ wf_session w') w.
Proof.
  intros (Hok & Hb & Hm) Hd. unfold receive. wp_step. session_step. wp_step; [by wp_step|].
  wp_step. session_step. wp_step.
  - wp_step. destruct (close_connection_run w) as (w2 & Hc & Hs & _). unfold wp at 1. rewrite Hc.
    split.
    + eapply rtc_l; [by apply tr_close|]. apply rtc_once, tr_stream.
    + split; [|done]. apply (session_ok_stream (sock w2)). rewrite Hs. by apply session_ok_closed.
  - wp_step. eapply wp_mono; [apply serve_safe; [done|by apply Forall_app|lia]|].
    intros rest w' (Ht & Hbr & Hl). split.
    + eapply rtc_r; [done|apply tr_stream].
    + assert (Hok' : session_ok (sock w')).
      { clear -Ht Hok. induction Ht; eauto using transition_ok. }
      split; [by apply (session_ok_stream (sock w'))|]. split; [done|].
      rewrite zlen_app in Hl. apply Z.ltb_ge in Heqb0.
      change (zlen rest <= MaxPendingInput). lia.
Qed.

(** ** Chunks *)

(** Unfolding one turn of [serve] on an open session. *)
Lemma serve_open fuel stream w :
  m_closed (sock w) = false ->
  serve (S fuel) stream w =
  match InspectFrame (stream_state (_status (sock w))) (Some stream) (zlen stream) with
  | None => None
  | Some decision =>
      match status decision with
      | Incomplete => Some (stream, w)
      | RejectFrame => (close_connection ;; retM []) w
      | Complete =>
          match frame_body (take (Z.to_nat (frameSize decision)) stream) w with
          | Some (true, w') => serve fuel (drop (Z.to_nat (frameSize decision)) stream) w'
          | Some (false, w') => (close_connection ;; retM []) w'
          | None => None
          end
      end
  end.
Proof.
  intros Hc. cbn [serve]. unfold bindM at 1, get, gets. rewrite Hc. unfold bindM at 1, gets.
  unfold bindM at 1, liftO. destruct (InspectFrame _ _ _) as [[[] r n]|]; [done| |done..].
  cbn [status frameSize]. unfold bindM at 1. by destruct (frame_body _ w) as [[[] ?]|].
Qed.

Lemma serve_closed fuel stream w :
  m_closed (sock w) = true -> serve fuel stream w = Some (stream, w).
Proof. intros Hc. destruct fuel; cbn [serve]; unfold bindM, get, gets; by rewrite Hc. Qed.

(** Any fuel above the length of the stream gives the same run. *)
Lemma serve_fuel n m stream w :
  Forall is_byte stream -> (length stream < n)%nat -> (length stream < m)%nat ->
  serve n stream w = serve m stream w.
Proof.
  revert m stream w. induction n as [|n IH]; intros [|m] stream w Hb Hn Hm; try lia.
  destruct (m_closed (sock w)) eqn:Hc; [by rewrite !serve_closed|]. rewrite !serve_open by done.
  destruct (InspectFrame _ _ _) as [[[] r k]|] eqn:Hi; try done. cbn [status frameSize].
  destruct (frame_split _ _ _ _ Hb Hi) as (f & rest & -> & -> & Hpos & Hw & Hbf & Hbr).
  rewrite take_zlen, drop_zlen. destruct (frame_body f w) as [[[] w']|]; try done.
  rewrite length_app in *. unfold zlen in Hpos. apply IH; [done|lia..].
Qed.

(** A verdict on a prefix is the verdict on the whole. *)
Lemma inspect_prefix st a b dec :
  InspectFrame st (Some a) (zlen a) = Some dec -> status dec <> Incomplete ->
  InspectFrame st (Some (a ++ b)) (zlen (a ++ b)) = Some dec.
Proof.
  intros Hi Hs. pose proof (zlen_nonneg a). pose proof (zlen_nonneg b).
  apply InspectFrame_mono with (size := zlen a); [rewrite zlen_app; lia| |done].
  by rewrite InspectFrame_prefix by lia.
Qed.

Lemma close_ret w rest w' :
  (close_connection ;; retM []) w = Some (rest, w') -> rest = @nil Z /\ m_closed (sock w') = true.
Proof.
  unfold bindM. destruct (close_connection_run w) as (w1 & -> & Hs & _).
  intros [= <- <-]. by rewrite Hs.
Qed.

Lemma serve_app n m a b w rest w' :
  Forall is_byte a -> Forall is_byte b -> (length a < n)%nat -> (length (a ++ b) < m)%nat ->
  serve n a w = Some (rest, w') ->
  if m_closed (sock w') then exists rest', serve m (a ++ b) w = Some (rest', w')
  else serve m (a ++ b) w = serve m (rest ++ b) w' /\ (length rest <= length a)%nat /\
       Forall is_byte rest.
Proof.
  revert m a w. induction n as [|n IH]; intros [|m] a w Ha Hb Hn Hm; try lia.
  destruct (m_closed (sock w)) eqn:Hc.
  { rewrite serve_closed by done. intros [= <- <-]. rewrite Hc. eexists. by apply serve_closed. }
  rewrite (serve_open n), (serve_open m) by done.
  destruct (InspectFrame _ (Some a) _) as [[[] r k]|] eqn:Hi; try done; cbn [status frameSize].
  - intros [= <- <-]. rewrite Hc. split; [|split; [lia|done]]. by rewrite (serve_open m (a ++ b)).
  - rewrite (inspect_prefix _ _ _ _ Hi) by done. cbn [status frameSize].
    destruct (frame_split _ _ _ _ Ha Hi) as (f & tl & -> & -> & Hpos & Hw & Hbf & Hbr).
    rewrite <- !app_assoc, !take_zlen, !drop_zlen.
    destruct (frame_body f w) as [[[] w1]|]; [| |done]; intros Hs.
    + rewrite !length_app in *. unfold zlen in Hpos.
      assert (Hin : (length tl < n)%nat) by lia.
      assert (Him : (length (tl ++ b) < m)%nat) by (rewrite length_app; lia).
      specialize (IH m tl w1 Hbr Hb Hin Him Hs). destruct (m_closed (sock w')); [done|].
      destruct IH as (-> & Hrl & Hrb). split; [|split; [lia|done]].
      apply serve_fuel; rewrite ?length_app; [by apply Forall_app|lia..].
    + destruct (close_ret _ _ _ Hs) as [-> ->]. eauto.
  - rewrite (inspect_prefix _ _ _ _ Hi) by done. cbn [status]. intros Hs.
    destruct (close_ret _ _ _ Hs) as [-> ->]. eauto.
Qed.

Lemma oblivious_serve fuel stream : Oblivious (serve fuel stream).
Proof.
  revert stream. induction fuel as [|fuel IH]; intros stream; cbn [serve]; oblivious.
  apply oblivious_frame_body.
Qed.

(** [receive] on an open session within the limit. *)
Lemma receive_open data w rest w' :
  m_closed (sock w) = false -> zlen (m_readBuf (sock w)) + zlen data <= MaxPendingInput ->
  serve (S (length (m_readBuf (sock w) ++ data))) (m_readBuf (sock w) ++ data) w = Some (rest, w') ->
  receive data w = Some (tt, with_stream rest 0 w').
Proof.
  intros Hc Hl Hs. unfold receive. rewrite bind_get, Hc, bind_get, (proj2 (Z.ltb_ge _ _)) by lia.
  unfold bindM. by rewrite Hs.
Qed.

Lemma receive_closed data w : m_closed (sock w) = true -> receive data w = Some (tt, w).
Proof. intros Hc. unfold receive. by rewrite bind_get, Hc. Qed.

Lemma receive_chunks d1 d2 w :
  wf_session w -> Forall is_byte d1 -> Forall is_byte d2 ->
  zlen (m_readBuf (sock w)) + zlen d1 + zlen d2 <= MaxPendingInput ->
  exists w1 w2 w12, receive d1 w = Some (tt, w1) /\ receive d2 w1 = Some (tt, w2) /\
    receive (d1 ++ d2) w = Some (tt, w12) /\
    with_stream [] 0 w2 = with_stream [] 0 w12 /\ (m_closed (sock w12) = false -> w2 = w12).
Proof.
  intros (Hok & Hb & Hm) H1 H2 Hl. pose proof (zlen_nonneg d1). pose proof (zlen_nonneg d2).
  destruct (m_closed (sock w)) eqn:Hc; [exists w, w, w; by rewrite !receive_closed|].
  set (p := m_readBuf (sock w)) in *.
  assert (Hp1 : Forall is_byte (p ++ d1)) by by apply Forall_app.
  assert (Hp12 : Forall is_byte ((p ++ d1) ++ d2)) by by apply Forall_app.
  pose proof (serve_safe (S (length (p ++ d1))) (p ++ d1) w Hok Hp1 ltac:(lia)) as Hs1.
  apply wp_run in Hs1 as (r1 & w1 & Hs1 & Ht1 & Hb1 & Hl1).
  pose proof (serve_app (S (length (p ++ d1))) (S (length ((p ++ d1) ++ d2))) (p ++ d1) d2 w r1 w1
    Hp1 H2 ltac:(lia) ltac:(lia) Hs1) as Happ.
  pose proof (receive_open d1 w r1 w1 Hc ltac:(fold p; lia) Hs1) as Hr1.
  destruct (m_closed (sock w1)) eqn:Hc1.
  - destruct Happ as [r12 Hs12]. rewrite <- app_assoc in Hs12.
    exists (with_stream r1 0 w1), (with_stream r1 0 w1), (with_stream r12 0 w1). split; [done|].
    split; [by apply receive_closed|].
    split; [by apply receive_open; [|fold p; rewrite zlen_app; lia|]|]. split; [done|].
    change (m_closed (sock (with_stream r12 0 w1))) with (m_closed (sock w1)). by rewrite Hc1.
  - destruct Happ as (Hs12 & Hrl & Hrb).
    assert (Hb2 : Forall is_byte (r1 ++ d2)) by by apply Forall_app.
    assert (Hok1 : session_ok (sock w1)) by (clear -Ht1 Hok LAWS; induction Ht1; eauto using transition_ok).
    pose proof (serve_safe (S (length (r1 ++ d2))) (r1 ++ d2) w1 Hok1 Hb2 ltac:(lia)) as Hs2.
    apply wp_run in Hs2 as (r2 & w2 & Hs2 & _).
    assert (Hfuel : (length (r1 ++ d2) < S (length ((p ++ d1) ++ d2)))%nat)
      by (rewrite !length_app in *; lia).
    rewrite (serve_fuel _ (S (length (r1 ++ d2))) (r1 ++ d2) w1 Hb2 Hfuel ltac:(lia)), Hs2, <- app_assoc in Hs12.
    rewrite !zlen_app in Hl1.
    exists (with_stream r1 0 w1), (with_stream r2 0 w2), (with_stream r2 0 w2). split; [done|].
    split.
    + rewrite <- (with_stream_twice r2 r1 0 0 w2). apply receive_open; [done| |].
      * change (m_readBuf (sock (with_stream r1 0 w1))) with r1. lia.
      * change (m_readBuf (sock (with_stream r1 0 w1))) with r1.
        by rewrite (oblivious_serve _ _ r1 0 w1), Hs2.
    + split; [|done]. by apply receive_open; [|fold p; rewrite zlen_app; lia|].
Qed.

(** ** What a sequence of transitions preserves *)

Record evolves w w' : Prop := {
  ev_status : rtc status_step (_status (sock w)) (_status (sock w'));
  ev_log : exists evs, w_log w' = w_log w ++ evs /\
    Forall (event_safe (remote_address_ (sock w))) evs /\
    (_status (sock w) <> STATUS_AUTHED -> _status (sock w') = STATUS_AUTHED ->
     exists st, EvDirect st true ∈ evs /\ published st (sock w'));
  ev_authed : s_authed w' =
    if decide (_status (sock w) <> STATUS_AUTHED /\ _status (sock w') = STATUS_AUTHED)
    then u32 (s_authed w + 1) else s_authed w;
  ev_connections : s_connections w' = s_connections w;
  ev_address : remote_address_ (sock w') = remote_address_ (sock w);
  ev_closed : m_closed (sock w) = true -> m_closed (sock w') = true;
  ev_deadline : m_authDeadline (sock w') = m_authDeadline (sock w) \/ m_closed (sock w') = true \/
    _status (sock w') = STATUS_AUTHED \/ _status (sock w') = STATUS_PATCH \/ thread_started w w';
  ev_patch : _status (sock w) = STATUS_PATCH -> _status (sock w') <> STATUS_PATCH ->
    m_closed (sock w') = true \/ thread_started w w';
  ev_identity : _status (sock w) = STATUS_AUTHED ->
    bn_K (sock w') = bn_K (sock w) /\ _safelogin (sock w') = _safelogin (sock w);
  ev_wiring : _patchPolicy (sock w') = _patchPolicy (sock w) /\ m_sender (sock w') = m_sender (sock w)
}.

Lemma authed_final st : rtc status_step STATUS_AUTHED st -> st = STATUS_AUTHED.
Proof. intros H. remember STATUS_AUTHED as s0. induction H as [|x y z Hxy]; [done|]. subst. inversion Hxy; subst; auto. Qed.

Lemma published_same st k k' :
  bn_K k' = bn_K k /\ _safelogin k' = _safelogin k -> published st k -> published st k'.
Proof. intros [HK Hl]. unfold published. destruct st; rewrite ?HK, ?Hl; auto. Qed.

Lemma evolves_transition w w' : transition w w' -> evolves w w'.
Proof.
  intros [w'' []|w'' Hc|buf pos].
  - split; auto using rtc_once. tauto.
  - destruct (close_connection_run w) as (w1 & Hr & Hs & Ha & Hcn & Ht & Hl & _). rewrite Hc in Hr.
    injection Hr as <-. split; rewrite ?Hs, ?Ha, ?Hcn, ?Hl; unfold closed_sock; sock_cbn; auto.
    + done.
    + eexists. split; [done|]. split; [apply Forall_close_events|done].
    + case_decide; [tauto|done].
  - split; cbn; auto.
    + done.
    + exists []. rewrite app_nil_r. split; [done|]. split; [constructor|tauto].
    + case_decide; [tauto|done].
Qed.

Lemma thread_started_l w1 w2 w3 evs :
  w_log w3 = w_log w2 ++ evs -> thread_started w1 w2 -> thread_started w1 w3.
Proof.
  intros Hl (acts & e & He & Hin). exists acts, (e ++ evs). rewrite Hl, He, app_assoc.
  split; [done|]. apply elem_of_app. by left.
Qed.

Lemma thread_started_r w1 w2 w3 evs :
  w_log w2 = w_log w1 ++ evs -> thread_started w2 w3 -> thread_started w1 w3.
Proof.
  intros Hl (acts & e & He & Hin). exists acts, (evs ++ e). rewrite He, Hl, app_assoc.
  split; [done|]. apply elem_of_app. by right.
Qed.

Lemma evolves_refl w : evolves w w.
Proof.
  split; auto.
  - done.
  - exists []. rewrite app_nil_r. split; [done|]. split; [constructor|tauto].
  - case_decide; [tauto|done].
Qed.

Lemma evolves_trans w1 w2 w3 : evolves w1 w2 -> evolves w2 w3 -> evolves w1 w3.
Proof.
  intros [S12 (e12 & L12 & F12 & P12) A12 C12 R12 Cl12 D12 T12 I12 [W12 V12]]
         [S23 (e23 & L23 & F23 & P23) A23 C23 R23 Cl23 D23 T23 I23 [W23 V23]].
  split.
  - by transitivity (_status (sock w2)).
  - exists (e12 ++ e23). rewrite L23, L12, app_assoc. split; [done|]. rewrite R12 in F23.
    split; [by apply Forall_app|]. intros H1 H3.
    destruct (decide (_status (sock w2) = STATUS_AUTHED)) as [H2|H2].
    + destruct (P12 H1 H2) as (st & Hin & Hp). exists st.
      split; [apply elem_of_app; by left|eauto using published_same].
    + destruct (P23 H2 H3) as (st & Hin & Hp). exists st. split; [apply elem_of_app; by right|done].
  - rewrite A23, A12. destruct (decide (_status (sock w2) = STATUS_AUTHED)) as [H2|H2].
    + rewrite H2 in S23. apply authed_final in S23. repeat case_decide; tauto || congruence.
    + assert (_status (sock w1) <> STATUS_AUTHED) as H1
        by (intros E; rewrite E in S12; by apply authed_final in S12).
      repeat case_decide; tauto || congruence.
  - by rewrite C23.
  - by rewrite R23.
  - auto.
  - destruct (decide (_status (sock w3) = STATUS_PATCH)); [by auto 6|].
    destruct D12 as [D12|[D12|[D12|[D12|D12]]]]; [|by auto| | |by eauto 7 using thread_started_l].
    + rewrite <- D12. destruct D23 as [D23|[D23|[D23|[D23|D23]]]]; eauto 7 using thread_started_r.
    + rewrite D12 in S23. apply authed_final in S23. auto 6.
    + destruct (T23 D12 ltac:(done)); eauto 7 using thread_started_r.
  - intros H1 H3. destruct (decide (_status (sock w2) = STATUS_PATCH)) as [H2|H2].
    + destruct (T23 H2 H3); eauto using thread_started_r.
    + destruct (T12 H1 H2); eauto using thread_started_l.
  - intros H1. destruct (I12 H1) as [<- <-]. apply I23. rewrite H1 in S12. by apply authed_final.
  - by rewrite W23, V23.
Qed.

Lemma evolves_rtc w w' : rtc transition w w' -> evolves w w'.
Proof. induction 1; eauto using evolves_refl, evolves_trans, evolves_transition. Qed.

Lemma rtc_transition_ok w w' : session_ok (sock w) -> rtc transition w w' -> session_ok (sock w').
Proof. intros Hok Ht. induction Ht; eauto using transition_ok. Qed.

(** ** From [receive] to [onData] *)

Lemma wf_session_length w : wf_session w -> zlen (m_readBuf (sock w)) < 2 ^ 64.
Proof. intros (_ & _ & Hm). assert (MaxPendingInput < 2 ^ 64) by by vm_compute. lia. Qed.

Lemma onData_run data w :
  wf_session w -> Forall is_byte data -> zlen data < 2 ^ 64 ->
  exists w', onData data w = Some ([], w') /\ receive data w = Some (tt, w') /\
    rtc transition w w' /\ wf_session w'.
Proof.
  intros Hwf Hd Hl. destruct (proj1 (wp_run _ _ _) (receive_safe data w Hwf Hd)) as ([] & w' & Hr & Ht & Hw).
  exists w'. rewrite onData_receive, Hr; auto; [apply Hwf|by apply wf_session_length].
Qed.

Lemma session_ok_new now timeout policy : session_ok (AuthSocket_new now timeout policy).
Proof. by split; cbn; naive_solver. Qed.

End SessionSafety.
