(* ===== verification/SessionProperties.v ===== *)
(** * Properties of whole sessions

    A session as the transport drives it: the object is created and wired, and chunks
    of bytes are delivered to it in order. *)

From S2P Require Import Prelude AuthCodes ProtocolGuard PatchPolicy RealmList PatchArtifact.
From S2P Require Import Interfaces Samples Srp6 Session SessionLogic Logon Reconnect RealmPacket.
From S2P Require Import Dispatch Bodies Serve SessionInv SessionSafety.

Local Open Scope Z_scope.
Local Open Scope realmd_scope.

#[local] Set Warnings "-clear-no-such-hyp".

Section Sessions.
Context `{ENV : RealmdEnv}.

(** The constructor and the transport's setters, in an environment [w]. *)
Definition accept_socket (now authTimeout : Z) (policy : PatchPolicy) (addr : bytes)
    (fc : option (Z -> nat -> bool)) (w : World) : World :=
  let k := AuthSocket_new now authTimeout policy in
  let c := construct_counters (s_connections w, s_authed w) in
  w <| sock := k <| remote_address_ := addr |> <| m_sender := true |> <| m_closer := true |>
                 <| m_flowControl := fc |> |>
    <| s_connections := c.1 |> <| s_authed := c.2 |>.

(** The successive deliveries. *)
Fixpoint feed (chunks : list bytes) : M World unit :=
  match chunks with
  | [] => retM tt
  | data :: chunks' => onData data ;; feed chunks'
  end.

Definition chunk_ok (data : bytes) : Prop := Forall is_byte data /\ zlen data < 2 ^ 64.

Context {LAWS : RealmdLaws}.

Lemma feed_run chunks w :
  wf_session w -> Forall chunk_ok chunks ->
  exists w', feed chunks w = Some (tt, w') /\ rtc transition w w' /\ wf_session w'.
Proof.
  intros Hwf Hc. revert w Hwf. induction Hc as [|data chunks [Hb Hl] Hc IH]; intros w Hwf; cbn [feed].
  - by exists w.
  - destruct (onData_run data w Hwf Hb Hl) as (w1 & Hd & _ & Ht & Hwf1). unfold bindM. rewrite Hd.
    destruct (IH w1 Hwf1) as (w' & Hf & Ht' & Hwf'). exists w'. split_and!; [done| |done]. by etrans.
Qed.

Lemma accept_socket_wf now t policy addr fc w : wf_session (accept_socket now t policy addr fc w).
Proof.
  split_and!; [|constructor|by vm_compute].
  destruct (session_ok_new now t policy). split; cbn; auto; naive_solver.
Qed.

(** What every session from a fresh object satisfies. *)
Lemma session_run now t policy addr fc w0 chunks :
  Forall chunk_ok chunks ->
  exists w', feed chunks (accept_socket now t policy addr fc w0) = Some (tt, w') /\ wf_session w' /\
    evolves (accept_socket now t policy addr fc w0) w'.
Proof.
  intros Hc. destruct (feed_run chunks _ (accept_socket_wf now t policy addr fc w0) Hc)
    as (w' & Hf & Ht & Hwf). exists w'. split_and!; [done..|]. by apply evolves_rtc.
Qed.

End Sessions.

(** ** Properties *)

(** C10. Refinement: for every content of the pending buffer and every chunk, [onData] does
    exactly what [receive] specifies, including its results, its effects on the database
    and the transport, and what it leaves pending.  The buffer and its cursor, the
    handler table, the defence-in-depth checks and the final crunch are unobservable. *)
Theorem onData_refines_receive `{RealmdEnv} (data : bytes) (w : World) :
  Forall is_byte data -> Forall is_byte (m_readBuf (sock w)) ->
  zlen data < 2 ^ 64 -> zlen (m_readBuf (sock w)) < 2 ^ 64 ->
  onData data w = (fun '(_, w') => ([], w')) <$> receive data w.
Proof. apply onData_receive. Qed.

(** C1. Safety: whatever bytes a client sends, in whatever chunks, the session is defined
    and terminates: no read outside a frame, no failed assertion, no endless loop.  The
    pending input stays within its limit, and the status follows the state machine. *)
Theorem session_defined `{RealmdEnv} {L : RealmdLaws} now t policy addr fc (w0 : World) (chunks : list bytes) :
  Forall chunk_ok chunks ->
  exists w', feed chunks (accept_socket now t policy addr fc w0) = Some (tt, w') /\
    zlen (m_readBuf (sock w')) <= MaxPendingInput /\
    rtc status_step STATUS_CHALLENGE (_status (sock w')).
Proof.
  intros Hc. destruct (session_run now t policy addr fc w0 chunks Hc) as (w' & Hf & (_ & _ & Hm) & []).
  by exists w'.
Qed.

(** C11. Chunking: as long as the pending bytes and the two chunks together stay within the
    limit on pending input (65539 bytes), delivering the chunks one after the other or their
    concatenation at once gives the same session, with the same effects in the same order;
    only the unread bytes of a session that was closed may differ. *)
Theorem onData_chunks `{RealmdEnv} {L : RealmdLaws} (d1 d2 : bytes) (w : World) :
  wf_session w -> Forall is_byte d1 -> Forall is_byte d2 ->
  zlen (m_readBuf (sock w)) + zlen d1 + zlen d2 <= MaxPendingInput ->
  exists w1 w2 w12, onData d1 w = Some ([], w1) /\ onData d2 w1 = Some ([], w2) /\
    onData (d1 ++ d2) w = Some ([], w12) /\
    with_stream [] 0 w2 = with_stream [] 0 w12 /\ (m_closed (sock w12) = false -> w2 = w12).
Proof.
  intros Hwf H1 H2 Hl. assert (MaxPendingInput < 2 ^ 64) by by vm_compute.
  pose proof (zlen_nonneg d1). pose proof (zlen_nonneg d2). pose proof (zlen_nonneg (m_readBuf (sock w))).
  destruct (receive_chunks d1 d2 w Hwf H1 H2 Hl) as (w1 & w2 & w12 & R1 & R2 & R12 & Hsame).
  destruct (onData_run d1 w Hwf H1 ltac:(lia)) as (? & O1 & E1 & _ & Hwf1). simplify_eq.
  destruct (onData_run d2 w1 Hwf1 H2 ltac:(lia)) as (? & O2 & E2 & _ & _). simplify_eq.
  destruct (onData_run (d1 ++ d2) w Hwf ltac:(by apply Forall_app) ltac:(rewrite zlen_app; lia))
    as (? & O12 & E12 & _ & _). simplify_eq. eauto 10.
Qed.

(** C16. Authentication: a session that ends up authenticated has published its account in
    the database, successfully, before; the published session key of a logon is the key
    the session holds.  The count of authenticated sessions grew by exactly one. *)
Theorem session_authenticated `{RealmdEnv} {L : RealmdLaws} now t policy addr fc (w0 : World)
    (chunks : list bytes) :
  Forall chunk_ok chunks ->
  exists w' evs, feed chunks (accept_socket now t policy addr fc w0) = Some (tt, w') /\
    w_log w' = w_log w0 ++ evs /\
    (_status (sock w') = STATUS_AUTHED ->
     (exists st, EvDirect st true ∈ evs /\ published st (sock w')) /\ s_authed w' = u32 (s_authed w0 + 1)) /\
    (_status (sock w') <> STATUS_AUTHED -> s_authed w' = s_authed w0).
Proof.
  intros Hc. destruct (session_run now t policy addr fc w0 chunks Hc)
    as (w' & Hf & _ & [_ (evs & Hl & _ & Hp) Ha _ _ _ _ _ _ _]).
  exists w', evs. split_and!; [done..| |].
  - intros Hs. split; [by apply Hp|]. rewrite Ha, decide_True; done.
  - intros Hs. rewrite Ha, decide_False; naive_solver.
Qed.

(** C13. No SQL injection: every account name, locale, operating system and address that
    reaches a statement or a query is an escaped string; hexadecimal parameters come
    from big numbers, and the one unescaped text is the peer address of the transport. *)
Theorem session_statements_escaped `{RealmdEnv} {L : RealmdLaws} now t policy addr fc (w0 : World)
    (chunks : list bytes) :
  Forall chunk_ok chunks ->
  exists w' evs, feed chunks (accept_socket now t policy addr fc w0) = Some (tt, w') /\
    w_log w' = w_log w0 ++ evs /\ Forall (event_safe addr) evs.
Proof.
  intros Hc. destruct (session_run now t policy addr fc w0 chunks Hc)
    as (w' & Hf & _ & [_ (evs & Hl & Hs & _) _ _ _ _ _ _ _ _]). by exists w', evs.
Qed.

(** ** The authentication deadline *)

Section Expiry.
Context `{ENV : RealmdEnv}.

Lemma Expire_inactive (now : Z) (w : World) :
  m_active (m_authDeadline (sock w)) = false -> ExpireAuthentication now w = Some (false, w).
Proof. intros Ha. unfold ExpireAuthentication. rewrite bind_get. unfold Deadline_expired. by rewrite Ha. Qed.

Lemma Expire_due (now : Z) (w : World) :
  Deadline_expired (m_authDeadline (sock w)) now = true ->
  exists w', ExpireAuthentication now w = Some (true, w') /\ m_closed (sock w') = true.
Proof.
  intros He. unfold ExpireAuthentication. rewrite bind_get, He. cbn [negb]. unfold bindM.
  destruct (close_connection_run w) as (w' & -> & Hs & _). exists w'. by rewrite Hs.
Qed.

End Expiry.

(** C14. The deadline: a session that is still open after its deadline is closed by the next
    sweep unless it is authenticated, has a patch offer outstanding or streams a patch;
    authenticated, patch-offered and closed sessions are never touched by a sweep. *)
Theorem session_deadline `{RealmdEnv} {L : RealmdLaws} now t policy addr fc (w0 : World)
    (chunks : list bytes) (later : Z) :
  Forall chunk_ok chunks -> 0 < t -> now + t * ns_per_second <= later ->
  let start := accept_socket now t policy addr fc w0 in
  exists w', feed chunks start = Some (tt, w') /\
    (_status (sock w') = STATUS_AUTHED \/ _status (sock w') = STATUS_PATCH \/ m_closed (sock w') = true ->
     forall any, ExpireAuthentication any w' = Some (false, w')) /\
    (_status (sock w') <> STATUS_AUTHED -> _status (sock w') <> STATUS_PATCH ->
     m_closed (sock w') = false -> ~ thread_started start w' ->
     exists w'', ExpireAuthentication later w' = Some (true, w'') /\ m_closed (sock w'') = true).
Proof.
  intros Hc Ht Hl start. destruct (session_run now t policy addr fc w0 chunks Hc)
    as (w' & Hf & (Hok & _) & [_ _ _ _ _ _ Hd _ _ _]).
  exists w'. split; [done|]. split.
  - intros Hs any. apply Expire_inactive. by apply (ok_deadline _ Hok).
  - intros H1 H2 H3 H4. apply Expire_due.
    destruct Hd as [->|[?|[?|[?|?]]]]; [|congruence|done..].
    unfold Deadline_expired. cbn. rewrite (proj2 (Z.ltb_lt _ _)) by done. cbn. by apply Z.leb_le.
Qed.

(** ** A concrete session *)

Section SampleSession.
#[local] Existing Instances sample_Env sample_Laws.

Definition sample_world : World :=
  mkWorld (AuthSocket_new 0 30 PatchPolicy_default) sample_db0 1 [] 0 0
    (mkRealmList RealmSnapshot_empty (mkGate 0 0 false)) 1000.

Definition sample_socket : World :=
  accept_socket 0 30 PatchPolicy_default (str "10.0.0.9") None sample_world.

(** A logon challenge of [ALICE] from an English 1.12.1 client. *)
Definition sample_challenge : bytes :=
  [0; 8; 35; 0] ++ str "WoW" ++ [0; 1; 12; 1] ++ le_bytes 2 5875 ++ str "68x" ++ [0] ++
  str "niW" ++ [0] ++ str "SUne" ++ le_bytes 4 60 ++ le_bytes 4 0 ++ [5] ++ str "ALICE".

Lemma sample_challenge_ok : chunk_ok sample_challenge.
Proof. split; [|by vm_compute]. by apply (bool_decide_unpack _); vm_compute. Qed.

Lemma onData_refines_receive_witness :
  onData sample_challenge sample_socket =
  (fun '(_, w') => ([], w')) <$> receive sample_challenge sample_socket.
Proof.
  apply (onData_refines_receive sample_challenge sample_socket);
    [apply sample_challenge_ok|constructor|by vm_compute|by vm_compute].
Defined.

Lemma session_defined_witness :
  exists w', feed [sample_challenge; [1; 2]] sample_socket = Some (tt, w') /\
    zlen (m_readBuf (sock w')) <= MaxPendingInput /\
    rtc status_step STATUS_CHALLENGE (_status (sock w')).
Proof.
  apply (session_defined 0 30 PatchPolicy_default (str "10.0.0.9") None sample_world).
  repeat constructor; apply sample_challenge_ok || by vm_compute.
Defined.

Lemma onData_chunks_witness :
  exists w1 w2 w12, onData (take 10 sample_challenge) sample_socket = Some ([], w1) /\
    onData (drop 10 sample_challenge) w1 = Some ([], w2) /\
    onData sample_challenge sample_socket = Some ([], w12) /\
    with_stream [] 0 w2 = with_stream [] 0 w12 /\ (m_closed (sock w12) = false -> w2 = w12).
Proof.
  apply (onData_chunks (take 10 sample_challenge) (drop 10 sample_challenge) sample_socket).
  - apply accept_socket_wf.
  - apply Forall_take, sample_challenge_ok.
  - apply Forall_drop, sample_challenge_ok.
  - by vm_compute.
Defined.

Lemma session_authenticated_witness :
  exists w' evs, feed [sample_challenge] sample_socket = Some (tt, w') /\
    w_log w' = [] ++ evs /\
    (_status (sock w') = STATUS_AUTHED ->
     (exists st, EvDirect st true ∈ evs /\ published st (sock w')) /\ s_authed w' = u32 (0 + 1)) /\
    (_status (sock w') <> STATUS_AUTHED -> s_authed w' = 0).
Proof.
  apply (session_authenticated 0 30 PatchPolicy_default (str "10.0.0.9") None sample_world).
  by apply Forall_singleton, sample_challenge_ok.
Defined.

Lemma session_statements_escaped_witness :
  exists w' evs, feed [sample_challenge] sample_socket = Some (tt, w') /\
    w_log w' = [] ++ evs /\ Forall (event_safe (str "10.0.0.9")) evs.
Proof.
  apply (session_statements_escaped 0 30 PatchPolicy_default (str "10.0.0.9") None sample_world).
  by apply Forall_singleton, sample_challenge_ok.
Defined.

Lemma session_deadline_witness :
  exists w', feed [sample_challenge] sample_socket = Some (tt, w') /\
    (_status (sock w') = STATUS_AUTHED \/ _status (sock w') = STATUS_PATCH \/ m_closed (sock w') = true ->
     forall any, ExpireAuthentication any w' = Some (false, w')) /\
    (_status (sock w') <> STATUS_AUTHED -> _status (sock w') <> STATUS_PATCH ->
     m_closed (sock w') = false -> ~ thread_started sample_socket w' ->
     exists w'', ExpireAuthentication (31 * ns_per_second) w' = Some (true, w'') /\ m_closed (sock w'') = true).
Proof.
  apply (session_deadline 0 30 PatchPolicy_default (str "10.0.0.9") None sample_world [sample_challenge]
    (31 * ns_per_second)).
  - by apply Forall_singleton, sample_challenge_ok.
  - lia.
  - by vm_compute.
Defined.

End SampleSession.
