(* ===== verification/History.v ===== *)
(** * What a session has been sent

    The bytes delivered to a session split into the frames it has handled and the rest.  A
    predicate on the handled bytes and the session that every frame, every closing and every
    change of the pending buffer preserve holds after any deliveries, and the handled
    bytes are then the front of what was delivered.  The theorems about the input and the
    output of whole sessions are instances. *)

From S2P Require Import Prelude AuthCodes ProtocolGuard PatchPolicy RealmList PatchArtifact.
From S2P Require Import Interfaces Srp6 Session SessionLogic Logon Reconnect RealmPacket Dispatch.
From S2P Require Import Bodies Serve SessionInv SessionSafety SessionProperties.

Local Open Scope Z_scope.
Local Open Scope realmd_scope.

#[local] Set Warnings "-clear-no-such-hyp".

Section History.
Context `{ENV : RealmdEnv}.
Implicit Types (w : World) (input past : bytes).

(** [P past w]: the session [w] has handled the frames that make up [past]. *)
Class Steady (P : bytes -> World -> Prop) : Prop := {
  steady_frame past f w ok w' :
    m_closed (sock w) = false -> session_ok (sock w) ->
    WellFormedFrame (stream_state (_status (sock w))) f -> Forall is_byte f ->
    P past w -> frame_body f w = Some (ok, w') -> P (past ++ f) w';
  steady_close past w w' :
    P past w -> close_connection w = Some (tt, w') -> P past w';
  steady_stream past w buf pos : P past w -> P past (with_stream buf pos w)
}.

(** The input so far is what was handled and, while the session is open, what is pending. *)
Definition tracked (P : bytes -> World -> Prop) input w : Prop :=
  exists past rest, input = past ++ rest /\ P past w /\
    (m_closed (sock w) = false -> rest = m_readBuf (sock w)).

Context {LAWS : RealmdLaws} (P : bytes -> World -> Prop) {HP : Steady P}.

Lemma steady_serve fuel stream past w rest w' :
  session_ok (sock w) -> Forall is_byte stream -> P past w ->
  serve fuel stream w = Some (rest, w') ->
  exists taken left, stream = taken ++ left /\ P (past ++ taken) w' /\
    (m_closed (sock w') = false -> left = rest).
Proof.
  revert stream past w. induction fuel as [|fuel IH]; intros stream past w Hok Hb HPw Hs;
    (destruct (m_closed (sock w)) eqn:Hc;
     [rewrite serve_closed in Hs by done; injection Hs as <- <-;
      exists [], stream; by rewrite app_nil_r|]).
  { cbn [serve] in Hs. rewrite bind_get, Hc in Hs. done. }
  assert (Hcl : forall f w1, P (past ++ f) w1 -> (close_connection ;; retM []) w1 = Some (rest, w') ->
    forall tl, exists taken left, f ++ tl = taken ++ left /\ P (past ++ taken) w' /\
      (m_closed (sock w') = false -> left = rest)).
  { intros f w1 HP1 H1 tl. destruct (close_ret _ _ _ H1) as [-> Hc'].
    destruct (close_connection_run w1) as (w2 & Hr & _). unfold bindM in H1. rewrite Hr in H1.
    injection H1 as <-. exists f, tl. split_and!; [done|by eapply steady_close|by rewrite Hc']. }
  rewrite serve_open in Hs by done.
  destruct (InspectFrame _ _ _) as [[[] r n]|] eqn:Hi; [| | |done]; cbn [status frameSize] in Hs.
  - injection Hs as <- <-. exists [], stream. by rewrite app_nil_r.
  - destruct (frame_split _ _ _ _ Hb Hi) as (f & tl & -> & -> & Hpos & Hw & Hbf & Hbt).
    rewrite take_zlen, drop_zlen in Hs. destruct (frame_body f w) as [[ok w1]|] eqn:Hf; [|done].
    pose proof (steady_frame past f w ok w1 Hc Hok Hw Hbf HPw Hf) as HP1.
    destruct ok; [|by eapply Hcl].
    pose proof (proj1 (wp_run _ _ _) (frame_body_handled f w Hok Hw Hbf)) as (? & ? & Hf' & Hh).
    rewrite Hf in Hf'. injection Hf' as <- <-.
    destruct (IH tl (past ++ f) w1 (hd_ok _ _ Hh) Hbt HP1 Hs) as (taken & left & -> & HP' & Hl).
    exists (f ++ taken), left. by rewrite <- !app_assoc in *.
  - apply (Hcl [] w); [by rewrite app_nil_r|done].
Qed.

(** A delivery keeps track of the input. *)
Lemma tracked_onData input data w :
  wf_session w -> chunk_ok data -> tracked P input w ->
  exists w', onData data w = Some ([], w') /\ wf_session w' /\ tracked P (input ++ data) w'.
Proof.
  intros Hwf [Hd Hl] (past & rest & -> & HPw & Hrest).
  destruct (onData_run data w Hwf Hd Hl) as (w' & Hon & Hr & _ & Hwf'). exists w'. split_and!; [done..|].
  unfold receive in Hr. rewrite bind_get in Hr. destruct (m_closed (sock w)) eqn:Hc.
  { injection Hr as <-. exists past, (rest ++ data). by rewrite app_assoc, Hc. }
  rewrite bind_get, <- (Hrest eq_refl) in Hr. destruct Hwf as (Hok & Hb & _).
  rewrite <- (Hrest eq_refl) in Hb. destruct (_ <? _).
  - unfold bindM in Hr. destruct (close_connection_run w) as (w1 & Hcl & Hs & _). rewrite Hcl in Hr.
    injection Hr as <-. exists past, (rest ++ data). split_and!; [by rewrite app_assoc| |].
    + by eapply steady_stream, steady_close.
    + change (m_closed (sock (with_stream [] 0 w1))) with (m_closed (sock w1)). by rewrite Hs.
  - unfold bindM in Hr. destruct (serve _ _ w) as [[left w1]|] eqn:Hs; [|done]. injection Hr as <-.
    destruct (steady_serve _ (rest ++ data) past w left w1 Hok ltac:(by apply Forall_app) HPw Hs)
      as (taken & lft & Heq & HP' & Hlft).
    exists (past ++ taken), lft. split_and!; [|by apply steady_stream|done].
    by rewrite <- !app_assoc, Heq.
Qed.

Lemma tracked_feed input chunks w :
  wf_session w -> Forall chunk_ok chunks -> tracked P input w ->
  exists w', feed chunks w = Some (tt, w') /\ wf_session w' /\ tracked P (input ++ concat chunks) w'.
Proof.
  intros Hwf Hc. revert input w Hwf. induction Hc as [|data chunks Hd Hc IH]; intros input w Hwf Ht; cbn [feed concat].
  - exists w. by rewrite app_nil_r.
  - destruct (tracked_onData input data w Hwf Hd Ht) as (w1 & Hon & Hwf1 & Ht1).
    destruct (IH _ _ Hwf1 Ht1) as (w' & Hf & Hwf' & Ht'). exists w'. unfold bindM. rewrite Hon.
    by rewrite app_assoc.
Qed.

(** From a fresh session. *)
Lemma tracked_session now t policy addr fc (w0 : World) chunks :
  P [] (accept_socket now t policy addr fc w0) -> Forall chunk_ok chunks ->
  exists w', feed chunks (accept_socket now t policy addr fc w0) = Some (tt, w') /\ wf_session w' /\
    tracked P (concat chunks) w'.
Proof.
  intros H0 Hc. apply (tracked_feed []); [apply accept_socket_wf|done|].
  exists [], []. by split_and!.
Qed.

End History.
