(* ===== verification/Closing.v ===== *)
(** * Closing a session from several threads
    (src/Auth/AuthSocket.cpp: [close_connection], [onClose], [ExpireAuthentication], [send])

    A session is closed by its network thread, by the engine, and by the sweep of the main
    thread, at the same time.  The three share two atomics, [m_closed] and the [m_active] of
    the deadline.  Here the calls are cut into their atomic steps and interleaved freely. *)

From S2P Require Import Prelude AuthCodes ProtocolGuard PatchPolicy RealmList PatchArtifact.
From S2P Require Import Interfaces Samples Srp6 Session SessionLogic SessionProperties.

Local Open Scope Z_scope.
Local Open Scope realmd_scope.

#[local] Set Warnings "-clear-no-such-hyp".

(** How a call ended. *)
Inductive Ended : Set :=
| EndedNotDue
| EndedClosed
| EndedOnClose
| EndedSend (sent : bool).

(** Where a call is: the step it takes next. *)
Inductive CallPoint : Type :=
| AtExpired (now : Z)
| AtDeactivate
| AtExchange
| AtCloser
| AtOnCloseDeactivate
| AtOnCloseStore
| AtSendLoad (buf : bytes)
| AtSender (buf : bytes)
| AtEnd (e : Ended).

Section Closing.
Context `{ENV : RealmdEnv}.
Implicit Types (w : World) (c : CallPoint) (ts : list CallPoint).

(** One atomic step: [m_active] is read or cleared, [m_closed] is read, exchanged or set, or
    a callback of the transport is called.  The callbacks are set before the session gets
    any data and do not change. *)
Definition call_step c : M World CallPoint :=
  match c with
  | AtExpired now =>
      d <-- get m_authDeadline ;;
      retM (if Deadline_expired d now then AtDeactivate else AtEnd EndedNotDue)
  | AtDeactivate => deactivate_auth_deadline ;; retM AtExchange
  | AtExchange =>
      was <-- get m_closed ;;
      on_sock (fun k => k <| m_closed := true |>) ;;
      retM (if (was : bool) then AtEnd EndedClosed else AtCloser)
  | AtCloser =>
      closer <-- get m_closer ;;
      (if (closer : bool) then emit EvClose else retM tt) ;; retM (AtEnd EndedClosed)
  | AtOnCloseDeactivate => deactivate_auth_deadline ;; retM AtOnCloseStore
  | AtOnCloseStore => on_sock (fun k => k <| m_closed := true |>) ;; retM (AtEnd EndedOnClose)
  | AtSendLoad buf =>
      if zlen buf =? 0 then retM (AtEnd (EndedSend true)) else
      k <-- get id ;;
      retM (if m_closed k || negb (m_sender k) then AtEnd (EndedSend false) else AtSender buf)
  | AtSender buf => emit (EvSend buf) ;; retM (AtEnd (EndedSend true))
  | AtEnd e => retM (AtEnd e)
  end.

(** A call without interference. *)
Fixpoint run_alone (fuel : nat) c : M World Ended :=
  match c, fuel with
  | AtEnd e, _ => retM e
  | _, O => undef
  | _, S fuel' => c' <-- call_step c ;; run_alone fuel' c'
  end.

(** ** Interleavings *)

Definition first_step c : Prop :=
  match c with AtExpired _ | AtDeactivate | AtOnCloseDeactivate | AtSendLoad _ => True | _ => False end.

Definition asks_close (e : Event) : bool := match e with EvClose => true | _ => false end.
Definition hands_over (e : Event) : bool := match e with EvSend _ => true | _ => false end.

Definition count (f : Event -> bool) (l : list Event) : nat := length (List.filter f l).

(** The rest of the network thread's work: it neither closes nor sends except by the calls,
    and may stop the deadline. *)
Definition other_work w w' : Prop :=
  m_closed (sock w') = m_closed (sock w) /\ m_closer (sock w') = m_closer (sock w) /\
  m_sender (sock w') = m_sender (sock w) /\
  (m_authDeadline (sock w') = m_authDeadline (sock w) \/
   m_authDeadline (sock w') = Deadline_deactivate (m_authDeadline (sock w))) /\
  exists evs, w_log w' = w_log w ++ evs /\ count asks_close evs = 0%nat /\ count hands_over evs = 0%nat.

(** The session and the calls made on it so far. *)
Definition Shared : Type := World * list CallPoint.

Inductive shared_step : Shared -> Shared -> Prop :=
| step_call w ts c : first_step c -> shared_step (w, ts) (w, ts ++ [c])
| step_run w ts i c c' w' : ts !! i = Some c -> call_step c w = Some (c', w') ->
    shared_step (w, ts) (w', <[i := c']> ts)
| step_other w ts w' : other_work w w' -> shared_step (w, ts) (w', ts).

(** ** Counting *)

Lemma count_app f l l' : count f (l ++ l') = (count f l + count f l')%nat.
Proof. unfold count. by rewrite List.filter_app, length_app. Qed.

(** The calls about to ask for the teardown. *)
Definition at_closer c : bool := match c with AtCloser => true | _ => false end.
Definition closers ts : nat := length (List.filter at_closer ts).

Lemma closers_app ts ts' : closers (ts ++ ts') = (closers ts + closers ts')%nat.
Proof. unfold closers. by rewrite List.filter_app, length_app. Qed.

Lemma closers_insert ts i c c' :
  ts !! i = Some c ->
  (closers (<[i := c']> ts) + (if at_closer c then 1 else 0))%nat =
  (closers ts + (if at_closer c' then 1 else 0))%nat.
Proof.
  intros Hi. apply take_drop_middle in Hi as Ht. pose proof (lookup_lt_Some _ _ _ Hi).
  rewrite <- Ht at 2. rewrite insert_take_drop by done.
  rewrite !closers_app. unfold closers. cbn [List.filter].
  destruct (at_closer c), (at_closer c'); cbn [length]; lia.
Qed.

(** ** The effect of a step *)

(** What a step may do to what the calls share. *)
Record step_effect c c' w w' : Prop := {
  se_closer : m_closer (sock w') = m_closer (sock w) /\ m_sender (sock w') = m_sender (sock w);
  se_closed : m_closed (sock w') = match c with AtExchange | AtOnCloseStore => true | _ => m_closed (sock w) end;
  se_active : m_active (m_authDeadline (sock w')) =
    match c with AtDeactivate | AtOnCloseDeactivate => false | _ => m_active (m_authDeadline (sock w)) end;
  se_log : exists evs, w_log w' = w_log w ++ evs /\
    count asks_close evs = (if at_closer c && m_closer (sock w) then 1 else 0)%nat /\
    count hands_over evs = (match c with AtSender _ => 1 | _ => 0 end)%nat;
  se_next : match c with
    | AtExpired _ => c' = AtDeactivate \/ c' = AtEnd EndedNotDue
    | AtDeactivate => c' = AtExchange
    | AtExchange => c' = if m_closed (sock w) then AtEnd EndedClosed else AtCloser
    | AtCloser => c' = AtEnd EndedClosed
    | AtOnCloseDeactivate => c' = AtOnCloseStore
    | AtOnCloseStore => c' = AtEnd EndedOnClose
    | AtSendLoad buf => c' = AtEnd (EndedSend true) \/ c' = AtEnd (EndedSend false) \/
        c' = AtSender buf /\ m_closed (sock w) = false
    | AtSender _ => c' = AtEnd (EndedSend true)
    | AtEnd e => c' = AtEnd e
    end
}.

Ltac no_events := exists []; by rewrite app_nil_r.

Lemma call_step_run c w : exists c' w', call_step c w = Some (c', w') /\ step_effect c c' w w'.
Proof.
  destruct c as [now| | | | | |buf|buf|e]; cbn [call_step]; unfold bindM, get, gets, id, on_sock, modify, retM,
    deactivate_auth_deadline, emit.
  - eexists _, _. split; [reflexivity|]. split; try done; [no_events|]. destruct (Deadline_expired _ _); auto.
  - eexists _, _. split; [reflexivity|]. split; try done. no_events.
  - eexists _, _. split; [reflexivity|]. split; try done. no_events.
  - destruct (m_closer (sock w)) eqn:Hc; (eexists _, _; split; [reflexivity|]; split; try done; rewrite Hc).
    + by exists [EvClose].
    + no_events.
  - eexists _, _. split; [reflexivity|]. split; try done. no_events.
  - eexists _, _. split; [reflexivity|]. split; try done. no_events.
  - destruct (zlen buf =? 0); (eexists _, _; split; [reflexivity|]; split; try done; [no_events|..]); [by left|].
    destruct (m_closed (sock w)), (m_sender (sock w)); cbn; auto.
  - eexists _, _. split; [reflexivity|]. split; try done. by exists [EvSend buf].
  - eexists _, _. split; [reflexivity|]. split; try done. no_events.
Qed.

(** ** The invariant *)

(** The call has exchanged or set [m_closed], or has at least stopped the deadline. *)
Definition past_closing c : bool :=
  match c with AtCloser | AtEnd EndedClosed | AtEnd EndedOnClose => true | _ => false end.
Definition past_deadline c : bool :=
  past_closing c || match c with AtExchange | AtOnCloseStore => true | _ => false end.

Record shared_inv (s : Shared) : Prop := {
  si_once : (count asks_close (w_log s.1) + closers s.2 <= if m_closed (sock s.1) then 1 else 0)%nat;
  si_closed : forall c, c ∈ s.2 -> past_closing c = true -> m_closed (sock s.1) = true;
  si_inactive : forall c, c ∈ s.2 -> past_deadline c = true -> m_active (m_authDeadline (sock s.1)) = false;
  si_asked : m_closed (sock s.1) = true -> m_closer (sock s.1) = true ->
    AtEnd EndedOnClose ∈ s.2 \/ (count asks_close (w_log s.1) + closers s.2 = 1)%nat
}.

Lemma elem_of_insert ts i c c' x :
  ts !! i = Some c -> x ∈ <[i := c']> ts -> x = c' \/ x ∈ ts.
Proof.
  intros Hi Hx. apply list_elem_of_lookup in Hx as [j Hj]. destruct (decide (i = j)) as [<-|Hne].
  - rewrite list_lookup_insert_eq in Hj by by eapply lookup_lt_Some. left. congruence.
  - rewrite list_lookup_insert_ne in Hj by done. right. by eapply list_elem_of_lookup_2.
Qed.

Lemma elem_of_insert_keep ts i c c' x :
  ts !! i = Some c -> (x = c -> c' = c) -> x ∈ ts -> x ∈ <[i := c']> ts.
Proof.
  intros Hi Hc Hx. apply list_elem_of_lookup in Hx as [j Hj]. destruct (decide (i = j)) as [<-|Hne].
  - rewrite Hi in Hj. injection Hj as <-. rewrite Hc, list_insert_id by done. by eapply list_elem_of_lookup_2.
  - apply list_elem_of_lookup_2 with j. by rewrite list_lookup_insert_ne.
Qed.

(** The flags only ever go one way. *)
Lemma step_monotone s s' :
  shared_step s s' ->
  (m_closed (sock s.1) = true -> m_closed (sock s'.1) = true) /\
  (m_active (m_authDeadline (sock s.1)) = false -> m_active (m_authDeadline (sock s'.1)) = false) /\
  m_closer (sock s'.1) = m_closer (sock s.1).
Proof.
  intros [w ts c _|w ts i c c' w' Hi Hrun|w ts w' (Hc & Hcl & _ & Hd & _)]; cbn [fst]; [done| |].
  - destruct (call_step_run c w) as (c1 & w1 & Hrun1 & []). rewrite Hrun in Hrun1. injection Hrun1 as <- <-.
    destruct se_closer0 as [-> _]. rewrite se_closed0, se_active0. split_and!; by destruct c.
  - rewrite Hc, Hcl. split_and!; [done| |done]. by destruct Hd as [-> | ->].
Qed.

Lemma run_inv w ts i c c' w' :
  ts !! i = Some c -> call_step c w = Some (c', w') -> shared_inv (w, ts) -> shared_inv (w', <[i := c']> ts).
Proof.
  intros Hi Hrun [H1 H2 H3 H4]. cbn [fst snd] in *.
  destruct (call_step_run c w) as (c1 & w1 & Hrun1 & [[Hcl _] Hc Ha (evs & Hlog & Hclose & _) Hn]).
  rewrite Hrun in Hrun1. injection Hrun1 as <- <-.
  pose proof (list_elem_of_lookup_2 _ _ _ Hi) as Hin. specialize (H2 c Hin) as H2c. specialize (H3 c Hin) as H3c.
  pose proof (closers_insert ts i c c' Hi) as Hcount.
  assert (Hkeep : AtEnd EndedOnClose ∈ ts -> AtEnd EndedOnClose ∈ <[i := c']> ts).
  { apply elem_of_insert_keep with c; [done|]. intros <-. done. }
  split; cbn [fst snd]; rewrite ?Hlog, ?Hc, ?Ha, ?Hcl, ?count_app, ?Hclose.
  - destruct c; cbn in *; repeat (destruct Hn as [-> | Hn]); subst; cbn in *; try lia.
    all: destruct (m_closed (sock w)), (m_closer (sock w)); cbn in *; try lia; naive_solver lia.
  - intros x [->|Hx]%(elem_of_insert _ _ c) Hp; [|destruct c; by eauto|done].
    destruct c; try done; cbn in *; repeat (destruct Hn as [-> | Hn]); subst; try done; naive_solver.
  - intros x [->|Hx]%(elem_of_insert _ _ c) Hp; [|destruct c; by eauto|done].
    destruct c; cbn in *; repeat (destruct Hn as [-> | Hn]); subst; try done; naive_solver.
  - intros Hcls Hcr. rewrite Hcr in *. destruct c; cbn in *.
    all: repeat (destruct Hn as [-> | Hn]); subst; cbn in *; try (destruct (H4 Hcls eq_refl); [by auto|right; lia]).
    + destruct (m_closed (sock w)); cbn in *; [destruct (H4 eq_refl eq_refl); [by auto|right; lia]|right; lia].
    + left. apply list_elem_of_lookup_2 with i. rewrite list_lookup_insert_eq; [done|]. by eapply lookup_lt_Some.
    + destruct Hn as [-> _]. cbn in *. destruct (H4 Hcls eq_refl); [by auto|right; lia].
Qed.

Lemma step_inv s s' : shared_step s s' -> shared_inv s -> shared_inv s'.
Proof.
  intros [w ts c Hf|w ts i c c' w' Hi Hrun|w ts w' (Hc & Hcl & _ & Hd & evs & Hlog & Hcount & _)].
  - intros [H1 H2 H3 H4]. cbn [fst snd] in *.
    assert (Hz : closers (ts ++ [c]) = closers ts) by (rewrite closers_app; destruct c; cbn in *; try done; lia).
    split; cbn [fst snd]; rewrite ?Hz; auto.
    + intros x [?| ->%list_elem_of_singleton]%elem_of_app Hp; [by eapply H2|by destruct c].
    + intros x [?| ->%list_elem_of_singleton]%elem_of_app Hp; [by eapply H3|by destruct c].
    + intros H5 H6. destruct (H4 H5 H6); [left; apply elem_of_app; by left|by right].
  - by apply run_inv with c.
  - intros [H1 H2 H3 H4]. cbn [fst snd] in *.
    split; cbn [fst snd]; rewrite ?Hlog, ?count_app, ?Hcount, ?Nat.add_0_r, ?Hc, ?Hcl; auto.
    intros x Hx Hp. specialize (H3 x Hx Hp). by destruct Hd as [-> | ->].
Qed.

Lemma reach_inv s s' : rtc shared_step s s' -> shared_inv s -> shared_inv s'.
Proof. induction 1; eauto using step_inv. Qed.

Lemma reach_monotone s s' :
  rtc shared_step s s' ->
  (m_closed (sock s.1) = true -> m_closed (sock s'.1) = true) /\
  (m_active (m_authDeadline (sock s.1)) = false -> m_active (m_authDeadline (sock s'.1)) = false) /\
  m_closer (sock s'.1) = m_closer (sock s.1).
Proof.
  induction 1 as [|s s1 s2 Hs _ (IH1 & IH2 & IH3)]; [done|].
  destruct (step_monotone _ _ Hs) as (H1 & H2 & H3). rewrite IH3, H3. auto.
Qed.

(** Nothing is handed to a closed transport. *)
Definition no_sender ts : Prop := forall buf, AtSender buf ∉ ts.

Lemma closed_silent s s' :
  shared_step s s' -> m_closed (sock s.1) = true -> no_sender s.2 ->
  no_sender s'.2 /\ count hands_over (w_log s'.1) = count hands_over (w_log s.1).
Proof.
  intros [w ts c Hf|w ts i c c' w' Hi Hrun|w ts w' (_ & _ & _ & _ & evs & Hlog & _ & Hcount)] Hc Hn;
    cbn [fst snd] in *.
  - split; [|done]. intros buf [?|E%list_elem_of_singleton]%elem_of_app; [by eapply Hn|]. by destruct c.
  - destruct (call_step_run c w) as (c1 & w1 & Hrun1 & [_ _ _ (evs & Hlog & _ & Hsend) Hnext]).
    rewrite Hrun in Hrun1. injection Hrun1 as <- <-.
    assert (Hcs : forall buf, c <> AtSender buf) by (intros buf ->; eapply Hn, list_elem_of_lookup_2, Hi).
    split.
    + intros buf [E|?]%(elem_of_insert _ _ c); [|by eapply Hn|done]. subst c'.
      destruct c; try rewrite Hc in Hnext; try done; [by destruct Hnext|].
      destruct Hnext as [?|[?|[_ ?]]]; congruence.
    + rewrite Hlog, count_app, Hsend. destruct c; try lia. by destruct (Hcs buf).
  - split; [done|]. rewrite Hlog, count_app, Hcount. lia.
Qed.

Lemma closed_silent_reach s s' :
  rtc shared_step s s' -> m_closed (sock s.1) = true -> no_sender s.2 ->
  count hands_over (w_log s'.1) = count hands_over (w_log s.1).
Proof.
  induction 1 as [|s s1 s2 Hs _ IH]; [done|]. intros Hc Hn.
  destruct (closed_silent _ _ Hs Hc Hn) as [Hn1 <-]. apply IH; [|done]. by apply (step_monotone _ _ Hs).
Qed.

End Closing.

(** ** Properties *)

(** C15. Closing under any interleaving of atomic steps: however many threads close, expire,
    report and send at the same time, the transport is asked for the teardown at most once;
    a call that has closed leaves the session closed and its deadline off, for good;
    unless the engine reported the end first, a completed close did ask for the teardown
    once no thread is still about to; and once the session is closed and no
    send is past its test, no byte is handed to the transport any more. *)
Theorem concurrent_close `{RealmdEnv} (w0 w : World) (ts : list CallPoint) :
  m_closed (sock w0) = false -> count asks_close (w_log w0) = 0%nat ->
  rtc shared_step (w0, []) (w, ts) ->
  (count asks_close (w_log w) <= 1)%nat /\
  (AtEnd EndedClosed ∈ ts \/ AtEnd EndedOnClose ∈ ts ->
   forall w' ts', rtc shared_step (w, ts) (w', ts') ->
   m_closed (sock w') = true /\ m_active (m_authDeadline (sock w')) = false) /\
  (m_closer (sock w0) = true -> AtEnd EndedClosed ∈ ts -> AtEnd EndedOnClose ∉ ts -> closers ts = 0%nat ->
   count asks_close (w_log w) = 1%nat) /\
  (m_closed (sock w) = true -> no_sender ts -> forall w' ts', rtc shared_step (w, ts) (w', ts') ->
   count hands_over (w_log w') = count hands_over (w_log w)).
Proof.
  intros H0 Hl Hr.
  assert (Hinv : shared_inv (w, ts)).
  { eapply reach_inv; [done|]. split; cbn [fst snd]; rewrite ?H0, ?Hl; try done; intros ? ?%elem_of_nil; done. }
  pose proof (reach_monotone _ _ Hr) as (_ & _ & Hcl). cbn in Hcl. destruct Hinv as [H1 H2 H3 H4]. cbn [fst snd] in *.
  split_and!.
  - destruct (m_closed (sock w)); lia.
  - intros Hend w' ts' Hr'. destruct (reach_monotone _ _ Hr') as (M1 & M2 & _). cbn in M1, M2.
    destruct Hend as [Hend|Hend]; (split; [apply M1; by eapply H2|apply M2; by eapply H3]).
  - intros Hc Hend Hno Hz. rewrite Hz in H4. destruct H4; [by eapply H2|by rewrite Hcl|done|lia].
  - intros Hc Hn w' ts' Hr'. apply (closed_silent_reach _ _ Hr' Hc Hn).
Qed.

(** The atomic steps are the operations: run without interference, the steps of a call
    do exactly what [close_connection], [onClose], [ExpireAuthentication] and [send] do, so
    the interleavings above are interleavings of the program's own calls. *)
Lemma run_alone_sequential `{RealmdEnv} (now : Z) (buf : bytes) (w : World) :
  run_alone 3 AtDeactivate w = (fun '(_, w') => (EndedClosed, w')) <$> close_connection w /\
  run_alone 2 AtOnCloseDeactivate w = (fun '(_, w') => (EndedOnClose, w')) <$> onClose w /\
  run_alone 4 (AtExpired now) w =
    (fun '(due, w') => (if (due : bool) then EndedClosed else EndedNotDue, w')) <$> ExpireAuthentication now w /\
  run_alone 2 (AtSendLoad buf) w = (fun '(sent, w') => (EndedSend sent, w')) <$> send buf w.
Proof.
  assert (Hclose : run_alone 3 AtDeactivate w = (fun '(_, w') => (EndedClosed, w')) <$> close_connection w).
  { unfold close_connection. cbn [run_alone call_step].
    unfold bindM, get, gets, on_sock, modify, retM, deactivate_auth_deadline, id.
    destruct w as [[] d r l c a rl t]. cbn. by destruct m_closed, m_closer. }
  split; [done|]. split; [done|]. split.
  - transitivity (run_alone 3 (if Deadline_expired (m_authDeadline (sock w)) now
      then AtDeactivate else AtEnd EndedNotDue) w); [done|].
    unfold ExpireAuthentication. rewrite bind_get.
    destruct (Deadline_expired _ now); cbn [negb]; [|done]. rewrite Hclose. unfold bindM.
    by destruct (close_connection w) as [[[] ?]|].
  - cbn [run_alone call_step]. unfold send. destruct (zlen buf =? 0); [done|].
    unfold bindM, get, gets, id, retM. by destruct (m_closed (sock w) || negb (m_sender (sock w))).
Qed.

(** ** A race *)

Section SampleRace.
#[local] Existing Instance sample_Env.

(** The sweep and the network thread close at the same time: both have stopped the deadline
    before either exchanges the flag. *)
Definition sample_late : Z := 31 * ns_per_second.

Definition race_step (i : nat) (s : Shared) : Shared :=
  match s.2 !! i with
  | Some c => match call_step c s.1 with Some (c', w') => (w', <[i := c']> s.2) | None => s end
  | None => s
  end.

Definition sample_race : Shared :=
  foldl (fun s i => race_step i s) (sample_socket, [AtExpired sample_late; AtDeactivate]) [0; 0; 1; 1; 0; 1]%nat.

Lemma race_step_reach i s : rtc shared_step s (race_step i s).
Proof.
  destruct s as [w ts]. unfold race_step. cbn [fst snd]. destruct (ts !! i) as [c|] eqn:Hi; [|apply rtc_refl].
  destruct (call_step c w) as [[c' w']|] eqn:Hc; [|apply rtc_refl]. apply rtc_once. by apply step_run with c.
Qed.

Lemma race_reach s l : rtc shared_step s (foldl (fun s i => race_step i s) s l).
Proof.
  revert s. induction l as [|i l IH]; intros s; [apply rtc_refl|]. cbn [foldl].
  etrans; [apply race_step_reach|apply IH].
Qed.

Lemma sample_race_reach : rtc shared_step (sample_socket, []) (sample_race.1, sample_race.2).
Proof.
  rewrite <- surjective_pairing.
  apply rtc_l with (sample_socket, [AtExpired sample_late]); [by apply (step_call _ [])|].
  apply rtc_l with (sample_socket, [AtExpired sample_late; AtDeactivate]); [by apply (step_call _ [_])|].
  apply race_reach.
Qed.

Lemma sample_race_ends : sample_race.2 = [AtEnd EndedClosed; AtEnd EndedClosed].
Proof. by vm_compute. Qed.

Lemma concurrent_close_witness :
  (count asks_close (w_log sample_race.1) <= 1)%nat /\ count asks_close (w_log sample_race.1) = 1%nat.
Proof.
  destruct (concurrent_close sample_socket sample_race.1 sample_race.2) as (H1 & _ & H3 & _).
  - by vm_compute.
  - by vm_compute.
  - apply sample_race_reach.
  - split; [exact H1|]. apply H3; [by vm_compute|..]; rewrite sample_race_ends; [by left| |done].
    by intros [?|[?|?%elem_of_nil]%elem_of_cons]%elem_of_cons.
Defined.

End SampleRace.
