(* ===== verification/Trail.v ===== *)
(** * The audit trail of a session

    The event log of a session accounts for everything it does to the database: the
    database after a run is the one before it with the logged operations applied in
    order, and the logged result of every checked write is the one the database gave. *)

From S2P Require Import Prelude AuthCodes ProtocolGuard PatchPolicy RealmList PatchArtifact.
From S2P Require Import Interfaces Srp6 Session SessionLogic Logon Reconnect RealmPacket Dispatch.

Local Open Scope Z_scope.
Local Open Scope realmd_scope.

Section Trail.
Context `{ENV : RealmdEnv}.

(** What one event does to the database. *)
Inductive effect : db -> Event -> db -> Prop :=
| effect_send d pkt : effect d (EvSend pkt) d
| effect_close d : effect d EvClose d
| effect_thread d acts : effect d (EvThread acts) d
| effect_query d q : effect d (EvQuery q) (PQuery q d).2
| effect_execute d st : effect d (EvExecute st) (PExecute st d)
| effect_direct d st : effect d (EvDirect st (DirectPExecute st d).1) (DirectPExecute st d).2.

Inductive replays : db -> list Event -> db -> Prop :=
| replays_nil d : replays d [] d
| replays_cons d e d1 evs d2 : effect d e d1 -> replays d1 evs d2 -> replays d (e :: evs) d2.

Lemma replays_app d1 evs1 d2 evs2 d3 :
  replays d1 evs1 d2 -> replays d2 evs2 d3 -> replays d1 (evs1 ++ evs2) d3.
Proof. induction 1; cbn; eauto using replays_cons. Qed.

Lemma replays_one d e d' : effect d e d' -> replays d [e] d'.
Proof. eauto using replays_cons, replays_nil. Qed.

Lemma replays_split d1 evs1 evs2 d3 :
  replays d1 (evs1 ++ evs2) d3 -> exists d2, replays d1 evs1 d2 /\ replays d2 evs2 d3.
Proof.
  revert d1. induction evs1 as [|e evs1 IH]; intros d1 H; cbn in H; [eauto using replays_nil|].
  inversion H as [|? ? d' ? ? He Hr]; subst. destruct (IH _ Hr) as (d2 & ? & ?). eauto using replays_cons.
Qed.

(** A computation whose log tells what it did to the database. *)
Class Trailed {A} (m : M World A) : Prop :=
  trailed : forall w a w', m w = Some (a, w') ->
    exists evs, w_log w' = w_log w ++ evs /\ replays (w_db w) evs (w_db w').

(** Computations that touch neither. *)
Lemma trailed_silent {A} (m : M World A) :
  (forall w a w', m w = Some (a, w') -> w_log w' = w_log w /\ w_db w' = w_db w) -> Trailed m.
Proof.
  intros Hm w a w' H. destruct (Hm _ _ _ H) as [-> ->]. exists []. rewrite app_nil_r.
  split; [done|constructor].
Qed.

Lemma trailed_emitting {A} (m : M World A) (e : World -> Event) :
  (forall w a w', m w = Some (a, w') -> w_log w' = w_log w ++ [e w] /\ effect (w_db w) (e w) (w_db w')) ->
  Trailed m.
Proof. intros Hm w a w' H. destruct (Hm _ _ _ H) as [-> ?]. eauto using replays_one. Qed.

Lemma trailed_ret {A} (a : A) : Trailed (retM a).
Proof. apply trailed_silent. by intros w ? ? [= _ <-]. Qed.

Lemma trailed_undef {A} : Trailed (@undef World A).
Proof. by intros ???. Qed.

Lemma trailed_liftO {A} (o : option A) : Trailed (liftO o).
Proof. apply trailed_silent. intros w a w'. unfold liftO. destruct o; [|done]. by intros [= _ <-]. Qed.

Lemma trailed_gets {A} (f : World -> A) : Trailed (gets f).
Proof. apply trailed_silent. by intros w ? ? [= _ <-]. Qed.

Lemma trailed_get {A} (f : AuthSocket -> A) : Trailed (get f).
Proof. apply trailed_gets. Qed.

Lemma trailed_on_sock (h : AuthSocket -> AuthSocket) : Trailed (on_sock h).
Proof. apply trailed_silent. by intros w ? ? [= _ <-]. Qed.

Lemma trailed_emit e : (forall d, effect d e d) -> Trailed (emit e).
Proof. intros He. apply (trailed_emitting _ (fun _ => e)). intros w ? ? [= _ <-]. split; [done|apply He]. Qed.

Lemma trailed_query (q : Query) : Trailed (query q).
Proof.
  apply (trailed_emitting _ (fun _ => EvQuery q)). intros w a w'. unfold query.
  destruct (PQuery q (w_db w)) as [r d] eqn:E. intros [= _ <-]. split; [done|].
  replace d with (PQuery q (w_db w)).2 by by rewrite E. constructor.
Qed.

Lemma trailed_execute (st : Statement) : Trailed (execute st).
Proof.
  apply (trailed_emitting _ (fun _ => EvExecute st)). intros w ? ? [= _ <-]. split; [done|constructor].
Qed.

Lemma trailed_direct (st : Statement) : Trailed (direct st).
Proof.
  apply (trailed_emitting _ (fun w => EvDirect st (DirectPExecute st (w_db w)).1)).
  intros w a w'. unfold direct. destruct (DirectPExecute st (w_db w)) as [ok d] eqn:E.
  intros [= _ <-]. split; [done|]. cbn.
  replace d with (DirectPExecute st (w_db w)).2 by by rewrite E.
  replace ok with (DirectPExecute st (w_db w)).1 by by rewrite E. constructor.
Qed.

Lemma trailed_set_rand bits : Trailed (set_rand bits).
Proof.
  apply trailed_silent. intros w a w'. unfold set_rand. destruct (SetRand bits (w_rng w)).
  by intros [= _ <-].
Qed.

Lemma trailed_bind {A B} (m : M World A) (f : A -> M World B) :
  Trailed m -> (forall a, Trailed (f a)) -> Trailed (bindM m f).
Proof.
  intros Hm Hf w b w'. unfold bindM. destruct (m w) as [[a w1]|] eqn:E; [|done]. intros E'.
  destruct (Hm _ _ _ E) as (e1 & L1 & H1).
  destruct (Hf _ _ _ _ E') as (e2 & L2 & H2).
  exists (e1 ++ e2). rewrite L2, L1, app_assoc. split; [done|]. by eapply replays_app.
Qed.

End Trail.

(** Prove [Trailed m] by following the structure of [m]. *)
Create HintDb trailed.
#[export] Hint Resolve trailed_ret trailed_undef trailed_liftO trailed_gets trailed_get
  trailed_on_sock trailed_query trailed_execute trailed_direct trailed_set_rand : trailed.

Ltac trailed_step :=
  match goal with
  | |- Trailed (bindM _ _) => apply trailed_bind; [|intros ?]
  | |- Trailed (emit _) => apply trailed_emit; intros ?; constructor
  | |- Trailed (modify _) => apply trailed_silent; by intros ? ? ? [= _ <-]
  | |- Trailed (if ?c then _ else _) => destruct c
  | |- Trailed (match ?x with _ => _ end) => destruct x
  | |- Trailed (let x := _ in _) => cbv zeta
  | |- _ => solve [eauto 2 with trailed]
  end.

Ltac trail := repeat trailed_step.

Section Handlers.
Context `{ENV : RealmdEnv}.

Lemma trailed_send buf : Trailed (send buf).
Proof. unfold send. trail. Qed.

Lemma trailed_close_connection : Trailed close_connection.
Proof. unfold close_connection, deactivate_auth_deadline. trail. Qed.

Lemma trailed_recv n : Trailed (recv n).
Proof. unfold recv, recv_soft, recv_skip, recv_len. trail. Qed.

#[local] Hint Resolve trailed_send trailed_close_connection trailed_recv : trailed.

Lemma trailed_ReadChallenge : Trailed ReadChallenge.
Proof. unfold ReadChallenge, recv_len, set_status. trail. Qed.

Lemma trailed_AssignIdentity buf : Trailed (AssignIdentity buf).
Proof. unfold AssignIdentity. trail. Qed.

Lemma trailed_AssignOs buf : Trailed (AssignOs buf).
Proof. unfold AssignOs. trail. Qed.

#[local] Hint Resolve trailed_ReadChallenge trailed_AssignIdentity trailed_AssignOs : trailed.

Lemma trailed_LogonChallenge : Trailed _HandleLogonChallenge.
Proof.
  unfold _HandleLogonChallenge, LogonChallenge_body, ChallengeAccount, ChallengeAccepted, _SetVSFields,
    EscapeLogin, set_status. trail.
Qed.

Lemma trailed_OfferPatch : Trailed OfferPatch.
Proof. unfold OfferPatch, SendInvalidVersion, set_status, deactivate_auth_deadline. trail. Qed.

Lemma trailed_WrongPassword : Trailed WrongPassword.
Proof. unfold WrongPassword, CountWrongPassword. trail. Qed.

#[local] Hint Resolve trailed_OfferPatch trailed_WrongPassword : trailed.

Lemma trailed_LogonProof : Trailed _HandleLogonProof.
Proof.
  unfold _HandleLogonProof, LogonProof_body, ProofAccepted, SendInvalidVersion, SendProof, set_status,
    deactivate_auth_deadline, authed_fetch_add. trail.
Qed.

Lemma trailed_ReconnectChallenge : Trailed _HandleReconnectChallenge.
Proof.
  unfold _HandleReconnectChallenge, ReconnectChallenge_body, EscapeLogin, set_status.
  trail.
Qed.

Lemma trailed_ReconnectProof : Trailed _HandleReconnectProof.
Proof.
  unfold _HandleReconnectProof, ReconnectProof_body, ReconnectAccepted, set_status,
    deactivate_auth_deadline, authed_fetch_add. trail.
Qed.

Lemma trailed_Xfer : Trailed _HandleXferAccept /\ Trailed _HandleXferResume /\ Trailed _HandleXferCancel.
Proof.
  unfold _HandleXferAccept, _HandleXferResume, _HandleXferCancel, BeginPatchStream, recv_skip, recv_len,
    set_status. split_and!; trail.
Qed.

Lemma trailed_RealmEntries entry acctid rs : Trailed (RealmEntries entry acctid rs).
Proof. induction rs as [|r rs IH]; cbn [RealmEntries]; unfold AmountOfCharacters; trail. Qed.

#[local] Hint Resolve trailed_RealmEntries : trailed.

Lemma trailed_RealmList : Trailed _HandleRealmList.
Proof.
  unfold _HandleRealmList, RealmList_body, RefreshRealmList, LoadRealmlist, recv_len, recv_skip. trail.
Qed.

Lemma trailed_dispatch handlers cmd start size :
  Forall (fun h => Trailed (h_handler h)) handlers -> Trailed (dispatch handlers cmd start size).
Proof. induction 1; cbn [dispatch]; trail. Qed.

Lemma table_trailed : Forall (fun h => Trailed (h_handler h)) table.
Proof.
  destruct trailed_Xfer as (? & ? & ?).
  repeat constructor; auto using trailed_LogonChallenge, trailed_LogonProof, trailed_ReconnectChallenge,
    trailed_ReconnectProof, trailed_RealmList.
Qed.

Lemma trailed_frame_loop fuel : Trailed (frame_loop fuel).
Proof.
  induction fuel; cbn [frame_loop]; unfold drop_stream, recv_len; trail.
  apply trailed_dispatch, table_trailed.
Qed.

Lemma trailed_onData data : Trailed (onData data).
Proof. unfold onData, drop_stream, crunch. trail. apply trailed_frame_loop. Qed.

End Handlers.
