(* ===== verification/LogonProperties.v ===== *)
(** * Correctness of the logon and reconnect handlers

    What each handler decides, on every branch: a verdict computed from the session, the
    database and the frame, and the answer, the state and the database traffic of each. *)

From S2P Require Import Prelude AuthCodes ProtocolGuard PatchPolicy ClientLocale ClientBuild.
From S2P Require Import Layouts RealmList PatchArtifact Interfaces Samples Srp6 Session SessionLogic.
From S2P Require Import Logon Reconnect RealmPacket Dispatch Bodies Serve SessionInv.
From S2P Require Import SessionSafety SessionProperties.

Local Open Scope Z_scope.
Local Open Scope realmd_scope.
#[local] Set Warnings "-clear-no-such-hyp".

Section Specs.
Context `{ENV : RealmdEnv}.
Implicit Types (k : AuthSocket) (w : World).

(** ** The logon proof *)

Definition proof_A (lp : bytes) : bn := SetBinary (take 32 (drop 1 lp)).
Definition proof_M1 (lp : bytes) : bytes := take 20 (drop 33 lp).

Definition session_key k (A : bn) : bn :=
  srp_K (srp_S (bn_N k) A (bn_v k) (srp_u A (bn_B k)) (bn_b k)).

Definition expected_M k (A : bn) : bn :=
  srp_M (bn_N k) (bn_g k) (bn_s k) A (bn_B k) (session_key k A) (_login k).

(** The client's public value is not a multiple of [N] and its proof is the expected one. *)
Definition proof_ok k (lp : bytes) : bool :=
  negb (isZero (bn_mod (proof_A lp) (bn_N k))) &&
  bool_decide (fixed (expected_M k (proof_A lp)) SHA_DIGEST_LENGTH = proof_M1 lp).

Definition build_supported k : bool := bool_decide (is_Some (FindBuildInfo (_build k))).

(** The statement that publishes the session. *)
Definition session_statement k (lp : bytes) : Statement :=
  UpdSession (AsHexStr (session_key k (proof_A lp))) (c_str (remote_address_ k))
    (GetLocaleByName (_localizationName k)) (c_str (escape_string (_localizationName k)))
    (c_str (escape_string (_os k))) (c_str (_safelogin k)).

(** The server's proof, in the layout of the client's build. *)
Definition proof_packet k (lp : bytes) : bytes :=
  let M2 := srp_M2 (proof_A lp) (expected_M k (proof_A lp)) (session_key k (proof_A lp)) in
  [1; 0] ++ M2 ++
  (if vanilla_layout (_build k) then [0; 0; 0; 0] else [0; 0; 128; 0; 0; 0; 0; 0; 0; 0]).

Definition is_direct (e : Event) : bool := match e with EvDirect _ _ => true | _ => false end.

Inductive ProofVerdict : Set :=
| InvalidPublicValue
| WrongProof
| MustPatch
| UnsupportedBuild
| NotPublished
| Accepted.

#[export] Instance ProofVerdict_eq_dec : EqDecision ProofVerdict.
Proof. solve_decision. Defined.

(** What a proof is worth, in the order the questions are asked. *)
Definition proof_verdict k (d : db) (lp : bytes) : ProofVerdict :=
  if isZero (bn_mod (proof_A lp) (bn_N k)) then InvalidPublicValue else
  if negb (bool_decide (fixed (expected_M k (proof_A lp)) SHA_DIGEST_LENGTH = proof_M1 lp)) then WrongProof else
  if ShouldPatch (_patchPolicy k) (_build k) (build_supported k) then MustPatch else
  if negb (build_supported k) then UnsupportedBuild else
  if negb (DirectPExecute (session_statement k lp) d).1 then NotPublished else Accepted.

Definition invalid_version_packet : bytes := [0; 0; 9].

(** The ban a failed login leads to, if its count reaches the configured limit. *)
Definition ban_statement k (failed : Z * Z) : list Event :=
  let banTime := u32 (GetIntDefault "WrongPass.BanTime" 600) in
  if u32 (GetIntDefault "WrongPass.MaxCount" 0) <=? failed.2
  then [EvExecute (if GetBoolDefault "WrongPass.BanType" false then InsAccountBanned failed.1 banTime
                   else InsIpBanned (c_str (escape_string (remote_address_ k))) banTime)]
  else [].

(** The answer to a wrong password and the accounting it triggers. *)
Definition wrong_password_events k (d : db) : list Event :=
  let user := c_str (_safelogin k) in
  EvSend (if 6005 <? _build k then [1; 4; 3; 0] else [1; 4]) ::
  (if 0 <? u32 (GetIntDefault "WrongPass.MaxCount" 0) then
     [EvExecute (UpdFailedLogins user); EvQuery (SelFailedLogins user)] ++
     match (PQuery (SelFailedLogins user) (PExecute (UpdFailedLogins user) d)).1 with
     | Some failed => ban_statement k failed
     | None => []
     end
   else []).

(** What the session does for each verdict: the handler's result, the socket after it and
    the events, which are all the handler sends and writes. *)
Definition proof_answer k (d : db) (lp : bytes) (ok : bool) k' (evs : list Event) : Prop :=
  match proof_verdict k d lp with
  | InvalidPublicValue => ok = false /\ _status k' = STATUS_CLOSED /\ evs = []
  | WrongProof => ok = true /\ _status k' = STATUS_CLOSED /\ evs = wrong_password_events k d
  | MustPatch =>
      ok = true /\
      match opened (patch_path (_build k) (_localizationName k)) with
      | Some a => _status k' = STATUS_PATCH /\ m_patchArtifact k' = Some a /\
          evs = [EvSend [1; 10]; EvSend (transfer (m_size a) (m_digest a))]
      | None => _status k' = STATUS_CLOSED /\ evs = [EvSend invalid_version_packet]
      end
  | UnsupportedBuild => ok = true /\ _status k' = STATUS_CLOSED /\ evs = [EvSend invalid_version_packet]
  | NotPublished => ok = false /\ _status k' = STATUS_CLOSED /\ m_closed k' = true /\
      evs = EvDirect (session_statement k lp) false :: close_events false (m_closer k)
  | Accepted => ok = true /\ _status k' = STATUS_AUTHED /\
      bn_K k' = session_key k (proof_A lp) /\
      evs = [EvDirect (session_statement k lp) true; EvSend (proof_packet k lp)]
  end.

Context {LAWS : RealmdLaws}.

Lemma lp_reads (lp : bytes) :
  zlen lp = 75 -> rds lp lp_A_off 32 = Some (take 32 (drop 1 lp)) /\ rds lp lp_M1_off 20 = Some (proof_M1 lp).
Proof. intros Hl. split; apply rds_inside; unfold lp_A_off, lp_M1_off; lia. Qed.

Lemma take_M2 A M K : take 20 (srp_M2 A M K) = srp_M2 A M K.
Proof.
  apply take_ge. unfold srp_M2. pose proof (sha1_length (fixed A SRP_EPHEMERAL_WIDTH ++
    fixed M SHA_DIGEST_LENGTH ++ fixed K SRP_SESSION_KEY_WIDTH)) as Hl.
  unfold zlen, SHA_DIGEST_LENGTH in *. lia.
Qed.

Lemma pack_proof_6005 c e M2 u :
  pack sAuthLogonProof_S_BUILD_6005 [[c]; [e]; M2; u] = [c; e] ++ take 20 M2 ++ take 4 u ++ [].
Proof. reflexivity. Qed.

Lemma pack_proof c e M2 f s u :
  pack sAuthLogonProof_S [[c]; [e]; M2; f; s; u] = [c; e] ++ take 20 M2 ++ take 4 f ++ take 4 s ++ take 2 u ++ [].
Proof. reflexivity. Qed.

Lemma sent_open sender buf : sender = true -> buf <> [] -> sent false sender buf = [EvSend buf].
Proof.
  intros -> Hb. unfold sent. destruct buf; [done|]. rewrite zlen_cons. pose proof (zlen_nonneg buf).
  destruct (Z.eqb_spec (1 + zlen buf) 0); [lia|done].
Qed.

Lemma existsb_sent closed sender buf : existsb is_direct (sent closed sender buf) = false.
Proof. unfold sent. by destruct (_ || _). Qed.

Lemma put_u8_byte x : is_byte x -> put_u8 x = [x].
Proof. intros Hx. rewrite put_u8_le. cbn. by rewrite Z.mod_small. Qed.

Definition logon_proof_post k d l (lp : bytes) (ok : bool) (w' : World) : Prop :=
  exists evs, w_log w' = l ++ evs /\ proof_answer k d lp ok (sock w') evs.

Lemma logon_proof_spec lp k d r l c a rl t :
  zlen lp = 75 -> m_closed k = false -> m_sender k = true ->
  wp (LogonProof_body lp) (logon_proof_post k d l lp) (mkWorld k d r l c a rl t).
Proof.
  intros Hl Hcl Hsnd. destruct (lp_reads lp Hl) as [HA HM].
  unfold LogonProof_body. rewrite HA, HM.
  unfold ProofAccepted, OfferPatch, SendProof, SendInvalidVersion, WrongPassword, CountWrongPassword.
  run.
  all: eexists; (split; [cbn [w_log]; rewrite <- ?app_assoc; first [reflexivity | symmetry; apply app_nil_r]|]).
  all: unfold proof_answer, proof_verdict, build_supported, expected_M, session_statement,
    session_key, proof_A, wrong_password_events, ban_statement; sock_cbn.
  all: by_cases.
  all: rewrite ?put_u8_byte, ?sent_open by (done || auto with realmd).
  all: split_and?; try done; try (by destruct (6005 <? _build k)).
  unfold proof_packet. destruct (vanilla_layout (_build k)); rewrite ?pack_proof, ?pack_proof_6005, take_M2; done.
Qed.

(** ** The logon challenge *)

Definition cf_build (f : bytes) : Z := le_val (take 2 (drop 11 f)).
Definition cf_country (f : bytes) : bytes := take 4 (drop 21 f).
Definition cf_os (f : bytes) : bytes := default [] (cstr (drop 17 (f ++ [0]))).

Inductive ChallengeVerdict : Type :=
| MalformedOs
| AddressBanned
| NoSuchAccount
| LockedToAddress
| AccountBanned
| AccountSuspended
| Challenged (row : AccountRow).

(** The account is locked to the address of its last login and this is another one. *)
Definition locked_out k (row : AccountRow) : bool :=
  (acc_locked row =? 1) && negb (bool_decide (c_str (acc_last_ip row) = c_str (remote_address_ k))).

Definition challenge_verdict k (d : db) (f : bytes) : ChallengeVerdict :=
  if 4 <? zlen (cf_os f) then MalformedOs else
  let ipq := PQuery (SelIpBanned (c_str (escape_string (remote_address_ k)))) d in
  match ipq.1 with
  | Some _ => AddressBanned
  | None =>
      let accq := PQuery (SelAccount (c_str (escape_string (challenge_login f)))) ipq.2 in
      match accq.1 with
      | None => NoSuchAccount
      | Some row =>
          if locked_out k row then LockedToAddress else
          match (PQuery (SelAccountBanned (acc_id row)) accq.2).1 with
          | Some (bandate, unbandate) => if bandate =? unbandate then AccountBanned else AccountSuspended
          | None => Challenged row
          end
      end
  end.

Definition refusal (f : bytes) (v : ChallengeVerdict) : AuthResult :=
  match v with
  | AddressBanned | AccountBanned => WOW_FAIL_BANNED
  | NoSuchAccount => WOW_FAIL_UNKNOWN_ACCOUNT
  | LockedToAddress => LockedAccountResultForBuild (cf_build f)
  | AccountSuspended => WOW_FAIL_SUSPENDED
  | MalformedOs | Challenged _ => WOW_SUCCESS
  end.

Definition verifier_stored (row : AccountRow) : bool :=
  (zlen (acc_v row) =? 64) && (zlen (acc_s row) =? 64).

(** The identity and the SRP6 values a successful challenge leaves in the session. *)
Definition challenge_set k (f : bytes) (row : AccountRow) k' : Prop :=
  _login k' = challenge_login f /\ _safelogin k' = escape_string (challenge_login f) /\
  _build k' = cf_build f /\ _os k' = reverse (cf_os f) /\
  _localizationName k' = default [] (ParseClientLocaleClaim (cf_country f)) /\
  _accountSecurityLevel k' = Z.min (acc_gmlevel row) SEC_ADMINISTRATOR /\
  bn_N k' = bn_N k /\ bn_g k' = bn_g k /\
  bn_B k' = srp_B (bn_N k) (bn_v k') (srp_gmod (bn_g k) (bn_N k) (bn_b k')) /\
  (if verifier_stored row
   then bn_s k' = SetHexStr (c_str (acc_s row)) /\ bn_v k' = SetHexStr (c_str (acc_v row))
   else bn_v k' = srp_v (bn_g k) (bn_N k) (srp_x (bn_s k') (password_digest (c_str (acc_sha_pass_hash row))))).

Definition is_send (e : Event) : bool := match e with EvSend _ => true | _ => false end.

(** The only packet of a run, sent at its end. *)
Definition answers (evs : list Event) (pkt : bytes) : Prop :=
  exists before, evs = before ++ [EvSend pkt] /\ existsb is_send before = false.

Definition challenge_answer k (d : db) (f : bytes) (ok : bool) k' (evs : list Event) : Prop :=
  match challenge_verdict k d f with
  | MalformedOs => ok = false /\ _status k' = STATUS_CLOSED /\ evs = []
  | Challenged row => ok = true /\ _status k' = STATUS_LOGON_PROOF /\ m_closed k' = false /\
      challenge_set k f row k' /\
      exists unk3, answers evs ([0; 0; 0] ++
        ChallengeFields (bn_B k') (bn_g k') (bn_N k') (bn_s k') unk3)
  | v => ok = true /\ _status k' = STATUS_CLOSED /\ answers evs [0; 0; result_code (refusal f v)]
  end.

Lemma challenge_fields (f : bytes) :
  WellFormedFrame Challenge f ->
  (exists I_len, rd (f ++ [0]) ch_I_len_off = Some I_len /\
     rds (f ++ [0]) ch_I_off I_len = Some (challenge_login f)) /\
  rds (f ++ [0]) ch_country_off 4 = Some (cf_country f) /\
  rds (f ++ [0]) ch_build_off 2 = Some (take 2 (drop 11 f)) /\
  cstr (drop (Z.to_nat ch_os_off) (f ++ [0])) = Some (cf_os f).
Proof.
  intros Hw. destruct (challenge_reads f Hw) as (I_len & country & bld & os & HI & Hl & Hc & Hb & Ho).
  assert (Hlen : 35 <= zlen f).
  { inversion Hw; subst. autorewrite with zlen. lia. }
  assert (Htail : forall off n, 0 <= off -> 0 <= n -> off + n <= 35 ->
    rds (f ++ [0]) off n = Some (take (Z.to_nat n) (drop (Z.to_nat off) f))).
  { intros off n H1 H2 H3. rewrite rds_inside by (autorewrite with zlen; lia).
    rewrite drop_app_le by (unfold zlen in Hlen; lia). f_equal.
    apply take_app_le. rewrite length_drop. unfold zlen in Hlen. lia. }
  split_and!; [by exists I_len|by apply Htail..|]. rewrite Ho. unfold cf_os.
  change (Z.to_nat ch_os_off) with 17%nat in Ho. by rewrite Ho.
Qed.

Lemma sent_last k buf : m_closed k = false -> m_sender k = true -> buf <> [] ->
  sent (m_closed k) (m_sender k) buf = [EvSend buf].
Proof. intros -> Hs Hb. by apply sent_open. Qed.

Lemma min_leb (x y : Z) : (if x <=? y then x else y) = Z.min x y.
Proof. destruct (Z.leb_spec x y); lia. Qed.

Ltac answer_tac :=
  repeat match goal with |- exists _, _ => eexists end;
  eexists; split; [rewrite ?app_assoc; reflexivity|reflexivity].

Lemma logon_challenge_spec f k d r l c a rl t :
  WellFormedFrame Challenge f -> session_ok k -> m_closed k = false -> m_sender k = true ->
  wp (set_status STATUS_CLOSED ;; LogonChallenge_body (f ++ [0]))
    (fun ok w' => exists evs, w_log w' = l ++ evs /\ challenge_answer k d f ok (sock w') evs)
    (mkWorld k d r l c a rl t).
Proof.
  intros Hf Hok Hcl Hsnd.
  destruct (challenge_fields f Hf) as ((I_len & HI & Hlogin) & Hcountry & Hbld & Hos).
  unfold LogonChallenge_body, AssignIdentity, AssignOs, EscapeLogin, ChallengeAccount,
    ChallengeAccepted, _SetVSFields.
  rewrite Hcountry, HI, Hbld, Hos. run. rewrite Hlogin. run.
  all: gmod_fits (ok_N _ Hok) (ok_g _ Hok).
  all: eexists; (split; [cbn [w_log]; rewrite <- ?app_assoc; first [reflexivity | symmetry; apply app_nil_r]|]).
  all: unfold challenge_answer, challenge_verdict, locked_out; sock_cbn.
  all: by_cases.
  all: rewrite ?put_u8_byte, ?sent_open by (done || auto with realmd).
  all: split_and?; try done.
  all: try match goal with |- context [if ?z =? ?z0 then AccountBanned else _] => destruct (z =? z0) end.
  all: split_and?; try done; try answer_tac.
  all: unfold challenge_set; sock_cbn; rewrite min_leb; split_and?; try done.
  all: unfold verifier_stored; change (s_BYTE_SIZE * 2) with 64 in *.
  all: by destruct (_ =? 64), (_ =? 64).
Qed.

(** ** Handlers as the transport sees them *)

(** The session after the handler's result has been taken into account: a failed handler
    closes it, and the frame is consumed in both cases. *)
Definition conclude (ok : bool) k : AuthSocket :=
  (if ok then k else closed_sock k) <| m_readBuf := [] |> <| m_readPos := 0 |>.

(** [A] describes how a session handles the frame [f] delivered to it: the handler's
    result, the socket it leaves and the events. *)
Definition handles (f : bytes) w (A : bool -> AuthSocket -> list Event -> Prop) : Prop :=
  exists ok k' evs w', onData f w = Some ([], w') /\ A ok k' evs /\ sock w' = conclude ok k' /\
    w_log w' = w_log w ++ evs ++ (if ok then [] else close_events (m_closed k') (m_closer k')).

(** The same, with the random source after it. *)
Definition draws (f : bytes) w (A : bool -> AuthSocket -> list Event -> rng -> Prop) : Prop :=
  exists ok k' evs w', onData f w = Some ([], w') /\ A ok k' evs (w_rng w') /\ sock w' = conclude ok k' /\
    w_log w' = w_log w ++ evs ++ (if ok then [] else close_events (m_closed k') (m_closer k')).

(** An open session with nothing pending. *)
Definition ready w : Prop :=
  wf_session w /\ m_closed (sock w) = false /\ m_readBuf (sock w) = [] /\ m_sender (sock w) = true.

Lemma serve_nil fuel w : serve (S fuel) [] w = Some ([], w).
Proof. destruct (m_closed (sock w)) eqn:Hc; [by apply serve_closed|by rewrite serve_open]. Qed.

Lemma onData_draws f w A :
  ready w -> WellFormedFrame (stream_state (_status (sock w))) f -> Forall is_byte f ->
  wp (frame_body f) (fun ok w1 => exists evs, w_log w1 = w_log w ++ evs /\ A ok (sock w1) evs (w_rng w1)) w ->
  draws f w A.
Proof.
  intros (Hwf & Hc & Hb & _) Hw Hf Hwp. apply wp_run in Hwp as (ok & w1 & Hrun & evs & Hlog & HA).
  assert (Hi : InspectFrame (stream_state (_status (sock w))) (Some f) (zlen f) =
    Some (mkDecision Complete NoReason (zlen f))) by by apply InspectFrame_accepts.
  assert (Hl : zlen f <= 4 + 30 + 255).
  { by apply InspectFrame_decision in Hi as [_ ?]; [|auto with realmd|]. }
  assert (HM : MaxPendingInput = 65539) by by vm_compute.
  destruct (onData_run f w Hwf Hf ltac:(lia)) as (w' & Hon & Hrec & _).
  assert (Hserve : serve (S (length (m_readBuf (sock w) ++ f))) (m_readBuf (sock w) ++ f) w =
    if ok then Some ([], w1) else (close_connection ;; retM []) w1).
  { rewrite Hb. cbn [app]. rewrite serve_open, Hi by done. cbn [status frameSize].
    unfold zlen. rewrite Nat2Z.id, take_ge, drop_ge, Hrun by lia. destruct ok; [|done].
    destruct f; [inversion Hw|apply serve_nil]. }
  destruct ok.
  - rewrite (receive_open f w [] w1) in Hrec; [|done|rewrite Hb, zlen_nil; lia|done]. injection Hrec as <-.
    eexists true, (sock w1), evs, _. split_and!; [done..|]. by rewrite app_nil_r.
  - destruct (close_connection_run w1) as (w2 & Hcl & Hs & _ & _ & _ & Hlog2 & Hrng).
    rewrite (receive_open f w [] w2) in Hrec; [|done|rewrite Hb, zlen_nil; lia|].
    + injection Hrec as <-. eexists false, (sock w1), evs, _. split_and!; [done| | |].
      * change (w_rng (with_stream [] 0 w2)) with (w_rng w2). by rewrite Hrng.
      * unfold with_stream. cbn [sock upd conclude]. by rewrite Hs.
      * change (w_log (with_stream [] 0 w2)) with (w_log w2). by rewrite Hlog2, Hlog, app_assoc.
    + rewrite Hserve. unfold bindM. by rewrite Hcl.
Qed.

Lemma onData_frame f w A :
  ready w -> WellFormedFrame (stream_state (_status (sock w))) f -> Forall is_byte f ->
  wp (frame_body f) (fun ok w1 => exists evs, w_log w1 = w_log w ++ evs /\ A ok (sock w1) evs) w ->
  handles f w A.
Proof. exact (onData_draws f w (fun ok k' evs _ => A ok k' evs)). Qed.

Lemma frame_cmd f c : rd f 0 = Some (cmd_code c) -> cmd_of_byte (default (-1) (rd f 0)) = Some c.
Proof. intros ->. apply cmd_of_byte_code. Qed.

Lemma logon_challenge_handles f w :
  ready w -> _status (sock w) = STATUS_CHALLENGE -> WellFormedFrame Challenge f -> Forall is_byte f ->
  rd f 0 = Some (cmd_code CMD_AUTH_LOGON_CHALLENGE) ->
  handles f w (challenge_answer (sock w) (w_db w) f).
Proof.
  intros Hr Hst Hw Hf Hc. apply onData_frame; [done|by rewrite Hst|done|].
  unfold frame_body. rewrite (frame_cmd _ _ Hc). destruct Hr as ((Hok & _) & Hcl & _ & Hs).
  destruct w. by apply logon_challenge_spec.
Qed.

Lemma logon_proof_handles f w :
  ready w -> _status (sock w) = STATUS_LOGON_PROOF -> WellFormedFrame LogonProof f -> Forall is_byte f ->
  handles f w (proof_answer (sock w) (w_db w) f).
Proof.
  intros Hr Hst Hw Hf. apply onData_frame; [done|by rewrite Hst|done|].
  destruct Hr as ((Hok & _) & Hcl & _ & Hs). destruct w.
  inversion Hw as [|mid fl Hm| | | | |]; subst f.
  apply logon_proof_spec; [autorewrite with zlen; lia|done..].
Qed.

(** ** Reconnecting *)

Definition reconnect_R1 (lp : bytes) : bn := SetBinary (take 16 (drop 1 lp)).
Definition reconnect_R2 (lp : bytes) : bytes := take 20 (drop 17 lp).

(** The session has an account, a challenge and a key, and the digest is the expected. *)
Definition reconnect_ok k (lp : bytes) : bool :=
  negb (zlen (_login k) =? 0) && negb (GetNumBytes (_reconnectProof k) =? 0) &&
  negb (GetNumBytes (bn_K k) =? 0) &&
  bool_decide (reconnect_digest (_login k) (reconnect_R1 lp) (_reconnectProof k) (bn_K k) = reconnect_R2 lp).

Definition identity_statement k : Statement :=
  UpdClientIdentity (c_str (escape_string (_localizationName k))) (c_str (escape_string (_os k)))
    (c_str (_safelogin k)).

Definition reconnect_answer k (d : db) (lp : bytes) (ok : bool) k' (evs : list Event) : Prop :=
  if reconnect_ok k lp then
    if (DirectPExecute (identity_statement k) d).1 then
      ok = true /\ _status k' = STATUS_AUTHED /\
      _accountSecurityLevel k' = _accountSecurityLevel k /\
      evs = [EvDirect (identity_statement k) true;
             EvSend ([3; 0] ++ if 6141 <? _build k then [0; 0] else [])]
    else
      ok = false /\ _status k' = STATUS_CLOSED /\ m_closed k' = true /\
      evs = EvDirect (identity_statement k) false :: close_events false (m_closer k)
  else ok = false /\ _status k' = STATUS_CLOSED /\ existsb is_direct evs = false /\ existsb is_send evs = false.

Lemma existsb_close closed closer :
  existsb is_direct (close_events closed closer) = false /\ existsb is_send (close_events closed closer) = false.
Proof. unfold close_events. by destruct (_ && _). Qed.

Lemma recon_reads (lp : bytes) :
  zlen lp = 58 -> rds lp lp_R1_off 16 = Some (take 16 (drop 1 lp)) /\ rds lp lp_R2_off 20 = Some (reconnect_R2 lp).
Proof. intros Hl. split; apply rds_inside; unfold lp_R1_off, lp_R2_off; lia. Qed.

Lemma reconnect_proof_spec lp k d r l c a rl t :
  zlen lp = 58 -> m_closed k = false -> m_sender k = true ->
  wp (ReconnectProof_body lp)
    (fun ok w' => exists evs, w_log w' = l ++ evs /\ reconnect_answer k d lp ok (sock w') evs)
    (mkWorld k d r l c a rl t).
Proof.
  intros Hl Hcl Hsnd.
  destruct (recon_reads lp Hl) as [H1 H2].
  unfold ReconnectProof_body. rewrite H1, H2. unfold ReconnectAccepted. run.
  all: eexists; (split; [cbn [w_log]; rewrite <- ?app_assoc; first [reflexivity | symmetry; apply app_nil_r]|]).
  all: unfold reconnect_answer, reconnect_ok, reconnect_R1, identity_statement; sock_cbn.
  all: rewrite <- ?negb_orb; by_cases; cbn [andb].
  all: rewrite ?put_u16_le, ?put_u8_byte, ?sent_open by (done || auto with realmd).
  all: split_and?; try done; try apply existsb_close.
Qed.

Lemma reconnect_proof_handles f w :
  ready w -> _status (sock w) = STATUS_RECON_PROOF -> WellFormedFrame ReconnectProof f -> Forall is_byte f ->
  handles f w (reconnect_answer (sock w) (w_db w) f).
Proof.
  intros Hr Hst Hw Hf. apply onData_frame; [done|by rewrite Hst|done|].
  destruct Hr as ((Hok & _) & Hcl & _ & Hs). destruct w.
  inversion Hw as [| |mid Hm| | | |]; subst f.
  apply reconnect_proof_spec; [autorewrite with zlen; lia|done..].
Qed.

Lemma reconnect_ok_iff k lp :
  reconnect_ok k lp = true <->
  _login k <> [] /\ GetNumBytes (_reconnectProof k) <> 0 /\ GetNumBytes (bn_K k) <> 0 /\
  reconnect_digest (_login k) (reconnect_R1 lp) (_reconnectProof k) (bn_K k) = reconnect_R2 lp.
Proof.
  unfold reconnect_ok. rewrite !andb_true_iff, !negb_true_iff, !Z.eqb_neq, bool_decide_eq_true.
  assert (zlen (_login k) <> 0 <-> _login k <> []) as ->; [|tauto].
  destruct (_login k); [by rewrite zlen_nil|]. split; [done|intros _]. rewrite zlen_cons.
  pose proof (zlen_nonneg l). lia.
Qed.

(** The answers that authenticate. *)
Lemma reconnect_authenticates f w w' :
  ready w -> _status (sock w) = STATUS_RECON_PROOF -> WellFormedFrame ReconnectProof f -> Forall is_byte f ->
  onData f w = Some ([], w') ->
  _status (sock w') = STATUS_AUTHED <->
  _login (sock w) <> [] /\ GetNumBytes (_reconnectProof (sock w)) <> 0 /\ GetNumBytes (bn_K (sock w)) <> 0 /\
  reconnect_digest (_login (sock w)) (reconnect_R1 f) (_reconnectProof (sock w)) (bn_K (sock w)) = reconnect_R2 f /\
  (DirectPExecute (identity_statement (sock w)) (w_db w)).1 = true.
Proof.
  intros Hr Hst Hw Hf Hon.
  destruct (reconnect_proof_handles f w Hr Hst Hw Hf) as (ok & k' & evs & w1 & Hon1 & HA & Hsock & _).
  rewrite Hon in Hon1. injection Hon1 as <-. pose proof (reconnect_ok_iff (sock w) f) as Hiff.
  assert (Hs : _status (sock w') = _status k') by (rewrite Hsock; by destruct ok).
  unfold reconnect_answer in HA. rewrite Hs.
  destruct (reconnect_ok _ _), (DirectPExecute _ _).1; destruct HA as (_ & -> & _); naive_solver.
Qed.

(** The reconnect challenge: an account with a stored key gets a fresh challenge. *)
Definition reconnect_challenge_answer k (d : db) (r : rng) (f : bytes) (ok : bool) k' (evs : list Event)
    (r' : rng) : Prop :=
  let user := c_str (escape_string (challenge_login f)) in
  if 4 <? zlen (cf_os f) then ok = false /\ _status k' = STATUS_CLOSED /\ evs = [] /\ r' = r else
  match (PQuery (SelSessionKey user) d).1 with
  | None => ok = false /\ _status k' = STATUS_CLOSED /\ m_closed k' = true /\
      evs = EvQuery (SelSessionKey user) :: close_events false (m_closer k) /\ r' = r
  | Some sessionkey =>
      ok = true /\ _status k' = STATUS_RECON_PROOF /\ m_closed k' = false /\
      _login k' = challenge_login f /\ _build k' = cf_build f /\ bn_K k' = SetHexStr (c_str sessionkey) /\
      _accountSecurityLevel k' = _accountSecurityLevel k /\
      (_reconnectProof k', r') = SetRand (16 * 8) r /\
      evs = [EvQuery (SelSessionKey user);
             EvSend ([2; 0] ++ fixed (_reconnectProof k') 16 ++ replicate 16 0)]
  end.

Lemma reconnect_challenge_spec f k d r l c a rl t :
  WellFormedFrame Challenge f -> m_closed k = false -> m_sender k = true ->
  wp (set_status STATUS_CLOSED ;; ReconnectChallenge_body (f ++ [0]))
    (fun ok w' => exists evs, w_log w' = l ++ evs /\ reconnect_challenge_answer k d r f ok (sock w') evs (w_rng w'))
    (mkWorld k d r l c a rl t).
Proof.
  intros Hf Hcl Hsnd.
  destruct (challenge_fields f Hf) as ((I_len & HI & Hlogin) & Hcountry & Hbld & Hos).
  unfold ReconnectChallenge_body, AssignIdentity, AssignOs, EscapeLogin.
  rewrite Hcountry, HI, Hbld, Hos. run. rewrite Hlogin. run.
  all: eexists; (split; [cbn [w_log]; rewrite <- ?app_assoc; first [reflexivity | symmetry; apply app_nil_r]|]).
  all: unfold reconnect_challenge_answer; cbv zeta; sock_cbn; by_cases.
  all: rewrite ?put_u64_le, ?put_u8_byte, ?sent_open by (done || auto with realmd).
  all: cbn [w_rng]; split_and?; try done. all: by destruct (SetRand _ _).
Qed.

Lemma reconnect_challenge_handles f w :
  ready w -> _status (sock w) = STATUS_CHALLENGE -> WellFormedFrame Challenge f -> Forall is_byte f ->
  rd f 0 = Some (cmd_code CMD_AUTH_RECONNECT_CHALLENGE) ->
  draws f w (reconnect_challenge_answer (sock w) (w_db w) (w_rng w) f).
Proof.
  intros Hr Hst Hw Hf Hc. apply onData_draws; [done|by rewrite Hst|done|].
  unfold frame_body. rewrite (frame_cmd _ _ Hc). destruct Hr as ((Hok & _) & Hcl & _ & Hs).
  destruct w. by apply reconnect_challenge_spec.
Qed.

(** ** Failed logins *)

Definition is_ban (st : Statement) : Prop :=
  match st with InsAccountBanned _ _ | InsIpBanned _ _ => True | _ => False end.

(** The ban that follows a failure from the database [d]: a limit is configured and the
    count of the account, after this failure was added, has reached it. *)
Definition ban_due k (d : db) (st : Statement) : Prop :=
  let limit := u32 (GetIntDefault "WrongPass.MaxCount" 0) in
  let user := c_str (_safelogin k) in
  0 < limit /\ exists id failed,
    (PQuery (SelFailedLogins user) (PExecute (UpdFailedLogins user) d)).1 = Some (id, failed) /\
    limit <= failed /\
    st = (if GetBoolDefault "WrongPass.BanType" false
          then InsAccountBanned id (u32 (GetIntDefault "WrongPass.BanTime" 600))
          else InsIpBanned (c_str (escape_string (remote_address_ k)))
                 (u32 (GetIntDefault "WrongPass.BanTime" 600))).

Lemma wrong_password_ban_iff k d st :
  is_ban st -> EvExecute st ∈ wrong_password_events k d <-> ban_due k d st.
Proof.
  intros Hst. unfold wrong_password_events, ban_due. set (limit := u32 _). set (user := c_str _). cbv zeta.
  destruct (Z.ltb_spec 0 limit) as [Hl|Hl].
  2: { split; [|lia]. intros Hin. by rewrite elem_of_cons, elem_of_nil in Hin; destruct Hin. }
  set (q := (PQuery (SelFailedLogins user) (PExecute (UpdFailedLogins user) d)).1).
  assert (Hne : st <> UpdFailedLogins user) by by destruct st.
  assert (Hcons : EvExecute st ∈ EvSend (if 6005 <? _build k then [1; 4; 3; 0] else [1; 4]) ::
      [EvExecute (UpdFailedLogins user); EvQuery (SelFailedLogins user)] ++
      match q with Some failed => ban_statement k failed | None => [] end <->
    EvExecute st ∈ match q with Some failed => ban_statement k failed | None => [] end).
  { cbn [app]. rewrite !elem_of_cons. naive_solver. }
  rewrite Hcons. destruct q as [[id failed]|] eqn:Hq.
  - unfold ban_statement. fold limit. cbn [fst snd]. destruct (Z.leb_spec limit failed).
    + rewrite list_elem_of_singleton. naive_solver.
    + rewrite elem_of_nil. naive_solver lia.
  - rewrite elem_of_nil. naive_solver.
Qed.

End Specs.

(** ** Properties *)

(** C4. The logon challenge: a client is refused with the code of the first check that
    fails - banned address, unknown account, account locked to another address,
    permanent or temporary ban - or gets a challenge built from its account; the answer
    is the last thing the handler does, and only a challenged session awaits a proof. *)
Theorem logon_challenge_decides `{RealmdEnv} {L : RealmdLaws} (f : bytes) (w : World) :
  ready w -> _status (sock w) = STATUS_CHALLENGE -> WellFormedFrame Challenge f -> Forall is_byte f ->
  rd f 0 = Some (cmd_code CMD_AUTH_LOGON_CHALLENGE) ->
  handles f w (challenge_answer (sock w) (w_db w) f).
Proof. apply logon_challenge_handles. Qed.

(** C3. The logon proof: a session is authenticated exactly when the client's public value
    is valid, its proof is the expected one, the build is supported and needs no patch,
    and the session key was written to the database; the key is published before the
    client is told, a wrong password is answered and counted, and nothing else is sent
    or written on any branch. *)
Theorem logon_proof_decides `{RealmdEnv} {L : RealmdLaws} (f : bytes) (w : World) :
  ready w -> _status (sock w) = STATUS_LOGON_PROOF -> WellFormedFrame LogonProof f -> Forall is_byte f ->
  handles f w (proof_answer (sock w) (w_db w) f) /\
  (proof_verdict (sock w) (w_db w) f = Accepted <->
   proof_ok (sock w) f = true /\ build_supported (sock w) = true /\
   ShouldPatch (_patchPolicy (sock w)) (_build (sock w)) true = false /\
   (DirectPExecute (session_statement (sock w) f) (w_db w)).1 = true).
Proof.
  intros Hr Hst Hw Hf. split; [by apply logon_proof_handles|].
  unfold proof_verdict, proof_ok.
  destruct (isZero _), (bool_decide (fixed _ _ = _)); cbn [negb andb]; try (split; [done|naive_solver]).
  destruct (build_supported (sock w)), (ShouldPatch _ _ _) eqn:Hs, (DirectPExecute _ _).1; cbn [negb];
    split; naive_solver.
Qed.

(** C5. Reconnecting: an account with a stored session key gets a challenge that is the next
    value drawn from the random source, which moves on; without a key the connection is
    closed and nothing is drawn.  The answer authenticates the session exactly when the
    account name is not empty, the challenge and the stored key are not zero, the digest is
    that of the account name, the client's value, the challenge and the key, and the write
    of the client's identity succeeded; any other answer closes the connection without a
    packet. *)
Theorem reconnect_decides `{RealmdEnv} {L : RealmdLaws} (f : bytes) (w : World) :
  ready w -> Forall is_byte f ->
  (_status (sock w) = STATUS_CHALLENGE -> WellFormedFrame Challenge f ->
   rd f 0 = Some (cmd_code CMD_AUTH_RECONNECT_CHALLENGE) ->
   draws f w (reconnect_challenge_answer (sock w) (w_db w) (w_rng w) f)) /\
  (_status (sock w) = STATUS_RECON_PROOF -> WellFormedFrame ReconnectProof f ->
   handles f w (reconnect_answer (sock w) (w_db w) f) /\
   forall w', onData f w = Some ([], w') -> _status (sock w') = STATUS_AUTHED <->
     _login (sock w) <> [] /\ GetNumBytes (_reconnectProof (sock w)) <> 0 /\ GetNumBytes (bn_K (sock w)) <> 0 /\
     reconnect_digest (_login (sock w)) (reconnect_R1 f) (_reconnectProof (sock w)) (bn_K (sock w)) =
       reconnect_R2 f /\
     (DirectPExecute (identity_statement (sock w)) (w_db w)).1 = true).
Proof.
  intros Hr Hf. split; intros; [by apply reconnect_challenge_handles|].
  split; [by apply reconnect_proof_handles|]. intros w' Hon. by apply reconnect_authenticates.
Qed.

(** C17. Brute force: a wrong password is answered and ends the exchange, and it leads to a
    ban exactly when a limit is configured and the account's count of failures, this one
    included, has reached it; the ban is of the account or of the address as configured,
    and lasts the configured time. *)
Theorem wrong_password_bans `{RealmdEnv} {L : RealmdLaws} (f : bytes) (w : World) :
  ready w -> _status (sock w) = STATUS_LOGON_PROOF -> WellFormedFrame LogonProof f -> Forall is_byte f ->
  proof_verdict (sock w) (w_db w) f = WrongProof ->
  exists w' evs, onData f w = Some ([], w') /\ _status (sock w') = STATUS_CLOSED /\
    w_log w' = w_log w ++ EvSend (if 6005 <? _build (sock w) then [1; 4; 3; 0] else [1; 4]) :: evs /\
    forall st, is_ban st -> EvExecute st ∈ evs <-> ban_due (sock w) (w_db w) st.
Proof.
  intros Hr Hst Hw Hf Hv.
  destruct (logon_proof_handles f w Hr Hst Hw Hf) as (ok & k' & evs & w' & Hon & HA & Hsock & Hlog).
  unfold proof_answer in HA. rewrite Hv in HA. destruct HA as (-> & Hst' & ->). rewrite app_nil_r in Hlog.
  eexists w', _. rewrite Hsock. split_and!; [done..|exact Hlog|].
  intros st Hban. rewrite <- wrong_password_ban_iff by done. unfold wrong_password_events.
  rewrite elem_of_cons. naive_solver.
Qed.

(** ** Concrete sessions *)

Section SampleHandlers.
#[local] Existing Instances sample_Env sample_Laws.

Lemma sample_challenge_wf : WellFormedFrame Challenge sample_challenge.
Proof.
  change sample_challenge with ([cmd_code CMD_AUTH_LOGON_CHALLENGE; 8; 35; 0] ++
    take 29 (drop 4 sample_challenge) ++ [zlen (str "ALICE")] ++ str "ALICE").
  apply wf_challenge; [by left|by vm_compute..|]. by apply (bool_decide_unpack _); vm_compute.
Qed.

(** The sample session in a given state. *)
Definition sample_at (st : eStatus) : World :=
  sample_socket <| sock := (sock sample_socket) <| _status := st |> |>.

Lemma sample_at_ready st :
  st <> STATUS_PATCH -> st <> STATUS_AUTHED -> ready (sample_at st).
Proof.
  intros H1 H2. split; [|done]. split; [|split; [constructor|by vm_compute]].
  split; cbn; auto; try done; naive_solver.
Qed.

Definition sample_logon_proof : bytes := [1] ++ replicate 72 3 ++ [0; 0].
Definition sample_reconnect_proof : bytes := [3] ++ replicate 56 3 ++ [0].

Lemma sample_logon_proof_wf : WellFormedFrame LogonProof sample_logon_proof.
Proof. by apply wf_logon_proof. Qed.

Lemma sample_reconnect_proof_wf : WellFormedFrame ReconnectProof sample_reconnect_proof.
Proof. by apply wf_reconnect_proof. Qed.

Ltac all_bytes := by apply (bool_decide_unpack _); vm_compute.

Lemma logon_challenge_decides_witness :
  handles sample_challenge sample_socket
    (challenge_answer (sock sample_socket) sample_db0 sample_challenge).
Proof.
  apply (logon_challenge_decides sample_challenge sample_socket).
  - apply (sample_at_ready STATUS_CHALLENGE); done.
  - reflexivity.
  - apply sample_challenge_wf.
  - all_bytes.
  - reflexivity.
Defined.

Lemma logon_proof_decides_witness :
  handles sample_logon_proof (sample_at STATUS_LOGON_PROOF)
    (proof_answer (sock (sample_at STATUS_LOGON_PROOF)) sample_db0 sample_logon_proof).
Proof.
  apply (logon_proof_decides sample_logon_proof (sample_at STATUS_LOGON_PROOF)).
  - by apply sample_at_ready.
  - reflexivity.
  - apply sample_logon_proof_wf.
  - all_bytes.
Defined.

Lemma reconnect_decides_witness :
  handles sample_reconnect_proof (sample_at STATUS_RECON_PROOF)
    (reconnect_answer (sock (sample_at STATUS_RECON_PROOF)) sample_db0 sample_reconnect_proof) /\
  forall w', onData sample_reconnect_proof (sample_at STATUS_RECON_PROOF) = Some ([], w') ->
    _status (sock w') = STATUS_AUTHED <->
    let k := sock (sample_at STATUS_RECON_PROOF) in
    _login k <> [] /\ GetNumBytes (_reconnectProof k) <> 0 /\ GetNumBytes (bn_K k) <> 0 /\
    reconnect_digest (_login k) (reconnect_R1 sample_reconnect_proof) (_reconnectProof k) (bn_K k) =
      reconnect_R2 sample_reconnect_proof /\
    (DirectPExecute (identity_statement k) sample_db0).1 = true.
Proof.
  apply (reconnect_decides sample_reconnect_proof (sample_at STATUS_RECON_PROOF)).
  - by apply sample_at_ready.
  - all_bytes.
  - reflexivity.
  - apply sample_reconnect_proof_wf.
Defined.

End SampleHandlers.

(** A server that bans the address after the first failure. *)
Section SampleBan.
#[local] Existing Instances sample_strict_Env sample_strict_Laws.

Definition sample_guess : World :=
  let w := mkWorld (AuthSocket_new 0 30 PatchPolicy_default) sample_db0 1 [] 0 0
    (mkRealmList RealmSnapshot_empty (mkGate 0 0 false)) 1000 in
  let w := accept_socket 0 30 PatchPolicy_default (str "10.0.0.9") None w in
  w <| sock := (sock w) <| _status := STATUS_LOGON_PROOF |> <| _login := str "ALICE" |>
                        <| _safelogin := str "ALICE" |> <| _build := 5875 |> |>.

Lemma wrong_password_bans_witness :
  exists w' evs, onData sample_logon_proof sample_guess = Some ([], w') /\
    _status (sock w') = STATUS_CLOSED /\ w_log w' = [] ++ EvSend [1; 4] :: evs /\
    forall st, is_ban st -> EvExecute st ∈ evs <-> ban_due (sock sample_guess) sample_db0 st.
Proof.
  apply (wrong_password_bans sample_logon_proof sample_guess).
  - split; [|done]. split; [|split; [constructor|by vm_compute]].
    split; cbn; auto; try done; naive_solver.
  - reflexivity.
  - apply sample_logon_proof_wf.
  - by apply (bool_decide_unpack _); vm_compute.
  - by vm_compute.
Defined.

(** The ban of this guess. *)
Example sample_guess_banned :
  ban_due (sock sample_guess) sample_db0 (InsIpBanned (str "10.0.0.9") 600).
Proof. split; [by vm_compute|]. exists 7, 1. by vm_compute. Qed.

End SampleBan.
