(* ===== verification/Evidence.v ===== *)
(** * Nobody is authenticated without a proof

    An authenticated session has been sent a challenge and, right after it, a proof: of the
    password whose verifier the database held when the challenge was answered, or of the
    session key that was stored then.  The secret values of the exchange were drawn for
    this session. *)

From S2P Require Import Prelude AuthCodes ProtocolGuard PatchPolicy ClientLocale RealmList.
From S2P Require Import PatchArtifact Interfaces Samples Srp6 Session SessionLogic Logon Reconnect.
From S2P Require Import RealmPacket Dispatch Bodies Serve SessionInv SessionSafety SessionProperties.
From S2P Require Import History LogonProperties.

Local Open Scope Z_scope.
Local Open Scope realmd_scope.

#[local] Set Warnings "-clear-no-such-hyp".

Section Evidence.
Context `{ENV : RealmdEnv}.
Implicit Types (k : AuthSocket) (w : World) (past ch pf : bytes).

(** ** Evidence *)

(** The row [row] was accepted for the challenge [ch] by a session in the state [k0] on the
    database [d], and the session [k] works with the values of that row and a secret
    exponent of its own. *)
Definition challenged_with k ch k0 (d : db) (row : AccountRow) : Prop :=
  WellFormedFrame Challenge ch /\ rd ch 0 = Some (cmd_code CMD_AUTH_LOGON_CHALLENGE) /\
  challenge_verdict k0 d ch = Challenged row /\
  _login k = challenge_login ch /\ _safelogin k = escape_string (challenge_login ch) /\
  bn_N k = srp_N /\ bn_g k = srp_g /\
  bn_B k = srp_B srp_N (bn_v k) (srp_gmod srp_g srp_N (bn_b k)) /\
  (exists r, bn_b k = (SetRand (19 * 8) r).1) /\
  (if verifier_stored row
   then bn_s k = SetHexStr (c_str (acc_s row)) /\ bn_v k = SetHexStr (c_str (acc_v row))
   else bn_v k = srp_v srp_g srp_N (srp_x (bn_s k) (password_digest (c_str (acc_sha_pass_hash row))))).

(** [D address d]: the session had the address [address] while the database was [d]. *)
Definition challenged (D : bytes -> db -> Prop) k ch : Prop :=
  exists k0 d row, D (remote_address_ k0) d /\ challenged_with k ch k0 d row.

Definition proven k pf : Prop :=
  WellFormedFrame LogonProof pf /\ proof_ok k pf = true /\ bn_K k = session_key k (proof_A pf).

(** The session works with the key that the database stored when the reconnect challenge
    [ch] was answered, and with a challenge of its own. *)
Definition recalled (D : bytes -> db -> Prop) k ch : Prop :=
  WellFormedFrame Challenge ch /\ rd ch 0 = Some (cmd_code CMD_AUTH_RECONNECT_CHALLENGE) /\
  _login k = challenge_login ch /\ _safelogin k = escape_string (challenge_login ch) /\
  (exists address d key, D address d /\
     (PQuery (SelSessionKey (c_str (escape_string (challenge_login ch)))) d).1 = Some key /\
     bn_K k = SetHexStr (c_str key)) /\
  exists r, _reconnectProof k = (SetRand (16 * 8) r).1.

Definition reproven k pf : Prop := WellFormedFrame ReconnectProof pf /\ reconnect_ok k pf = true.

(** What the handled frames must have been, by the status. *)
Definition evidence (D : bytes -> db -> Prop) past k : Prop :=
  match _status k with
  | STATUS_CHALLENGE => past = []
  | STATUS_LOGON_PROOF => challenged D k past
  | STATUS_RECON_PROOF => recalled D k past
  | STATUS_AUTHED => exists ch pf rest, past = ch ++ pf ++ rest /\
      (challenged D k ch /\ proven k pf \/ recalled D k ch /\ reproven k pf)
  | STATUS_PATCH | STATUS_CLOSED => True
  end.

(** The members that the evidence is about. *)
Definition same_evidence k k' : Prop :=
  _status k' = _status k /\ _login k' = _login k /\ _safelogin k' = _safelogin k /\
  bn_N k' = bn_N k /\ bn_g k' = bn_g k /\ bn_s k' = bn_s k /\ bn_v k' = bn_v k /\ bn_b k' = bn_b k /\
  bn_B k' = bn_B k /\ bn_K k' = bn_K k /\ _reconnectProof k' = _reconnectProof k.

Lemma evidence_mono (D D' : bytes -> db -> Prop) past k :
  (forall address d, D address d -> D' address d) -> evidence D past k -> evidence D' past k.
Proof. intros HD. unfold evidence, challenged, recalled. destruct (_status k); naive_solver. Qed.

Lemma evidence_same D past k k' : same_evidence k k' -> evidence D past k -> evidence D past k'.
Proof.
  intros (Hst & Hl & Hsl & HN & Hg & Hs & Hv & Hb & HB & HK & HR).
  unfold evidence, challenged, challenged_with, proven, recalled, reproven, proof_ok, reconnect_ok,
    expected_M, session_key.
  by rewrite Hst, Hl, Hsl, HN, Hg, Hs, Hv, Hb, HB, HK, HR.
Qed.

Context {LAWS : RealmdLaws} (D : bytes -> db -> Prop).

(** ** The handlers *)

Lemma LogonChallenge_evidence f w :
  D (remote_address_ (sock w)) (w_db w) -> session_ok (sock w) -> WellFormedFrame Challenge f ->
  rd f 0 = Some (cmd_code CMD_AUTH_LOGON_CHALLENGE) ->
  wp (set_status STATUS_CLOSED ;; LogonChallenge_body (f ++ [0])) (fun _ w' => evidence D f (sock w')) w.
Proof.
  intros HD Hok Hf Hcmd. open_world w. cbn [w_db] in HD.
  destruct (challenge_fields f Hf) as ((I_len & HI & Hlogin) & Hcountry & Hbld & Hos).
  unfold LogonChallenge_body, AssignIdentity, AssignOs, EscapeLogin, ChallengeAccount,
    ChallengeAccepted, _SetVSFields.
  rewrite Hcountry, HI, Hbld, Hos. run. rewrite Hlogin. run.
  all: gmod_fits (ok_N _ Hok) (ok_g _ Hok). all: try exact I.
  all: exists k, d; eexists; unfold challenged_with; split_and!; sock_cbn; rewrite ?(ok_N _ Hok), ?(ok_g _ Hok); try done; eauto.
  all: try (unfold challenge_verdict, locked_out; by_cases; reflexivity).
  all: unfold verifier_stored; change (s_BYTE_SIZE * 2) with 64 in *; by destruct (_ =? 64), (_ =? 64).
Qed.

Lemma ReconnectChallenge_evidence f w :
  D (remote_address_ (sock w)) (w_db w) -> WellFormedFrame Challenge f -> rd f 0 = Some (cmd_code CMD_AUTH_RECONNECT_CHALLENGE) ->
  wp (set_status STATUS_CLOSED ;; ReconnectChallenge_body (f ++ [0])) (fun _ w' => evidence D f (sock w')) w.
Proof.
  intros HD Hf Hcmd. open_world w. cbn [w_db] in HD.
  destruct (challenge_fields f Hf) as ((I_len & HI & Hlogin) & Hcountry & Hbld & Hos).
  unfold ReconnectChallenge_body, AssignIdentity, AssignOs, EscapeLogin.
  rewrite Hcountry, HI, Hbld, Hos. run. rewrite Hlogin. run. all: try exact I.
  unfold evidence, recalled. sock_cbn. split_and!; eauto 6.
Qed.

Lemma LogonProof_evidence f past w :
  _status (sock w) = STATUS_LOGON_PROOF -> WellFormedFrame LogonProof f -> zlen f = 75 ->
  evidence D past (sock w) ->
  wp (LogonProof_body f) (fun _ w' => evidence D (past ++ f) (sock w')) w.
Proof.
  intros Hst Hw Hl He. open_world w. destruct (lp_reads f Hl) as [HA HM].
  unfold LogonProof_body. rewrite HA, HM.
  unfold ProofAccepted, OfferPatch, SendProof, SendInvalidVersion, WrongPassword, CountWrongPassword.
  run. all: try exact I.
  unfold evidence in *. rewrite Hst in He. sock_cbn. exists past, f, []. rewrite app_nil_r.
  split; [done|]. left. split; [exact He|]. split_and!; [done| |done].
  unfold proof_ok, expected_M, session_key, proof_A. sock_cbn. by_cases. done.
Qed.

Lemma ReconnectProof_evidence f past w :
  _status (sock w) = STATUS_RECON_PROOF -> WellFormedFrame ReconnectProof f -> zlen f = 58 ->
  evidence D past (sock w) ->
  wp (ReconnectProof_body f) (fun _ w' => evidence D (past ++ f) (sock w')) w.
Proof.
  intros Hst Hw Hl He. open_world w. destruct (recon_reads f Hl) as [H1 H2].
  unfold ReconnectProof_body. rewrite H1, H2. unfold ReconnectAccepted. run. all: try exact I.
  unfold evidence in *. rewrite Hst in He. sock_cbn. exists past, f, []. rewrite app_nil_r.
  split; [done|]. right. split; [exact He|]. split; [done|].
  unfold reconnect_ok, reconnect_R1. sock_cbn. rewrite <- ?negb_orb. by_cases. done.
Qed.

(** A realm list request leaves the session as it is or closes it. *)
Lemma RealmList_evidence f past w :
  _status (sock w) = STATUS_AUTHED -> session_ok (sock w) -> evidence D past (sock w) ->
  wp RealmList_body (fun _ w' => evidence D (past ++ f) (sock w')) w.
Proof.
  intros Hst Hok He. unfold RealmList_body. wp_step. session_step. unfold id. wp_step.
  assert (He' : forall k', same_evidence (sock w) k' -> evidence D (past ++ f) k').
  { intros k' Hs. eapply evidence_same; [done|]. unfold evidence in *. rewrite Hst in *.
    destruct He as (ch & pf & rest & -> & He). exists ch, pf, (rest ++ f). by rewrite <- !app_assoc. }
  eapply wp_mono; [apply reads_only_query, escaped_login; [done|by rewrite Hst..]|].
  intros [[acct sha]|] w1 H1.
  - wp_step. eapply wp_mono; [apply RefreshRealmList_reads|]. intros [] w2 H2. wp_step.
    eapply wp_mono; [apply LoadRealmlist_reads|]. intros pkt w3 H3.
    destruct (reads_only_trans _ _ _ (reads_only_trans _ _ _ H1 H2) H3) as (d & rl & evs & -> & Hevs).
    run. by apply He'.
  - destruct H1 as (d & rl & evs & -> & Hevs). run. by apply He'.
Qed.

Lemma patching_evidence past k : _status k = STATUS_PATCH \/ _status k = STATUS_CLOSED -> evidence D past k.
Proof. unfold evidence. by intros [-> | ->]. Qed.

Lemma close_connection_db w : exists w', close_connection w = Some (tt, w') /\
  sock w' = closed_sock (sock w) /\ w_db w' = w_db w.
Proof.
  open_world w. pose proof (proj2 (wp_close_connection (fun _ w' => sock w' = closed_sock k /\ w_db w' = d)
    k d r l c a rl t) (conj eq_refl eq_refl)) as Hwp. apply wp_run in Hwp as ([] & w' & ? & ? & ?). eauto.
Qed.

(** A session that has not been challenged yet sees a database of the history. *)
Definition informed past w : Prop :=
  evidence D past (sock w) /\ (_status (sock w) = STATUS_CHALLENGE -> D (remote_address_ (sock w)) (w_db w)).

Lemma frame_evidence past f w :
  session_ok (sock w) -> WellFormedFrame (stream_state (_status (sock w))) f -> Forall is_byte f ->
  informed past w -> wp (frame_body f) (fun _ w' => evidence D (past ++ f) (sock w')) w.
Proof.
  intros Hok Hw Hb [He HD].
  destruct (view_frame _ _ Hw) as [Hst Hf Hcmd ->|Hst Hf Hcmd ->|Hst Hf Hl ->|Hst Hf Hl ->|Hst ->|off Hst Ho ->|Hst ->].
  - unfold evidence in He. rewrite Hst in He. subst past. by apply LogonChallenge_evidence; auto.
  - unfold evidence in He. rewrite Hst in He. subst past. by apply ReconnectChallenge_evidence; auto.
  - by apply LogonProof_evidence.
  - by apply ReconnectProof_evidence.
  - by apply RealmList_evidence.
  - eapply wp_mono; [apply BeginPatchStream_handled; auto|]. intros ? w1 Hh. apply patching_evidence.
    pose proof (hd_status _ _ Hh) as Hs. rewrite Hst in Hs. inversion Hs; auto.
  - eapply wp_mono; [by apply XferCancel_handled|]. intros ? w1 Hh. apply patching_evidence.
    pose proof (hd_status _ _ Hh) as Hs. rewrite Hst in Hs. inversion Hs; auto.
Qed.

(** Frames, closings and the pending buffer. *)
#[export] Instance informed_steady : Steady informed.
Proof.
  split.
  - intros past f w ok w' Hc Hok Hw Hb Hi Hrun. split.
    + pose proof (frame_evidence past f w Hok Hw Hb Hi) as He. unfold wp in He. by rewrite Hrun in He.
    + pose proof (frame_body_handled f w Hok Hw Hb) as Hh. unfold wp in Hh. rewrite Hrun in Hh.
      destruct (hd_status _ _ Hh); done.
  - intros past w w' [He HD] Hc. destruct (close_connection_db w) as (w1 & Hr & Hs & Hd).
    rewrite Hc in Hr. injection Hr as <-. split; [by rewrite Hs; eapply evidence_same|].
    by rewrite Hs, Hd.
  - intros past w buf pos [He HD]. split; [by eapply evidence_same|done].
Qed.

End Evidence.
