(* ===== verification/ServerPackets.v ===== *)
(** * The packets of the server, as a client reads them

    The packets that realmd sends, the bytes of each for a client of a given build, and the
    client's parser.  No packet carries its length except the realm list and the transfer
    data: the client knows it from the command, the result code and its own build. *)

From S2P Require Import Prelude AuthCodes ProtocolGuard PatchPolicy RealmList PatchArtifact.
From S2P Require Import Layouts Interfaces Srp6 Session Logon.

Local Open Scope Z_scope.
Local Open Scope realmd_scope.

Inductive ServerPacket : Type :=
| PkRefused (code : Z)
| PkChallenge (B g N s unk3 : bytes)
| PkProof (M2 : bytes)
| PkWrongPassword
| PkUpdate
| PkTransfer (size : Z) (md5 : bytes)
| PkReconnect (challenge : bytes)
| PkReconnected
| PkRealms (body : bytes)
| PkData (payload : bytes).

(** The fields have the widths of the protocol. *)
Definition packet_wf (p : ServerPacket) : Prop :=
  match p with
  | PkRefused code => code <> 0 /\ is_byte code
  | PkChallenge B g N s unk3 =>
      zlen B = 32 /\ zlen g = 1 /\ zlen N = 32 /\ zlen s = 32 /\ zlen unk3 = 16
  | PkProof M2 => zlen M2 = 20
  | PkTransfer size md5 => 0 <= size < 2 ^ 64 /\ zlen md5 = 16
  | PkReconnect challenge => zlen challenge = 16
  | PkData payload => 1 <= zlen payload <= 4096
  | PkWrongPassword | PkUpdate | PkReconnected | PkRealms _ => True
  end.

(** The length of the body fits its 16-bit field. *)
Definition packet_fits (p : ServerPacket) : Prop :=
  match p with PkRealms body => zlen body < 2 ^ 16 | _ => True end.

Definition render (bld : Z) (p : ServerPacket) : bytes :=
  match p with
  | PkRefused code => [0; 0; code]
  | PkChallenge B g N s unk3 => [0; 0; 0] ++ B ++ [1] ++ g ++ [32] ++ N ++ s ++ unk3 ++ [0]
  | PkProof M2 => [1; 0] ++ M2 ++ (if vanilla_layout bld then [0; 0; 0; 0] else [0; 0; 128; 0; 0; 0; 0; 0; 0; 0])
  | PkWrongPassword => if 6005 <? bld then [1; 4; 3; 0] else [1; 4]
  | PkUpdate => [1; 10]
  | PkTransfer size md5 => [0x30; 5] ++ str "Patch" ++ le_bytes 8 size ++ md5
  | PkReconnect challenge => [2; 0] ++ challenge ++ replicate 16 0
  | PkReconnected => [3; 0] ++ (if 6141 <? bld then [0; 0] else [])
  | PkRealms body => [16] ++ le_bytes 2 (zlen body) ++ body
  | PkData payload => [0x31] ++ le_bytes 2 (zlen payload) ++ payload
  end.

(** ** The client's parser *)

(** The first [n] bytes and the rest. *)
Definition split_at (n : nat) (d : bytes) : option (bytes * bytes) :=
  if decide (n <= length d)%nat then Some (take n d, drop n d) else None.

(** A field whose value the client knows. *)
Definition expect (known d : bytes) : option bytes :=
  '(b, d) ← split_at (length known) d; if decide (b = known) then Some d else None.

Definition sized (mk : bytes -> ServerPacket) (d : bytes) : option (ServerPacket * bytes) :=
  '(n, d) ← split_at 2 d; '(body, d) ← split_at (Z.to_nat (le_val n)) d; Some (mk body, d).

Definition parse_challenge (d : bytes) : option (ServerPacket * bytes) :=
  '(B, d) ← split_at 32 d; d ← expect [1] d; '(g, d) ← split_at 1 d; d ← expect [32] d;
  '(N, d) ← split_at 32 d; '(s, d) ← split_at 32 d; '(unk3, d) ← split_at 16 d; d ← expect [0] d;
  Some (PkChallenge B g N s unk3, d).

Definition parse_packet (bld : Z) (d : bytes) : option (ServerPacket * bytes) :=
  match d with
  | 0 :: 0 :: code :: d => if code =? 0 then parse_challenge d else Some (PkRefused code, d)
  | 1 :: 0 :: d =>
      '(M2, d) ← split_at 20 d;
      d ← expect (if vanilla_layout bld then [0; 0; 0; 0] else [0; 0; 128; 0; 0; 0; 0; 0; 0; 0]) d;
      Some (PkProof M2, d)
  | 1 :: 4 :: d => if 6005 <? bld then d ← expect [3; 0] d; Some (PkWrongPassword, d)
                   else Some (PkWrongPassword, d)
  | 1 :: 10 :: d => Some (PkUpdate, d)
  | 0x30 :: 5 :: d =>
      d ← expect (str "Patch") d; '(size, d) ← split_at 8 d; '(md5, d) ← split_at 16 d;
      Some (PkTransfer (le_val size) md5, d)
  | 2 :: 0 :: d => '(challenge, d) ← split_at 16 d; d ← expect (replicate 16 0) d;
                   Some (PkReconnect challenge, d)
  | 3 :: 0 :: d => if 6141 <? bld then d ← expect [0; 0] d; Some (PkReconnected, d)
                   else Some (PkReconnected, d)
  | 16 :: d => sized PkRealms d
  | 0x31 :: d => sized PkData d
  | _ => None
  end.

(** Packets until the stream is empty. *)
Fixpoint parse_stream (fuel : nat) (bld : Z) (d : bytes) : option (list ServerPacket) :=
  match d, fuel with
  | [], _ => Some []
  | _, O => None
  | _, S fuel' => '(p, d) ← parse_packet bld d; ps ← parse_stream fuel' bld d; Some (p :: ps)
  end.

Definition decode (bld : Z) (d : bytes) : option (list ServerPacket) := parse_stream (length d) bld d.

(** ** Round trip *)

Lemma split_at_app (n : nat) (b d : bytes) : zlen b = Z.of_nat n -> split_at n (b ++ d) = Some (b, d).
Proof.
  unfold zlen. intros Hb%Nat2Z.inj. subst n. unfold split_at. rewrite length_app, decide_True by lia.
  by rewrite take_app_length, drop_app_length.
Qed.

Lemma expect_app (known d : bytes) : expect known (known ++ d) = Some d.
Proof. unfold expect. rewrite split_at_app by done. cbn. by rewrite decide_True. Qed.

Lemma sized_app mk (body d : bytes) :
  zlen body < 2 ^ 16 -> sized mk ((le_bytes 2 (zlen body) ++ body) ++ d) = Some (mk body, d).
Proof.
  intros Hl. pose proof (zlen_nonneg body). unfold sized.
  rewrite <- app_assoc, split_at_app by (unfold zlen; by rewrite length_le_bytes). cbn [mbind option_bind].
  rewrite le_val_bytes, Z.mod_small by (change (256 ^ Z.of_nat 2) with (2 ^ 16); lia).
  rewrite split_at_app by lia. done.
Qed.

Ltac parse_field :=
  cbn [mbind option_bind];
  first [rewrite expect_app | rewrite split_at_app by (done || (unfold zlen; by rewrite length_le_bytes))].

Lemma parse_challenge_app B g N s unk3 rest :
  packet_wf (PkChallenge B g N s unk3) ->
  parse_challenge (B ++ [1] ++ g ++ [32] ++ N ++ s ++ unk3 ++ [0] ++ rest) = Some (PkChallenge B g N s unk3, rest).
Proof. intros (HB & Hg & HN & Hs & Hu). unfold parse_challenge. repeat parse_field. done. Qed.

Lemma parse_render bld p rest :
  packet_wf p -> packet_fits p -> parse_packet bld (render bld p ++ rest) = Some (p, rest).
Proof.
  intros Hwf Hfit. destruct p as [code|B g N s unk3|M2| | |size md5|challenge| |body|payload];
    cbn [packet_wf packet_fits render] in *; rewrite <- ?app_assoc.
  - destruct Hwf as [Hc _]. cbn. by destruct (Z.eqb_spec code 0).
  - by apply parse_challenge_app.
  - change (('(M2', d) ← split_at 20 (M2 ++ (if vanilla_layout bld then [0; 0; 0; 0] else [0; 0; 128; 0; 0; 0; 0; 0; 0; 0]) ++ rest);
      d ← expect (if vanilla_layout bld then [0; 0; 0; 0] else [0; 0; 128; 0; 0; 0; 0; 0; 0; 0]) d;
      Some (PkProof M2', d)) = Some (PkProof M2, rest)). by repeat parse_field.
  - destruct (6005 <? bld) eqn:Hb; cbn; by rewrite Hb.
  - done.
  - destruct Hwf as [Hs Hm].
    change ((d ← expect (str "Patch") (str "Patch" ++ le_bytes 8 size ++ md5 ++ rest);
      '(size', d) ← split_at 8 d; '(md5', d) ← split_at 16 d;
      Some (PkTransfer (le_val size') md5', d)) = Some (PkTransfer size md5, rest)).
    repeat parse_field. cbn [mbind option_bind]. by rewrite le_val_bytes, Z.mod_small.
  - change (('(challenge', d) ← split_at 16 (challenge ++ replicate 16 0 ++ rest);
      d ← expect (replicate 16 0) d; Some (PkReconnect challenge', d)) = Some (PkReconnect challenge, rest)).
    by repeat parse_field.
  - destruct (6141 <? bld) eqn:Hb; cbn; by rewrite Hb.
  - change (sized PkRealms (le_bytes 2 (zlen body) ++ body ++ rest) = Some (PkRealms body, rest)).
    rewrite app_assoc. by apply sized_app.
  - change (sized PkData (le_bytes 2 (zlen payload) ++ payload ++ rest) = Some (PkData payload, rest)).
    rewrite app_assoc. apply sized_app. lia.
Qed.

Lemma render_nonempty bld p : exists c d, render bld p = c :: d.
Proof. destruct p; cbn [render app]; eauto; destruct (_ <? _); eauto. Qed.

(** What was sent is what the client reads. *)
Lemma decode_render bld ps :
  Forall packet_wf ps -> Forall packet_fits ps -> decode bld (concat (render bld <$> ps)) = Some ps.
Proof.
  intros Hw Hf. unfold decode.
  assert (Hgen : forall fuel, (length (concat (render bld <$> ps)) <= fuel)%nat ->
    parse_stream fuel bld (concat (render bld <$> ps)) = Some ps); [|by apply Hgen].
  revert Hf. induction Hw as [|p ps Hp Hw IH]; intros Hf fuel Hl; [by destruct fuel|].
  apply Forall_cons in Hf as [Hfp Hf]. cbn [fmap list_fmap concat] in *.
  destruct (render_nonempty bld p) as (c & d & Hr).
  assert (Hp' : parse_packet bld (render bld p ++ concat (render bld <$> ps)) = Some (p, concat (render bld <$> ps)))
    by by apply parse_render.
  rewrite Hr in Hl, Hp' |- *. cbn [app length] in Hl, Hp' |- *. rewrite length_app in Hl.
  destruct fuel as [|fuel]; [lia|]. cbn [parse_stream]. rewrite Hp'. cbn [mbind option_bind].
  by rewrite IH by (done || lia).
Qed.
