(* ===== verification/Outbox.v ===== *)
(** * What a client receives

    Everything a session and its patch thread hand to the transport is a sequence of packets
    of [ServerPackets] in the layout of the client's build, so the client's parser cuts the
    byte stream into exactly the packets that were sent; and once a patch thread runs,
    the session itself sends nothing any more, so that the two never mix. *)

From S2P Require Import Prelude AuthCodes ProtocolGuard PatchPolicy ClientLocale ClientBuild.
From S2P Require Import Layouts RealmList PatchArtifact Interfaces Samples Srp6 Session SessionLogic.
From S2P Require Import Logon Reconnect RealmPacket Dispatch Bodies Serve SessionInv SessionSafety.
From S2P Require Import SessionProperties History LogonProperties ServerPackets.

Local Open Scope Z_scope.
Local Open Scope realmd_scope.

#[local] Set Warnings "-clear-no-such-hyp".

Section Outbox.
Context `{ENV : RealmdEnv}.
Implicit Types (k : AuthSocket) (w : World) (evs : list Event).

(** The byte strings an event hands to the transport, in order. *)
Definition handed (e : Event) : list bytes :=
  match e with
  | EvSend pkt => [pkt]
  | EvThread (Some acts) => acts ≫= fun a => match a with XferSend pkt => [pkt] | XferClose => [] end
  | _ => []
  end.

(** What the client receives from a session with this log. *)
Definition outgoing evs : bytes := concat (evs ≫= handed).

Definition is_packet (bld : Z) (b : bytes) : Prop := exists p, b = render bld p /\ packet_wf p.

Definition speaks (bld : Z) (e : Event) : Prop := Forall (is_packet bld) (handed e).

Definition is_thread (e : Event) : bool := match e with EvThread _ => true | _ => false end.

(** The result of handling a frame in the state [k0]. *)
Definition answered k0 k' evs : Prop :=
  Forall (speaks (_build k')) evs /\
  (_status k0 <> STATUS_CHALLENGE -> _build k' = _build k0) /\
  (existsb is_thread evs = false \/ exists acts, evs = [EvThread acts] /\ _status k' = STATUS_CLOSED).

Definition answers_in w (_ : bool) w' : Prop :=
  exists evs, w_log w' = w_log w ++ evs /\ answered (sock w) (sock w') evs.

(** ** Packets *)

Lemma speaks_quiet bld e : handed e = [] -> speaks bld e.
Proof. unfold speaks. by intros ->. Qed.

Lemma speaks_sent bld closed sender p b :
  b = render bld p -> packet_wf p -> Forall (speaks bld) (sent closed sender b).
Proof.
  intros -> Hw. unfold sent. destruct (_ || _); [constructor|]. repeat constructor. by exists p.
Qed.

Lemma speaks_close bld closed closer : Forall (speaks bld) (close_events closed closer).
Proof. unfold close_events. destruct (_ && _); repeat constructor. Qed.

Lemma silent_sent closed sender b : existsb is_thread (sent closed sender b) = false.
Proof. unfold sent. by destruct (_ || _). Qed.

Lemma silent_close closed closer : existsb is_thread (close_events closed closer) = false.
Proof. unfold close_events. by destruct (_ && _). Qed.

Context {LAWS : RealmdLaws}.

Lemma render_challenge bld (B g N s unk3 : bn) :
  put_u8 (cmd_code CMD_AUTH_LOGON_CHALLENGE) ++ put_u8 0 ++ put_u8 (result_code WOW_SUCCESS) ++
    ChallengeFields B g N s unk3 =
  render bld (PkChallenge (fixed B 32) (fixed g 1) (fixed N 32) (fixed s 32) (fixed unk3 16)).
Proof. unfold ChallengeFields. by rewrite !put_u8_byte by done. Qed.

Lemma refused_code (r : AuthResult) : r <> WOW_SUCCESS -> packet_wf (PkRefused (result_code r)).
Proof. by destruct r; vm_compute. Qed.

Lemma speaks_refused bld closed sender (r : AuthResult) :
  r <> WOW_SUCCESS ->
  Forall (speaks bld) (sent closed sender
    (put_u8 (cmd_code CMD_AUTH_LOGON_CHALLENGE) ++ put_u8 0 ++ put_u8 (result_code r))).
Proof.
  intros Hr. apply (speaks_sent _ _ _ (PkRefused (result_code r))); [|by apply refused_code].
  rewrite !put_u8_byte by (apply refused_code; done) || done. done.
Qed.

Lemma speaks_wrong bld closed sender :
  Forall (speaks bld) (sent closed sender
    (if 6005 <? bld then [cmd_code CMD_AUTH_LOGON_PROOF; result_code WOW_FAIL_UNKNOWN_ACCOUNT; 3; 0]
     else [cmd_code CMD_AUTH_LOGON_PROOF; result_code WOW_FAIL_UNKNOWN_ACCOUNT])).
Proof. by apply (speaks_sent _ _ _ PkWrongPassword). Qed.

Lemma speaks_update bld closed sender :
  Forall (speaks bld) (sent closed sender [cmd_code CMD_AUTH_LOGON_PROOF; result_code WOW_FAIL_VERSION_UPDATE]).
Proof. by apply (speaks_sent _ _ _ PkUpdate). Qed.

Lemma zlen_M2 A M K : zlen (srp_M2 A M K) = 20.
Proof. apply sha1_length. Qed.

Lemma speaks_proof bld closed sender A M K :
  Forall (speaks bld) (sent closed sender
    (if vanilla_layout bld
     then pack sAuthLogonProof_S_BUILD_6005 [[cmd_code CMD_AUTH_LOGON_PROOF]; [0]; srp_M2 A M K; le_bytes 4 0]
     else pack sAuthLogonProof_S [[cmd_code CMD_AUTH_LOGON_PROOF]; [0]; srp_M2 A M K;
            le_bytes 4 ACCOUNT_FLAG_PROPASS; le_bytes 4 0; le_bytes 2 0])).
Proof.
  apply (speaks_sent _ _ _ (PkProof (srp_M2 A M K))); [|apply zlen_M2]. cbn [render].
  destruct (vanilla_layout bld); rewrite ?pack_proof, ?pack_proof_6005, take_M2; done.
Qed.

Lemma speaks_transfer bld closed sender path art :
  opened path = Some art -> Forall (speaks bld) (sent closed sender (transfer (m_size art) (m_digest art))).
Proof.
  intros (file & Hs & ->)%opened_servable. unfold servable in Hs. bool_facts.
  pose proof (md5_length (UpdateData md5_init (file_bytes file))) as Hd.
  apply (speaks_sent _ _ _ (PkTransfer (zlen (file_bytes file)) (Finalize (UpdateData md5_init (file_bytes file)))));
    [|split; [lia|done]].
  unfold transfer, artifact_of. cbn [m_size m_digest render].
  assert (Ht : take 16 (Finalize (UpdateData md5_init (file_bytes file))) = Finalize (UpdateData md5_init (file_bytes file)))
    by (apply take_ge; unfold zlen in Hd; lia).
  rewrite <- Ht at 2. unfold pack. cbn [zip_with concat XFER_INIT snd]. by rewrite app_nil_r.
Qed.

Lemma speaks_reconnected bld closed sender :
  Forall (speaks bld) (sent closed sender (put_u8 (cmd_code CMD_AUTH_RECONNECT_PROOF) ++ put_u8 0 ++
    (if 6141 <? bld then put_u16 0 else []))).
Proof.
  apply (speaks_sent _ _ _ PkReconnected); [|done]. rewrite put_u16_le, !put_u8_byte by done. done.
Qed.

Lemma speaks_realms bld closed sender body :
  Forall (speaks bld) (sent closed sender (put_u8 (cmd_code CMD_REALM_LIST) ++ put_u16 (u16 (zlen body)) ++ body)).
Proof.
  apply (speaks_sent _ _ _ (PkRealms body)); [|done]. rewrite put_u16_le, put_u8_byte by done. cbn [render].
  unfold wrap. change (2 ^ 16) with (256 ^ Z.of_nat 2). by rewrite le_bytes_mod.
Qed.

Lemma speaks_thread bld acts : Forall xfer_packet acts -> speaks bld (EvThread (Some acts)).
Proof.
  intros Ha. unfold speaks. cbn [handed]. induction Ha as [|a acts Hp Ha IH]; [constructor|].
  cbn [mbind list_bind]. apply Forall_app. split; [|done]. destruct a as [pkt|]; [|done].
  destruct Hp as (lo & hi & payload & -> & Hlo & Hhi & Hl & Hr). apply Forall_singleton.
  exists (PkData payload). split; [|done]. cbn [render]. rewrite Hl.
  replace (lo + 256 * hi) with (le_val [lo; hi]) by (cbn; lia).
  assert (Hle : le_bytes 2 (le_val [lo; hi]) = [lo; hi])
    by (apply (le_bytes_val [lo; hi]); by repeat (apply Forall_cons_2; [done|])). by rewrite Hle.
Qed.

(** ** The handlers *)

(** The leaves of a symbolic run. *)
Ltac quiet := rewrite ?existsb_app, ?silent_sent, ?silent_close; cbn [existsb is_thread orb app]; done.

Ltac speak :=
  repeat first [apply Forall_app_2 | apply Forall_cons_2 | apply Forall_nil_2 | apply speaks_close
    | apply speaks_quiet; reflexivity | apply speaks_wrong
    | apply speaks_update | apply speaks_proof | apply speaks_reconnected | apply speaks_realms
    | apply speaks_refused | eapply speaks_transfer; eassumption].

Ltac outbox Hst :=
  eexists; (split; [cbn [w_log]; rewrite <- ?app_assoc; first [reflexivity | symmetry; apply app_nil_r]|]);
  unfold answered; sock_cbn; split_and!; [speak|try done; try congruence|try (left; quiet)].

Lemma LockedAccount_refused bld : LockedAccountResultForBuild bld <> WOW_SUCCESS.
Proof. unfold LockedAccountResultForBuild. by repeat case_match. Qed.

Lemma LogonChallenge_outbox f w :
  _status (sock w) = STATUS_CHALLENGE -> session_ok (sock w) -> WellFormedFrame Challenge f ->
  wp (set_status STATUS_CLOSED ;; LogonChallenge_body (f ++ [0])) (answers_in w) w.
Proof.
  intros Hst Hok Hf. open_world w.
  destruct (challenge_fields f Hf) as ((I_len & HI & Hlogin) & Hcountry & Hbld & Hos).
  unfold LogonChallenge_body, AssignIdentity, AssignOs, EscapeLogin, ChallengeAccount,
    ChallengeAccepted, _SetVSFields.
  rewrite Hcountry, HI, Hbld, Hos. run. rewrite Hlogin. run.
  all: gmod_fits (ok_N _ Hok) (ok_g _ Hok).
  all: outbox Hst. all: try done. all: try apply LockedAccount_refused.
  all: try (eapply speaks_sent; [apply render_challenge|]; cbn [packet_wf]; rewrite !zlen_fixed by done; done).
  all: repeat case_match; done.
Qed.

Lemma ReconnectChallenge_outbox f w :
  _status (sock w) = STATUS_CHALLENGE -> WellFormedFrame Challenge f ->
  wp (set_status STATUS_CLOSED ;; ReconnectChallenge_body (f ++ [0])) (answers_in w) w.
Proof.
  intros Hst Hf. open_world w.
  destruct (challenge_fields f Hf) as ((I_len & HI & Hlogin) & Hcountry & Hbld & Hos).
  unfold ReconnectChallenge_body, AssignIdentity, AssignOs, EscapeLogin.
  rewrite Hcountry, HI, Hbld, Hos. run. rewrite Hlogin. run. all: outbox Hst. all: try done.
  eapply (speaks_sent _ _ _ (PkReconnect (fixed _ 16))); [|by apply zlen_fixed].
  by rewrite !put_u64_le, !put_u8_byte by done.
Qed.

Lemma LogonProof_outbox f w :
  _status (sock w) = STATUS_LOGON_PROOF -> session_ok (sock w) -> zlen f = 75 ->
  wp (LogonProof_body f) (answers_in w) w.
Proof.
  intros Hst Hok Hl. open_world w. destruct (lp_reads f Hl) as [HA HM].
  unfold LogonProof_body. rewrite HA, HM.
  unfold ProofAccepted, OfferPatch, SendProof, SendInvalidVersion, WrongPassword, CountWrongPassword.
  run. all: outbox Hst. all: try done.
Qed.

Lemma ReconnectProof_outbox f w :
  _status (sock w) = STATUS_RECON_PROOF -> zlen f = 58 -> wp (ReconnectProof_body f) (answers_in w) w.
Proof.
  intros Hst Hl. open_world w. destruct (recon_reads f Hl) as [H1 H2].
  unfold ReconnectProof_body. rewrite H1, H2. unfold ReconnectAccepted. run. all: outbox Hst. all: done.
Qed.

Lemma speaks_queries bld qs : Forall (speaks bld) (EvQuery <$> qs).
Proof. induction qs; constructor; [by apply speaks_quiet|done]. Qed.

Lemma silent_queries qs : existsb is_thread (EvQuery <$> qs) = false.
Proof. by induction qs. Qed.

Lemma RealmList_outbox w :
  session_ok (sock w) -> _status (sock w) = STATUS_AUTHED -> wp RealmList_body (answers_in w) w.
Proof.
  intros Hok Hst. unfold RealmList_body. wp_step. session_step. unfold id. wp_step.
  eapply wp_mono; [apply reads_only_query, escaped_login; [done|by rewrite Hst..]|].
  intros [[acct sha]|] w1 H1.
  - wp_step. eapply wp_mono; [apply RefreshRealmList_reads|]. intros [] w2 H2. wp_step.
    eapply wp_mono; [apply LoadRealmlist_reads|]. intros pkt w3 H3.
    destruct (reads_only_trans _ _ _ (reads_only_trans _ _ _ H1 H2) H3) as (d & rl & qs & -> & _).
    run. outbox Hst; [apply speaks_queries|]. left. rewrite existsb_app, silent_queries. quiet.
  - destruct H1 as (d & rl & qs & -> & _). run. outbox Hst; [apply speaks_queries|].
    left. rewrite existsb_app, silent_queries. quiet.
Qed.

Lemma BeginPatchStream_outbox off w :
  session_ok (sock w) -> _status (sock w) = STATUS_PATCH -> 0 <= off ->
  wp (BeginPatchStream off) (answers_in w) w.
Proof.
  intros Hok Hst Hoff. open_world w. unfold BeginPatchStream. do 2 (first [wp_step|session_step]).
  sock_cbn. destruct (m_patchArtifact k) as [art|] eqn:Ha; [|run; outbox Hst].
  destruct (ok_artifact _ Hok _ Ha) as (file & Hs & ->).
  destruct (StartPatchTransfer_total (m_flowControl k) file off Hs Hoff) as [(acts & -> & Hx)| ->];
    run; outbox Hst.
  - by apply speaks_thread.
  - right. eauto.
Qed.

Lemma frame_outbox f w :
  session_ok (sock w) -> WellFormedFrame (stream_state (_status (sock w))) f -> Forall is_byte f ->
  wp (frame_body f) (answers_in w) w.
Proof.
  intros Hok Hw Hb. destruct (view_frame _ _ Hw) as [Hst Hf _ ->|Hst Hf _ ->|Hst _ Hl ->|Hst _ Hl ->
    |Hst ->|off Hst Ho ->|Hst ->].
  - by apply LogonChallenge_outbox.
  - by apply ReconnectChallenge_outbox.
  - by apply LogonProof_outbox.
  - by apply ReconnectProof_outbox.
  - by apply RealmList_outbox.
  - apply BeginPatchStream_outbox; auto.
  - open_world w. run. outbox Hst.
Qed.

(** ** Whole sessions *)

(** Nothing is handed to the transport after a patch thread was started. *)
Definition thread_last evs : Prop :=
  forall e1 acts e2, evs = e1 ++ EvThread acts :: e2 -> e2 ≫= handed = [].

(** The output of a session that started with the log [l0]. *)
Definition spoken (l0 : list Event) (past : bytes) w : Prop :=
  exists evs, w_log w = l0 ++ evs /\ Forall (speaks (_build (sock w))) evs /\ thread_last evs /\
    (_status (sock w) = STATUS_CHALLENGE -> evs ≫= handed = []) /\
    (existsb is_thread evs = true -> _status (sock w) = STATUS_CLOSED).

Lemma silent_speaks bld evs : evs ≫= handed = [] -> Forall (speaks bld) evs.
Proof.
  induction evs as [|e evs IH]; [constructor|]. cbn [mbind list_bind]. intros [He Hl]%app_eq_nil.
  constructor; [by apply speaks_quiet|auto].
Qed.

Lemma thread_free evs e1 acts e2 : evs = e1 ++ EvThread acts :: e2 -> existsb is_thread evs = true.
Proof. intros ->. rewrite existsb_app. cbn. by rewrite orb_true_r. Qed.

Lemma close_silent closed closer : close_events closed closer ≫= handed = [].
Proof. unfold close_events. by destruct (_ && _). Qed.

(** A thread that was started stays the last to hand anything over when silence follows. *)
Lemma thread_last_silent evs more :
  thread_last evs -> existsb is_thread more = false -> more ≫= handed = [] -> thread_last (evs ++ more).
Proof.
  intros Ht Hm Hs e1 acts e2 Heq. apply app_eq_inv in Heq as [(l & -> & Hl)|(l & -> & Hl)].
  - destruct l as [|e l]; cbn in Hl.
    + subst more. cbn in Hm. done.
    + injection Hl as <- ->. rewrite bind_app, Hs, app_nil_r. by eapply Ht.
  - exfalso. subst more. rewrite existsb_app in Hm. cbn in Hm. by rewrite orb_true_r in Hm.
Qed.

(** Before a thread was started, a frame may add a thread at its end. *)
Lemma thread_last_frame evs new :
  existsb is_thread evs = false ->
  existsb is_thread new = false \/ (exists acts, new = [EvThread acts]) -> thread_last (evs ++ new).
Proof.
  intros Ho Hn e1 acts e2 Heq. destruct Hn as [Hn|[acts' ->]].
  - pose proof (thread_free _ _ _ _ Heq) as Ht. by rewrite existsb_app, Ho, Hn in Ht.
  - apply app_eq_inv in Heq as [(l & -> & Hl)|(l & -> & Hl)].
    + destruct l as [|e l]; cbn in Hl; [by injection Hl as _ ->|]. exfalso. injection Hl as <- _.
      rewrite existsb_app in Ho. cbn in Ho. by rewrite orb_true_r in Ho.
    + destruct l as [|e l]; [by injection Hl as _ <-|]. injection Hl as _ Hl. by destruct l.
Qed.

#[export] Instance spoken_steady l0 : Steady (spoken l0).
Proof.
  split.
  - intros past f w ok w' Hc Hok Hw Hb (evs & Hlog & Hsp & Htl & Hq & Hth) Hrun.
    pose proof (frame_outbox f w Hok Hw Hb) as Hout. unfold wp in Hout. rewrite Hrun in Hout.
    destruct Hout as (new & Hnew & Hsn & Hbld & Hthread).
    pose proof (frame_body_handled f w Hok Hw Hb) as Hh. unfold wp in Hh. rewrite Hrun in Hh.
    assert (Hno : existsb is_thread evs = false).
    { destruct (existsb is_thread evs); [|done]. rewrite (Hth eq_refl) in Hw. inversion Hw. }
    exists (evs ++ new). split_and!; [by rewrite Hnew, Hlog, app_assoc| | | |].
    + apply Forall_app. split; [|done]. destruct (decide (_status (sock w) = STATUS_CHALLENGE)) as [E|E].
      * apply silent_speaks. auto.
      * by rewrite Hbld.
    + apply thread_last_frame; [done|]. destruct Hthread as [?|(acts & -> & _)]; eauto.
    + intros E. destruct (hd_status _ _ Hh); done.
    + rewrite existsb_app, Hno. cbn [orb]. destruct Hthread as [->|(acts & -> & ?)]; done.
  - intros past w w' (evs & Hlog & Hsp & Htl & Hq & Hth) Hc.
    destruct (close_connection_run w) as (w1 & Hr & Hs & _ & _ & _ & Hl & _). rewrite Hc in Hr. injection Hr as <-.
    set (ce := close_events _ _) in Hl. assert (Hce : ce ≫= handed = []) by apply close_silent.
    assert (Hct : existsb is_thread ce = false) by apply silent_close.
    exists (evs ++ ce). rewrite Hs. unfold closed_sock. sock_cbn.
    split_and!; [by rewrite Hl, Hlog, app_assoc| | | |].
    + apply Forall_app. split; [done|by apply silent_speaks].
    + by apply thread_last_silent.
    + intros E. rewrite bind_app, Hce, app_nil_r. auto.
    + rewrite existsb_app, Hct, orb_false_r. auto.
  - intros past w buf pos (evs & H). by exists evs.
Qed.

Lemma packets_of bld evs :
  Forall (speaks bld) evs -> exists ps, evs ≫= handed = render bld <$> ps /\ Forall packet_wf ps.
Proof.
  intros Hs. assert (Hp : Forall (is_packet bld) (evs ≫= handed)).
  { induction Hs as [|e evs He Hs IH]; [constructor|]. cbn [mbind list_bind]. by apply Forall_app. }
  induction Hp as [|b bs (p & -> & Hw) Hp (ps & -> & Hps)]; [by exists []|].
  exists (p :: ps). split; [done|by constructor].
Qed.

End Outbox.

(** ** Property *)

(** C12. The client can always read the server: whatever it sends, in whatever chunks, all
    that the session and its patch thread hand to the transport is a sequence of well-formed
    packets in the layout of the client's build, and the client's parser gives back exactly
    that sequence from the mere concatenation of the bytes, provided every realm list fits
    its 16-bit length.  After a patch thread has been started the session hands nothing to
    the transport, so its packets never mix with the thread's. *)
Theorem session_stream_decodes `{RealmdEnv} {L : RealmdLaws} now t policy addr fc (w0 : World)
    (chunks : list bytes) :
  Forall chunk_ok chunks ->
  exists w' evs ps, feed chunks (accept_socket now t policy addr fc w0) = Some (tt, w') /\
    w_log w' = w_log w0 ++ evs /\ evs ≫= handed = render (_build (sock w')) <$> ps /\
    Forall packet_wf ps /\ thread_last evs /\
    (Forall packet_fits ps -> decode (_build (sock w')) (outgoing evs) = Some ps).
Proof.
  intros Hc. destruct (tracked_session (spoken (w_log w0)) now t policy addr fc w0 chunks)
    as (w' & Hf & _ & past & rest & _ & (evs & Hlog & Hsp & Htl & _) & _); [|done|].
  - exists []. by rewrite app_nil_r; split_and!; [..|intros [] ? ? ?| |].
  - destruct (packets_of _ _ Hsp) as (ps & Hps & Hw). exists w', evs, ps. split_and!; [done..|].
    intros Hfit. unfold outgoing. rewrite Hps. by apply decode_render.
Qed.

Section SampleOutbox.
#[local] Existing Instances sample_Env sample_Laws.

Lemma session_stream_decodes_witness :
  exists w' evs ps, feed [sample_challenge] sample_socket = Some (tt, w') /\
    w_log w' = [] ++ evs /\ evs ≫= handed = render (_build (sock w')) <$> ps /\
    Forall packet_wf ps /\ thread_last evs /\
    (Forall packet_fits ps -> decode (_build (sock w')) (outgoing evs) = Some ps).
Proof.
  apply (session_stream_decodes 0 30 PatchPolicy_default (str "10.0.0.9") None sample_world [sample_challenge]).
  apply Forall_singleton, sample_challenge_ok.
Defined.

End SampleOutbox.
