(* ===== verification/HonestClient.v ===== *)
(** * The logon of an honest client

    A client that knows the password, talking to the server through the bytes of the
    two packets only, is authenticated, and both ends hold the same session key. *)

From Stdlib Require Import Znumtheory.
From S2P Require Import Prelude AuthCodes ProtocolGuard PatchPolicy ClientLocale ClientBuild.
From S2P Require Import RealmList PatchArtifact Interfaces Samples Srp6 Session SessionLogic.
From S2P Require Import Logon Reconnect RealmPacket Dispatch Bodies Serve SessionInv.
From S2P Require Import SessionSafety SessionProperties LogonProperties.

Local Open Scope Z_scope.
Local Open Scope realmd_scope.

Section Client.
Context `{ENV : RealmdEnv}.
Implicit Types (k : AuthSocket) (w : World).

(** ** The client *)

(** What the client reads from the challenge packet. *)
Definition client_B (pkt : bytes) : bn := SetBinary (take 32 (drop 3 pkt)).
Definition client_s (pkt : bytes) : bn := SetBinary (take 32 (drop 70 pkt)).

(** The key and the proof it computes from a premaster secret [S]. *)
Definition client_M (login pkt : bytes) (A S : bn) : bn :=
  srp_M srp_N srp_g (client_s pkt) A (client_B pkt) (srp_K S) login.

(** The frame it sends. *)
Definition client_proof (login pkt : bytes) (A S : bn) (crc : bytes) (flags : Z) : bytes :=
  [1] ++ (fixed A 32 ++ fixed (client_M login pkt A S) 20 ++ crc) ++ [0; flags].

Context {LAWS : RealmdLaws}.

(** The secrets of the client: [a], the public value [A = g^a % N], and the premaster
    secret it derives from the packet and its password. *)
Definition client_knows (rI pkt : bytes) (a : Z) (A S : bn) : Prop :=
  0 <= a /\ bn_val A = 7 ^ a mod N_val /\
  bn_val S = client_S N_val 7 (bn_val (client_B pkt))
    (bn_val (srp_x (client_s pkt) (password_digest rI))) a (bn_val (srp_u A (client_B pkt))).

(** The verifier the server uses belongs to the password. *)
Definition verifier_of (row : AccountRow) (rI : bytes) : Prop :=
  if verifier_stored row
  then bn_val (SetHexStr (c_str (acc_v row))) =
       7 ^ bn_val (srp_x (SetHexStr (c_str (acc_s row))) (password_digest rI)) mod N_val
  else rI = c_str (acc_sha_pass_hash row).

(** ** The packet *)

Lemma take_at (pre x suf : bytes) (n m : nat) :
  length pre = n -> length x = m -> take m (drop n (pre ++ x ++ suf)) = x.
Proof. intros <- <-. by rewrite drop_app_length, take_app_length. Qed.

Lemma length_fixed (n : bn) (wd : Z) : 0 <= wd -> length (fixed n wd) = Z.to_nat wd.
Proof. intros Hw. pose proof (zlen_fixed n wd Hw). unfold zlen in *. lia. Qed.

Lemma packet_B (B g N s unk3 : bn) :
  take 32 (drop 3 ([0; 0; 0] ++ ChallengeFields B g N s unk3)) = fixed B 32.
Proof. unfold ChallengeFields. apply take_at; [done|]. by apply length_fixed. Qed.

Lemma packet_s (B g N s unk3 : bn) :
  take 32 (drop 70 ([0; 0; 0] ++ ChallengeFields B g N s unk3)) = fixed s 32.
Proof.
  assert (Heq : [0; 0; 0] ++ ChallengeFields B g N s unk3 =
    ([0; 0; 0] ++ fixed B 32 ++ put_u8 1 ++ fixed g 1 ++ put_u8 32 ++ fixed N 32) ++
    fixed s 32 ++ fixed unk3 16 ++ put_u8 0) by (unfold ChallengeFields; by rewrite <- !app_assoc).
  rewrite Heq. apply take_at; [|by apply length_fixed].
  rewrite !put_u8_le, !length_app, !length_fixed, !length_le_bytes by lia. done.
Qed.

(** ** The numbers *)

Lemma seven_pow_nonzero (a : Z) : 0 <= a -> 7 ^ a mod N_val <> 0.
Proof.
  intros Ha Hz. pose proof N_val_range. apply Z.mod_divide in Hz; [|lia].
  assert (Hrel : Z.coprime N_val (7 ^ a)) by (by apply Z.coprime_pow_r; [|vm_compute]).
  apply Z.divide_gcd_iff in Hz; [|lia]. unfold Z.coprime in Hrel. rewrite Hz in Hrel.
  by vm_compute in Hrel.
Qed.

Lemma fixed_wire (n : bn) : fixed (SetBinary (fixed n 32)) 32 = fixed n 32.
Proof. apply fixed_SetBinary; [apply fixed_byte|by apply zlen_fixed]. Qed.

Lemma wire_value (n : bn) : bn_val n < N_val -> bn_val (SetBinary (fixed n 32)) = bn_val n.
Proof. intros Hn. pose proof N_val_range. apply fixed_fits; lia. Qed.

Lemma srp_B_lt (v gmod : bn) : bn_val (srp_B srp_N v gmod) < N_val.
Proof. rewrite srp_B_val. pose proof N_val_range. apply Z.mod_pos_bound. lia. Qed.

(** The SRP6 state of a session after a challenge whose verifier belongs to [rI]. *)
Definition srp_state k (rI : bytes) : Prop :=
  bn_N k = srp_N /\ bn_g k = srp_g /\
  bn_B k = srp_B srp_N (bn_v k) (srp_gmod srp_g srp_N (bn_b k)) /\
  bn_val (bn_v k) = 7 ^ bn_val (srp_x (bn_s k) (password_digest rI)) mod N_val.

(** The packet carries the session's [B] and salt. *)
Definition carries (pkt : bytes) k : Prop :=
  take 32 (drop 3 pkt) = fixed (bn_B k) 32 /\ take 32 (drop 70 pkt) = fixed (bn_s k) 32.

Lemma shared_key k rI pkt a A S :
  srp_state k rI -> carries pkt k -> client_knows rI pkt a A S ->
  session_key k (SetBinary (fixed A 32)) = srp_K S.
Proof.
  intros (HN & Hg & HB & Hv) (HpB & Hps) (Ha & HA & HS). pose proof N_val_range.
  set (A' := SetBinary (fixed A 32)).
  assert (HA' : bn_val A' = 7 ^ a mod N_val).
  { unfold A'. rewrite wire_value; [done|]. rewrite HA. by apply Z.mod_pos_bound. }
  assert (Hu : srp_u A (client_B pkt) = srp_u A' (bn_B k)).
  { unfold srp_u, A', client_B. rewrite HpB. by rewrite !fixed_wire. }
  assert (Hx : srp_x (client_s pkt) (password_digest rI) = srp_x (bn_s k) (password_digest rI)).
  { unfold srp_x, client_s, s_BYTE_SIZE. by rewrite Hps, fixed_wire. }
  assert (HBv : bn_val (client_B pkt) = bn_val (bn_B k)).
  { unfold client_B. rewrite HpB. apply wire_value. rewrite HB. apply srp_B_lt. }
  rewrite Hu, Hx, HBv in HS.
  unfold session_key, srp_K. f_equal. apply srp_vK_ext. rewrite HN, HS, HB.
  apply srp_S_client; [done|apply bn_val_nonneg|done|done].
Qed.

Lemma proof_matches k rI pkt a A S :
  srp_state k rI -> carries pkt k -> client_knows rI pkt a A S ->
  fixed (expected_M k (SetBinary (fixed A 32))) SHA_DIGEST_LENGTH =
  fixed (client_M (_login k) pkt A S) SHA_DIGEST_LENGTH.
Proof.
  intros Hs Hc Hk. pose proof (shared_key _ _ _ _ _ _ Hs Hc Hk) as HK.
  destruct Hs as (HN & Hg & _). destruct Hc as [HpB Hps].
  unfold expected_M, client_M. rewrite !fixed_srp_M, HN, Hg. unfold s_BYTE_SIZE, SRP_EPHEMERAL_WIDTH,
    SRP_SESSION_KEY_WIDTH. rewrite HK. unfold client_s, client_B. rewrite HpB, Hps.
  by rewrite !fixed_wire.
Qed.

Lemma client_proof_fields login pkt A S crc flags :
  zlen crc = 20 ->
  proof_A (client_proof login pkt A S crc flags) = SetBinary (fixed A 32) /\
  proof_M1 (client_proof login pkt A S crc flags) = fixed (client_M login pkt A S) 20 /\
  WellFormedFrame LogonProof (client_proof login pkt A S crc flags).
Proof.
  intros Hc. unfold proof_A, proof_M1, client_proof. split_and!.
  - f_equal. rewrite <- app_assoc. apply take_at; [done|by apply length_fixed].
  - rewrite <- !app_assoc, (app_assoc [1]). apply take_at; [|by apply length_fixed].
    rewrite length_app, length_fixed by lia. done.
  - apply wf_logon_proof. autorewrite with zlen. rewrite !zlen_fixed by lia. lia.
Qed.

(** The proof of an honest client is never refused. *)
Lemma honest_verdict k rI pkt a A S crc flags :
  srp_state k rI -> carries pkt k -> client_knows rI pkt a A S -> zlen crc = 20 ->
  proof_ok k (client_proof (_login k) pkt A S crc flags) = true.
Proof.
  intros Hs Hc Hk Hcrc. destruct (client_proof_fields (_login k) pkt A S crc flags Hcrc) as (HA & HM & _).
  unfold proof_ok. rewrite HA, HM. rewrite (proof_matches _ _ _ _ _ _ Hs Hc Hk).
  rewrite bool_decide_true by done. rewrite andb_true_r. apply negb_true_iff, not_true_iff_false.
  rewrite isZero_val. destruct Hs as (-> & _). destruct Hk as (Ha & HA' & _). pose proof N_val_range.
  rewrite bn_mod_val, srp_N_val by (rewrite srp_N_val; lia).
  rewrite wire_value by (rewrite HA'; by apply Z.mod_pos_bound).
  rewrite HA', Zmod_mod. by apply seven_pow_nonzero.
Qed.

(** A challenge leaves the SRP6 state of the password and sends its packet. *)
Lemma challenge_srp_state k f row rI k' :
  session_ok k -> challenge_set k f row k' -> verifier_of row rI -> srp_state k' rI.
Proof.
  intros Hok (_ & _ & _ & _ & _ & _ & HN & Hg & HB & Hv) Hver. unfold srp_state.
  rewrite HN, Hg, HB, (ok_N _ Hok), (ok_g _ Hok). split_and!; try done.
  unfold verifier_of in Hver. destruct (verifier_stored row).
  - destruct Hv as [-> ->]. done.
  - rewrite Hv, Hver, (ok_N _ Hok), (ok_g _ Hok). unfold srp_v. pose proof N_val_range.
    by rewrite ModExp_val, srp_N_val, srp_g_val by (rewrite srp_N_val; lia).
Qed.

Lemma M2_matches k rI pkt a A S :
  srp_state k rI -> carries pkt k -> client_knows rI pkt a A S ->
  let A' := SetBinary (fixed A 32) in
  srp_M2 A' (expected_M k A') (session_key k A') = srp_M2 A (client_M (_login k) pkt A S) (srp_K S).
Proof.
  intros Hs Hc Hk. cbv zeta. unfold srp_M2. rewrite (proof_matches _ _ _ _ _ _ Hs Hc Hk).
  unfold SRP_SESSION_KEY_WIDTH, SRP_EPHEMERAL_WIDTH. rewrite (shared_key _ _ _ _ _ _ Hs Hc Hk).
  by rewrite fixed_wire.
Qed.

(** From a challenged session on. *)
Lemma honest_proof w rI pkt a A S crc flags :
  ready w -> _status (sock w) = STATUS_LOGON_PROOF -> srp_state (sock w) rI -> carries pkt (sock w) ->
  client_knows rI pkt a A S -> zlen crc = 20 -> Forall is_byte crc -> is_byte flags ->
  build_supported (sock w) = true ->
  ShouldPatch (_patchPolicy (sock w)) (_build (sock w)) true = false ->
  let lp := client_proof (_login (sock w)) pkt A S crc flags in
  (DirectPExecute (session_statement (sock w) lp) (w_db w)).1 = true ->
  exists w2, onData lp w = Some ([], w2) /\ _status (sock w2) = STATUS_AUTHED /\
    bn_K (sock w2) = srp_K S /\
    w_log w2 = w_log w ++ [EvDirect (session_statement (sock w) lp) true;
      EvSend ([1; 0] ++ srp_M2 A (client_M (_login (sock w)) pkt A S) (srp_K S) ++
        (if vanilla_layout (_build (sock w)) then [0; 0; 0; 0] else [0; 0; 128; 0; 0; 0; 0; 0; 0; 0]))].
Proof.
  intros Hr Hst Hs Hc Hk Hcrc Hbc Hbf Hsup Hpatch lp Hdb.
  destruct (client_proof_fields (_login (sock w)) pkt A S crc flags Hcrc) as (HA & HM & Hw). fold lp in HA, HM, Hw.
  assert (Hbytes : Forall is_byte lp).
  { unfold lp, client_proof.
    repeat first [apply Forall_app_2 | apply Forall_cons_2 | apply Forall_nil_2 | apply fixed_byte | done]. }
  assert (Hver : proof_verdict (sock w) (w_db w) lp = Accepted).
  { pose proof (honest_verdict (sock w) rI pkt a A S crc flags Hs Hc Hk Hcrc) as Hok. fold lp in Hok.
    unfold proof_ok in Hok. apply andb_true_iff in Hok as [Hz Hm]. unfold proof_verdict.
    apply negb_true_iff in Hz. rewrite Hz, Hm. cbn [negb]. by rewrite Hsup, Hpatch, Hdb. }
  destruct (logon_proof_handles lp w Hr Hst Hw Hbytes) as (ok & k' & evs & w2 & Hon & HAns & Hsock & Hlog).
  unfold proof_answer in HAns. rewrite Hver in HAns. destruct HAns as (-> & Hst' & HK & ->).
  exists w2. rewrite Hsock. split_and!; [done..| |].
  - cbn [conclude]. change (bn_K (conclude true k')) with (bn_K k'). rewrite HK, HA. by eapply shared_key.
  - rewrite Hlog, app_nil_r. unfold proof_packet. cbv zeta. rewrite HA.
    by rewrite (M2_matches _ _ _ _ _ _ Hs Hc Hk).
Qed.

(** A frame keeps the session well formed and its wiring. *)
Lemma frame_run ch w w1 :
  ready w -> WellFormedFrame (stream_state (_status (sock w))) ch -> Forall is_byte ch ->
  onData ch w = Some ([], w1) ->
  wf_session w1 /\ _patchPolicy (sock w1) = _patchPolicy (sock w) /\ m_sender (sock w1) = true.
Proof.
  intros Hr Hw Hb Hon.
  assert (Hlch : zlen ch < 2 ^ 64).
  { pose proof (InspectFrame_accepts _ _ Hb Hw) as Hi.
    apply InspectFrame_decision in Hi as [_ Hle]; [cbn in Hle; lia|by auto with realmd|done]. }
  destruct (onData_run ch w (proj1 Hr) Hb Hlch) as (w1' & Hon' & _ & Htr & Hwf1).
  rewrite Hon in Hon'. injection Hon' as <-.
  apply evolves_rtc in Htr. destruct (ev_wiring _ _ Htr) as [Hpol Hsnd1].
  destruct Hr as (_ & _ & _ & Hs). by rewrite Hsnd1.
Qed.

(** The challenge of an account whose verifier belongs to [rI]: the packet it sends and the
    session it leaves, waiting for the proof. *)
Definition challenged (w w1 : World) (ch rI pkt : bytes) : Prop :=
  ready w1 /\ _status (sock w1) = STATUS_LOGON_PROOF /\ srp_state (sock w1) rI /\ carries pkt (sock w1) /\
  _login (sock w1) = challenge_login ch /\ _safelogin (sock w1) = escape_string (challenge_login ch) /\
  _build (sock w1) = cf_build ch /\ _patchPolicy (sock w1) = _patchPolicy (sock w).

Lemma honest_challenge w ch row rI :
  ready w -> _status (sock w) = STATUS_CHALLENGE -> WellFormedFrame Challenge ch -> Forall is_byte ch ->
  rd ch 0 = Some (cmd_code CMD_AUTH_LOGON_CHALLENGE) ->
  challenge_verdict (sock w) (w_db w) ch = Challenged row -> verifier_of row rI ->
  exists w1 before pkt, onData ch w = Some ([], w1) /\
    w_log w1 = w_log w ++ before ++ [EvSend pkt] /\ existsb is_send before = false /\
    challenged w w1 ch rI pkt.
Proof.
  intros Hr Hst Hw Hb Hc Hver Hpw. pose proof Hr as ((Hok & Hbb & Hmax) & Hcl & Hbuf & Hsnd).
  destruct (logon_challenge_handles ch w Hr Hst Hw Hb Hc) as (ok & k' & evs & w1 & Hon & HA & Hsock & Hlog).
  unfold challenge_answer in HA. rewrite Hver in HA.
  destruct HA as (-> & Hst' & Hcl' & Hset & unk3 & before & -> & Hnosend).
  rewrite app_nil_r in Hlog. destruct (frame_run ch w w1) as (Hwf1 & Hpol & Hsnd1); [done|by rewrite Hst|done..|].
  eexists w1, before, _. split_and!; [done..|]. unfold challenged, ready. rewrite Hsock in *.
  split_and!; try done; try by destruct Hset as (? & ? & ? & _).
  - pose proof (challenge_srp_state _ _ _ _ _ Hok Hset Hpw). done.
  - split; [apply packet_B|apply packet_s].
Qed.

End Client.

(** ** Property *)

(** C6. An honest client logs in: if the account passes the checks of the challenge and its
    verifier belongs to the password, and the client's build is a supported one for which
    no patch is due, then the server sends a challenge packet, and a client that knows the
    password - and, of the server's state, only the bytes of that packet - is authenticated
    by the proof it sends, whatever its secret, if the database accepts the one write that
    publishes the session key; the server's session key is the client's, it is in the
    database before the answer is sent, and the answer carries the proof the client
    expects. *)
Theorem honest_client_authenticates `{RealmdEnv} {L : RealmdLaws} (w : World) (ch : bytes)
    (row : AccountRow) (rI : bytes) :
  ready w -> _status (sock w) = STATUS_CHALLENGE -> WellFormedFrame Challenge ch -> Forall is_byte ch ->
  rd ch 0 = Some (cmd_code CMD_AUTH_LOGON_CHALLENGE) ->
  challenge_verdict (sock w) (w_db w) ch = Challenged row -> verifier_of row rI ->
  is_Some (FindBuildInfo (cf_build ch)) ->
  ShouldPatch (_patchPolicy (sock w)) (cf_build ch) true = false ->
  exists w1 before pkt, onData ch w = Some ([], w1) /\
    w_log w1 = w_log w ++ before ++ [EvSend pkt] /\ existsb is_send before = false /\
    forall a A S crc flags, client_knows rI pkt a A S -> zlen crc = 20 -> Forall is_byte crc -> is_byte flags ->
    let lp := client_proof (challenge_login ch) pkt A S crc flags in
    (DirectPExecute (session_statement (sock w1) lp) (w_db w1)).1 = true ->
    exists w2, onData lp w1 = Some ([], w2) /\ _status (sock w2) = STATUS_AUTHED /\
      fixed (bn_K (sock w2)) 40 = fixed (srp_K S) 40 /\
      w_log w2 = w_log w1 ++ [EvDirect (session_statement (sock w1) lp) true;
        EvSend ([1; 0] ++ srp_M2 A (client_M (challenge_login ch) pkt A S) (srp_K S) ++
          (if vanilla_layout (cf_build ch) then [0; 0; 0; 0] else [0; 0; 128; 0; 0; 0; 0; 0; 0; 0]))].
Proof.
  intros Hr Hst Hw Hb Hc Hver Hpw Hsup Hpatch.
  destruct (honest_challenge w ch row rI Hr Hst Hw Hb Hc Hver Hpw)
    as (w1 & before & pkt & Hon & Hlog & Hns & Hr1 & Hst1 & Hs & Hcar & Hlogin & _ & Hbuild & Hpol).
  exists w1, before, pkt. split_and!; [done..|]. intros a A S crc flags Hk Hcrc Hbc Hbf lp Hdb.
  unfold lp in *. rewrite <- Hlogin, <- Hbuild in *.
  destruct (honest_proof w1 rI pkt a A S crc flags) as (w2 & Hon2 & Hst2 & HK & Hlog2); auto.
  - unfold build_supported. by rewrite bool_decide_true.
  - by rewrite Hpol.
  - exists w2. by rewrite HK.
Qed.

Section SampleClient.
#[local] Existing Instances sample_Env sample_Laws.

Lemma honest_client_authenticates_witness :
  exists w1 before pkt, onData sample_challenge sample_socket = Some ([], w1) /\
    w_log w1 = [] ++ before ++ [EvSend pkt] /\ existsb is_send before = false /\
    forall a A S crc flags, client_knows alice_sha pkt a A S -> zlen crc = 20 -> Forall is_byte crc ->
    is_byte flags ->
    let lp := client_proof (challenge_login sample_challenge) pkt A S crc flags in
    (DirectPExecute (session_statement (sock w1) lp) (w_db w1)).1 = true ->
    exists w2, onData lp w1 = Some ([], w2) /\ _status (sock w2) = STATUS_AUTHED /\
      fixed (bn_K (sock w2)) 40 = fixed (srp_K S) 40 /\
      w_log w2 = w_log w1 ++ [EvDirect (session_statement (sock w1) lp) true;
        EvSend ([1; 0] ++ srp_M2 A (client_M (challenge_login sample_challenge) pkt A S) (srp_K S) ++
          (if vanilla_layout (cf_build sample_challenge) then [0; 0; 0; 0]
           else [0; 0; 128; 0; 0; 0; 0; 0; 0; 0]))].
Proof.
  apply (honest_client_authenticates sample_socket sample_challenge sample_account alice_sha).
  - apply (sample_at_ready STATUS_CHALLENGE); done.
  - reflexivity.
  - apply sample_challenge_wf.
  - by apply (bool_decide_unpack _); vm_compute.
  - reflexivity.
  - by vm_compute.
  - reflexivity.
  - by eexists.
  - by vm_compute.
Defined.

End SampleClient.
