(* ===== verification/ReconnectProperties.v ===== *)
(** * Coming back: from a logon to a reconnect

    A client that was authenticated and comes back over a new connection proves that it
    still holds the session key.  The key travels through the login database only: the
    logon writes it as text, the reconnect reads the text back. *)

From S2P Require Import Prelude AuthCodes ProtocolGuard PatchPolicy ClientLocale ClientBuild.
From S2P Require Import RealmList PatchArtifact Interfaces Samples Srp6 Session SessionLogic.
From S2P Require Import Logon Reconnect RealmPacket Dispatch Bodies Serve SessionInv.
From S2P Require Import SessionSafety SessionProperties Trail LogonProperties HonestClient.

Local Open Scope Z_scope.
Local Open Scope realmd_scope.

(** ** The client *)

Section Client.
Context `{ENV : RealmdEnv}.
Implicit Types (k : AuthSocket) (w : World).

(** The challenge in the server's packet. *)
Definition offered (pkt : bytes) : bytes := take 16 (drop 2 pkt).

(** The frame the client answers with: its own random bytes, the digest, and twenty bytes
    the server does not read. *)
Definition client_reconnect (login pkt R1 R3 : bytes) (K : bn) : bytes :=
  [3] ++ (R1 ++ Sha1Digest (login ++ R1 ++ offered pkt ++ fixed K 40) ++ R3) ++ [0].

Context {LAWS : RealmdLaws}.

(** A session that a client holding the key of [login] can reconnect from, over any new
    connection to the same database. *)
Definition can_reconnect w (login : bytes) (K : bn) : Prop :=
  forall now t policy addr fc rc, WellFormedFrame Challenge rc -> Forall is_byte rc ->
  rd rc 0 = Some (cmd_code CMD_AUTH_RECONNECT_CHALLENGE) -> challenge_login rc = login -> zlen (cf_os rc) <= 4 ->
  exists w1 pkt, onData rc (accept_socket now t policy addr fc w) = Some ([], w1) /\
    w_log w1 = w_log w ++ [EvQuery (SelSessionKey (c_str (escape_string login))); EvSend pkt] /\
    forall R1 R3, zlen R1 = 16 -> zlen R3 = 20 -> Forall is_byte R1 -> Forall is_byte R3 ->
    bn_val (SetBinary (offered pkt)) <> 0 ->
    exists w2 st, onData (client_reconnect login pkt R1 R3 K) w1 = Some ([], w2) /\
      _status (sock w2) = STATUS_AUTHED /\ _accountSecurityLevel (sock w2) = SEC_PLAYER /\
      w_log w2 = w_log w1 ++ [EvDirect st true; EvSend ([3; 0] ++ if 6141 <? cf_build rc then [0; 0] else [])].

Lemma client_reconnect_fields login pkt R1 R3 K :
  zlen R1 = 16 -> zlen R3 = 20 ->
  let lp := client_reconnect login pkt R1 R3 K in
  take 16 (drop 1 lp) = R1 /\
  reconnect_R2 lp = Sha1Digest (login ++ R1 ++ offered pkt ++ fixed K 40) /\
  WellFormedFrame ReconnectProof lp.
Proof.
  intros H1 H3. unfold reconnect_R2, client_reconnect. cbv zeta.
  set (R2 := Sha1Digest _). assert (H2 : zlen R2 = 20) by apply sha1_length.
  split_and!.
  - rewrite <- !app_assoc. apply take_at; [done|]. unfold zlen in H1. lia.
  - rewrite <- !app_assoc, (app_assoc [3]). apply take_at; unfold zlen in *; rewrite ?length_app; cbn; lia.
  - apply wf_reconnect_proof. autorewrite with zlen. lia.
Qed.

Lemma GetNumBytes_nonzero (n : bn) : bn_val n <> 0 -> GetNumBytes n <> 0.
Proof.
  intros Hn H0. pose proof (proj1 (GetNumBytes_le n 0 ltac:(lia)) ltac:(lia)) as Hlt.
  pose proof (bn_val_nonneg n). rewrite Z.pow_0_r in Hlt. lia.
Qed.

Lemma offered_nonzero (n : bn) : bn_val (SetBinary (fixed n 16)) <> 0 -> GetNumBytes n <> 0.
Proof.
  intros Hn. apply GetNumBytes_nonzero. intros H0. apply Hn. rewrite fixed_fits; [done|lia|].
  by rewrite H0.
Qed.

(** The digest the client sends is the one the server expects. *)
Lemma honest_reconnect_ok k pkt R1 R3 K :
  1 <= zlen (_login k) -> offered pkt = fixed (_reconnectProof k) 16 -> bn_val (SetBinary (offered pkt)) <> 0 ->
  bn_val (bn_K k) = bn_val K -> bn_val K <> 0 -> zlen R1 = 16 -> zlen R3 = 20 -> Forall is_byte R1 ->
  reconnect_ok k (client_reconnect (_login k) pkt R1 R3 K) = true.
Proof.
  intros Hlogin Hoff Hnz HK HK0 H1 H3 Hb.
  destruct (client_reconnect_fields (_login k) pkt R1 R3 K H1 H3) as (HR1 & HR2 & _).
  unfold reconnect_ok, reconnect_R1. rewrite HR1, HR2. rewrite !andb_true_iff, !negb_true_iff, !Z.eqb_neq.
  rewrite Hoff in Hnz. split_and!; [lia|by apply offered_nonzero| |].
  - apply GetNumBytes_nonzero. by rewrite HK.
  - apply bool_decide_true. unfold reconnect_digest, SRP_RECONNECT_WIDTH, SRP_SESSION_KEY_WIDTH.
    rewrite (fixed_SetBinary R1 16) by done. by rewrite Hoff, (fixed_ext (bn_K k) K).
Qed.

(** ** The handlers *)

(** Waiting for the proof of a reconnecting client that holds [K]. *)
Definition reconnecting w (rc pkt : bytes) (K : bn) : Prop :=
  ready w /\ _status (sock w) = STATUS_RECON_PROOF /\ _login (sock w) = challenge_login rc /\
  _build (sock w) = cf_build rc /\ offered pkt = fixed (_reconnectProof (sock w)) 16 /\
  bn_val (bn_K (sock w)) = bn_val K /\ _accountSecurityLevel (sock w) = SEC_PLAYER.

Lemma reconnect_packet (n : bn) (rest : bytes) : offered ([2; 0] ++ fixed n 16 ++ rest) = fixed n 16.
Proof. unfold offered. apply take_at; [done|]. by apply length_fixed. Qed.

Lemma c_str_no_nul (s : bytes) : Forall (fun c => c <> 0) s -> c_str s = s.
Proof.
  intros Hs. unfold c_str. assert (cstr (s ++ [0]) = Some s) as ->; [|done].
  induction Hs as [|c s Hc Hs IH]; [done|]. cbn [app cstr]. rewrite (proj2 (Z.eqb_neq _ _)) by done.
  by rewrite IH.
Qed.

(** The stored text gives the number back. *)
Lemma key_text_roundtrip (K : bn) : bn_val (SetHexStr (c_str (AsHexStr K))) = bn_val K.
Proof.
  rewrite c_str_no_nul; [by rewrite SetHexStr_val, AsHexStr_val by apply AsHexStr_hex|].
  eapply Forall_impl; [apply AsHexStr_hex|]. by intros c Hc ->.
Qed.

Lemma honest_reconnect_challenge w rc K :
  ready w -> _status (sock w) = STATUS_CHALLENGE -> _accountSecurityLevel (sock w) = SEC_PLAYER ->
  WellFormedFrame Challenge rc -> Forall is_byte rc ->
  rd rc 0 = Some (cmd_code CMD_AUTH_RECONNECT_CHALLENGE) -> zlen (cf_os rc) <= 4 ->
  (PQuery (SelSessionKey (c_str (escape_string (challenge_login rc)))) (w_db w)).1 = Some (AsHexStr K) ->
  exists w1 pkt, onData rc w = Some ([], w1) /\
    w_log w1 = w_log w ++ [EvQuery (SelSessionKey (c_str (escape_string (challenge_login rc)))); EvSend pkt] /\
    reconnecting w1 rc pkt K.
Proof.
  intros Hr Hst Hsec Hw Hb Hc Hos Hq.
  destruct (reconnect_challenge_handles rc w Hr Hst Hw Hb Hc) as (ok & k' & evs & w1 & Hon & HA & Hsock & Hlog).
  unfold reconnect_challenge_answer in HA. cbv zeta in HA. rewrite (proj2 (Z.ltb_ge _ _)), Hq in HA by done.
  destruct HA as (-> & Hst' & Hcl' & Hlog' & Hbld & HK & Hlev & _ & ->). rewrite app_nil_r in Hlog.
  destruct (frame_run rc w w1) as (Hwf1 & _ & Hsnd1); [done|by rewrite Hst|done..|].
  eexists w1, _. split_and!; [done|exact Hlog|]. unfold reconnecting, ready. rewrite Hsock in *.
  split_and!; try done.
  - apply reconnect_packet.
  - change (bn_val (bn_K k') = bn_val K). rewrite HK. apply key_text_roundtrip.
  - change (_accountSecurityLevel k' = SEC_PLAYER). by rewrite Hlev.
Qed.

Lemma honest_reconnect_proof w rc pkt R1 R3 K :
  reconnecting w rc pkt K -> 1 <= zlen (challenge_login rc) -> bn_val K <> 0 ->
  bn_val (SetBinary (offered pkt)) <> 0 ->
  zlen R1 = 16 -> zlen R3 = 20 -> Forall is_byte R1 -> Forall is_byte R3 ->
  (forall st d, (DirectPExecute st d).1 = true) ->
  exists w2, onData (client_reconnect (challenge_login rc) pkt R1 R3 K) w = Some ([], w2) /\
    _status (sock w2) = STATUS_AUTHED /\ _accountSecurityLevel (sock w2) = SEC_PLAYER /\
    w_log w2 = w_log w ++ [EvDirect (identity_statement (sock w)) true;
      EvSend ([3; 0] ++ if 6141 <? cf_build rc then [0; 0] else [])].
Proof.
  intros (Hr & Hst & Hlogin & Hbld & Hoff & HK & Hsec) Hl HK0 Hnz H1 H3 Hb1 Hb3 Hdb.
  rewrite <- Hlogin in *.
  destruct (client_reconnect_fields (_login (sock w)) pkt R1 R3 K H1 H3) as (_ & _ & Hw).
  pose proof (honest_reconnect_ok (sock w) pkt R1 R3 K Hl Hoff Hnz HK HK0 H1 H3 Hb1) as Hok.
  set (lp := client_reconnect _ pkt R1 R3 K) in *.
  assert (Hbytes : Forall is_byte lp).
  { unfold lp, client_reconnect.
    repeat first [apply Forall_app_2 | apply Forall_cons_2 | apply Forall_nil_2 | apply sha1_byte | done]. }
  destruct (reconnect_proof_handles lp w Hr Hst Hw Hbytes) as (ok & k' & evs & w2 & Hon & HA & Hsock & Hlog).
  unfold reconnect_answer in HA. rewrite Hok, Hdb in HA. destruct HA as (-> & Hst' & Hlev & ->).
  exists w2. rewrite Hsock, <- Hbld. split_and!; [done..| |].
  - change (_accountSecurityLevel k' = SEC_PLAYER). by rewrite Hlev.
  - by rewrite Hlog, app_nil_r.
Qed.

(** ** The database in between *)

Context {DLAWS : LoginDatabaseLaws}.

Lemma replays_known user d evs d' : replays d evs d' -> known user d -> known user d'.
Proof.
  induction 1 as [|d e d1 evs d2 He _ IH]; [done|]. intros Hk. apply IH.
  destruct He; try done; [by apply query_known|by apply execute_known|by apply direct_known].
Qed.

(** Only an account that exists is challenged. *)
Lemma challenged_known k d f row :
  challenge_verdict k d f = Challenged row -> known (c_str (escape_string (challenge_login f))) d.
Proof.
  unfold challenge_verdict. cbv zeta. destruct (4 <? _); [done|].
  set (ip := SelIpBanned _). destruct (PQuery ip d).1; [done|].
  destruct (PQuery (SelAccount _) (PQuery ip d).2).1 eqn:Hacc; [|done]. intros _.
  apply (query_known _ ip), (select_known _ _ _ Hacc).
Qed.

(** The database after a logged checked write is the result of that write. *)
Lemma direct_db w w' data st pkt :
  onData data w = Some ([], w') -> w_log w' = w_log w ++ [EvDirect st true; EvSend pkt] ->
  (DirectPExecute st (w_db w)).1 = true /\ w_db w' = (DirectPExecute st (w_db w)).2.
Proof.
  intros Hon Hlog. destruct (trailed_onData data _ _ _ Hon) as (evs & Hl & Hr).
  rewrite Hlog in Hl. apply app_inv_head in Hl as <-.
  inversion Hr as [|? ? d1 ? ? He Hr']; subst. inversion Hr' as [|? ? d2 ? ? He' Hr'']; subst.
  inversion He'; subst. inversion Hr''; subst. by inversion He; subst.
Qed.

Lemma onData_known user w w' data :
  onData data w = Some ([], w') -> known user (w_db w) -> known user (w_db w').
Proof. intros Hon. destruct (trailed_onData data _ _ _ Hon) as (evs & _ & Hr). by apply replays_known with evs. Qed.

Lemma accepted_ready now t policy addr fc w :
  let w' := accept_socket now t policy addr fc w in
  ready w' /\ _status (sock w') = STATUS_CHALLENGE /\ _accountSecurityLevel (sock w') = SEC_PLAYER.
Proof. split; [|done]. split; [apply accept_socket_wf|done]. Qed.

(** A stored key is enough to come back. *)
Lemma stored_key_reconnects w login K :
  1 <= zlen login -> bn_val K <> 0 -> (forall st d, (DirectPExecute st d).1 = true) ->
  (PQuery (SelSessionKey (c_str (escape_string login))) (w_db w)).1 = Some (AsHexStr K) ->
  can_reconnect w login K.
Proof.
  intros Hl HK Hdb Hq now t policy addr fc rc Hw Hb Hc <- Hos.
  destruct (accepted_ready now t policy addr fc w) as (Hr & Hst & Hsec).
  destruct (honest_reconnect_challenge (accept_socket now t policy addr fc w) rc K)
    as (w1 & pkt & Hon & Hlog & Hrec); try done.
  exists w1, pkt. split_and!; [done..|]. intros R1 R3 H1 H3 Hb1 Hb3 Hnz.
  destruct (honest_reconnect_proof w1 rc pkt R1 R3 K) as (w2 & Hon2 & Hst2 & Hsec2 & Hlog2); try done.
  by exists w2, (identity_statement (sock w1)).
Qed.

Lemma challenge_login_nonempty f : WellFormedFrame Challenge f -> 1 <= zlen (challenge_login f).
Proof.
  intros Hw. unfold challenge_login. inversion Hw; subst.
  unfold zlen in *. rewrite length_drop, !length_app. cbn [length]. lia.
Qed.

(** The database after an honest logon holds the client's key. *)
Lemma logon_stores_key w1 rI pkt a A S crc flags w2 login pkt2 :
  srp_state (sock w1) rI -> carries pkt (sock w1) -> client_knows rI pkt a A S -> zlen crc = 20 ->
  _safelogin (sock w1) = escape_string login -> known (c_str (escape_string login)) (w_db w1) ->
  let lp := client_proof (_login (sock w1)) pkt A S crc flags in
  onData lp w1 = Some ([], w2) ->
  w_log w2 = w_log w1 ++ [EvDirect (session_statement (sock w1) lp) true; EvSend pkt2] ->
  (PQuery (SelSessionKey (c_str (escape_string login))) (w_db w2)).1 = Some (AsHexStr (srp_K S)).
Proof.
  intros Hs Hc Hk Hcrc Hsafe Hknown lp Hon Hlog.
  destruct (direct_db _ _ _ _ _ Hon Hlog) as [Hok ->].
  destruct (client_proof_fields (_login (sock w1)) pkt A S crc flags Hcrc) as (HA & _ & _). fold lp in HA.
  unfold session_statement in *. rewrite HA, (shared_key _ _ _ _ _ _ Hs Hc Hk), Hsafe in *.
  by apply session_key_stored.
Qed.

End Client.

(** ** Properties *)

(** C7. Coming back: after an honest client of a supported build with no patch due has logged
    in, with a session key other than zero and a database whose writes succeed, it can
    reconnect over any later connection that finds the database as the logon left it:
    whatever reconnect challenge the server draws (other than zero), the digest the client computes from its own session key is accepted.  The
    key the server compares with was written as text by the logon and read back by the
    reconnect, which sends and writes nothing else.  A reconnected session has the
    security level of a player, whatever the account's. *)
Theorem logon_then_reconnect `{RealmdEnv} {L : RealmdLaws} {DL : LoginDatabaseLaws} (w : World) (ch : bytes)
    (row : AccountRow) (rI : bytes) :
  ready w -> _status (sock w) = STATUS_CHALLENGE -> WellFormedFrame Challenge ch -> Forall is_byte ch ->
  rd ch 0 = Some (cmd_code CMD_AUTH_LOGON_CHALLENGE) ->
  challenge_verdict (sock w) (w_db w) ch = Challenged row -> verifier_of row rI ->
  is_Some (FindBuildInfo (cf_build ch)) ->
  ShouldPatch (_patchPolicy (sock w)) (cf_build ch) true = false ->
  (forall st d, (DirectPExecute st d).1 = true) ->
  exists w1 before pkt, onData ch w = Some ([], w1) /\ w_log w1 = w_log w ++ before ++ [EvSend pkt] /\
    forall a A S crc flags, client_knows rI pkt a A S -> bn_val (srp_K S) <> 0 ->
    zlen crc = 20 -> Forall is_byte crc -> is_byte flags ->
    exists w2, onData (client_proof (challenge_login ch) pkt A S crc flags) w1 = Some ([], w2) /\
      _status (sock w2) = STATUS_AUTHED /\ can_reconnect w2 (challenge_login ch) (srp_K S).
Proof.
  intros Hr Hst Hw Hb Hc Hver Hpw Hsup Hpatch Hdb.
  destruct (honest_challenge w ch row rI Hr Hst Hw Hb Hc Hver Hpw)
    as (w1 & before & pkt & Hon & Hlog & _ & Hr1 & Hst1 & Hs & Hcar & Hlogin & Hsafe & Hbuild & Hpol).
  exists w1, before, pkt. split_and!; [done..|]. intros a A S crc flags Hk HK0 Hcrc Hbc Hbf.
  pose proof (challenge_login_nonempty ch Hw) as Hne.
  pose proof (onData_known _ _ _ _ Hon (challenged_known _ _ _ _ Hver)) as Hknown.
  rewrite <- Hbuild in *.
  destruct (honest_proof w1 rI pkt a A S crc flags) as (w2 & Hon2 & Hst2 & _ & Hlog2); auto.
  - unfold build_supported. by rewrite bool_decide_true.
  - by rewrite Hpol.
  - exists w2. rewrite <- Hlogin at 1. split_and!; [done..|].
    apply stored_key_reconnects; [done..|]. eapply logon_stores_key; eauto.
Qed.

Section SampleReconnect.
#[local] Existing Instances sample_Env sample_Laws sample_DbLaws.

Lemma logon_then_reconnect_witness :
  exists w1 before pkt, onData sample_challenge sample_socket = Some ([], w1) /\
    w_log w1 = [] ++ before ++ [EvSend pkt] /\
    forall a A S crc flags, client_knows alice_sha pkt a A S -> bn_val (srp_K S) <> 0 ->
    zlen crc = 20 -> Forall is_byte crc -> is_byte flags ->
    exists w2, onData (client_proof (challenge_login sample_challenge) pkt A S crc flags) w1 = Some ([], w2) /\
      _status (sock w2) = STATUS_AUTHED /\ can_reconnect w2 (challenge_login sample_challenge) (srp_K S).
Proof.
  apply (logon_then_reconnect sample_socket sample_challenge sample_account alice_sha).
  - apply (sample_at_ready STATUS_CHALLENGE); done.
  - reflexivity.
  - apply sample_challenge_wf.
  - by apply (bool_decide_unpack _); vm_compute.
  - reflexivity.
  - by vm_compute.
  - reflexivity.
  - by eexists.
  - by vm_compute.
  - done.
Defined.

End SampleReconnect.
