(* ===== verification/Vectors.v ===== *)
(** * The unit tests of the repository, run on the model (src/Tests)

    Every check of the five test programs that does not need a thread, a real MD5 or a
    clock, as an evaluation of the definitions; and one complete conversation, a logon, a
    realm list and a reconnect, with a client written out in numbers. *)

From stdpp Require Import gmap.
From S2P Require Import Prelude AuthCodes ProtocolGuard PatchPolicy ClientLocale ClientBuild.
From S2P Require Import RealmList SnapshotStore PatchArtifact Interfaces Samples Srp6 Session Logon.
From S2P Require Import Reconnect RealmPacket Dispatch SessionProperties LogonProperties.
From S2P Require Import ServerPackets Outbox HonestClient ReconnectProperties.

Local Open Scope Z_scope.
Local Open Scope realmd_scope.

#[local] Instance RejectReason_eq_dec : EqDecision RejectReason.
Proof. solve_decision. Defined.

#[local] Instance RealmBuildInfo_eq_dec : EqDecision RealmBuildInfo.
Proof. solve_decision. Defined.

#[local] Instance ClientBuildPolicy_eq_dec : EqDecision ClientBuildPolicy.
Proof. solve_decision. Defined.

(** ** AuthProtocolGuardTests.cpp *)

Definition MakeChallenge (command bld : Z) (account : bytes) : bytes :=
  let bodySize := 30 + zlen account in
  [command; 0] ++ le_bytes 2 bodySize ++ replicate 7 0 ++ le_bytes 2 bld ++ replicate 20 0 ++
  [zlen account] ++ account.

Definition SetChallengeBodySize (frame : bytes) (bodySize : Z) : bytes :=
  take 2 frame ++ le_bytes 2 bodySize ++ drop 4 frame.

Definition inspect (st : StreamState) (d : bytes) (size : Z) : option (FrameStatus * RejectReason * Z) :=
  (fun r => (status r, reason r, frameSize r)) <$> InspectFrame st (Some d) size.

(** Every proper prefix is incomplete, the frame is complete, also when more follows. *)
Definition splits_ok (st : StreamState) (frame rest : bytes) : bool :=
  forallb (fun n => bool_decide ((fun d => d.1.1) <$> inspect st frame n = Some Incomplete)) (seqZ 0 (zlen frame)) &&
  bool_decide (inspect st (frame ++ rest) (zlen (frame ++ rest)) = Some (Complete, NoReason, zlen frame)).

Definition TEST : bytes := str "TEST".

Example CheckChallengeSplits :
  splits_ok Challenge (MakeChallenge (cmd_code CMD_AUTH_LOGON_CHALLENGE) 5875 TEST) [1] = true /\
  splits_ok Challenge (MakeChallenge (cmd_code CMD_AUTH_RECONNECT_CHALLENGE) 5875 TEST) [1] = true.
Proof. by vm_compute. Qed.

Definition rejected (st : StreamState) (d : bytes) : option RejectReason :=
  match inspect st d (zlen d) with Some (RejectFrame, r, _) => Some r | _ => None end.

Example CheckChallengeFraming :
  let frame := MakeChallenge (cmd_code CMD_AUTH_LOGON_CHALLENGE) 5875 TEST in
  forallb (fun body => bool_decide (rejected Challenge (SetChallengeBodySize frame body) = Some MalformedLength))
    (seqZ 0 AuthChallengeMinimumBodySize) = true /\
  rejected Challenge (SetChallengeBodySize frame (30 + 4 - 1)) = Some MalformedLength /\
  rejected Challenge (SetChallengeBodySize frame (30 + 4 + 1) ++ [0]) = Some MalformedLength /\
  is_Some (rejected Challenge (MakeChallenge (cmd_code CMD_AUTH_LOGON_CHALLENGE) 5875 (str "TE" ++ [0] ++ str "ST"))).
Proof. split_and!; [by vm_compute..|]. by apply (bool_decide_unpack (is_Some _)); vm_compute. Qed.

Example CheckFixedFraming :
  splits_ok LogonProof (1 :: replicate 74 0) [] = true /\ splits_ok ReconnectProof (3 :: replicate 57 0) [] = true /\
  splits_ok Authenticated (16 :: replicate 4 0) [] = true /\ splits_ok Patch [50] [] = true /\
  splits_ok Patch (51 :: replicate 8 0) [] = true /\ splits_ok Patch [52] [] = true /\
  rejected LogonProof (1 :: replicate 72 0 ++ [1]) = Some UnsupportedKeyProof /\
  rejected ReconnectProof (3 :: replicate 56 0 ++ [1]) = Some UnsupportedKeyProof.
Proof. by vm_compute. Qed.

Example CheckRejectedCommands :
  rejected Challenge [255] = Some UnknownCommand /\ rejected Challenge [16] = Some UnauthorizedCommand.
Proof. by vm_compute. Qed.

Example CheckPendingLimit :
  CanAppendPending 0 MaxPendingInput = true /\ CanAppendPending MaxPendingInput 0 = true /\
  CanAppendPending MaxPendingInput 1 = false /\ CanAppendPending (2 ^ 64 - 1) 1 = false.
Proof. by vm_compute. Qed.

Example CheckDeadline :
  let d := Deadline_new 0 30 in
  let off := Deadline_deactivate d in
  let disabled := Deadline_new 0 0 in
  Deadline_active d = true /\ Deadline_expired d (29 * ns_per_second) = false /\
  Deadline_expired d (30 * ns_per_second) = true /\ Deadline_active off = false /\
  Deadline_expired off (3600 * ns_per_second) = false /\ Deadline_active disabled = false /\
  Deadline_expired disabled (3600 * ns_per_second) = false.
Proof. by vm_compute. Qed.

Definition known_builds : list Z :=
  [5875; 6005; 6141; 8606; 12340; 15595; 18273; 18414; 21742; 26972; 35662; 40000].

Example CheckBuildIndependentFraming :
  forallb (fun b => splits_ok Challenge (MakeChallenge (cmd_code CMD_AUTH_LOGON_CHALLENGE) b TEST) []) known_builds = true.
Proof. by vm_compute. Qed.

(** ** ClientBuildPolicyTests.cpp *)

Example TestSupportedBuildsResolveExactly :
  (fun b => (fun p => (realmVersion p, buildInfo p)) <$> FindClientBuildPolicy b) <$> known_builds =
  Some <$>
  [ (REALM_VERSION_VANILLA, mkBuildInfo 5875 1 12 1 32); (REALM_VERSION_VANILLA, mkBuildInfo 6005 1 12 2 32);
    (REALM_VERSION_VANILLA, mkBuildInfo 6141 1 12 3 32); (REALM_VERSION_TBC, mkBuildInfo 8606 2 4 3 32);
    (REALM_VERSION_WOTLK, mkBuildInfo 12340 3 3 5 97); (REALM_VERSION_CATA, mkBuildInfo 15595 4 3 4 32);
    (REALM_VERSION_MOP, mkBuildInfo 18273 5 4 8 32); (REALM_VERSION_MOP, mkBuildInfo 18414 5 4 8 32);
    (REALM_VERSION_WOD, mkBuildInfo 21742 6 2 4 32); (REALM_VERSION_LEGION, mkBuildInfo 26972 7 3 5 32);
    (REALM_VERSION_BFA, mkBuildInfo 35662 8 3 7 32); (REALM_VERSION_SHADOWLANDS, mkBuildInfo 40000 9 0 0 32) ].
Proof. by vm_compute. Qed.

Example TestUnknownBuildsAreRejected :
  forallb (fun b => bool_decide (FindClientBuildPolicy b = None /\ FindBuildInfo b = None))
    [0; 1; 39999; 40001; 65535] = true.
Proof. by vm_compute. Qed.

Example TestLockedAccountResultUsesRuntimeBuildFamily :
  LockedAccountResultForBuild <$> [5875; 6005; 6141] = replicate 3 WOW_FAIL_DB_BUSY /\
  LockedAccountResultForBuild <$> [8606; 12340; 15595; 18273; 18414; 21742; 26972; 35662; 40000] =
    replicate 9 WOW_FAIL_LOCKED_ENFORCED /\
  LockedAccountResultForBuild <$> [0; 39999; 40001; 65535] = replicate 4 WOW_FAIL_DB_BUSY.
Proof. by vm_compute. Qed.

(** ** ClientLocaleTests.cpp *)

Example TestCanonicalClaimsArePreserved :
  ParseClientLocaleClaim <$> [str "SUne"; str "BGne"; str "NChz"; str "RBtp"; str "URur"] =
  Some <$> [str "enUS"; str "enGB"; str "zhCN"; str "ptBR"; str "ruRU"].
Proof. by vm_compute. Qed.

Example TestMalformedClaimsAreRejected :
  ParseClientLocaleClaim <$> [[]; str "SUn"; str "SUneX"; str "sune"; str "SU'X"; str "SU1e"; str "SU" ++ [0] ++ str "e"] =
  replicate 7 None.
Proof. by vm_compute. Qed.

(** ** PatchSafetyTests.cpp *)

Definition should_patch (enabled : bool) (forced : string) (queries : list (Z * bool)) : option (list bool) :=
  (fun p => (fun q => ShouldPatch p q.1 q.2) <$> queries) <$> Parse enabled (str forced).

Example TestPatchPolicies :
  should_patch true "" [(5000, false); (5875, true)] = Some [true; false] /\
  should_patch true "5875 6005" [(5875, true); (6005, true); (6141, true)] = Some [true; true; false] /\
  should_patch false "5875" [(5000, false); (5875, true)] = Some [false; false] /\
  should_patch true "0" [] = None /\ should_patch true "65536" [] = None /\ should_patch true "5875x" [] = None.
Proof. by vm_compute. Qed.

(** [ReadAll], eight bytes at a time. *)
Fixpoint ReadAll (fuel : nat) (a : PatchArtifact) : bytes :=
  match fuel with
  | O => []
  | S fuel' =>
      let '(got, a') := Read a 8 in
      if zlen got <=? 0 then [] else got ++ ReadAll fuel' a'
  end.

Definition seek_read (a : PatchArtifact) (off : Z) : bool * bytes :=
  let '(ok, a') := Seek a off in (ok, if ok then ReadAll 4 a' else []).

Definition opened_artifact (f : option File) : option PatchArtifact :=
  default None (Open (MD5 := sample_Md5) (fun _ => f) (str "p.mpq")).

Example TestArtifactRetainsSizeAndBytes :
  (fun a => (m_size a, seek_read a <$> [0; 3; 6; 7])) <$> opened_artifact (Some (mkFile true true (str "abcdef") None)) =
  Some (6, [(true, str "abcdef"); (true, str "def"); (true, []); (false, [])]).
Proof. by vm_compute. Qed.

Example TestArtifactRejectsInvalidSources :
  opened_artifact None = None /\ opened_artifact (Some (mkFile false true [] None)) = None /\
  opened_artifact (Some (mkFile true true [] None)) = None.
Proof. by vm_compute. Qed.

(** ** RealmSnapshotTests.cpp *)

Definition MakeSnapshot (nm : bytes) (id : Z) : RealmSnapshot :=
  mkSnapshot {[nm := Realm_default <| name := nm |> <| m_ID := id |>]}
    ([nm] :: replicate (Z.to_nat REALM_VERSION_COUNT - 1) []).

Definition view_names_of (id : nat) (s : Store) : option (list bytes) := map name <$> ReadView id s.

Example TestViewRetainsPublishedGeneration :
  (s ← Publish (MakeSnapshot (str "First") 1) Store_new;
   '(old, s) ← OpenView REALM_VERSION_VANILLA s;
   s ← Publish (MakeSnapshot (str "Second") 2) s;
   '(new, s) ← OpenView REALM_VERSION_VANILLA s;
   Some (View_size old s, view_names_of old s, View_size new s, view_names_of new s)) =
  Some (Some 1, Some [str "First"], Some 1, Some [str "Second"]).
Proof. by vm_compute. Qed.

(** Eight callers at the same time: the first is let in, the others find it at work or done. *)
Example TestRefreshGateAdmitsOneCaller :
  let gate := mkGate 20 100 false in
  let busy := RunIfDue_enter gate 100 in
  is_Some busy /\ (g ← busy; RunIfDue_enter g 100) = None /\
  (g ← busy; RunIfDue_enter (RunIfDue_leave g) 100) = None.
Proof. split_and!; [by eexists|by vm_compute..]. Qed.

(** ** A conversation *)

Section Conversation.
#[local] Existing Instances sample_Env sample_Laws.

(** The last packet the server sent. *)
Definition last_packet (w : World) : bytes :=
  match List.filter is_send (reverse (w_log w)) with EvSend pkt :: _ => pkt | _ => [] end.

(** A client with the secret exponent 12345: its public value [7 ^ 12345 mod N], and the
    premaster secret it derives from the server's first packet and the password. *)
Definition client_public : N := 50160641098781364531271408259351316679436154019857382806649159686307628471629%N.
Definition client_secret : N := 41394816665149896377067714681094470930918077337481169713186241006118896009843%N.

Definition login_frame (pkt : bytes) : bytes :=
  client_proof (str "ALICE") pkt client_public client_secret (replicate 20 9) 0.

Definition reconnect_frame : bytes := 2 :: drop 1 sample_challenge.

(** Logon, the realm list, and a reconnect over a second connection with the key of the
    first: the states, the commands of the packets sent, and how many packets the client's
    parser finds in the bytes of the two connections. *)
Definition conversation : option (list eStatus * list Z * option nat) :=
  '(_, w1) ← onData sample_challenge sample_socket;
  '(_, w2) ← onData (login_frame (last_packet w1)) w1;
  '(_, w3) ← onData [16; 0; 0; 0; 0] w2;
  let w4 := accept_socket 0 30 PatchPolicy_default (str "10.0.0.9") None w3 in
  '(_, w5) ← onData reconnect_frame w4;
  '(_, w6) ← onData (client_reconnect (str "ALICE") (last_packet w5) (replicate 16 7) (replicate 20 0) (srp_K client_secret)) w5;
  Some ((fun w => _status (sock w)) <$> [w1; w2; w3; w5; w6],
        omap (fun e => match e with EvSend (c :: _) => Some c | _ => None end) (w_log w6),
        length <$> decode (_build (sock w6)) (outgoing (w_log w6))).

Example honest_conversation :
  conversation =
  Some ([STATUS_LOGON_PROOF; STATUS_AUTHED; STATUS_AUTHED; STATUS_RECON_PROOF; STATUS_AUTHED], [0; 1; 16; 2; 3], Some 5%nat).
Proof. by vm_compute. Qed.

End Conversation.
