(* ===== verification/PatchProperties.v ===== *)
(** * Correctness of the patch offer and transfer, end to end *)

From S2P Require Import Prelude AuthCodes ProtocolGuard PatchPolicy ClientLocale ClientBuild.
From S2P Require Import RealmList PatchArtifact Interfaces Samples Srp6 Session SessionLogic.
From S2P Require Import Logon Reconnect RealmPacket Dispatch Bodies Serve SessionInv.
From S2P Require Import SessionSafety SessionProperties LogonProperties.

Local Open Scope Z_scope.
Local Open Scope realmd_scope.

Section Transfer.
Context `{ENV : RealmdEnv}.
Implicit Types (k : AuthSocket) (w : World).

(** The offset a transfer frame asks for. *)
Definition xfer_offset (f : bytes) : Z := le_val (drop 1 f).

(** What the session does with a transfer request for [file]: the thread it starts sends
    the file from the offset in well-formed packets, and the session takes no further
    request; an offset beyond the end closes the connection. *)
Definition transfer_answer k (file : File) (f : bytes) (ok : bool) k' (evs : list Event) : Prop :=
  if xfer_offset f <=? zlen (file_bytes file) then
    ok = true /\ _status k' = STATUS_CLOSED /\ m_closed k' = false /\ m_patchArtifact k' = None /\
    exists acts, evs = [EvThread (Some acts)] /\ Forall xfer_packet acts /\
      (exists rest, drop (Z.to_nat (xfer_offset f)) (file_bytes file) = received acts ++ rest) /\
      ((forall fc n, m_flowControl k = Some fc -> fc kMaxOutstandingBytes n = true) ->
       received acts = drop (Z.to_nat (xfer_offset f)) (file_bytes file))
  else ok = false /\ m_closed k' = true /\ evs = close_events false (m_closer k).

Lemma BeginPatchStream_spec file f k d r l c a rl t :
  servable file = true -> 0 <= xfer_offset f ->
  m_patchArtifact k = Some (artifact_of file) -> m_closed k = false ->
  wp (BeginPatchStream (xfer_offset f))
    (fun ok w' => exists evs, w_log w' = l ++ evs /\ transfer_answer k file f ok (sock w') evs)
    (mkWorld k d r l c a rl t).
Proof.
  intros Hs Ho Ha Hc. pose proof (StartPatchTransfer_spec file
    (Finalize (UpdateData md5_init (file_bytes file))) (m_flowControl k) (xfer_offset f) Hs Ho) as Hspec.
  cbv zeta in Hspec. fold (artifact_of file) in Hspec. unfold transfer_answer, BeginPatchStream.
  do 2 (first [wp_step|session_step]). sock_cbn. rewrite Ha.
  destruct (xfer_offset f <=? zlen (file_bytes file)).
  - destruct Hspec as (acts & -> & Hp & Hpre & Hall). run. exists [EvThread (Some acts)].
    split; [done|]. sock_cbn. eauto 10.
  - rewrite Hspec. run. exists (close_events false (m_closer k)). by rewrite Hc.
Qed.

Context {LAWS : RealmdLaws}.

Lemma transfer_handles file f w :
  ready w -> _status (sock w) = STATUS_PATCH -> servable file = true ->
  m_patchArtifact (sock w) = Some (artifact_of file) -> Forall is_byte f ->
  f = [cmd_code CMD_XFER_ACCEPT] \/ (exists off, zlen off = 8 /\ f = [cmd_code CMD_XFER_RESUME] ++ off) ->
  handles f w (transfer_answer (sock w) file f).
Proof.
  intros Hr Hst Hs Ha Hf Hcmd.
  assert (Hw : WellFormedFrame Patch f).
  { destruct Hcmd as [->|(off & Ho & ->)]; by constructor. }
  apply onData_frame; [done|by rewrite Hst|done|].
  assert (Hbody : frame_body f = BeginPatchStream (xfer_offset f)).
  { destruct Hcmd as [->|(off & _ & ->)]; done. }
  rewrite Hbody. destruct Hr as (_ & Hc & _). destruct w. apply BeginPatchStream_spec; auto.
  apply le_val_range. by apply Forall_drop.
Qed.

(** ** The path of an archive *)

(** A letter or a digit. *)
Definition is_alnum (c : Z) : Prop := is_letter c \/ 48 <= c <= 57.

Lemma patch_path_confined k :
  session_ok k -> exists mid, patch_path (_build k) (_localizationName k) = str "./patches/" ++ mid ++ str ".mpq" /\
    mid <> [] /\ Forall is_alnum mid.
Proof.
  intros Hok. exists (to_string (_build k) ++ _localizationName k). unfold patch_path.
  rewrite <- !app_assoc. split_and!; [done| |].
  - pose proof (to_string_nonempty (_build k)). destruct (to_string (_build k)); done.
  - apply Forall_app. split.
    + eapply Forall_impl; [apply to_string_digits|]. intros c Hd. right. by apply is_digit_spec.
    + eapply Forall_impl; [apply (ok_locale _ Hok)|]. intros c Hd. by left.
Qed.

End Transfer.

(** ** Properties *)

(** C24. The patch transfer, from the client's request to the last packet: an accepted or
    resumed transfer starts one thread that sends exactly the bytes of the offered file
    from the requested offset, in well-formed packets, for as long as the connection
    lasts; an offset beyond the end closes the connection and sends nothing. *)
Theorem transfer_request_served `{RealmdEnv} {L : RealmdLaws} (file : File) (f : bytes) (w : World) :
  ready w -> _status (sock w) = STATUS_PATCH -> servable file = true ->
  m_patchArtifact (sock w) = Some (artifact_of file) -> Forall is_byte f ->
  f = [cmd_code CMD_XFER_ACCEPT] \/ (exists off, zlen off = 8 /\ f = [cmd_code CMD_XFER_RESUME] ++ off) ->
  handles f w (transfer_answer (sock w) file f).
Proof. apply transfer_handles. Qed.

(** C25. No path traversal: whatever a client has sent, the archive the session would open
    is a file directly in [./patches/], named by letters and digits with the extension
    [.mpq]. *)
Theorem session_patch_path `{RealmdEnv} {L : RealmdLaws} now t policy addr fc (w0 : World)
    (chunks : list bytes) :
  Forall chunk_ok chunks ->
  exists w' mid, feed chunks (accept_socket now t policy addr fc w0) = Some (tt, w') /\
    patch_path (_build (sock w')) (_localizationName (sock w')) = str "./patches/" ++ mid ++ str ".mpq" /\
    mid <> [] /\ Forall is_alnum mid.
Proof.
  intros Hc. destruct (session_run now t policy addr fc w0 chunks Hc) as (w' & Hf & (Hok & _) & _).
  destruct (patch_path_confined _ Hok) as (mid & Hmid). by exists w', mid.
Qed.

Section SampleTransfer.
#[local] Existing Instances sample_Env sample_Laws.

Definition sample_file : File := mkFile true true (str "patch archive") None.

Definition sample_patching : World :=
  sample_socket <| sock := (sock sample_socket) <| _status := STATUS_PATCH |>
    <| m_patchArtifact := Some (artifact_of sample_file) |>
    <| m_authDeadline := Deadline_deactivate (m_authDeadline (sock sample_socket)) |> |>.

Lemma sample_patching_ready : ready sample_patching.
Proof.
  split; [|done]. split; [|split; [constructor|by vm_compute]].
  split; cbn; auto; try done. intros a [= <-]. by exists sample_file.
Qed.

Lemma transfer_request_served_witness :
  handles ([cmd_code CMD_XFER_RESUME] ++ le_bytes 8 6) sample_patching
    (transfer_answer (sock sample_patching) sample_file ([cmd_code CMD_XFER_RESUME] ++ le_bytes 8 6)).
Proof.
  apply (transfer_request_served sample_file ([cmd_code CMD_XFER_RESUME] ++ le_bytes 8 6) sample_patching).
  - apply sample_patching_ready.
  - reflexivity.
  - reflexivity.
  - reflexivity.
  - by apply (bool_decide_unpack _); vm_compute.
  - right. by exists (le_bytes 8 6).
Defined.

Lemma session_patch_path_witness :
  exists w' mid, feed [sample_challenge] sample_socket = Some (tt, w') /\
    patch_path (_build (sock w')) (_localizationName (sock w')) = str "./patches/" ++ mid ++ str ".mpq" /\
    mid <> [] /\ Forall is_alnum mid.
Proof.
  apply (session_patch_path 0 30 PatchPolicy_default (str "10.0.0.9") None sample_world).
  by apply Forall_singleton, sample_challenge_ok.
Defined.

End SampleTransfer.
