(* ===== verification/RealmProperties.v ===== *)
(** * Correctness of the realm list answer

    The packet is read back by the client's parser, for both layouts. *)

From S2P Require Import Prelude AuthCodes ProtocolGuard PatchPolicy ClientBuild RealmList.
From S2P Require Import PatchArtifact Interfaces Samples Srp6 Session SessionLogic Logon.
From S2P Require Import Reconnect RealmPacket Dispatch Bodies Serve SessionInv SessionSafety.
From S2P Require Import SessionProperties LogonProperties.

Local Open Scope Z_scope.
Local Open Scope realmd_scope.

(** ** The client's parser *)

(** What a client sees of a realm.  The lock byte exists only in the later layout, as do
    the four numbers of the build. *)
Record RealmView : Type := mkView {
  v_icon : Z;
  v_lock : Z;
  v_flags : Z;
  v_name : bytes;
  v_address : bytes;
  v_population : Z;
  v_chars : Z;
  v_timezone : Z;
  v_build : option (Z * Z * Z * Z)
}.

(** A parser takes what it reads off the front of the input. *)
Definition parse_le (n : nat) (d : bytes) : option (Z * bytes) :=
  if decide (n <= length d)%nat then Some (le_val (take n d), drop n d) else None.

Fixpoint parse_str (d : bytes) : option (bytes * bytes) :=
  match d with
  | [] => None
  | c :: d' => if c =? 0 then Some ([], d') else
      match parse_str d' with Some (s, rest) => Some (c :: s, rest) | None => None end
  end.

Definition parse_vanilla (d : bytes) : option (RealmView * bytes) :=
  '(ic, d) ← parse_le 4 d; '(fl, d) ← parse_le 1 d; '(nm, d) ← parse_str d; '(ad, d) ← parse_str d;
  '(pop, d) ← parse_le 4 d; '(ch, d) ← parse_le 1 d; '(tz, d) ← parse_le 1 d; '(_, d) ← parse_le 1 d;
  Some (mkView ic 0 fl nm ad pop ch tz None, d).

Definition parse_later (d : bytes) : option (RealmView * bytes) :=
  '(ic, d) ← parse_le 1 d; '(lk, d) ← parse_le 1 d; '(fl, d) ← parse_le 1 d;
  '(nm, d) ← parse_str d; '(ad, d) ← parse_str d;
  '(pop, d) ← parse_le 4 d; '(ch, d) ← parse_le 1 d; '(tz, d) ← parse_le 1 d; '(_, d) ← parse_le 1 d;
  if has_flag fl REALM_FLAG_SPECIFYBUILD then
    '(maj, d) ← parse_le 1 d; '(min, d) ← parse_le 1 d; '(bug, d) ← parse_le 1 d;
    '(bld, d) ← parse_le 2 d;
    Some (mkView ic lk fl nm ad pop ch tz (Some (maj, min, bug, bld)), d)
  else Some (mkView ic lk fl nm ad pop ch tz None, d).

Fixpoint parse_entries (parse : bytes -> option (RealmView * bytes)) (n : nat) (d : bytes)
    : option (list RealmView * bytes) :=
  match n with
  | O => Some ([], d)
  | S n' => '(v, d) ← parse d; '(vs, d) ← parse_entries parse n' d; Some (v :: vs, d)
  end.

(** The whole answer: command, size, the unused word, the count, the realms, the tail. *)
Definition parse_answer (vanilla : bool) (pkt : bytes) : option (list RealmView) :=
  '(cmd, d) ← parse_le 1 pkt; '(size, d) ← parse_le 2 d;
  if negb ((cmd =? 16) && (size =? zlen d)) then None else
  '(_, d) ← parse_le 4 d; '(n, d) ← parse_le (if vanilla then 1 else 2) d;
  '(vs, d) ← parse_entries (if vanilla then parse_vanilla else parse_later) (Z.to_nat n) d;
  '(_, d) ← parse_le 2 d;
  match d with [] => Some vs | _ => None end.

Section Packet.
Context `{ENV : RealmdEnv}.
Implicit Types (k : AuthSocket) (w : World).

(** ** What the server means to show *)

Definition shown_flags (vanilla : bool) k (realm : Realm) : Z :=
  if negb (bool_decide (_build k ∈ realmbuilds realm)) ||
     (vanilla && (_accountSecurityLevel k <? allowedSecurityLevel realm))
  then Z.lor (realmflags realm) REALM_FLAG_OFFLINE else realmflags realm.

Definition shown_address (realm : Realm) (clientIp : Z) : bytes :=
  GetAddressString (ip (GetAddressForClient realm clientIp)) (port (ExternalAddress realm)).

Definition vanilla_view k (clientIp : Z) (realm : Realm) (chars : Z) : RealmView :=
  mkView (u32 (icon realm)) 0 (u8 (shown_flags true k realm))
    (name realm ++ if has_flag (realmflags realm) REALM_FLAG_SPECIFYBUILD
                   then VersionSuffix (ShownBuild realm (_build k)) else [])
    (shown_address realm clientIp) (u32 (populationLevel realm)) (u8 chars) (u8 (timezone realm)) None.

Definition later_view k (clientIp : Z) (realm : Realm) (chars : Z) : RealmView :=
  let info := ShownBuild realm (_build k) in
  mkView (u8 (icon realm)) (if _accountSecurityLevel k <? allowedSecurityLevel realm then 1 else 0)
    (u8 (shown_flags false k realm)) (name realm)
    (shown_address realm clientIp) (u32 (populationLevel realm)) (u8 chars) (u8 (timezone realm))
    (if has_flag (shown_flags false k realm) REALM_FLAG_SPECIFYBUILD
     then Some (u8 (major_version info), u8 (minor_version info), u8 (bugfix_version info), u16 (_build k))
     else None).

(** The characters of the account on each realm, and the database after the queries. *)
Fixpoint char_counts (acctid : Z) (realms : list Realm) (d : db) : list Z * db :=
  match realms with
  | [] => ([], d)
  | realm :: realms' =>
      let q := PQuery (SelNumChars (m_ID realm) acctid) d in
      let rest := char_counts acctid realms' q.2 in
      (match q.1 with Some n => n | None => 0 end :: rest.1, rest.2)
  end.

(** Text the client can read: no NUL inside. *)
Definition readable_text (s : bytes) : Prop := Forall (fun c => c <> 0) s.

Definition readable_realm (clientIp : Z) (realm : Realm) : Prop :=
  readable_text (name realm) /\ readable_text (shown_address realm clientIp).

(** ** Lemmas *)

Lemma parse_le_app (n : nat) (x : Z) (d : bytes) :
  parse_le n (le_bytes n x ++ d) = Some (x mod 256 ^ Z.of_nat n, d).
Proof.
  unfold parse_le. rewrite decide_True by (rewrite length_app, length_le_bytes; lia).
  rewrite take_app_length', drop_app_length' by (by rewrite length_le_bytes).
  by rewrite le_val_bytes.
Qed.

Lemma parse_str_app (s d : bytes) : readable_text s -> parse_str (s ++ 0 :: d) = Some (s, d).
Proof.
  induction 1 as [|c s Hc Hs IH]; cbn; [done|]. rewrite IH.
  by rewrite (proj2 (Z.eqb_neq _ _)).
Qed.

Lemma has_flag_u8 (x mask : Z) : Z.land 255 mask = mask -> has_flag (u8 x) mask = has_flag x mask.
Proof.
  intros Hm. unfold has_flag, wrap. rewrite <- (Z.land_ones x 8) by lia. change (Z.ones 8) with 255.
  by rewrite <- Z.land_assoc, Hm.
Qed.

Context {LAWS : RealmdLaws}.

Lemma readable_suffix info : readable_text (VersionSuffix info).
Proof.
  apply Forall_take. unfold readable_text.
  assert (Hd : forall x, Forall (fun c => c <> 0) (to_string x)).
  { intros x. eapply Forall_impl; [apply to_string_digits|]. intros c Hc%is_digit_spec. lia. }
  repeat first [apply Forall_app_2 | apply Hd | by repeat constructor].
Qed.

Lemma parse_string (str d : bytes) : readable_text str -> parse_str (str ++ [0] ++ d) = Some (str, d).
Proof. apply parse_str_app. Qed.

Ltac parse_step :=
  first [rewrite parse_le_app | rewrite parse_string by done]; cbn [mbind option_bind].

Lemma parse_vanilla_entry k realm clientIp chars d :
  readable_realm clientIp realm ->
  parse_vanilla (VanillaEntry k realm clientIp chars ++ d) = Some (vanilla_view k clientIp realm chars, d).
Proof.
  intros [Hn Ha]. unfold parse_vanilla, VanillaEntry. cbv zeta. unfold shown_address in Ha.
  set (suffix := if has_flag (realmflags realm) REALM_FLAG_SPECIFYBUILD
                 then VersionSuffix (ShownBuild realm (_build k)) else []).
  assert (Hsuf : readable_text (name realm ++ suffix)).
  { apply Forall_app. split; [done|]. unfold suffix. destruct (has_flag _ _); [apply readable_suffix|constructor]. }
  replace (if has_flag (realmflags realm) REALM_FLAG_SPECIFYBUILD
           then name realm ++ VersionSuffix (ShownBuild realm (_build k)) else name realm)
    with (name realm ++ suffix) by (unfold suffix; destruct (has_flag _ _); by rewrite ?app_nil_r).
  rewrite put_u32_le, put_float_le, !put_u8_le, !put_string_nul, <- !app_assoc, (app_assoc (name realm)).
  repeat parse_step. done.
Qed.

Lemma parse_later_entry k realm clientIp chars d :
  readable_realm clientIp realm ->
  parse_later (LaterEntry k realm clientIp chars ++ d) = Some (later_view k clientIp realm chars, d).
Proof.
  intros [Hn Ha]. unfold parse_later, LaterEntry. cbv zeta. unfold shown_address in Ha.
  set (flags := if negb (bool_decide (_build k ∈ realmbuilds realm))
                then Z.lor (realmflags realm) REALM_FLAG_OFFLINE else realmflags realm).
  assert (Hfl : shown_flags false k realm = flags) by (unfold shown_flags; by rewrite orb_false_r).
  rewrite put_float_le, put_u16_le, !put_u8_le, !put_string_nul, <- !app_assoc.
  repeat parse_step. change (256 ^ Z.of_nat 1) with (2 ^ 8). fold (wrap 8 flags).
  rewrite (has_flag_u8 flags) by done.
  unfold later_view. rewrite Hfl.
  destruct (has_flag flags REALM_FLAG_SPECIFYBUILD).
  - rewrite <- !app_assoc. repeat parse_step. by destruct (_ <? _).
  - cbn [app]. by destruct (_ <? _).
Qed.

Lemma parse_entries_app parse (entry : Realm -> Z -> bytes) (view : Realm -> Z -> RealmView)
    (realms : list Realm) (chars : list Z) d :
  (forall r c d, r ∈ realms -> parse (entry r c ++ d) = Some (view r c, d)) -> length chars = length realms ->
  parse_entries parse (length realms) (concat (zip_with entry realms chars) ++ d) =
  Some (zip_with view realms chars, d).
Proof.
  intros Hp. revert chars. induction realms as [|r rs IH]; intros [|c cs] Hl; try done.
  cbn [length zip_with concat parse_entries]. rewrite <- app_assoc, Hp by by left.
  cbn [mbind option_bind]. rewrite IH; [done| |by injection Hl]. intros; apply Hp. by right.
Qed.

Lemma length_char_counts acctid realms d : length (char_counts acctid realms d).1 = length realms.
Proof. revert d; induction realms as [|r rs IH]; intros d; cbn; [done|]. by rewrite IH. Qed.

Lemma RealmEntries_run entry acctid realms k d r l c a rl t :
  exists evs, RealmEntries entry acctid realms (mkWorld k d r l c a rl t) =
    Some (concat (zip_with entry realms (char_counts acctid realms d).1),
          mkWorld k (char_counts acctid realms d).2 r (l ++ evs) c a rl t) /\ existsb is_send evs = false.
Proof.
  revert d l. induction realms as [|x rs IH]; intros d l; cbn [RealmEntries char_counts].
  - exists []. by rewrite app_nil_r.
  - unfold AmountOfCharacters. unfold bindM, query, retM. cbn [w_db].
    destruct (PQuery (SelNumChars (m_ID x) acctid) d) as [q d1] eqn:Hq. cbn [fst snd].
    change ({| sock := k; w_db := d; w_rng := r; w_log := l; s_connections := c; s_authed := a;
       sRealmList := rl; w_time := t |} <| w_db := d1 |> <| w_log := _ |>)
      with (mkWorld k d1 r (l ++ [EvQuery (SelNumChars (m_ID x) acctid)]) c a rl t).
    destruct (IH d1 (l ++ [EvQuery (SelNumChars (m_ID x) acctid)])) as (evs & -> & Hs).
    exists (EvQuery (SelNumChars (m_ID x) acctid) :: evs). cbn [zip_with concat fst snd].
    split; [by rewrite <- app_assoc|done].
Qed.

(** The realm list the answer is built from, and the database after a possible refresh. *)
Definition refreshed (rl : RealmListState) (now : Z) (d : db) : RealmListState * db :=
  match RunIfDue_enter (m_refreshGate rl) now with
  | None => (rl, d)
  | Some _ => (default rl (UpdateIfNeed (default [] (PQuery SelRealmList d).1) now rl), (PQuery SelRealmList d).2)
  end.

Lemma RefreshRealmList_run k d r l c a rl t :
  exists evs, RefreshRealmList (mkWorld k d r l c a rl t) =
    Some (tt, mkWorld k (refreshed rl t d).2 r (l ++ evs) c a (refreshed rl t d).1 t) /\
    existsb is_send evs = false.
Proof.
  unfold RefreshRealmList, refreshed, bindM at 1 2, gets. cbn [sRealmList w_time].
  destruct (RunIfDue_enter _ _) as [g|] eqn:Hg; [|exists []; by rewrite app_nil_r].
  unfold bindM, query. cbn [w_db]. destruct (PQuery SelRealmList d) as [rows d1]. cbn [fst snd].
  destruct (UpdateIfNeed_total (default [] rows) t rl) as [rl' Hu]. rewrite Hu. cbn [liftO default from_option].
  by exists [EvQuery SelRealmList].
Qed.

(** The packet's body for a list of realms. *)
Definition realm_body k (clientIp : Z) (realms : list Realm) (chars : list Z) : bytes :=
  let n := u32 (zlen realms) in
  if vanilla_layout (_build k)
  then put_u32 0 ++ put_u8 (u8 n) ++
       concat (zip_with (fun r => VanillaEntry k r clientIp) realms chars) ++ put_u16 2
  else put_u32 0 ++ put_u16 (u16 n) ++
       concat (zip_with (fun r => LaterEntry k r clientIp) realms chars) ++ put_u16 16.

Definition realm_views k (clientIp : Z) (realms : list Realm) (chars : list Z) : list RealmView :=
  zip_with (if vanilla_layout (_build k) then vanilla_view k clientIp else later_view k clientIp) realms chars.

Lemma LoadRealmlist_run acctid k d r l c a rl t :
  let realms := GetRealmsForBuild (m_snapshots rl) (_build k) in
  exists evs, LoadRealmlist acctid (mkWorld k d r l c a rl t) =
    Some (realm_body k (ParseClientIPv4 (remote_address_ k)) realms (char_counts acctid realms d).1,
          mkWorld k (char_counts acctid realms d).2 r (l ++ evs) c a rl t) /\
    existsb is_send evs = false.
Proof.
  intros realms. unfold LoadRealmlist, realm_body. rewrite bind_get. unfold bindM at 1, gets, id.
  cbn [sock sRealmList]. fold realms. cbv zeta.
  destruct (vanilla_layout (_build k)); unfold bindM;
    [destruct (RealmEntries_run (fun r => VanillaEntry k r (ParseClientIPv4 (remote_address_ k)))
       acctid realms k d r l c a rl t) as (evs & -> & Hs)
    |destruct (RealmEntries_run (fun r => LaterEntry k r (ParseClientIPv4 (remote_address_ k)))
       acctid realms k d r l c a rl t) as (evs & -> & Hs)]; by exists evs.
Qed.

(** The answer's packet. *)
Definition realm_packet (body : bytes) : bytes := [16] ++ le_bytes 2 (zlen body) ++ body.

Lemma parse_realm_packet k clientIp realms chars :
  Forall (readable_realm clientIp) realms -> length chars = length realms ->
  zlen (realm_body k clientIp realms chars) < 2 ^ 16 ->
  zlen realms < (if vanilla_layout (_build k) then 2 ^ 8 else 2 ^ 16) ->
  parse_answer (vanilla_layout (_build k)) (realm_packet (realm_body k clientIp realms chars)) =
  Some (realm_views k clientIp realms chars).
Proof.
  intros Hr Hl Hb Hn. pose proof (zlen_nonneg realms). pose proof (zlen_nonneg (realm_body k clientIp realms chars)).
  assert (Hto : Z.to_nat (zlen realms) = length realms) by (unfold zlen; lia).
  rewrite Forall_forall in Hr. unfold parse_answer, realm_packet, realm_views.
  change [16] with (le_bytes 1 16). do 2 parse_step.
  change (256 ^ Z.of_nat 2) with (2 ^ 16). rewrite (Z.mod_small (zlen _)) by lia.
  change (16 mod 256 ^ Z.of_nat 1 =? 16) with true. rewrite Z.eqb_refl. cbn [andb negb].
  unfold realm_body. cbv zeta. rewrite put_u32_le, !put_u16_le, put_u8_le.
  rewrite (wrap_small 32) by (destruct (vanilla_layout _); lia).
  destruct (vanilla_layout (_build k)); do 2 parse_step.
  - rewrite (wrap_small 8) by lia. change (256 ^ Z.of_nat 1) with (2 ^ 8). rewrite Z.mod_small by lia.
    rewrite Hto.
    rewrite (parse_entries_app parse_vanilla (fun r => VanillaEntry k r clientIp) (vanilla_view k clientIp));
      [|intros; by apply parse_vanilla_entry, Hr|done].
    cbn [mbind option_bind]. rewrite <- (app_nil_r (le_bytes 2 2)). by parse_step.
  - rewrite (wrap_small 16) by lia. change (256 ^ Z.of_nat 2) with (2 ^ 16). rewrite Z.mod_small by lia.
    rewrite Hto.
    rewrite (parse_entries_app parse_later (fun r => LaterEntry k r clientIp) (later_view k clientIp));
      [|intros; by apply parse_later_entry, Hr|done].
    cbn [mbind option_bind]. rewrite <- (app_nil_r (le_bytes 2 16)). by parse_step.
Qed.

(** ** The handler *)

(** What the answer shows: the realms of the client's version after a possible refresh,
    with the account's characters on each. *)
Definition realm_list_shown w (acctid : Z) (d : db) : list Realm * list Z :=
  let st := refreshed (sRealmList w) (w_time w) d in
  let realms := GetRealmsForBuild (m_snapshots st.1) (_build (sock w)) in
  (realms, (char_counts acctid realms st.2).1).

Definition realm_list_answer w (ok : bool) (k' : AuthSocket) (evs : list Event) : Prop :=
  let k := sock w in
  let clientIp := ParseClientIPv4 (remote_address_ k) in
  let q := PQuery (SelAccountId (c_str (_safelogin k))) (w_db w) in
  match q.1 with
  | None => ok = false /\ m_closed k' = true /\ existsb is_send evs = false
  | Some (acctid, _) =>
      let '(realms, chars) := realm_list_shown w acctid q.2 in
      let body := realm_body k clientIp realms chars in
      ok = true /\ k' = k /\ answers evs (realm_packet body) /\
      (Forall (readable_realm clientIp) realms -> zlen body < 2 ^ 16 ->
       zlen realms < (if vanilla_layout (_build k) then 2 ^ 8 else 2 ^ 16) ->
       parse_answer (vanilla_layout (_build k)) (realm_packet body) =
       Some (realm_views k clientIp realms chars))
  end.

Lemma realm_list_handles (unused : bytes) w :
  ready w -> _status (sock w) = STATUS_AUTHED -> zlen unused = 4 -> Forall is_byte unused ->
  handles ([cmd_code CMD_REALM_LIST] ++ unused) w (realm_list_answer w).
Proof.
  intros Hr Hst Hu Hb. apply onData_frame; [done|rewrite Hst; by constructor|by constructor|].
  change (frame_body _) with RealmList_body. destruct Hr as (_ & Hcl & _ & Hsnd). open_world w.
  unfold RealmList_body, realm_list_answer, realm_list_shown. cbv zeta. cbn [sock w_db sRealmList w_time w_log].
  do 4 (first [wp_step|session_step]). sock_cbn. destruct (PQuery _ d) as [[[acctid sha]|] d0]; cbn [fst snd].
  - wp_step. destruct (RefreshRealmList_run k d0 r (l ++ [EvQuery (SelAccountId (c_str (_safelogin k)))]) c a rl t)
      as (e1 & H1 & N1). unfold wp at 1. rewrite H1. wp_step.
    destruct (LoadRealmlist_run acctid k (refreshed rl t d0).2 r
      ((l ++ [EvQuery (SelAccountId (c_str (_safelogin k)))]) ++ e1) c a (refreshed rl t d0).1 t)
      as (e2 & H2 & N2). unfold wp at 1. rewrite H2. set (realms := GetRealmsForBuild _ _) in *.
    set (chars := (char_counts acctid realms _).1) in *.
    run. rewrite put_u8_byte, put_u16_le, Hcl, sent_open by (done || auto with realmd). cbn [w_log].
    set (body := realm_body _ _ _ _).
    exists ([EvQuery (SelAccountId (c_str (_safelogin k)))] ++ e1 ++ e2 ++ [EvSend (realm_packet body)]).
    split.
    { rewrite <- !app_assoc. repeat f_equal. unfold realm_packet, wrap.
      change (2 ^ 16) with (256 ^ Z.of_nat 2). by rewrite le_bytes_mod. }
    split_and!; [done..| |].
    + exists ([EvQuery (SelAccountId (c_str (_safelogin k)))] ++ e1 ++ e2).
      rewrite <- !app_assoc. split; [done|]. cbn [app existsb is_send orb]. by rewrite existsb_app, N1, N2.
    + intros Hread Hsize Hcount. apply parse_realm_packet; auto. apply length_char_counts.
  - run. eexists. split; [by rewrite <- app_assoc|]. split_and!; [done..|].
    cbn [app existsb is_send orb]. apply existsb_close.
Qed.

(** ** Flags *)

Lemma has_flag_lor x m mask : m = mask -> 0 < mask -> has_flag (Z.lor x m) mask = true.
Proof.
  intros -> Hm. unfold has_flag. rewrite Z.land_comm, Z.land_lor_distr_r, Z.land_diag.
  apply negb_true_iff, Z.eqb_neq. intros [_ ?]%Z.lor_eq_0_iff. lia.
Qed.

Lemma has_flag_lor_other x m mask : Z.land m mask = 0 -> has_flag (Z.lor x m) mask = has_flag x mask.
Proof.
  intros Hm. unfold has_flag. by rewrite Z.land_comm, Z.land_lor_distr_r, !(Z.land_comm mask), Hm, Z.lor_0_r.
Qed.

Lemma shown_offline vanilla k realm :
  has_flag (u8 (shown_flags vanilla k realm)) REALM_FLAG_OFFLINE =
  has_flag (realmflags realm) REALM_FLAG_OFFLINE || negb (bool_decide (_build k ∈ realmbuilds realm)) ||
  (vanilla && (_accountSecurityLevel k <? allowedSecurityLevel realm)).
Proof.
  rewrite has_flag_u8 by done. unfold shown_flags. rewrite <- orb_assoc.
  destruct (negb _ || _); [|by rewrite orb_false_r].
  by rewrite has_flag_lor, orb_true_r.
Qed.

End Packet.

(** ** Properties *)

(** C21. The realm list: an authenticated client that asks gets one answer, and reading that
    answer with the client's parser gives back the realms of the client's version, in
    order, each with the account's characters, whenever the texts hold no NUL and the
    counts fit the fields of the layout; a missing account closes the connection
    without an answer, and the session itself does not change. *)
Theorem realm_list_parses `{RealmdEnv} {L : RealmdLaws} (unused : bytes) (w : World) :
  ready w -> _status (sock w) = STATUS_AUTHED -> zlen unused = 4 -> Forall is_byte unused ->
  handles ([cmd_code CMD_REALM_LIST] ++ unused) w (realm_list_answer w).
Proof. apply realm_list_handles. Qed.

(** What a client may enter: a 1.x client sees a realm as offline exactly when the realm
    is, when it does not support the client's build, or when it demands a higher security
    level; a later client sees the first two as offline and the last as locked.  Build
    numbers are shown exactly for realms flagged so, and no other flag is changed. *)
Theorem realm_visibility `{RealmdEnv} (k : AuthSocket) (clientIp : Z) (realm : Realm) (chars : Z) :
  let supported := bool_decide (_build k ∈ realmbuilds realm) in
  let locked := _accountSecurityLevel k <? allowedSecurityLevel realm in
  let offline := has_flag (realmflags realm) REALM_FLAG_OFFLINE in
  has_flag (v_flags (vanilla_view k clientIp realm chars)) REALM_FLAG_OFFLINE =
    offline || negb supported || locked /\
  has_flag (v_flags (later_view k clientIp realm chars)) REALM_FLAG_OFFLINE = offline || negb supported /\
  v_lock (later_view k clientIp realm chars) = (if locked then 1 else 0) /\
  (is_Some (v_build (later_view k clientIp realm chars)) <->
   has_flag (realmflags realm) REALM_FLAG_SPECIFYBUILD = true) /\
  (forall vanilla mask, Z.land 255 mask = mask -> Z.land REALM_FLAG_OFFLINE mask = 0 ->
   has_flag (u8 (shown_flags vanilla k realm)) mask = has_flag (realmflags realm) mask).
Proof.
  cbv zeta. unfold vanilla_view, later_view. cbn [v_flags v_lock v_build].
  rewrite !shown_offline. cbn [andb]. rewrite orb_false_r.
  assert (Hkeep : forall vanilla mask, Z.land REALM_FLAG_OFFLINE mask = 0 ->
    has_flag (shown_flags vanilla k realm) mask = has_flag (realmflags realm) mask).
  { intros vanilla mask Hm. unfold shown_flags. destruct (_ || _); [by apply has_flag_lor_other|done]. }
  split_and!; try done.
  - rewrite Hkeep by done. destruct (has_flag _ _); [naive_solver|]. split; [by intros []|done].
  - intros vanilla mask H1 H2. rewrite has_flag_u8 by done. by apply Hkeep.
Qed.

Section SampleRealms.
#[local] Existing Instances sample_Env sample_Laws.

Definition sample_snapshot : RealmSnapshot := default RealmSnapshot_empty (BuildSnapshot sample_rows).

(** [ALICE], authenticated with a 1.12.3 client. *)
Definition sample_authed : World :=
  sample_socket <| sock := (sock sample_socket) <| _status := STATUS_AUTHED |> <| _login := str "ALICE" |>
      <| _safelogin := str "ALICE" |> <| _build := 6141 |>
      <| m_authDeadline := Deadline_deactivate (m_authDeadline (sock sample_socket)) |> |>
    <| sRealmList := mkRealmList sample_snapshot (mkGate 0 0 false) |>.

Lemma sample_authed_ready : ready sample_authed.
Proof.
  split; [|done]. split; [|split; [constructor|by vm_compute]]. split; cbn; auto; try done.
Qed.

Lemma realm_list_parses_witness :
  handles ([cmd_code CMD_REALM_LIST] ++ [0; 0; 0; 0]) sample_authed (realm_list_answer sample_authed).
Proof.
  apply (realm_list_parses [0; 0; 0; 0] sample_authed).
  - apply sample_authed_ready.
  - reflexivity.
  - reflexivity.
  - by repeat constructor.
Defined.

(** The answer [ALICE] reads: one realm, with its version, under her address rules. *)
Example sample_realm_answer :
  map v_name (realm_views (sock sample_authed) 0x0A000009
    (realm_list_shown sample_authed 7 sample_db0).1 (realm_list_shown sample_authed 7 sample_db0).2) =
  [str "A (1,12,3)"].
Proof. by vm_compute. Qed.

End SampleRealms.
