(* ===== verification/AuthServer.v ===== *)
(** * The listening server and its sessions (src/Auth/AuthServer.cpp)

    The table of weak references, the factory the networking engine calls for each
    accepted connection, the housekeeping sweep, and what the engine may do to a session
    in between.  The engine itself ([net::Server]) is not part of the sources: its moves
    are the constructors of [ServerOp], taken in any order and number. *)

From stdpp Require Import gmap.
From S2P Require Import Prelude AuthCodes ProtocolGuard PatchPolicy RealmList PatchArtifact.
From S2P Require Import Interfaces Samples Srp6 Session SessionLogic Logon Reconnect RealmPacket.
From S2P Require Import Dispatch Bodies Serve SessionInv SessionSafety SessionProperties.

Local Open Scope Z_scope.
Local Open Scope realmd_scope.

#[local] Set Warnings "-clear-no-such-hyp".

Section AuthServer.
Context `{ENV : RealmdEnv}.
Implicit Types (k : AuthSocket) (id : nat).

(** [AuthServer::Impl] with the shared state of the process.  [objects] are the
    [AuthSocket]s that are alive, by the identity of their control block; a
    [std::weak_ptr] of [sockets] is such an identity, and locking it is a lookup. *)
Record Server : Type := mkServer {
  objects : gmap nat AuthSocket;
  next_id : nat;
  listening : bool;
  sockets : list nat;
  authTimeout : Z;
  patchPolicy : PatchPolicy;
  srv_db : db;
  srv_rng : rng;
  srv_log : list (nat * Event);
  srv_connections : Z;
  srv_authed : Z;
  srv_realms : RealmListState;
  srv_time : Z
}.

#[export] Instance Server_updatable : Updatable Server :=
  Rebuild _ (fun s => mkServer (objects s) (next_id s) (listening s) (sockets s) (authTimeout s)
    (patchPolicy s) (srv_db s) (srv_rng s) (srv_log s) (srv_connections s) (srv_authed s)
    (srv_realms s) (srv_time s)).

(** ** Operations *)

(** [server_start] is [net::Server::start], which answers whether the port could be bound. *)
Definition Start (server_start : Z -> bytes -> bool) (port : Z) (bindIp : bytes) (timeout : Z)
    (policy : PatchPolicy) (s : Server) : bool * Server :=
  let s := s <| authTimeout := timeout |> <| patchPolicy := policy |> in
  let bound := server_start port bindIp in
  (bound, s <| listening := bound |>).

(** [AuthServer::AuthServer], with the members of a fresh [Impl]. *)
Definition AuthServer_new (d : db) (r : rng) (rl : RealmListState) (t : Z) : Server :=
  {| objects := ∅; next_id := 0; listening := false; sockets := []; authTimeout := 30;
     patchPolicy := PatchPolicy_default; srv_db := d; srv_rng := r; srv_log := [];
     srv_connections := 0; srv_authed := 0; srv_realms := rl; srv_time := t |}.

(** The statics of [AuthSocket], as the process reads them. *)
Definition GetConnectionCount (s : Server) : Z := srv_connections s.
Definition GetAuthWaitingCount (s : Server) : Z := srv_authed s.

(** The session factory handed to the engine. *)
Definition factory (now : Z) (s : Server) : nat * Server :=
  let id := next_id s in
  let c := construct_counters (srv_connections s, srv_authed s) in
  (id, s <| objects := <[id := AuthSocket_new now (authTimeout s) (patchPolicy s)]> (objects s) |>
         <| next_id := S id |>
         <| srv_connections := c.1 |> <| srv_authed := c.2 |>
         <| sockets := sockets s ++ [id] |>).

(** The world a session's method runs in, and the server after it. *)
Definition world_of (s : Server) k : World :=
  mkWorld k (srv_db s) (srv_rng s) [] (srv_connections s) (srv_authed s) (srv_realms s) (srv_time s).

Definition put_back id (w : World) (s : Server) : Server :=
  s <| objects := <[id := sock w]> (objects s) |> <| srv_db := w_db w |> <| srv_rng := w_rng w |>
    <| srv_log := srv_log s ++ ((fun e => (id, e)) <$> w_log w) |>
    <| srv_connections := s_connections w |> <| srv_authed := s_authed w |>
    <| srv_realms := sRealmList w |>.

(** Calling a method of the session [id]. *)
Definition call {A} id (m : M World A) : M Server A := fun s =>
  k ← objects s !! id;
  '(a, w) ← m (world_of s k);
  Some (a, put_back id w s).

(** The last owner of the session [id] lets go of it: the destructor. *)
Definition release id : M Server unit := fun s =>
  k ← objects s !! id;
  let c := destruct_counters k (srv_connections s, srv_authed s) in
  Some (tt, s <| objects := delete id (objects s) |>
              <| srv_connections := c.1 |> <| srv_authed := c.2 |>).

(** The loop over the table: what stays in it and what was locked. *)
Fixpoint sweep (objs : gmap nat AuthSocket) (table : list nat) : list nat * list nat :=
  match table with
  | [] => ([], [])
  | id :: rest =>
      let '(kept, active) := sweep objs rest in
      match objs !! id with
      | Some _ => (id :: kept, id :: active)
      | None => (kept, active)
      end
  end.

Fixpoint ExpireAll (now : Z) (active : list nat) : M Server unit :=
  match active with
  | [] => retM tt
  | id :: rest => call id (ExpireAuthentication now) ;; ExpireAll now rest
  end.

Definition Update (now : Z) : M Server unit := fun s =>
  let '(kept, active) := sweep (objects s) (sockets s) in
  ExpireAll now active (s <| sockets := kept |>).

(** [server.stop()] joins the engine, which accepts no more; its sessions go by
    [release]. *)
Definition Stop (s : Server) : Server := s <| listening := false |> <| sockets := [] |>.

(** What the transport does with a fresh session before any data. *)
Definition wire (addr : bytes) (fc : option (Z -> nat -> bool)) : M World bytes :=
  setPeerAddress addr ;; setSender true ;; setCloser true ;; setFlowControl fc ;; onConnect.

(** ** The moves of the process *)

Inductive ServerOp : Type :=
| OpAccept (now : Z)
| OpWire (id : nat) (addr : bytes) (fc : option (Z -> nat -> bool))
| OpData (id : nat) (data : bytes)
| OpClose (id : nat)
| OpRelease (id : nat)
| OpUpdate (now : Z)
| OpClock (t : Z)
| OpStop.

Definition drop_result {A} (r : option (A * Server)) : option Server := snd <$> r.

Definition server_op (op : ServerOp) (s : Server) : option Server :=
  match op with
  | OpAccept now => if listening s then Some (factory now s).2 else None
  | OpWire id addr fc => drop_result (call id (wire addr fc) s)
  | OpData id data => drop_result (call id (onData data) s)
  | OpClose id => drop_result (call id onClose s)
  | OpRelease id => drop_result (release id s)
  | OpUpdate now => drop_result (Update now s)
  | OpClock t => Some (s <| srv_time := t |>)
  | OpStop => Some (Stop s)
  end.

(** The engine calls only sessions it owns, accepts only while it listens, and delivers
    bytes. *)
Definition enabled (op : ServerOp) (s : Server) : Prop :=
  match op with
  | OpAccept _ => listening s = true
  | OpData id data => is_Some (objects s !! id) /\ chunk_ok data
  | OpWire id _ _ | OpClose id | OpRelease id => is_Some (objects s !! id)
  | OpUpdate _ | OpClock _ | OpStop => True
  end.

Inductive server_step (s s' : Server) : Prop :=
| server_move op : enabled op s -> server_op op s = Some s' -> server_step s s'.

(** ** The invariant *)

Definition authed (p : nat * AuthSocket) : Prop := _status p.2 = STATUS_AUTHED.

#[local] Instance authed_dec p : Decision (authed p).
Proof. unfold authed. apply _. Defined.

Definition authed_count (m : gmap nat AuthSocket) : Z := Z.of_nat (size (filter authed m)).

Definition session_wf k : Prop :=
  session_ok k /\ Forall is_byte (m_readBuf k) /\ zlen (m_readBuf k) <= MaxPendingInput.

Record server_ok (s : Server) : Prop := {
  sv_connections : srv_connections s = u32 (Z.of_nat (size (objects s)));
  sv_authed : srv_authed s = u32 (authed_count (objects s));
  sv_sessions : map_Forall (fun _ => session_wf) (objects s);
  sv_fresh : forall id, (next_id s <= id)%nat -> objects s !! id = None /\ id ∉ sockets s;
  sv_distinct : NoDup (sockets s);
  sv_tracked : listening s = true -> forall id, is_Some (objects s !! id) -> id ∈ sockets s
}.

(** ** Counting *)

Lemma authed_count_new (m : gmap nat AuthSocket) id k :
  m !! id = None ->
  authed_count (<[id := k]> m) = authed_count m + if decide (_status k = STATUS_AUTHED) then 1 else 0.
Proof.
  intros Hm. unfold authed_count. rewrite map_filter_insert. unfold authed at 1. cbn.
  repeat case_decide; try done.
  - rewrite map_size_insert_None; [lia|]. apply map_lookup_filter_None. by left.
  - rewrite delete_id by done. lia.
Qed.

Lemma authed_count_delete (m : gmap nat AuthSocket) id k :
  m !! id = Some k ->
  authed_count (delete id m) = authed_count m - if decide (_status k = STATUS_AUTHED) then 1 else 0.
Proof.
  intros Hm. rewrite <- (insert_delete_id m id k Hm) at 2.
  rewrite authed_count_new by apply lookup_delete_eq. lia.
Qed.

Lemma authed_count_replace (m : gmap nat AuthSocket) id k k' :
  m !! id = Some k -> (_status k = STATUS_AUTHED -> _status k' = STATUS_AUTHED) ->
  authed_count (<[id := k']> m) = authed_count m +
    if decide (_status k <> STATUS_AUTHED /\ _status k' = STATUS_AUTHED) then 1 else 0.
Proof.
  intros Hm Hk. rewrite <- (insert_delete_eq m id k'), authed_count_new by apply lookup_delete_eq.
  rewrite (authed_count_delete _ _ _ Hm). repeat case_decide; lia || naive_solver.
Qed.

Lemma authed_count_le (m : gmap nat AuthSocket) : 0 <= authed_count m <= Z.of_nat (size m).
Proof.
  unfold authed_count. split; [lia|]. apply Nat2Z.inj_le. apply map_subseteq_size, map_filter_subseteq.
Qed.

Lemma u32_plus a b : u32 (u32 a + b) = u32 (a + b).
Proof. unfold wrap. by rewrite Z.add_mod_idemp_l by done. Qed.

(** ** Calling a method keeps the invariant *)

Lemma call_ok id k (w : World) (s : Server) :
  server_ok s -> objects s !! id = Some k -> session_wf (sock w) ->
  s_connections w = srv_connections s ->
  (_status k = STATUS_AUTHED -> _status (sock w) = STATUS_AUTHED) ->
  s_authed w = (if decide (_status k <> STATUS_AUTHED /\ _status (sock w) = STATUS_AUTHED)
                then u32 (srv_authed s + 1) else srv_authed s) ->
  server_ok (put_back id w s).
Proof.
  intros [Hc Ha Hs Hf Hd Ht] Hk Hwf Hcn Hst Hau. split; cbn.
  - rewrite Hcn, Hc, map_size_insert_Some; eauto.
  - rewrite Hau, (authed_count_replace _ _ _ _ Hk Hst), Ha.
    case_decide; [apply u32_plus|by rewrite Z.add_0_r].
  - by apply map_Forall_insert_2.
  - intros id' Hid'. destruct (Hf id' Hid') as [Hn ?]. split; [|done].
    rewrite lookup_insert_ne; [done|]. congruence.
  - done.
  - intros Hl id' Hid'. apply Ht; [done|]. by apply lookup_insert_is_Some' in Hid' as [<-|?]; eauto.
Qed.

Lemma factory_ok now (s : Server) :
  server_ok s -> server_ok (factory now s).2.
Proof.
  intros [Hc Ha Hs Hf Hd Ht]. destruct (Hf (next_id s)) as [Hn Hni]; [lia|].
  split; cbn.
  - rewrite map_size_insert_None, Hc, u32_plus by done. f_equal. lia.
  - rewrite authed_count_new, Ha by done. cbn. by rewrite Z.add_0_r.
  - apply map_Forall_insert_2; [|done]. split; [apply session_ok_new|]. split; [constructor|].
    by vm_compute.
  - intros id Hid. destruct (Hf id) as [Hid1 Hid2]; [lia|]. split.
    + rewrite lookup_insert_ne; [done|lia].
    + rewrite elem_of_app, list_elem_of_singleton. intros [?| ->]; [done|lia].
  - apply NoDup_app. split; [done|]. split; [|apply NoDup_singleton].
    intros x Hx ->%list_elem_of_singleton. done.
  - intros Hl id Hid. rewrite elem_of_app, list_elem_of_singleton.
    apply lookup_insert_is_Some' in Hid as [<-|?]; [by right|left; by apply Ht].
Qed.

Lemma release_ok id k (s : Server) :
  server_ok s -> objects s !! id = Some k ->
  exists s', release id s = Some (tt, s') /\ server_ok s'.
Proof.
  intros [Hc Ha Hs Hf Hd Ht] Hk. unfold release. rewrite Hk. eexists. split; [reflexivity|].
  assert (size (objects s) <> 0)%nat by (intros E%map_size_empty_inv; rewrite E in Hk; done).
  split; cbn.
  - rewrite map_size_delete_Some, Hc by eauto. rewrite <- Z.add_opp_r, u32_plus. f_equal. lia.
  - rewrite (authed_count_delete _ _ _ Hk), Ha. case_decide; [|by rewrite Z.sub_0_r].
    rewrite <- Z.add_opp_r, u32_plus. f_equal.
  - by apply map_Forall_delete.
  - intros id' Hid'. destruct (Hf id' Hid') as [Hn ?]. split; [|done].
    apply lookup_delete_None. by right.
  - done.
  - intros Hl id' [? [_ ?]%lookup_delete_Some]. apply Ht; eauto.
Qed.

(** ** The sweep *)

Definition live (objs : gmap nat AuthSocket) id : Prop := is_Some (objs !! id).

#[local] Instance live_dec objs id : Decision (live objs id).
Proof. unfold live. apply _. Defined.

Lemma sweep_filter objs table :
  sweep objs table = (filter (live objs) table, filter (live objs) table).
Proof.
  induction table as [|id rest IH]; [done|]. cbn [sweep]. rewrite IH.
  destruct (objs !! id) as [k|] eqn:Hk.
  - rewrite !filter_cons_True by (unfold live; eauto). done.
  - rewrite !filter_cons_False; [done|]. unfold live. rewrite Hk. by intros [? ?].
Qed.

(** A session after [ExpireAuthentication], and what it asked of the transport. *)
Definition expire_sock (now : Z) k : AuthSocket :=
  if Deadline_expired (m_authDeadline k) now then closed_sock k else k.

Definition expire_events (now : Z) id k : list (nat * Event) :=
  if Deadline_expired (m_authDeadline k) now
  then (fun e => (id, e)) <$> close_events (m_closed k) (m_closer k) else [].

Definition expire_log (now : Z) (objs : gmap nat AuthSocket) (active : list nat) : list (nat * Event) :=
  active ≫= fun id => default [] (expire_events now id <$> objs !! id).

Lemma call_expire now id k (s : Server) :
  objects s !! id = Some k ->
  exists b, call id (ExpireAuthentication now) s =
    Some (b, s <| objects := <[id := expire_sock now k]> (objects s) |>
               <| srv_log := srv_log s ++ expire_events now id k |>).
Proof.
  intros Hk. unfold call. rewrite Hk. cbn [mbind option_bind]. unfold ExpireAuthentication.
  rewrite bind_get. unfold expire_sock, expire_events. cbn [sock world_of].
  destruct (Deadline_expired _ now); cbn [negb].
  - pose proof (proj2 (wp_close_connection (fun _ w' => w' =
      mkWorld (closed_sock k) (srv_db s) (srv_rng s) ([] ++ close_events (m_closed k) (m_closer k))
        (srv_connections s) (srv_authed s) (srv_realms s) (srv_time s)) _ _ _ _ _ _ _ _) eq_refl) as Hwp.
    apply wp_run in Hwp as ([] & w' & Hrun & ->). unfold bindM, world_of. rewrite Hrun.
    exists true. by destruct s.
  - exists false. by destruct s.
Qed.

Lemma ExpireAll_run now active (s : Server) :
  NoDup active -> Forall (live (objects s)) active ->
  exists objs, ExpireAll now active s =
    Some (tt, s <| objects := objs |> <| srv_log := srv_log s ++ expire_log now (objects s) active |>) /\
    forall id, objs !! id = if decide (id ∈ active) then expire_sock now <$> objects s !! id
                            else objects s !! id.
Proof.
  intros Hd. revert s. induction Hd as [|id active Hni Hd IH]; intros s Hl; cbn [ExpireAll].
  - exists (objects s). split; [|done]. destruct s. cbn. by rewrite app_nil_r.
  - apply Forall_cons in Hl as [[k Hk] Hl]. unfold bindM at 1.
    destruct (call_expire now id k s Hk) as [b ->].
    set (s1 := s <| objects := _ |> <| srv_log := _ |>).
    assert (Hsame : forall id', id' ∈ active -> objects s1 !! id' = objects s !! id').
    { intros id' Hin. apply lookup_insert_ne. by intros ->. }
    destruct (IH s1) as (objs & -> & Hobjs).
    { apply Forall_forall. intros id' Hin. unfold live. rewrite (Hsame id' Hin).
      by apply (proj1 (Forall_forall _ _) Hl). }
    exists objs. split.
    + do 2 f_equal. unfold expire_log at 2. cbn [mbind list_bind].
      rewrite Hk. cbn [fmap option_fmap option_map default]. fold (expire_log now (objects s) active).
      replace (expire_log now (objects s1) active) with (expire_log now (objects s) active).
      * unfold s1. rewrite app_assoc. by destruct s.
      * clear -Hsame. unfold expire_log. induction active as [|x active IHa]; [done|].
        cbn [mbind list_bind]. f_equal; [by rewrite Hsame by set_solver|].
        apply IHa. intros. apply Hsame. set_solver.
    + intros id'. rewrite Hobjs. unfold s1. cbn [objects upd].
      destruct (decide (id' = id)) as [->|Hne].
      * rewrite decide_False by done. rewrite decide_True by set_solver. cbn. by rewrite lookup_insert_eq, Hk.
      * cbn. rewrite !lookup_insert_ne by done.
        destruct (decide (id' ∈ active)); [by rewrite decide_True by by right|].
        rewrite decide_False; [done|set_solver].
Qed.

Lemma expire_sock_wf now k : session_wf k -> session_wf (expire_sock now k).
Proof.
  intros (Hok & Hb & Hm). unfold expire_sock. destruct (Deadline_expired _ now); [|done].
  split; [by apply session_ok_closed|done].
Qed.

Lemma expire_sock_status now k : _status (expire_sock now k) = _status k.
Proof. unfold expire_sock. by destruct (Deadline_expired _ now). Qed.

Lemma authed_count_same (m m' : gmap nat AuthSocket) (f : nat -> AuthSocket -> AuthSocket) :
  (forall id k, _status (f id k) = _status k) -> (forall id, m' !! id = f id <$> m !! id) ->
  size m' = size m /\ authed_count m' = authed_count m.
Proof.
  intros Hf Hm.
  assert (m' = map_imap (fun id k => Some (f id k)) m) as ->.
  { apply map_eq. intros id. rewrite Hm, map_lookup_imap. by destruct (m !! id). }
  assert (Hd : forall (x : gmap nat AuthSocket), dom (map_imap (fun id k => Some (f id k)) x) = dom x).
  { intros x. apply set_eq. intros id. rewrite !elem_of_dom, map_lookup_imap.
    destruct (x !! id); cbn; split; intros [? ?]; eauto || done. }
  assert (Hfl : filter authed (map_imap (fun id k => Some (f id k)) m) =
    map_imap (fun id k => Some (f id k)) (filter authed m)).
  { apply map_eq. intros id. rewrite map_lookup_filter, !map_lookup_imap, map_lookup_filter.
    destruct (m !! id) as [k|]; cbn; [|done]. unfold guard, authed. cbn.
    repeat case_decide; cbn; rewrite ?Hf in *; done. }
  unfold authed_count. rewrite Hfl. by rewrite <- !size_dom, !Hd.
Qed.

(** [Update] on a server in order: which references stay, what happens to each session,
    what is asked of the transport. *)
Lemma Update_run now (s : Server) :
  server_ok s ->
  exists objs, Update now s =
    Some (tt, s <| sockets := filter (live (objects s)) (sockets s) |> <| objects := objs |>
                <| srv_log := srv_log s ++
                     expire_log now (objects s) (filter (live (objects s)) (sockets s)) |>) /\
    (forall id, objs !! id = if decide (id ∈ sockets s) then expire_sock now <$> objects s !! id
                             else objects s !! id).
Proof.
  intros [_ _ _ _ Hd _]. unfold Update. rewrite sweep_filter.
  set (s1 := s <| sockets := _ |>).
  destruct (ExpireAll_run now (filter (live (objects s)) (sockets s)) s1) as (objs & -> & Hobjs).
  - by apply NoDup_filter.
  - apply Forall_forall. intros id [Hl _]%list_elem_of_filter. done.
  - exists objs. split; [by destruct s|]. intros id. rewrite Hobjs.
    change (objects s1) with (objects s). destruct (objects s !! id) as [k|] eqn:Hk.
    + assert (live (objects s) id) by (unfold live; eauto).
      destruct (decide (id ∈ sockets s)).
      * rewrite decide_True; [done|]. by apply list_elem_of_filter.
      * rewrite decide_False; [done|]. by intros [_ ?]%list_elem_of_filter.
    + by repeat case_decide.
Qed.

Lemma Update_ok now (s s' : Server) :
  server_ok s -> Update now s = Some (tt, s') -> server_ok s'.
Proof.
  intros Hok Hu. destruct (Update_run now s Hok) as (objs & Hr & Hobjs). rewrite Hr in Hu.
  injection Hu as <-. destruct Hok as [Hc Ha Hs Hf Hd Ht].
  set (f := fun id k => if decide (id ∈ sockets s) then expire_sock now k else k).
  assert (Hf' : forall id, objs !! id = f id <$> objects s !! id).
  { intros id. rewrite Hobjs. unfold f. case_decide; [done|]. by destruct (objects s !! id). }
  destruct (authed_count_same (objects s) objs f) as [Hsize Hcount]; [|done|].
  { intros id k. unfold f. case_decide; [apply expire_sock_status|done]. }
  split; cbn.
  - by rewrite Hsize.
  - by rewrite Hcount.
  - intros id k'. rewrite Hf'. intros (k & Hk & ->)%fmap_Some. specialize (Hs _ _ Hk).
    unfold f. case_decide; [by apply expire_sock_wf|done].
  - intros id Hid. destruct (Hf id Hid) as [Hn Hni]. rewrite Hf', Hn.
    split; [done|]. by intros [_ ?]%list_elem_of_filter.
  - by apply NoDup_filter.
  - intros Hl id Hid. rewrite Hf', fmap_is_Some in Hid. apply list_elem_of_filter. auto.
Qed.

Context {LAWS : RealmdLaws}.

(** Every enabled move is defined and keeps the invariant. *)
Lemma server_op_ok op (s : Server) :
  server_ok s -> enabled op s -> exists s', server_op op s = Some s' /\ server_ok s'.
Proof.
  intros Hok He. destruct op as [now|id addr fc|id data|id|id|now|t|]; cbn [enabled server_op] in *.
  - rewrite He. eexists. split; [done|]. by apply factory_ok.
  - destruct He as [k Hk]. unfold call. rewrite Hk. eexists. split; [reflexivity|].
    destruct (sv_sessions s Hok _ _ Hk) as ([] & Hb & Hm).
    apply (call_ok id k); auto; [split; [split; auto|done]|]. cbn. rewrite decide_False; [done|tauto].
  - destruct He as [[k Hk] [Hb Hl]]. unfold call. rewrite Hk. cbn [mbind option_bind].
    destruct (onData_run data (world_of s k)) as (w' & -> & _ & Ht & Hwf); [|done..|].
    { exact (sv_sessions s Hok _ _ Hk). }
    destruct (evolves_rtc _ _ Ht) as [Hst _ Ha Hc _ _ _ _ _ _].
    eexists. split; [reflexivity|]. apply (call_ok id k); auto.
    intros E. cbn in Hst. rewrite E in Hst. by apply authed_final.
  - destruct He as [k Hk]. unfold call. rewrite Hk. eexists. split; [reflexivity|].
    destruct (sv_sessions s Hok _ _ Hk) as ([] & Hb & Hm).
    apply (call_ok id k); auto; [split; [split; auto|done]|]. cbn. rewrite decide_False; [done|tauto].
  - destruct He as [k Hk]. destruct (release_ok id k s Hok Hk) as (s' & -> & Hok'). eauto.
  - destruct (Update_run now s Hok) as (objs & Hr & _). rewrite Hr. eexists. split; [reflexivity|].
    by eapply Update_ok.
  - eexists. split; [reflexivity|]. by destruct Hok.
  - eexists. split; [reflexivity|]. destruct Hok as [Hc Ha Hs Hf Hd Ht]. split; cbn; auto.
    + intros id Hid. split; [by apply Hf|]. apply not_elem_of_nil.
    + constructor.
    + done.
Qed.

(** A server whose listener was just started, and what it may become. *)
Definition idle (s : Server) : Prop :=
  objects s = ∅ /\ sockets s = [] /\ srv_connections s = 0 /\ srv_authed s = 0.

Definition reachable (timeout : Z) (policy : PatchPolicy) (s0 s : Server) : Prop :=
  idle s0 /\ exists server_start port bindIp s1,
    Start server_start port bindIp timeout policy s0 = (true, s1) /\ rtc server_step s1 s.

Lemma started_ok start port ip timeout policy s0 b s1 :
  idle s0 -> Start start port ip timeout policy s0 = (b, s1) -> server_ok s1 /\ objects s1 = ∅.
Proof.
  intros (Ho & Hk & Hc & Ha) [= _ <-]. split; [|done].
  split; cbn; rewrite ?Ho, ?Hk, ?Hc, ?Ha; [done..|apply map_Forall_empty| | |].
  - intros. split; [done|apply not_elem_of_nil].
  - constructor.
  - by intros _ id [? ?].
Qed.

Lemma reachable_ok timeout policy s0 s : reachable timeout policy s0 s -> server_ok s.
Proof.
  intros [Hi (start & port & ip & s1 & Hs & Hr)].
  destruct (started_ok _ _ _ _ _ _ _ _ Hi Hs) as [Hok _]. clear Hs. induction Hr as [|s1 s2 s3 [op He Hs] Hr IH]; [done|].
  destruct (server_op_ok op s1 Hok He) as (s' & Hs' & Hok'). apply IH. congruence.
Qed.

End AuthServer.

(** ** Properties *)

(** C30. The counters: whatever the engine and the clients do, in any interleaving of whole
    operations, [GetConnectionCount] is the number of live sessions and
    [GetAuthWaitingCount] the number of those that are authenticated (modulo 2^32, the
    width of the counters); so below 2^32 sessions neither ever wraps below zero and
    the second never exceeds the first. *)
Theorem server_counters `{RealmdEnv} {L : RealmdLaws} (timeout : Z) (policy : PatchPolicy) (s0 s : Server) :
  reachable timeout policy s0 s ->
  srv_connections s = u32 (Z.of_nat (size (objects s))) /\
  srv_authed s = u32 (authed_count (objects s)) /\
  (Z.of_nat (size (objects s)) < 2 ^ 32 ->
   srv_connections s = Z.of_nat (size (objects s)) /\ srv_authed s = authed_count (objects s) /\
   srv_authed s <= srv_connections s).
Proof.
  intros Hr. destruct (reachable_ok _ _ _ _ Hr) as [Hc Ha _ _ _ _]. split; [done|]. split; [done|].
  intros Hsz. pose proof (authed_count_le (objects s)). rewrite Hc, Ha.
  rewrite (wrap_small 32 (Z.of_nat _)), (wrap_small 32 (authed_count _)) by lia. lia.
Qed.

Definition run_op `{RealmdEnv} (op : ServerOp) (s : Server) : Server := default s (server_op op s).

Lemma run_op_reachable `{RealmdEnv} {L : RealmdLaws} timeout policy s0 s op :
  reachable timeout policy s0 s -> enabled op s -> reachable timeout policy s0 (run_op op s).
Proof.
  intros Hr He. unfold run_op. destruct (server_op_ok op s (reachable_ok _ _ _ _ Hr) He) as (s' & Hs & _).
  rewrite Hs. destruct Hr as [Hi (start & port & ip & s1 & H1 & Hr)]. split; [done|].
  exists start, port, ip, s1. split; [done|]. eapply rtc_r; [done|]. by econstructor.
Qed.

(** C18. Well-formedness: in every reachable state the table of references has no duplicates
    and, while the server listens, misses no session (stopping clears it), no identifier is used twice, the counters are right and every
    session is well formed (its pending bytes are bytes and within their limit, its group,
    its names, its build and its archive have their shapes, its deadline is off when it must
    be); and every operation that the engine, a client or the main loop may perform next is
    defined and keeps all of this. *)
Theorem server_well_formed `{RealmdEnv} {L : RealmdLaws} (timeout : Z) (policy : PatchPolicy) (s0 s : Server)
    (op : ServerOp) :
  reachable timeout policy s0 s -> enabled op s ->
  server_ok s /\ exists s', server_op op s = Some s' /\ server_ok s' /\ reachable timeout policy s0 s'.
Proof.
  intros Hr He. pose proof (reachable_ok _ _ _ _ Hr) as Hok. split; [done|].
  destruct (server_op_ok op s Hok He) as (s' & Hs & Hok'). exists s'. split_and!; [done..|].
  pose proof (run_op_reachable _ _ _ _ _ Hr He) as Hr'. unfold run_op in Hr'. by rewrite Hs in Hr'.
Qed.

(** C31. The sweep: [Update] drops exactly the references to destroyed sessions and keeps the
    others in their order; while the listener runs it closes exactly the live sessions
    that are overdue, asking the transport once for each that was open, in the
    order of acceptance; every other session and the counters stay
    as they are, and afterwards no session is overdue. *)
Theorem Update_sweeps `{RealmdEnv} {L : RealmdLaws} (timeout now : Z) (policy : PatchPolicy) (s0 s : Server) :
  reachable timeout policy s0 s -> listening s = true ->
  exists s', Update now s = Some (tt, s') /\
    sockets s' = filter (live (objects s)) (sockets s) /\
    objects s' = expire_sock now <$> objects s /\
    srv_log s' = srv_log s ++ expire_log now (objects s) (sockets s') /\
    srv_connections s' = srv_connections s /\ srv_authed s' = srv_authed s /\
    map_Forall (fun _ k => Deadline_expired (m_authDeadline k) now = false) (objects s').
Proof.
  intros Hr Hl. pose proof (reachable_ok _ _ _ _ Hr) as Hok.
  destruct (Update_run now s Hok) as (objs & Hu & Hobjs).
  assert (objs = expire_sock now <$> objects s) as ->.
  { apply map_eq. intros id. rewrite Hobjs, lookup_fmap. case_decide as Hin; [done|].
    destruct (objects s !! id) as [k|] eqn:Hk; [|done]. destruct Hin. apply (sv_tracked s Hok); eauto. }
  rewrite Hu. eexists. split_and!; [reflexivity..|].
  intros id k'. cbn. rewrite lookup_fmap. intros (k & Hk & ->)%fmap_Some. unfold expire_sock.
  by destruct (Deadline_expired (m_authDeadline k) now) eqn:?.
Qed.

(** ** A concrete run *)

Section SampleServer.
#[local] Existing Instances sample_Env sample_Laws.

Definition sample_idle : Server :=
  mkServer ∅ 0 false [] 30 PatchPolicy_default sample_db0 1 [] 0 0
    (mkRealmList RealmSnapshot_empty (mkGate 0 0 false)) 1000.

Definition sample_accepted : Server :=
  run_op (OpWire 0 (str "10.0.0.9") None)
    (run_op (OpAccept 0) (Start (fun _ _ => true) 3724 [] 30 PatchPolicy_default sample_idle).2).

Definition sample_server : Server := run_op (OpData 0 sample_challenge) sample_accepted.

Lemma sample_reachable : reachable 30 PatchPolicy_default sample_idle sample_server.
Proof.
  assert (Hid : idle sample_idle) by done.
  apply run_op_reachable; [apply run_op_reachable; [apply run_op_reachable; [split; [exact Hid|]|]|]|].
  - exists (fun _ _ => true), 3724, []. eexists. split; [reflexivity|apply rtc_refl].
  - reflexivity.
  - by apply (bool_decide_unpack (is_Some _)); vm_compute.
  - split; [|apply sample_challenge_ok]. by apply (bool_decide_unpack (is_Some _)); vm_compute.
Qed.

Lemma server_counters_witness :
  srv_connections sample_server = u32 (Z.of_nat (size (objects sample_server))) /\
  srv_authed sample_server = u32 (authed_count (objects sample_server)) /\
  (Z.of_nat (size (objects sample_server)) < 2 ^ 32 ->
   srv_connections sample_server = Z.of_nat (size (objects sample_server)) /\
   srv_authed sample_server = authed_count (objects sample_server) /\
   srv_authed sample_server <= srv_connections sample_server).
Proof. apply (server_counters 30 PatchPolicy_default sample_idle sample_server), sample_reachable. Defined.

Lemma server_well_formed_witness :
  server_ok sample_server /\
  exists s', server_op (OpRelease 0) sample_server = Some s' /\ server_ok s' /\
    reachable 30 PatchPolicy_default sample_idle s'.
Proof.
  apply (server_well_formed 30 PatchPolicy_default sample_idle sample_server (OpRelease 0));
    [apply sample_reachable|].
  by apply (bool_decide_unpack (is_Some _)); vm_compute.
Defined.

Lemma Update_sweeps_witness :
  exists s', Update (31 * ns_per_second) sample_server = Some (tt, s') /\
    sockets s' = filter (live (objects sample_server)) (sockets sample_server) /\
    objects s' = expire_sock (31 * ns_per_second) <$> objects sample_server /\
    srv_log s' = srv_log sample_server ++
      expire_log (31 * ns_per_second) (objects sample_server) (sockets s') /\
    srv_connections s' = srv_connections sample_server /\ srv_authed s' = srv_authed sample_server /\
    map_Forall (fun _ k => Deadline_expired (m_authDeadline k) (31 * ns_per_second) = false) (objects s').
Proof.
  apply (Update_sweeps 30 (31 * ns_per_second) PatchPolicy_default sample_idle sample_server);
    [apply sample_reachable|by vm_compute].
Defined.

(** The sweep does close the silent session, once. *)
Example sample_sweep :
  let s := run_op (OpUpdate (31 * ns_per_second)) sample_server in
  drop (length (srv_log sample_server)) (srv_log s) = [(0%nat, EvClose)] /\ sockets s = [0%nat].
Proof. by vm_compute. Qed.

End SampleServer.
