(* ===== verification/Supervision.v ===== *)
(** * Supervision: no session escapes its deadline

    For which reasons the deadline of a session may be off, and that every operation of the
    engine, the clients and the main loop respects them. *)

From stdpp Require Import gmap.
From S2P Require Import Prelude AuthCodes ProtocolGuard PatchPolicy RealmList PatchArtifact.
From S2P Require Import Interfaces Samples Srp6 Session SessionLogic Logon Reconnect RealmPacket.
From S2P Require Import Dispatch Bodies Serve SessionInv SessionSafety SessionProperties AuthServer.

Local Open Scope Z_scope.
Local Open Scope realmd_scope.

#[local] Set Warnings "-clear-no-such-hyp".

Section Supervision.
Context `{ENV : RealmdEnv}.
Implicit Types (k : AuthSocket) (id : nat) (s : Server).

(** The reasons for which the deadline of a session may be off: it is authenticated, it was
    offered a patch, it is closed, or its patch is being sent. *)
Definition excused s id k : Prop :=
  _status k = STATUS_AUTHED \/ _status k = STATUS_PATCH \/ m_closed k = true \/
  exists acts, (id, EvThread acts) ∈ srv_log s.

Definition supervised s : Prop :=
  0 < authTimeout s -> forall id k, objects s !! id = Some k ->
  m_active (m_authDeadline k) = false -> excused s id k.

(** A state with more history and the same session. *)
Lemma excused_later s s' id k evs :
  srv_log s' = srv_log s ++ evs -> excused s id k -> excused s' id k.
Proof. unfold excused. intros ->. setoid_rewrite elem_of_app. naive_solver. Qed.

(** A method of [id] keeps the supervision when it excuses the session it leaves. *)
Lemma call_supervised {A} id (m : M World A) s a s' k :
  objects s !! id = Some k -> call id m s = Some (a, s') -> supervised s ->
  (forall w, m (world_of s k) = Some (a, w) -> (m_active (m_authDeadline k) = false -> excused s id k) ->
     m_active (m_authDeadline (sock w)) = false -> excused (put_back id w s) id (sock w)) ->
  supervised s'.
Proof.
  unfold call. intros Hk Hc Hs Hm. rewrite Hk in Hc. cbn [mbind option_bind] in Hc.
  destruct (m (world_of s k)) as [[a' w]|] eqn:Hrun; [|done]. cbn in Hc. injection Hc as -> <-.
  intros Ht id' k' Hk' Ha. cbn in Hk'. destruct (decide (id' = id)) as [->|Hne].
  - rewrite lookup_insert_eq in Hk'. injection Hk' as <-. apply Hm; [done| |done]. by apply Hs.
  - rewrite lookup_insert_ne in Hk' by done. by eapply excused_later, Hs.
Qed.

Context {LAWS : RealmdLaws}.

(** A chunk of data may make an excuse, but takes none away. *)
Lemma data_outcome id data s k w :
  session_wf k -> chunk_ok data -> onData data (world_of s k) = Some ([], w) ->
  (excused s id k -> excused (put_back id w s) id (sock w)) /\
  (m_authDeadline (sock w) = m_authDeadline k \/ excused (put_back id w s) id (sock w)).
Proof.
  intros Hwf [Hb Hl] Hon.
  destruct (onData_run data (world_of s k) Hwf Hb Hl) as (w' & Hon' & _ & Ht & _).
  rewrite Hon in Hon'. injection Hon' as <-. destruct (evolves_rtc _ _ Ht) as [Hst _ _ _ _ Hc Hd Hp _ _].
  assert (Hthread : thread_started (world_of s k) w -> excused (put_back id w s) id (sock w)).
  { intros (acts & evs & Hlog & Hin). right. right. right. exists acts. cbn. rewrite elem_of_app. right.
    apply list_elem_of_fmap. exists (EvThread acts). split; [done|]. by rewrite Hlog. }
  unfold excused in *. cbn in Hst, Hc, Hd, Hp. split; [|destruct Hd as [?|[?|[?|[?|?]]]]; tauto].
  intros [E|[E|[E|(acts & E)]]].
  - left. rewrite E in Hst. by apply authed_final.
  - destruct (decide (_status (sock w) = STATUS_PATCH)); [tauto|]. destruct (Hp E); tauto.
  - right. right. left. auto.
  - right. right. right. exists acts. cbn. apply elem_of_app. by left.
Qed.

Lemma data_excused id data s k w :
  session_wf k -> chunk_ok data -> onData data (world_of s k) = Some ([], w) ->
  (m_active (m_authDeadline k) = false -> excused s id k) ->
  m_active (m_authDeadline (sock w)) = false -> excused (put_back id w s) id (sock w).
Proof.
  intros Hwf Hd Hon Hold Ha. destruct (data_outcome id data s k w Hwf Hd Hon) as [Hkeep [Hsame|]]; [|done].
  rewrite Hsame in Ha. auto.
Qed.

Lemma expire_supervised now s s' :
  server_ok s -> supervised s -> Update now s = Some (tt, s') -> supervised s'.
Proof.
  intros Hok Hs Hu. destruct (Update_run now s Hok) as (objs & Hr & Hobjs). rewrite Hr in Hu.
  injection Hu as <-. intros Ht id k' Hk' Ha. cbn in Hk'. rewrite Hobjs in Hk'.
  assert (Hsame : objects s !! id = Some k' -> excused (s <| sockets := filter (live (objects s)) (sockets s) |>
    <| objects := objs |> <| srv_log := srv_log s ++
       expire_log now (objects s) (filter (live (objects s)) (sockets s)) |>) id k').
  { intros Hk. by eapply excused_later, Hs. }
  case_decide; [|by auto]. apply fmap_Some in Hk' as (k & Hk & ->). unfold expire_sock in *.
  destruct (Deadline_expired (m_authDeadline k) now); [right; right; by left|by auto].
Qed.

(** Every move of the engine, the clients and the main loop. *)
Lemma op_supervised op s s' :
  server_ok s -> supervised s -> enabled op s -> server_op op s = Some s' -> supervised s'.
Proof.
  intros Hok Hs He Hop. destruct op as [now|id addr fc|id data|id|id|now|t|]; cbn [enabled server_op] in *.
  - rewrite He in Hop. injection Hop as <-. intros Ht id k Hk Ha. cbn in Hk, Ht.
    apply lookup_insert_Some in Hk as [[<- <-]|[_ Hk]]; [|by apply (Hs Ht id k)].
    cbn in Ha. apply Z.ltb_ge in Ha. lia.
  - destruct He as [k Hk]. destruct (call id _ s) as [[a s1]|] eqn:Hc; [|done]. injection Hop as <-.
    eapply call_supervised; eauto. intros w [= <- <-] Hold Ha. cbn in Ha. specialize (Hold Ha).
    eapply excused_later; [reflexivity|]. exact Hold.
  - destruct He as [[k Hk] Hdata]. destruct (call id _ s) as [[a s1]|] eqn:Hc; [|done]. injection Hop as <-.
    eapply call_supervised; eauto. intros w Hw Hold Ha.
    destruct (onData_run data (world_of s k)) as (w' & Hon & _); [by apply (sv_sessions s Hok _ _ Hk)|apply Hdata..|].
    rewrite Hw in Hon. injection Hon as -> <-. eapply data_excused; eauto. by apply (sv_sessions s Hok _ _ Hk).
  - destruct He as [k Hk]. destruct (call id _ s) as [[a s1]|] eqn:Hc; [|done]. injection Hop as <-.
    eapply call_supervised; eauto. intros w [= <- <-] _ _. right. right. by left.
  - destruct He as [k Hk]. unfold release in Hop. rewrite Hk in Hop. injection Hop as <-.
    intros Ht id' k' Hk' Ha. cbn in Hk'. apply lookup_delete_Some in Hk' as [_ Hk'].
    by apply (Hs Ht id' k').
  - destruct (Update now s) as [[[] s1]|] eqn:Hu; [|done]. injection Hop as <-. by eapply expire_supervised.
  - by injection Hop as <-.
  - by injection Hop as <-.
Qed.

(** What the engine and the clients do between two sweeps. *)
Definition engine_op (op : ServerOp) : Prop :=
  match op with OpUpdate _ | OpStop => False | _ => True end.

Inductive engine_step (s s' : Server) : Prop :=
| engine_move op : engine_op op -> enabled op s -> server_op op s = Some s' -> engine_step s s'.

Definition in_order s : Prop := server_ok s /\ supervised s /\ listening s = true.

Lemma call_listening {A} id (m : M World A) s a s' : call id m s = Some (a, s') -> listening s' = listening s.
Proof.
  unfold call. destruct (objects s !! id) as [k|]; [|done]. cbn. destruct (m (world_of s k)) as [[? w]|]; [|done].
  by intros [= _ <-].
Qed.

Lemma op_in_order op s s' :
  op <> OpStop -> in_order s -> enabled op s -> server_op op s = Some s' -> in_order s'.
Proof.
  intros Hne (Hok & Hs & Hl) He Hop. destruct (server_op_ok op s Hok He) as (s1 & Hop' & Hok').
  rewrite Hop in Hop'. injection Hop' as <-. split_and!; [done|by apply (op_supervised op s s')|].
  destruct op; cbn [server_op] in Hop; [by rewrite Hl in Hop; injection Hop as <-|..|done].
  all: try (destruct (call _ _ s) as [[? ?]|] eqn:Hc; [|done]; injection Hop as <-;
    by rewrite (call_listening _ _ _ _ _ Hc)).
  - destruct He as [k Hk]. unfold release in Hop. rewrite Hk in Hop. by injection Hop as <-.
  - destruct (Update_run now s Hok) as (objs & Hr & _). rewrite Hr in Hop. by injection Hop as <-.
  - by injection Hop as <-.
Qed.

End Supervision.
