(* ===== verification/Sweep.v ===== *)
(** * The sweep among the network threads (src/Auth/AuthServer.cpp: [Update])

    [Update] is cut where other threads may come in between: the pass over the table under its
    mutex, the reading of the clock, one [ExpireAuthentication] after the other, and the end of
    the vector of locked references.  Meanwhile the engine accepts connections, delivers
    data and lets go of its sessions.  A session has two kinds of owners, the engine and the
    vector of the sweep; the last of them to let go destroys it. *)

From stdpp Require Import gmap.
From S2P Require Import Prelude AuthCodes ProtocolGuard PatchPolicy RealmList PatchArtifact.
From S2P Require Import Interfaces Samples Srp6 Session SessionLogic Logon Reconnect RealmPacket.
From S2P Require Import Dispatch Bodies Serve SessionInv SessionSafety SessionProperties AuthServer.
From S2P Require Import Supervision.

Local Open Scope Z_scope.
Local Open Scope realmd_scope.

#[local] Set Warnings "-clear-no-such-hyp".

Section Sweep.
Context `{ENV : RealmdEnv}.
Implicit Types (k : AuthSocket) (id : nat) (s : Server).

(** The locals of a running [Update]: the vector [sockets], [now] once it is read, and the
    part of the vector the loop has still to visit. *)
Record Round : Type := mkRound { r_held : list nat; r_now : option Z; r_todo : list nat }.

(** The server, the sessions the engine owns, and the sweep under way, if any. *)
Record Sweeping : Type := mkSweeping {
  y_server : Server;
  y_engine : gset nat;
  y_round : option Round
}.

#[export] Instance Sweeping_updatable : Updatable Sweeping :=
  Rebuild _ (fun y => mkSweeping (y_server y) (y_engine y) (y_round y)).

Definition held (y : Sweeping) : list nat := default [] (r_held <$> y_round y).

(** ** The steps *)

(** A reference to [id] has gone: the destructor runs if it was the last. *)
Definition drop_owner id (y : Sweeping) : option Sweeping :=
  if decide (id ∈ y_engine y \/ id ∈ held y) then Some y else
  '(_, s) ← release id (y_server y);
  Some (y <| y_server := s |>).

(** The next step of the main thread in [Update]. *)
Definition Update_step (now : Z) (y : Sweeping) : option Sweeping :=
  match y_round y with
  | None =>
      let '(kept, active) := sweep (objects (y_server y)) (sockets (y_server y)) in
      Some (y <| y_server := (y_server y) <| sockets := kept |> |>
              <| y_round := Some (mkRound active None active) |>)
  | Some (mkRound hs None todo) => Some (y <| y_round := Some (mkRound hs (Some now) todo) |>)
  | Some (mkRound hs (Some n) todo) =>
      match todo with
      | id :: rest =>
          '(_, s) ← call id (ExpireAuthentication n) (y_server y);
          Some (y <| y_server := s |> <| y_round := Some (mkRound hs (Some n) rest) |>)
      | [] =>
          match hs with
          | id :: hs' => drop_owner id (y <| y_round := Some (mkRound hs' (Some n) []) |>)
          | [] => Some (y <| y_round := None |>)
          end
      end
  end.

(** The engine lets go of a session. *)
Definition engine_drop id (y : Sweeping) : option Sweeping :=
  drop_owner id (y <| y_engine := y_engine y ∖ {[id]} |>).

(** The other moves of the engine, on the sessions it owns. *)
Definition owned (op : ServerOp) (y : Sweeping) : Prop :=
  match op with
  | OpAccept _ | OpClock _ => True
  | OpWire id _ _ | OpClose id => id ∈ y_engine y
  | OpData id data => id ∈ y_engine y /\ chunk_ok data
  | _ => False
  end.

Definition engine_act (op : ServerOp) (y : Sweeping) : option Sweeping :=
  s ← server_op op (y_server y);
  Some (y <| y_server := s |>
          <| y_engine := match op with OpAccept _ => {[next_id (y_server y)]} ∪ y_engine y | _ => y_engine y end |>).

Inductive sweep_step (y y' : Sweeping) : Prop :=
| sweep_main now : Update_step now y = Some y' -> sweep_step y y'
| sweep_drop id : id ∈ y_engine y -> engine_drop id y = Some y' -> sweep_step y y'
| sweep_engine op : owned op y -> engine_act op y = Some y' -> sweep_step y y'.

(** ** The invariant *)

(** The session [id] is excused from its deadline, or the deadline is later than [n]. *)
Definition punctual (n : Z) s id : Prop :=
  forall k, objects s !! id = Some k -> excused s id k \/ n < m_deadline (m_authDeadline k).

Definition round_ok (r : Round) s : Prop :=
  NoDup (r_held r) /\ NoDup (r_todo r) /\ r_todo r ⊆ r_held r /\ (r_now r = None -> r_todo r = r_held r) /\
  forall n, r_now r = Some n -> forall id, id ∈ r_held r -> id ∉ r_todo r -> punctual n s id.

Record sweep_ok (y : Sweeping) : Prop := {
  sw_order : in_order (y_server y);
  sw_timeout : 0 < authTimeout (y_server y);
  sw_owners : forall id, is_Some (objects (y_server y) !! id) <-> id ∈ y_engine y \/ id ∈ held y;
  sw_round : forall r, y_round y = Some r -> round_ok r (y_server y)
}.

(** The steps an [Update] has left. *)
Definition steps_to_go (y : Sweeping) : nat :=
  match y_round y with
  | None => 0
  | Some r => (length (r_todo r) + length (r_held r) + match r_now r with Some _ => 1 | None => 2 end)%nat
  end.

Lemma punctual_objects n s s' id :
  objects s' !! id = objects s !! id -> (exists evs, srv_log s' = srv_log s ++ evs) -> punctual n s id -> punctual n s' id.
Proof.
  intros Ho [evs Hl] Hp k Hk. rewrite Ho in Hk. destruct (Hp k Hk); [left; by eapply excused_later|by right].
Qed.

(** ** The steps of the main thread *)

Lemma collect_in_order s :
  in_order s -> in_order (s <| sockets := filter (live (objects s)) (sockets s) |>).
Proof.
  intros ([Hc Ha Hs Hf Hd Ht] & Hsup & Hl). split_and!; [|done|done]. split; cbn; try done.
  - intros id Hid. destruct (Hf id Hid). split; [done|]. by intros [_ ?]%list_elem_of_filter.
  - by apply NoDup_filter.
  - intros _ id Hid. apply list_elem_of_filter. split; [done|]. by apply Ht.
Qed.

(** What [ExpireAuthentication] does to the server. *)
Definition expired (now : Z) id k s : Server :=
  s <| objects := <[id := expire_sock now k]> (objects s) |> <| srv_log := srv_log s ++ expire_events now id k |>.

Lemma expired_in_order now id k s : objects s !! id = Some k -> in_order s -> in_order (expired now id k s).
Proof.
  intros Hk (Hok & Hsup & Hl). split_and!; [| |done].
  - set (w := mkWorld (expire_sock now k) (srv_db s) (srv_rng s)
      (if Deadline_expired (m_authDeadline k) now then close_events (m_closed k) (m_closer k) else [])
      (srv_connections s) (srv_authed s) (srv_realms s) (srv_time s)).
    replace (expired now id k s) with (put_back id w s).
    + apply (call_ok id k); [done|done|apply expire_sock_wf, (sv_sessions s Hok _ _ Hk)|done|..];
        cbn; rewrite expire_sock_status; [done|]. rewrite decide_False; [done|tauto].
    + unfold expired, put_back, expire_events. destruct s. cbn. by destruct (Deadline_expired _ now).
  - intros Ht id' k' Hk' Ha. cbn in Hk'. apply lookup_insert_Some in Hk' as [[<- <-]|[Hne Hk']].
    + unfold expire_sock in *. destruct (Deadline_expired _ now); [right; right; by left|].
      eapply excused_later; [reflexivity|]. by apply Hsup.
    + eapply excused_later; [reflexivity|]. by apply Hsup.
Qed.

Lemma expired_punctual now id k s :
  objects s !! id = Some k -> in_order s -> 0 < authTimeout s -> punctual now (expired now id k s) id.
Proof.
  intros Hk Hs Ht k' Hk'. destruct (m_active (m_authDeadline k')) eqn:Ha.
  - right. cbn in Hk'. rewrite lookup_insert_eq in Hk'. injection Hk' as <-. unfold expire_sock in *.
    destruct (Deadline_expired (m_authDeadline k) now) eqn:E; [done|].
    unfold Deadline_expired in E. rewrite Ha in E. by apply Z.leb_gt.
  - left. by apply (proj1 (proj2 (expired_in_order now id k s Hk Hs))).
Qed.

(** ** The moves of the engine *)

Lemma call_punctual {A} n id0 (m : M World A) s a s' k id :
  objects s !! id0 = Some k -> call id0 m s = Some (a, s') ->
  (forall w, m (world_of s k) = Some (a, w) -> excused s id0 k \/ n < m_deadline (m_authDeadline k) ->
     excused (put_back id0 w s) id0 (sock w) \/ n < m_deadline (m_authDeadline (sock w))) ->
  punctual n s id -> punctual n s' id.
Proof.
  unfold call. intros Hk Hc Hm Hp. rewrite Hk in Hc. cbn [mbind option_bind] in Hc.
  destruct (m (world_of s k)) as [[a' w]|] eqn:Hrun; [|done]. cbn in Hc. injection Hc as -> <-.
  destruct (decide (id = id0)) as [->|Hne].
  - intros k' Hk'. cbn in Hk'. rewrite lookup_insert_eq in Hk'. injection Hk' as <-. auto.
  - eapply punctual_objects; [|by eexists|done]. cbn. by rewrite lookup_insert_ne.
Qed.

Context {LAWS : RealmdLaws}.

Lemma op_punctual n op y s' id :
  in_order (y_server y) -> owned op y -> enabled op (y_server y) -> server_op op (y_server y) = Some s' ->
  is_Some (objects (y_server y) !! id) -> punctual n (y_server y) id -> punctual n s' id.
Proof.
  intros (Hok & _ & Hl) Ho He Hop Hid Hp. set (s := y_server y) in *.
  destruct op as [now|id0 addr fc|id0 data|id0|id0|now|t|]; cbn [owned enabled server_op] in *; try done.
  - rewrite Hl in Hop. injection Hop as <-. apply (punctual_objects n s); [|exists []; by rewrite app_nil_r|done]. cbn.
    apply lookup_insert_ne. intros <-. destruct Hid as [? Hid].
    by rewrite (proj1 (sv_fresh s Hok (next_id s) (le_n _))) in Hid.
  - destruct He as [k Hk]. destruct (call id0 _ s) as [[a s1]|] eqn:Hc; [|done]. injection Hop as <-.
    eapply call_punctual; eauto. intros w [= <- <-] [Hx|?]; [|by right]. left.
    eapply excused_later; [reflexivity|]. exact Hx.
  - destruct He as [[k Hk] Hdata]. destruct (call id0 _ s) as [[a s1]|] eqn:Hc; [|done]. injection Hop as <-.
    eapply call_punctual; eauto. intros w Hw Hold.
    destruct (onData_run data (world_of s k)) as (w' & Hon & _); [by apply (sv_sessions s Hok _ _ Hk)|apply Hdata..|].
    rewrite Hw in Hon. injection Hon as -> <-.
    destruct (data_outcome id0 data s k w) as [Hkeep Hd]; [by apply (sv_sessions s Hok _ _ Hk)|done|done|].
    destruct Hold as [?|?]; [by auto|]. destruct Hd as [->|?]; by auto.
  - destruct He as [k Hk]. destruct (call id0 _ s) as [[a s1]|] eqn:Hc; [|done]. injection Hop as <-.
    eapply call_punctual; eauto. intros w [= <- <-] _. left. right. right. by left.
  - by injection Hop as <-.
Qed.

Lemma op_timeout op y s' :
  owned op y -> server_op op (y_server y) = Some s' -> authTimeout s' = authTimeout (y_server y).
Proof.
  intros Ho Hop. destruct op as [now|id0 addr fc|id0 data|id0|id0|now|t|]; cbn [owned server_op] in *; try done.
  - destruct (listening _); [|done]. by injection Hop as <-.
  - unfold drop_result, call in Hop. destruct (objects _ !! id0); [|done]. by injection Hop as <-.
  - unfold drop_result, call in Hop. destruct (objects _ !! id0); [|done]. cbn [mbind option_bind] in Hop.
    destruct (onData data _) as [[? w]|]; [|done]. by injection Hop as <-.
  - unfold drop_result, call in Hop. destruct (objects _ !! id0); [|done]. by injection Hop as <-.
  - by injection Hop as <-.
Qed.

(** Which sessions are alive after a move of the engine. *)
Lemma op_alive op y s' id :
  owned op y -> enabled op (y_server y) -> server_op op (y_server y) = Some s' ->
  is_Some (objects s' !! id) <->
  is_Some (objects (y_server y) !! id) \/ (exists now, op = OpAccept now) /\ id = next_id (y_server y).
Proof.
  intros Ho He Hop. set (s := y_server y) in *.
  assert (Hcall : forall A id0 (m : M World A), drop_result (call id0 m s) = Some s' ->
    is_Some (objects s' !! id) <-> is_Some (objects s !! id)).
  { intros A id0 m Hc. unfold drop_result, call in Hc. destruct (objects s !! id0) eqn:Hk; [|done].
    cbn [mbind option_bind] in Hc. destruct (m _) as [[? w]|]; [|done]. injection Hc as <-. cbn.
    rewrite lookup_insert_is_Some'. split; [|by auto]. intros [<-|?]; [by eexists|done]. }
  destruct op as [now|id0 addr fc|id0 data|id0|id0|now|t|]; cbn [owned enabled server_op] in *; try done.
  - rewrite He in Hop. injection Hop as <-. cbn. rewrite lookup_insert_is_Some'. split; [|naive_solver].
    intros [<-|?]; [right; split; [by eexists|done]|by left].
  - rewrite (Hcall _ _ _ Hop). split; [by left|]. intros [?|[[? ?] _]]; done.
  - rewrite (Hcall _ _ _ Hop). split; [by left|]. intros [?|[[? ?] _]]; done.
  - rewrite (Hcall _ _ _ Hop). split; [by left|]. intros [?|[[? ?] _]]; done.
  - injection Hop as <-. split; [by left|]. intros [?|[[? ?] _]]; done.
Qed.

(** ** Every step is defined and keeps the invariant *)

Lemma round_ok_same r s s' :
  (forall n id, id ∈ r_held r -> punctual n s id -> punctual n s' id) -> round_ok r s -> round_ok r s'.
Proof. intros Hp (H1 & H2 & H3 & H4 & H5). split_and!; try done. intros n Hn id Hid Hni. by eapply Hp, H5. Qed.

(** A reference to [id] has just been given up. *)
Lemma drop_owner_ok id y :
  in_order (y_server y) -> 0 < authTimeout (y_server y) ->
  (forall id', is_Some (objects (y_server y) !! id') <-> id' ∈ y_engine y \/ id' ∈ held y \/ id' = id) ->
  (forall r, y_round y = Some r -> round_ok r (y_server y)) ->
  exists y', drop_owner id y = Some y' /\ sweep_ok y' /\ y_round y' = y_round y.
Proof.
  intros Ho Ht Hown Hr. unfold drop_owner. destruct (decide (id ∈ y_engine y \/ id ∈ held y)) as [Hin|Hout].
  - exists y. split_and!; [done| |done]. split; try done. intros id'. rewrite Hown.
    split; [|naive_solver]. intros [?|[?| ->]]; auto.
  - destruct (proj2 (Hown id)) as [k Hk]; [by auto|]. unfold release. rewrite Hk. cbn [mbind option_bind].
    eexists. split; [reflexivity|]. split; [|done].
    assert (Hop : server_op (OpRelease id) (y_server y) = Some ((y_server y) <| objects := delete id (objects (y_server y)) |>
      <| srv_connections := (destruct_counters k (srv_connections (y_server y), srv_authed (y_server y))).1 |>
      <| srv_authed := (destruct_counters k (srv_connections (y_server y), srv_authed (y_server y))).2 |>)).
    { cbn [server_op]. unfold drop_result, release. by rewrite Hk. }
    split; cbn.
    + apply (op_in_order (OpRelease id) (y_server y)); [done..|by exists k|exact Hop].
    + done.
    + intros id'. change (held _) with (held y). rewrite lookup_delete_is_Some, Hown.
      split; [intros [? [?|[?|?]]]; naive_solver|]. intros Hin. split; [by intros ->|naive_solver].
    + intros r Hyr. apply (round_ok_same r (y_server y)); [|by apply Hr].
      intros n id' Hid' Hp k' Hk'. cbn in Hk'. apply lookup_delete_Some in Hk' as [_ Hk']. by apply Hp.
Qed.

Lemma engine_drop_ok id y :
  sweep_ok y -> id ∈ y_engine y -> exists y', engine_drop id y = Some y' /\ sweep_ok y' /\ y_round y' = y_round y.
Proof.
  intros [Ho Ht Hown Hr] Hid.
  destruct (drop_owner_ok id (y <| y_engine := y_engine y ∖ {[id]} |>)) as (y' & Hy' & Hok & Hround); cbn; [done..| |done|by exists y'].
  intros id'. change (held _) with (held y). rewrite Hown, elem_of_difference, elem_of_singleton.
  destruct (decide (id' = id)) as [->|]; naive_solver.
Qed.

Lemma engine_act_ok op y :
  sweep_ok y -> owned op y -> exists y', engine_act op y = Some y' /\ sweep_ok y' /\ y_round y' = y_round y.
Proof.
  intros [Ho Ht Hown Hr] Hop. pose proof Ho as (Hok & _ & Hl).
  assert (He : enabled op (y_server y)).
  { destruct op; cbn in *; try done; try (apply Hown; by left). split; [apply Hown; left|]; apply Hop. }
  destruct (server_op_ok op (y_server y) Hok He) as (s' & Hs' & _). unfold engine_act. rewrite Hs'.
  eexists. split; [reflexivity|]. split; [|done].
  split; cbn.
  - apply (op_in_order op (y_server y)); [by intros ->|done..].
  - by rewrite (op_timeout op y s').
  - intros id. change (held _) with (held y). rewrite (op_alive op y s' id) by done. rewrite Hown.
    destruct op; try (split; [|by left]; intros [?|[[? ?] _]]; [done|done]).
    rewrite elem_of_union, elem_of_singleton. naive_solver.
  - intros r Hyr. apply (round_ok_same r (y_server y)); [|by apply Hr].
    intros n id Hid. apply (op_punctual n op y s'); try done. apply Hown. right. unfold held. by rewrite Hyr.
Qed.

(** The sweep begins: the vector holds exactly the sessions that are alive. *)
Lemma collect_ok now y :
  sweep_ok y -> y_round y = None -> exists y', Update_step now y = Some y' /\ sweep_ok y' /\
    forall id, id ∈ held y' <-> is_Some (objects (y_server y) !! id).
Proof.
  intros [Ho Ht Hown Hr] Hy. unfold Update_step. rewrite Hy, sweep_filter. eexists. split; [reflexivity|].
  pose proof Ho as ([_ _ _ _ Hd Htr] & _ & Hl).
  assert (Hheld : forall id, id ∈ filter (live (objects (y_server y))) (sockets (y_server y)) <->
    is_Some (objects (y_server y) !! id)).
  { intros id. rewrite list_elem_of_filter. split; [by intros [? _]|]. intros Hid. split; [done|by apply Htr]. }
  split; [|exact Hheld]. split; cbn.
  - by apply collect_in_order.
  - done.
  - intros id. unfold held. cbn. rewrite Hheld. split; [by right|]. intros [Hid|?]; [apply Hown; by left|done].
  - intros r [= <-]. split_and!; cbn; [by apply NoDup_filter..|done|done|done].
Qed.

(** The session whose turn it is. *)
Lemma expire_next_ok now y hs n id rest :
  sweep_ok y -> y_round y = Some (mkRound hs (Some n) (id :: rest)) ->
  exists y', Update_step now y = Some y' /\ sweep_ok y' /\ (steps_to_go y' < steps_to_go y)%nat.
Proof.
  intros [Ho Ht Hown Hr] Hy. destruct (Hr _ Hy) as (Hh & Hd & Hsub & _ & Hp). cbn in *.
  apply NoDup_cons in Hd as [Hni Hd].
  destruct (proj2 (Hown id)) as [k Hk]; [right; unfold held; rewrite Hy; cbn; set_solver|].
  unfold Update_step, steps_to_go. rewrite Hy. destruct (call_expire n id k (y_server y) Hk) as [b ->]. cbn [mbind option_bind].
  eexists. split; [reflexivity|]. split; [|cbn; lia].
  change (_ <| objects := _ |> <| srv_log := _ |>) with (expired n id k (y_server y)).
  split; cbn.
  - by apply expired_in_order.
  - done.
  - intros id'. unfold held in *. rewrite Hy in Hown. cbn. rewrite lookup_insert_is_Some', <- Hown.
    split; [|by auto]. intros [<-|?]; [by exists k|done].
  - intros r [= <-]. split_and!; cbn; [done..|set_solver|done|]. intros n' [= <-] id' Hid' Hni'.
    destruct (decide (id' = id)) as [->|Hne]; [by apply expired_punctual|].
    apply (punctual_objects n (y_server y)); [cbn; by rewrite lookup_insert_ne|by eexists|].
    apply Hp; [done..|set_solver].
Qed.

(** The vector goes, one reference after the other. *)
Lemma unlock_ok now y id hs n :
  sweep_ok y -> y_round y = Some (mkRound (id :: hs) (Some n) []) ->
  exists y', Update_step now y = Some y' /\ sweep_ok y' /\ (steps_to_go y' < steps_to_go y)%nat.
Proof.
  intros [Ho Ht Hown Hr] Hy. destruct (Hr _ Hy) as (Hh & _ & _ & _ & Hp). cbn in *.
  apply NoDup_cons in Hh as [Hni Hh]. unfold held in Hown. rewrite Hy in Hown. cbn in Hown.
  destruct (drop_owner_ok id (y <| y_round := Some (mkRound hs (Some n) []) |>)) as (y' & Hy' & Hok & Hround); cbn.
  - done.
  - done.
  - intros id'. unfold held. cbn. rewrite Hown, elem_of_cons. tauto.
  - intros r [= <-]. split_and!; cbn; [done|by apply NoDup_nil|set_solver|done|]. intros n' [= <-] id' Hid' _.
    apply Hp; [done|by right|apply not_elem_of_nil].
  - exists y'. unfold Update_step, steps_to_go. rewrite Hround, Hy, Hy'. cbn. split_and!; [done..|lia].
Qed.

(** The main thread is never stuck, and every step brings the end of [Update] nearer. *)
Lemma Update_step_ok now y :
  sweep_ok y -> exists y', Update_step now y = Some y' /\ sweep_ok y' /\ (y_round y <> None -> (steps_to_go y' < steps_to_go y)%nat).
Proof.
  intros Hok. destruct (y_round y) as [[hs [n|] todo]|] eqn:Hy.
  - destruct todo as [|id rest].
    + destruct hs as [|id hs].
      * unfold Update_step, steps_to_go. rewrite Hy. eexists. split; [reflexivity|]. split; [|cbn; lia].
        destruct Hok as [Ho Ht Hown Hr]. split; cbn; try done. unfold held in *. rewrite Hy in Hown. done.
      * destruct (unlock_ok now y id hs n Hok Hy) as (y' & ? & ? & ?). by exists y'.
    + destruct (expire_next_ok now y hs n id rest Hok Hy) as (y' & ? & ? & ?). by exists y'.
  - unfold Update_step, steps_to_go. rewrite Hy. eexists. split; [reflexivity|]. split; [|cbn; lia].
    destruct Hok as [Ho Ht Hown Hr]. destruct (Hr _ Hy) as (Hh & Hd & Hs & Hall & _). cbn in *. split; cbn; try done.
    + unfold held in *. by rewrite Hy in Hown.
    + intros r [= <-]. split_and!; cbn; try done. intros n _ id Hid Hni. by rewrite (Hall eq_refl) in Hni.
  - destruct (collect_ok now y Hok Hy) as (y' & ? & ? & _). by exists y'.
Qed.

Lemma sweep_reach_ok y y' : rtc sweep_step y y' -> sweep_ok y -> sweep_ok y'.
Proof.
  induction 1 as [|y1 y2 y3 Hs _ IH]; [done|]. intros Hok. apply IH. destruct Hs as [now Hs|id Hid Hs|op Ho Hs].
  - destruct (Update_step_ok now y1 Hok) as (? & Hs' & ? & _). congruence.
  - destruct (engine_drop_ok id y1 Hok Hid) as (? & Hs' & ? & _). congruence.
  - destruct (engine_act_ok op y1 Hok Ho) as (? & Hs' & ? & _). congruence.
Qed.

Lemma sweep_start_ok start port ip timeout policy s0 s1 :
  idle s0 -> Start start port ip timeout policy s0 = (true, s1) -> 0 < timeout -> sweep_ok (mkSweeping s1 ∅ None).
Proof.
  intros Hi Hs Ht. destruct (started_ok _ _ _ _ _ _ _ _ Hi Hs) as [Hok H0].
  assert (listening s1 = true /\ authTimeout s1 = timeout) as [Hl Hto] by (by injection Hs as ? <-).
  split; cbn; [|lia| |done].
  - split_and!; [done| |done]. intros _ id k. by rewrite H0.
  - intros id. rewrite H0. unfold held. cbn. rewrite lookup_empty. split; [by intros [? ?]|].
    intros [?%not_elem_of_empty|?%not_elem_of_nil]; done.
Qed.

End Sweep.

(** ** Property *)

(** C9. The sweep among the network threads, with an authentication timeout (0 would disable
    it): however the steps of [Update] interleave with
    accepted connections, delivered data and sessions the engine lets go, a session is alive
    exactly as long as the engine or the sweep owns it, and the counter counts these; no step is
    undefined: the sweep never touches a destroyed session, and every [Update] comes to its
    end.  A sweep takes up all sessions that are alive when it begins, and when its loop
    is done, each of them is authenticated, offered a patch, being sent one or closed,
    or its deadline lies after the time the sweep has read. *)
Theorem sweep_interleaved `{RealmdEnv} {L : RealmdLaws} start port ip timeout policy (s0 s1 : Server) (y : Sweeping) :
  idle s0 -> Start start port ip timeout policy s0 = (true, s1) -> 0 < timeout ->
  rtc sweep_step (mkSweeping s1 ∅ None) y ->
  (forall id, is_Some (objects (y_server y) !! id) <-> id ∈ y_engine y \/ id ∈ held y) /\
  srv_connections (y_server y) = u32 (Z.of_nat (size (objects (y_server y)))) /\
  (forall now, exists y', Update_step now y = Some y' /\
     match y_round y with
     | Some _ => (steps_to_go y' < steps_to_go y)%nat
     | None => forall id, id ∈ held y' <-> is_Some (objects (y_server y) !! id)
     end) /\
  (forall id, id ∈ y_engine y -> is_Some (engine_drop id y)) /\
  (forall op, owned op y -> is_Some (engine_act op y)) /\
  (forall hs n id k, y_round y = Some (mkRound hs (Some n) []) -> id ∈ hs -> objects (y_server y) !! id = Some k ->
     excused (y_server y) id k \/ n < m_deadline (m_authDeadline k)).
Proof.
  intros Hi Hs Ht Hrun. pose proof (sweep_reach_ok _ _ Hrun (sweep_start_ok _ _ _ _ _ _ _ Hi Hs Ht)) as Hok.
  split_and!.
  - apply Hok.
  - apply (sw_order _ Hok).
  - intros now. destruct (y_round y) as [r|] eqn:Hy.
    + destruct (Update_step_ok now y Hok) as (y' & ? & _ & Hl). rewrite Hy in Hl. exists y'. auto.
    + destruct (collect_ok now y Hok Hy) as (y' & ? & _ & ?). by exists y'.
  - intros id Hid. destruct (engine_drop_ok id y Hok Hid) as (y' & ? & _). by exists y'.
  - intros op Ho. destruct (engine_act_ok op y Hok Ho) as (y' & ? & _). by exists y'.
  - intros hs n id k Hy Hid. destruct (sw_round _ Hok _ Hy) as (_ & _ & _ & _ & Hp).
    apply (Hp n eq_refl id Hid). apply not_elem_of_nil.
Qed.

Section SampleSweep.
#[local] Existing Instances sample_Env sample_Laws.

Definition sample_listening : Server := (Start (fun _ _ => true) 3724 [] 30 PatchPolicy_default sample_idle).2.

Definition after_step (f : Sweeping -> option Sweeping) (y : Sweeping) : Sweeping := default y (f y).

Lemma after_step_Some (f : Sweeping -> option Sweeping) y : is_Some (f y) -> f y = Some (after_step f y).
Proof. intros [y' Hy]. unfold after_step. by rewrite Hy. Qed.

(** A silent session is accepted; a sweep takes it up; the engine lets go of it; the sweep
    reads the clock after its deadline and expires it. *)
Definition sample_joined : Sweeping := after_step (engine_act (OpAccept 0)) (mkSweeping sample_listening ∅ None).
Definition sample_collected : Sweeping := after_step (Update_step 0) sample_joined.
Definition sample_dropped : Sweeping := after_step (engine_drop 0) sample_collected.
Definition sample_read : Sweeping := after_step (Update_step (31 * ns_per_second)) sample_dropped.
Definition sample_expired : Sweeping := after_step (Update_step 0) sample_read.

Lemma sample_sweep_reach : rtc sweep_step (mkSweeping sample_listening ∅ None) sample_expired.
Proof.
  apply (rtc_l _ _ sample_joined).
  { apply (sweep_engine _ _ (OpAccept 0)); [exact I|]. apply after_step_Some.
    by apply (bool_decide_unpack (is_Some _)); vm_compute. }
  apply (rtc_l _ _ sample_collected).
  { apply (sweep_main _ _ 0), after_step_Some. by apply (bool_decide_unpack (is_Some _)); vm_compute. }
  apply (rtc_l _ _ sample_dropped).
  { apply (sweep_drop _ _ 0); [by apply (bool_decide_unpack (_ ∈ _)); vm_compute|].
    apply after_step_Some. by apply (bool_decide_unpack (is_Some _)); vm_compute. }
  apply (rtc_l _ _ sample_read).
  { apply (sweep_main _ _ (31 * ns_per_second)), after_step_Some.
    by apply (bool_decide_unpack (is_Some _)); vm_compute. }
  apply rtc_once, (sweep_main _ _ 0), after_step_Some. by apply (bool_decide_unpack (is_Some _)); vm_compute.
Qed.

(** The sweep alone keeps the session alive; its end destroys it. *)
Example sample_sweep_owner :
  (bool_decide (is_Some (objects (y_server sample_expired) !! 0%nat)), srv_connections (y_server sample_expired),
   bool_decide (is_Some (objects (y_server (after_step (Update_step 0) sample_expired)) !! 0%nat)),
   srv_connections (y_server (after_step (Update_step 0) sample_expired))) = (true, 1, false, 0).
Proof. by vm_compute. Qed.

Lemma sweep_interleaved_witness :
  (is_Some (objects (y_server sample_expired) !! 0%nat) <-> 0%nat ∈ y_engine sample_expired \/ 0%nat ∈ held sample_expired) /\
  exists y', Update_step 0 sample_expired = Some y'.
Proof.
  destruct (sweep_interleaved (fun _ _ => true) 3724 [] 30 PatchPolicy_default sample_idle sample_listening sample_expired)
    as (Hown & _ & Hnext & _); [by split_and!|reflexivity|lia|apply sample_sweep_reach|].
  split; [apply (Hown 0%nat)|]. destruct (Hnext 0) as (y' & Hy' & _). exists y'. exact Hy'.
Defined.

End SampleSweep.
