(* ===== verification/ServerEvidence.v ===== *)
(** * Authentication on the whole server

    Many sessions share one database.  Whatever order the engine calls them in, an
    authenticated session has itself received a challenge and a valid proof, and the
    proof was checked against what the shared database held at a moment of this run. *)

From S2P Require Import Prelude AuthCodes ProtocolGuard PatchPolicy ClientLocale RealmList.
From S2P Require Import PatchArtifact Interfaces Samples Srp6 Session SessionLogic Logon Reconnect.
From S2P Require Import RealmPacket Dispatch Bodies Serve SessionInv SessionSafety SessionProperties.
From S2P Require Import History LogonProperties Evidence AuthServer.

Local Open Scope Z_scope.
Local Open Scope realmd_scope.

#[local] Set Warnings "-clear-no-such-hyp".

Section ServerEvidence.
Context `{ENV : RealmdEnv}.
Implicit Types (k : AuthSocket) (id : nat) (s : Server) (op : ServerOp) (ops : list ServerOp).

(** A run with the operations that made it, the latest last. *)
Inductive server_run s : list ServerOp -> Server -> Prop :=
| run_start : server_run s [] s
| run_next ops s1 op s2 : server_run s ops s1 -> enabled op s1 -> server_op op s1 = Some s2 ->
    server_run s (ops ++ [op]) s2.

(** The bytes the engine delivered to a session. *)
Definition delivered id ops : bytes :=
  ops ≫= fun op => match op with OpData i data => if decide (i = id) then data else [] | _ => [] end.

(** The session had this address while the shared database was [d]. *)
Definition witnessed s0 ops id (address : bytes) (d : db) : Prop :=
  exists ops1 ops2 s k, ops = ops1 ++ ops2 /\ server_run s0 ops1 s /\ objects s !! id = Some k /\
    remote_address_ k = address /\ srv_db s = d.

Lemma delivered_app id ops1 ops2 : delivered id (ops1 ++ ops2) = delivered id ops1 ++ delivered id ops2.
Proof. apply bind_app. Qed.

Lemma witnessed_app s0 ops ops' id address d :
  witnessed s0 ops id address d -> witnessed s0 (ops ++ ops') id address d.
Proof.
  intros (o1 & o2 & s & k & -> & H). exists o1, (o2 ++ ops'), s, k. by rewrite app_assoc.
Qed.

(** ** The invariant *)

Definition accounted (D : bytes -> db -> Prop) (input : bytes) k : Prop :=
  exists past rest, input = past ++ rest /\ evidence D past k /\ (m_closed k = false -> rest = m_readBuf k).

Record run_inv s0 ops s : Prop := {
  ri_ok : server_ok s;
  ri_sessions id k : objects s !! id = Some k -> accounted (witnessed s0 ops id) (delivered id ops) k;
  ri_fresh id : (next_id s <= id)%nat -> delivered id ops = []
}.

Lemma accounted_mono (D D' : bytes -> db -> Prop) input k :
  (forall address d, D address d -> D' address d) -> accounted D input k -> accounted D' input k.
Proof. intros HD (past & rest & -> & He & Hr). exists past, rest. eauto using evidence_mono. Qed.

(** Operations that neither deliver bytes nor move the exchange. *)
Lemma accounted_same D input k k' :
  same_evidence k k' -> (m_closed k' = false -> m_closed k = false) -> m_readBuf k' = m_readBuf k ->
  accounted D input k -> accounted D input k'.
Proof.
  intros Hs Hc Hb (past & rest & -> & He & Hr). exists past, rest. split; [done|].
  split; [by eapply evidence_same|]. rewrite Hb. auto.
Qed.

Lemma accounted_expired D input now k : accounted D input k -> accounted D input (expire_sock now k).
Proof.
  apply accounted_same; unfold expire_sock; by destruct (Deadline_expired _ now).
Qed.

Context {LAWS : RealmdLaws}.

Lemma accounted_onData s0 ops s id k data :
  server_run s0 ops s -> objects s !! id = Some k -> session_wf k -> chunk_ok data ->
  accounted (witnessed s0 ops id) (delivered id ops) k ->
  exists w', onData data (world_of s k) = Some ([], w') /\
    accounted (witnessed s0 ops id) (delivered id ops ++ data) (sock w').
Proof.
  intros Hrun Hk Hwf Hd (past & rest & Hin & He & Hr).
  destruct (tracked_onData (informed (witnessed s0 ops id)) (delivered id ops) data (world_of s k))
    as (w' & Hon & _ & past' & rest' & Heq & [He' _] & Hr'); [done..| |].
  - exists past, rest. split_and!; [done| |done]. split; [done|]. intros _.
    exists ops, [], s, k. by rewrite app_nil_r.
  - exists w'. split; [done|]. by exists past', rest'.
Qed.

(** What a session becomes by an operation other than a delivery to it. *)
Definition touched k k' : Prop :=
  same_evidence k k' /\ (m_closed k' = false -> m_closed k = false) /\ m_readBuf k' = m_readBuf k.

Lemma touched_refl k : touched k k.
Proof. unfold touched, same_evidence. by split_and!. Qed.

Lemma touched_expired now k : touched k (expire_sock now k).
Proof. unfold expire_sock. destruct (Deadline_expired _ now); [|apply touched_refl]. by split_and!. Qed.

(** Every session after an operation is a new one, one that was delivered to, or one that
    was there and is hardly changed. *)
Variant session_origin s op id k' : Prop :=
| origin_new now : op = OpAccept now -> id = next_id s ->
    k' = AuthSocket_new now (authTimeout s) (patchPolicy s) -> session_origin s op id k'
| origin_data data k w' : op = OpData id data -> objects s !! id = Some k ->
    onData data (world_of s k) = Some ([], w') -> k' = sock w' -> session_origin s op id k'
| origin_old k : objects s !! id = Some k -> touched k k' ->
    (forall data, op <> OpData id data) -> session_origin s op id k'.

Lemma call_origin {A} id0 (m : M World A) s s' op :
  drop_result (call id0 m s) = Some s' ->
  (forall k, objects s !! id0 = Some k -> forall a w', m (world_of s k) = Some (a, w') ->
     session_origin s op id0 (sock w')) ->
  (forall id data, id <> id0 -> op <> OpData id data) ->
  next_id s' = next_id s /\ forall id k', objects s' !! id = Some k' -> session_origin s op id k'.
Proof.
  intros Hop H0 Hne. unfold call, drop_result in Hop. destruct (objects s !! id0) as [k0|] eqn:Hk0; [|done].
  cbn [mbind option_bind] in Hop. destruct (m (world_of s k0)) as [[a w']|] eqn:Hm; [|done].
  injection Hop as <-. split; [done|]. intros id k'. cbn. destruct (decide (id = id0)) as [->|Hid].
  - rewrite lookup_insert_eq. intros [= <-]. by eapply H0.
  - rewrite lookup_insert_ne by done. intros Hk. apply (origin_old _ _ _ _ k'); auto using touched_refl.
Qed.

Lemma server_op_origin op s s' :
  server_ok s -> enabled op s -> server_op op s = Some s' ->
  (next_id s <= next_id s')%nat /\ forall id k', objects s' !! id = Some k' -> session_origin s op id k'.
Proof.
  intros Hok He Hop.
  assert (Hold : forall id k k', objects s !! id = Some k -> touched k k' ->
    (forall data, op <> OpData id data) -> session_origin s op id k') by (intros; by eapply origin_old).
  destruct op as [now|id0 addr fc|id0 data|id0|id0|now|t|]; cbn [enabled server_op] in *.
  - rewrite He in Hop. injection Hop as <-. split; [cbn; lia|]. intros id k'. cbn.
    destruct (decide (id = next_id s)) as [->|Hid].
    + rewrite lookup_insert_eq. intros [= <-]. by eapply origin_new.
    + rewrite lookup_insert_ne by done. intros Hk. eapply Hold; eauto using touched_refl; done.
  - destruct (call_origin _ _ _ _ (OpWire id0 addr fc) Hop) as [-> Hall]; [|done|by auto].
    intros k Hk a w' [= _ <-]. eapply Hold; [done| |done]. by split_and!.
  - destruct (call_origin _ _ _ _ (OpData id0 data) Hop) as [-> Hall]; [|congruence|by auto].
    intros k Hk a w' Hon. eapply origin_data; [done..| |done].
    destruct (onData_run data (world_of s k)) as (w1 & Hon1 & _); [exact (sv_sessions s Hok _ _ Hk)|apply He..|].
    rewrite Hon in Hon1 |- *. congruence.
  - destruct (call_origin _ _ _ _ (OpClose id0) Hop) as [-> Hall]; [|done|by auto].
    intros k Hk a w' [= _ <-]. eapply Hold; [done| |done]. by split_and!.
  - unfold release, drop_result in Hop. destruct He as [k0 Hk0]. rewrite Hk0 in Hop. injection Hop as <-.
    split; [done|]. intros id k'. cbn. intros [_ Hk]%lookup_delete_Some. eapply Hold; eauto using touched_refl; done.
  - destruct (Update_run now s Hok) as (objs & Hr & Hobjs). rewrite Hr in Hop. injection Hop as <-.
    split; [done|]. intros id k'. cbn. rewrite Hobjs. case_decide.
    + intros (k & Hk & ->)%fmap_Some. eapply Hold; eauto using touched_expired; done.
    + intros Hk. eapply Hold; eauto using touched_refl; done.
  - injection Hop as <-. split; [done|]. intros id k' Hk. eapply Hold; eauto using touched_refl; done.
  - injection Hop as <-. split; [done|]. intros id k' Hk. eapply Hold; eauto using touched_refl; done.
Qed.

Lemma delivered_other id ops op : (forall data, op <> OpData id data) -> delivered id (ops ++ [op]) = delivered id ops.
Proof.
  intros Hne. rewrite delivered_app. replace (delivered id [op]) with (@nil Z); [apply app_nil_r|].
  unfold delivered. cbn [mbind list_bind]. destruct op as [| |i data| | | | |]; try done.
  rewrite decide_False; [done|]. intros ->. by eapply Hne.
Qed.

Lemma run_inv_step s0 ops s op s' :
  server_run s0 ops s -> run_inv s0 ops s -> enabled op s -> server_op op s = Some s' ->
  run_inv s0 (ops ++ [op]) s'.
Proof.
  intros Hrun [Hok Hs Hf] He Hop.
  destruct (server_op_ok op s Hok He) as (s1 & Hs1 & Hok'). rewrite Hop in Hs1. injection Hs1 as <-.
  destruct (server_op_origin op s s' Hok He Hop) as [Hnext Horigin]. split; [done| |].
  - intros id k' Hk'. apply (accounted_mono (witnessed s0 ops id)); [intros ??; apply witnessed_app|].
    destruct (Horigin id k' Hk') as [now -> -> ->|data k w' -> Hk Hon ->|k Hk (Ht1 & Ht2 & Ht3) Hne].
    + rewrite delivered_other, Hf by done. by exists [], [].
    + destruct He as [_ Hd].
      destruct (accounted_onData s0 ops s id k data) as (w1 & Hon1 & Ha); auto; [exact (sv_sessions s Hok _ _ Hk)|].
      rewrite Hon in Hon1. injection Hon1 as <-. rewrite delivered_app.
      unfold delivered at 2. cbn [mbind list_bind]. by rewrite decide_True, app_nil_r.
    + rewrite delivered_other by done. eapply accounted_same; eauto.
  - intros id Hid. rewrite delivered_other; [apply Hf; lia|]. intros data ->. destruct He as [[k Hk] _].
    destruct (sv_fresh s Hok id); [lia|congruence].
Qed.

Lemma server_run_inv s0 ops s : server_ok s0 -> objects s0 = ∅ -> server_run s0 ops s -> run_inv s0 ops s.
Proof.
  intros Hok H0. induction 1 as [|ops s1 op s2 Hrun IH He Hop]; [|by eapply run_inv_step].
  split; [done| |done]. intros id k. by rewrite H0.
Qed.

Lemma run_op_run s0 ops s op :
  server_ok s0 -> objects s0 = ∅ -> server_run s0 ops s -> enabled op s ->
  server_run s0 (ops ++ [op]) (run_op op s).
Proof.
  intros Hok H0 Hrun He. destruct (server_run_inv s0 ops s Hok H0 Hrun) as [Hok' _ _].
  destruct (server_op_ok op s Hok' He) as (s' & Hs & _). unfold run_op. rewrite Hs. by eapply run_next.
Qed.

End ServerEvidence.

(** ** Property *)

(** C2. Nobody is authenticated without a proof: on a server with any number of sessions over
    one database, in any interleaving, a session that is authenticated has received, as the
    first bytes of its own connection, a challenge frame and right after it a proof frame.
    Either the challenge named an account that was neither banned nor locked out in the
    database as it was then, and the proof is the SRP6 proof for that account's verifier and
    this session's own random exponent, or the challenge named an account with a stored
    session key, and the proof is the digest over that key and this session's random
    challenge.  In the first case the session key is the one of the exchange. *)
Theorem server_authentication_sound `{RealmdEnv} {L : RealmdLaws} start port ip timeout policy (s0 s1 s : Server)
    (ops : list ServerOp) (id : nat) (k : AuthSocket) :
  idle s0 -> Start start port ip timeout policy s0 = (true, s1) -> server_run s1 ops s ->
  objects s !! id = Some k -> _status k = STATUS_AUTHED ->
  exists ch pf rest, delivered id ops = ch ++ pf ++ rest /\
    (challenged (witnessed s1 ops id) k ch /\ proven k pf \/
     recalled (witnessed s1 ops id) k ch /\ reproven k pf).
Proof.
  intros Hi Hst Hrun Hk Hs. destruct (started_ok _ _ _ _ _ _ _ _ Hi Hst) as [Hok H0].
  destruct (ri_sessions _ _ _ (server_run_inv s1 ops s Hok H0 Hrun) id k Hk) as (past & tl & -> & He & _).
  unfold evidence in He. rewrite Hs in He. destruct He as (ch & pf & rest & -> & He).
  exists ch, pf, (rest ++ tl). by rewrite <- !app_assoc.
Qed.

(** ** A concrete run: two sessions, one of which reconnects with a stored key *)

Section SampleEvidence.
#[local] Existing Instances sample_Env sample_Laws.

Definition sample_keyed : Server :=
  mkServer ∅ 0 false [] 30 PatchPolicy_default
    (mkSampleDb sample_account (str "ALICE") (str "C0FFEE") 0 sample_rows : db) 1 [] 0 0
    (mkRealmList RealmSnapshot_empty (mkGate 0 0 false)) 1000.

Lemma sample_keyed_idle : idle sample_keyed.
Proof. by split_and!. Qed.

Definition sample_stored : Server := (Start (fun _ _ => true) 3724 [] 30 PatchPolicy_default sample_keyed).2.

Definition sample_offered (s : Server) : Server :=
  run_op (OpData 1 (2 :: drop 1 sample_challenge)) (run_op (OpData 0 (take 9 sample_challenge))
    (run_op (OpWire 1 (str "10.0.0.8") None) (run_op (OpAccept 0) (run_op (OpWire 0 (str "10.0.0.9") None)
      (run_op (OpAccept 0) s))))).

(** The client's answer to the challenge it was sent. *)
Definition sample_answer (s : Server) : bytes :=
  match objects s !! 1%nat with
  | Some k => [3] ++ (replicate 16 7 ++ reconnect_digest (str "ALICE") (SetBinary (replicate 16 7)) (_reconnectProof k)
                 (SetHexStr (str "C0FFEE")) ++ replicate 20 0) ++ [0]
  | None => []
  end.

Definition sample_reconnected : Server :=
  run_op (OpData 1 (sample_answer (sample_offered sample_stored))) (sample_offered sample_stored).

Lemma sample_reconnected_authed : _status <$> objects sample_reconnected !! 1%nat = Some STATUS_AUTHED.
Proof. by vm_compute. Qed.

Example sample_other_session : _status <$> objects sample_reconnected !! 0%nat = Some STATUS_CHALLENGE.
Proof. by vm_compute. Qed.

Definition sample_ops : list ServerOp :=
  [OpAccept 0; OpWire 0 (str "10.0.0.9") None; OpAccept 0; OpWire 1 (str "10.0.0.8") None;
   OpData 0 (take 9 sample_challenge); OpData 1 (2 :: drop 1 sample_challenge);
   OpData 1 (sample_answer (sample_offered sample_stored))].

Lemma sample_run : server_run sample_stored sample_ops sample_reconnected.
Proof.
  destruct (started_ok (fun _ _ => true) 3724 [] 30 PatchPolicy_default sample_keyed true sample_stored
    sample_keyed_idle eq_refl) as [Hok H0].
  pose proof (fun ops s op => run_op_run sample_stored ops s op Hok H0) as Hnext.
  unfold sample_ops, sample_reconnected.
  change [OpAccept 0; OpWire 0 (str "10.0.0.9") None; OpAccept 0; OpWire 1 (str "10.0.0.8") None;
    OpData 0 (take 9 sample_challenge); OpData 1 (2 :: drop 1 sample_challenge);
    OpData 1 (sample_answer (sample_offered sample_stored))] with
    (((((((([] ++ [OpAccept 0]) ++ [OpWire 0 (str "10.0.0.9") None]) ++ [OpAccept 0]) ++
      [OpWire 1 (str "10.0.0.8") None]) ++ [OpData 0 (take 9 sample_challenge)]) ++
      [OpData 1 (2 :: drop 1 sample_challenge)]) ++
      [OpData 1 (sample_answer (sample_offered sample_stored))])).
  repeat first [apply Hnext | apply run_start].
  all: unfold sample_offered; cbn [enabled].
  all: match goal with
    | |- listening _ = true => by vm_compute
    | |- is_Some _ => by apply (bool_decide_unpack (is_Some _)); vm_compute
    | |- _ /\ chunk_ok _ => split; [by apply (bool_decide_unpack (is_Some _)); vm_compute|];
        split; [by apply (bool_decide_unpack _); vm_compute|by vm_compute]
    end.
Qed.

Lemma server_authentication_sound_witness :
  exists k, objects sample_reconnected !! 1%nat = Some k /\ _status k = STATUS_AUTHED /\
  exists ch pf rest, delivered 1 sample_ops = ch ++ pf ++ rest /\
    (challenged (witnessed sample_stored sample_ops 1) k ch /\ proven k pf \/
     recalled (witnessed sample_stored sample_ops 1) k ch /\ reproven k pf).
Proof.
  destruct (proj1 (fmap_Some _ _ _) sample_reconnected_authed) as (k & Hk & Hs). exists k.
  split; [exact Hk|]. split; [exact (eq_sym Hs)|].
  exact (server_authentication_sound (fun _ _ => true) 3724 [] 30 PatchPolicy_default sample_keyed
    sample_stored sample_reconnected sample_ops 1 k sample_keyed_idle eq_refl sample_run Hk (eq_sym Hs)).
Defined.

End SampleEvidence.
