(* ===== verification/CommandLine.v ===== *)
(** * The command line of the daemon (src/Main.cpp: the option loop of [main], [usage])

    Both builds: the options of the Windows service and those of the POSIX daemon.  What
    the parser prints and where it waits for a key is part of its result. *)

From S2P Require Import Prelude.

Local Open Scope Z_scope.
Local Open Scope realmd_scope.

(** The build, and what the generated revision header says.  [WIN32] and [_WIN32] are
    defined together. *)
Class Platform : Type := {
  WIN32 : bool;
  GetProjectRevision : bytes
}.

(** What goes to the log or to the standard output, and
    [Log::WaitBeforeContinueIfNeed]. *)
Inductive Line : Type :=
| LogError (text : bytes)
| LogString (text : bytes)
| Printf (text : bytes)
| Wait.

Definition lf : bytes := [10].
Definition lfcr : bytes := [10; 13].

(** *** The parser

    [argv] without the program name, each argument as the bytes of its C string. *)

Inductive CommandLine : Type :=
| Proceed (cfg_file : bytes) (serviceDaemonMode : Z)
| Return (out : list Line) (code : Z).

Section Parser.
Context `{PF : Platform}.

Definition usage (prog : bytes) : bytes :=
  str "Usage: " ++ lf ++ str " " ++ prog ++ str " [<options>]" ++ lf ++
  str "    -v, --version            print version and exist" ++ lfcr ++
  str "    -c config_file           use config_file as configuration file" ++ lfcr ++
  (if WIN32 then
     str "    Running as service functions:" ++ lfcr ++
     str "    -s run                   run as service" ++ lfcr ++
     str "    -s install               install service" ++ lfcr ++
     str "    -s uninstall             uninstall service" ++ lfcr
   else
     str "    Running as daemon functions:" ++ lfcr ++
     str "    -s run                   run as daemon" ++ lfcr ++
     str "    -s stop                  stop daemon" ++ lfcr).

(** The three calls that precede every [return 1] of the loop. *)
Definition complain (prog text : bytes) : CommandLine :=
  Return [LogError (str "Runtime-Error: " ++ text); LogString (usage prog); Wait] 1.

Definition print_version : CommandLine := Return [Printf (GetProjectRevision ++ lf)] 0.

(** The value of an option, and the arguments after it; [None] is [nullptr]. *)
Definition takeArg (attached : bytes) (rest : list bytes) : option (bytes * list bytes) :=
  match attached, rest with
  | _ :: _, _ => Some (attached, rest)
  | [], v :: rest' => Some (v, rest')
  | [], [] => None
  end.

Definition missing_value (opt : Z) : bytes := str "-" ++ [opt] ++ str " option requires an input argument".

(** The argument of [-s]. *)
Definition service_mode (mode : bytes) : option Z :=
  if decide (mode = str "run") then Some 114
  else if WIN32 then
    if decide (mode = str "install") then Some 105
    else if decide (mode = str "uninstall") then Some 117 else None
  else if decide (mode = str "stop") then Some 115 else None.

(** The loop over the arguments; an iteration takes at least one. *)
Fixpoint ParseArgs (fuel : nat) (prog : bytes) (args : list bytes) (cfg_file : bytes) (serviceDaemonMode : Z)
    : option CommandLine :=
  match fuel, args with
  | _, [] => Some (Proceed cfg_file serviceDaemonMode)
  | O, _ => None
  | S fuel, arg :: rest =>
      if decide (arg = str "--version") then Some print_version else
      match arg with
      | c0 :: opt :: attached =>
          if negb (c0 =? 45) then Some (complain prog (str "bad format of commandline arguments"))
          else if opt =? 118 then Some print_version
          else if opt =? 99 then
            match takeArg attached rest with
            | None => Some (complain prog (missing_value opt))
            | Some (val, rest') => ParseArgs fuel prog rest' val serviceDaemonMode
            end
          else if opt =? 115 then
            match takeArg attached rest with
            | None => Some (complain prog (missing_value opt))
            | Some (mode, rest') =>
                match service_mode mode with
                | Some m => ParseArgs fuel prog rest' cfg_file m
                | None => Some (complain prog (str "-" ++ [opt] ++ str " unsupported argument " ++ mode))
                end
            end
          else Some (complain prog (str "bad format of commandline arguments"))
      | _ => Some (complain prog (str "bad format of commandline arguments"))
      end
  end.

Definition ParseCommandLine (location prog : bytes) (args : list bytes) : option CommandLine :=
  ParseArgs (length args) prog args location 0.

(** *** The options, without the parser *)

Inductive CliOption : Type :=
| SetConfig (file : bytes)
| SetMode (mode : Z).

Inductive mode_text : Z -> bytes -> Prop :=
| mode_run : mode_text 114 (str "run")
| mode_install : WIN32 = true -> mode_text 105 (str "install")
| mode_uninstall : WIN32 = true -> mode_text 117 (str "uninstall")
| mode_stop : WIN32 = false -> mode_text 115 (str "stop").

Inductive spelled : CliOption -> list bytes -> Prop :=
| config_attached f : f <> [] -> spelled (SetConfig f) [str "-c" ++ f]
| config_separate f : spelled (SetConfig f) [str "-c"; f]
| mode_attached m t : mode_text m t -> spelled (SetMode m) [str "-s" ++ t]
| mode_separate m t : mode_text m t -> spelled (SetMode m) [str "-s"; t].

Inductive spelled_all : list CliOption -> list bytes -> Prop :=
| spelled_nil : spelled_all [] []
| spelled_cons o a opts args : spelled o a -> spelled_all opts args -> spelled_all (o :: opts) (a ++ args).

(** The last option of each kind wins. *)
Definition settle (cm : bytes * Z) (o : CliOption) : bytes * Z :=
  match o with SetConfig f => (f, cm.2) | SetMode m => (cm.1, m) end.

Definition settings (location : bytes) (opts : list CliOption) : bytes * Z :=
  fold_left settle opts (location, 0).

Definition asks_version (arg : bytes) : Prop :=
  arg = str "--version" \/ exists t, arg = str "-v" ++ t.

Implicit Types (args rest : list bytes) (cm : bytes * Z).

Lemma service_mode_text mode m : service_mode mode = Some m <-> mode_text m mode.
Proof.
  unfold service_mode. split.
  - destruct (decide (mode = str "run")) as [->|]; [intros [= <-]; constructor|].
    destruct WIN32 eqn:?; repeat case_decide; intros [= <-]; subst mode; by constructor.
  - intros [|H|H|H]; try rewrite H; by repeat (rewrite decide_False by done).
Qed.

Lemma ParseArgs_option fuel prog o a rest cm :
  spelled o a ->
  ParseArgs (S fuel) prog (a ++ rest) cm.1 cm.2 = ParseArgs fuel prog rest (settle cm o).1 (settle cm o).2.
Proof.
  destruct cm as [c m]. intros [f Hf|f|m' t Ht|m' t Ht]; try apply service_mode_text in Ht as Hm;
    cbn [ParseArgs app]; (rewrite decide_False by done).
  - by destruct f.
  - done.
  - assert (Hne : t <> []) by by destruct Ht. clear Ht. destruct t; [done|]. cbn -[service_mode]. by rewrite Hm.
  - cbn -[service_mode]. by rewrite Hm.
Qed.

Lemma takeArg_shorter att rest v rest' :
  takeArg att rest = Some (v, rest') -> (length rest' <= length rest)%nat.
Proof.
  destruct att as [|x att]; cbn; [|by intros [= <- <-]].
  destruct rest; [done|]. intros [= -> ->]. cbn. lia.
Qed.

Lemma ParseArgs_fuel n m prog args c s :
  (length args <= n)%nat -> (length args <= m)%nat -> ParseArgs n prog args c s = ParseArgs m prog args c s.
Proof.
  revert m args c s. induction n as [|n IH]; intros [|m] [|arg rest] c s Hn Hm; cbn in Hn, Hm; try lia; try done.
  cbn [ParseArgs]. case_decide; [done|]. destruct arg as [|c0 [|opt att]]; [done..|].
  destruct (takeArg att rest) as [[v rest']|] eqn:E; [|done]. pose proof (takeArg_shorter _ _ _ _ E).
  rewrite (IH m rest' v s) by lia. destruct (service_mode v); [|done]. by rewrite (IH m) by lia.
Qed.

(** What a result says about the arguments read so far. *)
Definition explains (prog : bytes) args cm (r : CommandLine) : Prop :=
  exists opts pre rest, args = pre ++ rest /\ spelled_all opts pre /\
    match r with
    | Proceed f m => rest = [] /\ (f, m) = fold_left settle opts cm
    | Return out code => (exists text, r = complain prog text) \/
        r = print_version /\ exists v rest', rest = v :: rest' /\ asks_version v
    end.

Lemma explains_complaint prog args cm text : explains prog args cm (complain prog text).
Proof. exists [], [], args. split; [done|]. split; [constructor|left; by eexists]. Qed.

Lemma explains_version prog v rest cm : asks_version v -> explains prog (v :: rest) cm print_version.
Proof. intros Hv. exists [], [], (v :: rest). split; [done|]. split; [constructor|right]. eauto 6. Qed.

Lemma explains_option prog o a args cm r :
  spelled o a -> explains prog args (settle cm o) r -> explains prog (a ++ args) cm r.
Proof.
  intros Ho (opts & pre & rest & -> & Hs & Hr). exists (o :: opts), (a ++ pre), rest.
  split; [by rewrite app_assoc|]. split; [by constructor|]. by destruct r.
Qed.

Lemma takeArg_spelled opt att rest v rest' :
  takeArg att rest = Some (v, rest') ->
  (att = v /\ v <> [] /\ (45 :: opt :: att) :: rest = [[45; opt] ++ v] ++ rest') \/
  (45 :: opt :: att) :: rest = [[45; opt]; v] ++ rest'.
Proof.
  destruct att as [|x att]; cbn.
  - destruct rest; [done|]. intros [= <- <-]. by right.
  - intros [= <- <-]. left. done.
Qed.

Lemma ParseArgs_explains fuel prog args c m :
  (length args <= fuel)%nat -> exists r, ParseArgs fuel prog args c m = Some r /\ explains prog args (c, m) r.
Proof.
  revert args c m. induction fuel as [|fuel IH]; intros [|arg rest] c m Hf; cbn in Hf; try lia.
  1, 2: by (eexists; split; [done|]; exists [], [], []; repeat constructor).
  assert (H1 : forall text, exists r, Some (complain prog text) = Some r /\ explains prog (arg :: rest) (c, m) r)
    by (intros text; eexists; split; [done|apply explains_complaint]).
  cbn [ParseArgs]. case_decide as Hv.
  { eexists. split; [done|]. apply explains_version. by left. }
  destruct arg as [|c0 [|opt att]]; [apply H1..|].
  destruct (Z.eqb_spec c0 45) as [->|]; [|apply H1]. cbn [negb].
  destruct (Z.eqb_spec opt 118) as [->|].
  { eexists. split; [done|]. apply explains_version. right. by exists att. }
  destruct (Z.eqb_spec opt 99) as [->|]; [|destruct (Z.eqb_spec opt 115) as [->|]; [|apply H1]];
    (destruct (takeArg att rest) as [[v rest']|] eqn:E; [|apply H1]; pose proof (takeArg_shorter _ _ _ _ E)).
  - destruct (IH rest' v m) as (r & -> & Hr); [lia|]. exists r. split; [done|].
    destruct (takeArg_spelled 99 _ _ _ _ E) as [(_ & Hne & ->)| ->];
      apply (explains_option _ (SetConfig v)); done || by constructor.
  - destruct (service_mode v) as [m'|] eqn:Em; [apply service_mode_text in Em|apply H1].
    destruct (IH rest' c m') as (r & -> & Hr); [lia|]. exists r. split; [done|].
    destruct (takeArg_spelled 115 _ _ _ _ E) as [(_ & Hne & ->)| ->];
      apply (explains_option _ (SetMode m')); done || by constructor.
Qed.

(** Options first, then whatever follows. *)
Lemma ParseArgs_spelled opts prog pre rest cm :
  spelled_all opts pre ->
  ParseArgs (length (pre ++ rest)) prog (pre ++ rest) cm.1 cm.2 =
  ParseArgs (length rest) prog rest (fold_left settle opts cm).1 (fold_left settle opts cm).2.
Proof.
  intros Hs. revert cm. induction Hs as [|o a opts args Ho Hs IH]; intros cm; [done|].
  cbn [fold_left]. rewrite <- IH, <- app_assoc.
  assert (0 < length a)%nat by by (destruct Ho; cbn; lia).
  destruct (length (a ++ args ++ rest)) as [|n] eqn:Hn; [rewrite length_app in Hn; lia|].
  rewrite (ParseArgs_option n prog o a) by done. apply ParseArgs_fuel; rewrite ?length_app in *; lia.
Qed.

Lemma ParseArgs_version fuel prog v rest c m :
  asks_version v -> ParseArgs (S fuel) prog (v :: rest) c m = Some print_version.
Proof. intros [->|[t ->]]; cbn [ParseArgs]; [done|]. case_decide; done. Qed.

Lemma ParseCommandLine_total location prog args : exists r, ParseCommandLine location prog args = Some r.
Proof. destruct (ParseArgs_explains (length args) prog args location 0) as (r & ? & _); eauto. Qed.

End Parser.

(** ** Property *)

(** C37. The command line: the parser always ends, on both platforms.  The daemon goes on
    exactly when the arguments are a sequence of [-c] and [-s] options, each value attached
    or in the next argument, and the last option of a kind wins; it prints its version and
    returns 0 exactly when [--version] or [-v...] follows such a sequence; in every other
    case it returns 1 after an error and the usage text, never silently. *)
Theorem command_line_exact `{Platform} (location prog : bytes) (args : list bytes) :
  exists r, ParseCommandLine location prog args = Some r /\
    (forall f m, r = Proceed f m <->
       exists opts, spelled_all opts args /\ settings location opts = (f, m)) /\
    (r = print_version <->
       exists opts pre v rest, args = pre ++ v :: rest /\ spelled_all opts pre /\ asks_version v) /\
    ((exists f m, r = Proceed f m) \/ r = print_version \/ exists text, r = complain prog text).
Proof.
  destruct (ParseArgs_explains (length args) prog args location 0 ltac:(lia)) as (r & Hr & Hex).
  exists r. split; [done|]. split; [|split].
  - intros f m. split.
    + intros ->. destruct Hex as (opts & pre & rest & -> & Hs & -> & Hf). exists opts. by rewrite app_nil_r.
    + intros (opts & Hs & Hf). pose proof (ParseArgs_spelled opts prog args [] (location, 0) Hs) as Hp.
      rewrite app_nil_r in Hp. cbn [fst snd] in Hp. rewrite Hr in Hp. unfold settings in Hf.
      rewrite Hf in Hp. cbn in Hp. congruence.
  - split.
    + intros ->. destruct Hex as (opts & pre & rest & -> & Hs & [[? ?]|(_ & v & rest' & -> & Hv)]); [done|eauto 8].
    + intros (opts & pre & v & rest & -> & Hs & Hv).
      pose proof (ParseArgs_spelled opts prog pre (v :: rest) (location, 0) Hs) as Hp.
      cbn [length] in Hp. rewrite ParseArgs_version in Hp by done. cbn [fst snd] in Hp. congruence.
  - destruct r as [f m|out code]; [by eauto|]. destruct Hex as (_ & _ & _ & _ & _ & [?|[? _]]); auto.
Qed.

Section SampleCommandLine.
#[local] Instance posix : Platform := {| WIN32 := false; GetProjectRevision := str "MaNGOS" |}.
#[local] Instance windows : Platform := {| WIN32 := true; GetProjectRevision := str "MaNGOS" |}.

Example sample_command_line :
  let parse := fun pf => @ParseCommandLine pf [] (str "realmd") in
  parse posix [str "-c"; str "a.conf"; str "-srun"; str "-cb.conf"] = Some (Proceed (str "b.conf") 114) /\
  parse posix [str "-s"; str "install"] = Some (@complain posix (str "realmd") (str "-s unsupported argument install")) /\
  parse windows [str "-s"; str "install"] = Some (Proceed [] 105) /\
  parse windows [str "-c"] = Some (@complain windows (str "realmd") (str "-c option requires an input argument")).
Proof. by vm_compute. Qed.

End SampleCommandLine.
