(* ===== verification/Daemon.v ===== *)
(** * The start-up of the daemon (src/Main.cpp: [main] up to its loop, [StartDB],
    [HookSignals], [UnhookSignals], [LoadScheduledExitConfig])

    Both builds.  What the process asks of the rest of the system is recorded as a list of
    events in the order it happens: one constructor per call with an effect outside, one
    value of [DaemonError] per [sLog.outError]; informational log lines are left out. *)

From stdpp Require Import gmap.
From S2P Require Import Prelude PatchPolicy RealmList PatchArtifact Interfaces Samples CommandLine.

Local Open Scope Z_scope.
Local Open Scope realmd_scope.

#[local] Set Warnings "-clear-no-such-hyp".

(** ** What the process uses *)

(** The scheduled-exit helpers. *)
Class ScheduledExit : Type := {
  sched_state : Type;
  sched_state_new : sched_state;
  tm : Type;
  safe_localtime : Z -> tm;
  SCHEDULED_EXIT_MODE_RESTART : Z;
  ParseScheduledExitUInt32 : bytes -> option Z;
  ParseScheduledExitTime : bytes -> option (Z * Z);
  ParseScheduledExitMode : bytes -> option Z
}.

Record ScheduledExitSchedule : Type := mkSchedule {
  sx_enabled : bool;
  sx_dayOfWeek : Z;
  sx_hour : Z;
  sx_minute : Z;
  sx_mode : Z
}.

(** The listening server, as the process sees it: [net_start] is the engine's answer to
    whether the port could be bound. *)
Class AuthServerOps `{RealmdEnv} : Type := {
  server : Type;
  server_new : db -> RealmListState -> server;
  server_Start : (Z -> bytes -> bool) -> Z -> bytes -> Z -> PatchPolicy -> server -> bool * server;
  server_Update : Z -> M server unit;
  server_Stop : server -> server;
  server_GetConnectionCount : server -> Z;
  server_GetAuthWaitingCount : server -> Z
}.

(** What the process relies on: a started server is in order, stays in order whatever the
    engine does to it between two sweeps ([server_activity]), and can always be swept. *)
Class AuthServerLaws `{AuthServerOps} : Type := {
  server_inv : server -> Prop;
  server_activity : server -> server -> Prop;
  server_Start_bound : forall net port ip timeout policy s,
    (server_Start net port ip timeout policy s).1 = net port ip;
  server_Start_inv : forall net port ip timeout policy d rl, net port ip = true ->
    server_inv (server_Start net port ip timeout policy (server_new d rl)).2;
  server_Update_inv : forall now s, server_inv s ->
    exists s', server_Update now s = Some (tt, s') /\ server_inv s';
  server_activity_inv : forall s s', server_inv s -> server_activity s s' -> server_inv s'
}.

(** [startDaemon] and [stopDaemon] may end the process themselves, with the given code. *)
Class DaemonEnv : Type := {
  de_env :: RealmdEnv;
  de_platform :: Platform;
  de_exit :: ScheduledExit;
  de_server :: AuthServerOps;
  ScheduledExitSchedule_new : ScheduledExitSchedule;
  MarkScheduledExitHandledIfMatching : ScheduledExitSchedule -> tm -> sched_state -> bool * sched_state;
  CheckAndMarkScheduledExit : ScheduledExitSchedule -> tm -> sched_state -> bool * sched_state;
  REALMD_CONFIG_LOCATION : bytes;
  REALMD_CONFIG_NAME : bytes;
  REALMD_CONFIG_VERSION : Z;
  DEFAULT_REALMSERVER_PORT : Z;
  MINUTE : Z;
  SetSource : bytes -> bool;
  startDaemon : option Z;
  stopDaemon : option Z;
  WinServiceInstall : bool;
  WinServiceUninstall : bool;
  CreatePIDFile : bytes -> Z;
  db_Initialize : bytes -> bool;
  CheckDatabaseVersion : bool;
  net_start : Z -> bytes -> bool;
  GetProcessAffinityMask : option Z;
  SetProcessAffinityMask : Z -> bool;
  SetPriorityClass : bool
}.

(** One per [sLog.outError] of the process, with what it reports. *)
Inductive DaemonError : Type :=
| ErrConfig (file : bytes)
| ErrOutdated
| ErrScheduleDay (text : bytes)
| ErrScheduleTime (text : bytes)
| ErrScheduleMode (text : bytes)
| ErrPidFile (file : bytes)
| ErrNoDatabase
| ErrConnect
| ErrNoRealms
| ErrTimeout
| ErrForceBuilds
| ErrBind (port : Z)
| ErrProcessors (aff appAff : Z)
| ErrSetProcessors (curAff : Z)
| ErrPriority.

(** What the process did. *)
Inductive DaemonEvent : Type :=
| DevOut (l : Line)
| DevError (e : DaemonError)
| DevWait
| DevServiceInstall
| DevServiceUninstall
| DevServiceRun
| DevDaemonStart
| DevDaemonStop
| DevPidFile (file : bytes)
| DevConnect (info : bytes)
| DevHaltDelayThread
| DevRealmList
| DevExpireBans
| DevStart (port : Z) (bindIp : bytes) (timeout : Z) (policy : PatchPolicy)
| DevSignal (s : Z) (hook : bool)
| DevAffinity (mask : Z)
| DevPriority
| DevAllowAsync
| DevDetach
| DevUpdate
| DevFlush
| DevPing
| DevTitle (text : bytes)
| DevSleep
| DevStop.

#[export] Instance PatchPolicy_eq_dec : EqDecision PatchPolicy.
Proof. solve_decision. Defined.

#[export] Instance Line_eq_dec : EqDecision Line.
Proof. solve_decision. Defined.

#[export] Instance DaemonError_eq_dec : EqDecision DaemonError.
Proof. solve_decision. Defined.

#[export] Instance DaemonEvent_eq_dec : EqDecision DaemonEvent.
Proof. solve_decision. Defined.

Definition SIGINT : Z := 2.
Definition SIGTERM : Z := 15.
Definition SIGBREAK : Z := 21.

Section Process.
Context `{DENV : DaemonEnv}.

(** The globals of Main.cpp and the locals of [main] that outlive a statement; [p_server]
    is the local [authServer], [p_hooked] the signals with a handler installed. *)
Record Process : Type := mkProcess {
  p_log : list DaemonEvent;
  p_db : db;
  p_time : Z;
  p_realms : RealmListState;
  p_server : option server;
  p_hooked : gset Z;
  stopEvent : bool;
  exitCode : Z;
  s_scheduledExit : ScheduledExitSchedule;
  s_scheduledExitState : sched_state;
  loopCounter : Z;
  logFlushCounter : Z;
  titleUpdateCounter : Z;
  s_lastTitle : bytes
}.

#[export] Instance Process_updatable : Updatable Process :=
  Rebuild _ (fun p => mkProcess (p_log p) (p_db p) (p_time p) (p_realms p) (p_server p) (p_hooked p)
    (stopEvent p) (exitCode p) (s_scheduledExit p) (s_scheduledExitState p) (loopCounter p)
    (logFlushCounter p) (titleUpdateCounter p) (s_lastTitle p)).

Definition did (e : DaemonEvent) : M Process unit := modify (fun p => p <| p_log := p_log p ++ [e] |>).

Fixpoint did_all (es : list DaemonEvent) : M Process unit :=
  match es with [] => retM tt | e :: es' => did e ;; did_all es' end.

Definition logged (es : list DaemonEvent) (p : Process) : Process := p <| p_log := p_log p ++ es |>.

End Process.

(** Run the primitive steps on an explicit process. *)
Ltac process_cbv :=
  cbv [bindM modify gets did retM liftO logged upd p_log p_db p_time p_realms p_server p_hooked stopEvent
    exitCode s_scheduledExit s_scheduledExitState loopCounter logFlushCounter titleUpdateCounter s_lastTitle].

Section Daemon.
Context `{DENV : DaemonEnv}.

(** An error, a wait for the operator, and [return 1]. *)
Definition fail_with (e : DaemonError) : M Process (option Z) :=
  did (DevError e) ;; did DevWait ;; retM (Some 1).

(** ** The scheduled exit *)

Definition REALMD_SHUTDOWN_EXIT_CODE : Z := 0.
Definition REALMD_RESTART_EXIT_CODE : Z := 2.

Definition LoadScheduledExitConfig : M Process unit :=
  modify (fun p => p <| s_scheduledExit := ScheduledExitSchedule_new |>
                     <| s_scheduledExitState := sched_state_new |>) ;;
  if negb (GetBoolDefault "ScheduledExit.Enable" false) then retM tt else
  let dayText := GetStringDefault "ScheduledExit.DayOfWeek" (str "3") in
  match ParseScheduledExitUInt32 dayText with
  | None => did (DevError (ErrScheduleDay dayText))
  | Some dayOfWeek =>
      if 6 <? dayOfWeek then did (DevError (ErrScheduleDay dayText)) else
      let timeText := GetStringDefault "ScheduledExit.Time" (str "05:00") in
      match ParseScheduledExitTime timeText with
      | None => did (DevError (ErrScheduleTime timeText))
      | Some (hour, minute) =>
          let modeText := GetStringDefault "ScheduledExit.Mode" (str "restart") in
          match ParseScheduledExitMode modeText with
          | None => did (DevError (ErrScheduleMode modeText))
          | Some mode =>
              modify (fun p =>
                let sx := mkSchedule true dayOfWeek hour minute mode in
                let r := MarkScheduledExitHandledIfMatching sx (safe_localtime (p_time p))
                           (s_scheduledExitState p) in
                p <| s_scheduledExit := sx |> <| s_scheduledExitState := r.2 |>)
          end
      end
  end.

(** ** Start-up *)

Definition StartDB : M Process bool :=
  let dbstring := GetStringDefault "LoginDatabaseInfo" [] in
  if decide (dbstring = []) then did (DevError ErrNoDatabase) ;; retM false else
  did (DevConnect dbstring) ;;
  if negb (db_Initialize dbstring) then did (DevError ErrConnect) ;; retM false else
  if negb CheckDatabaseVersion then did DevHaltDelayThread ;; retM false else
  retM true.

Definition InitRealmList : M Process unit := fun p =>
  let '(rows, d) := PQuery SelRealmList (p_db p) in
  rl ← Initialize (default [] rows) (u32 (GetIntDefault "RealmsStateUpdateDelay" 20)) (p_time p) (p_realms p);
  Some (tt, p <| p_db := d |> <| p_realms := rl |> <| p_log := p_log p ++ [DevRealmList] |>).

(** [signal(s, OnSignal)] and [signal(s, 0)]. *)
Definition signal (s : Z) (hook : bool) : M Process unit :=
  modify (fun p => p <| p_hooked := if hook then {[s]} ∪ p_hooked p else p_hooked p ∖ {[s]} |>) ;;
  did (DevSignal s hook).

Definition HookSignals : M Process unit :=
  signal SIGINT true ;; signal SIGTERM true ;; if WIN32 then signal SIGBREAK true else retM tt.

Definition UnhookSignals : M Process unit :=
  signal SIGINT false ;; signal SIGTERM false ;; if WIN32 then signal SIGBREAK false else retM tt.

(** The block on processor affinity and priority. *)
Definition UseProcessors : M Process unit :=
  let Aff := u32 (GetIntDefault "UseProcessors" 0) in
  if 0 <? Aff then
    match GetProcessAffinityMask with
    | None => retM tt
    | Some appAff =>
        let curAff := Z.land Aff appAff in
        if curAff =? 0 then did (DevError (ErrProcessors Aff appAff)) else
        did (DevAffinity curAff) ;;
        if SetProcessAffinityMask curAff then retM tt else did (DevError (ErrSetProcessors curAff))
    end
  else retM tt.

Definition RaisePriority : M Process unit :=
  if GetBoolDefault "ProcessPriority" false then
    did DevPriority ;; if SetPriorityClass then retM tt else did (DevError ErrPriority)
  else retM tt.

Definition AuthTimeoutSeconds : Z :=
  let configuredAuthTimeout := GetIntDefault "AuthSessionTimeout" 30 in
  if configuredAuthTimeout <? 0 then 30 else u32 configuredAuthTimeout.

(** [authServer.Stop()]; the destructor calls it again. *)
Definition StopServer : M Process unit :=
  modify (fun p => p <| p_server := server_Stop <$> p_server p |>) ;; did DevStop.

Definition DestroyServer : M Process unit :=
  StopServer ;; modify (fun p => p <| p_server := None |>).

(** [None] goes on to the main loop, [Some code] is [return code]. *)
Definition LaunchServer : M Process (option Z) :=
  let rmport := u16 (GetIntDefault "RealmServerPort" DEFAULT_REALMSERVER_PORT) in
  let bindIp := GetStringDefault "BindIP" (str "0.0.0.0") in
  (if GetIntDefault "AuthSessionTimeout" 30 <? 0 then did (DevError ErrTimeout) else retM tt) ;;
  match Parse (GetBoolDefault "Patch.Enable" true) (GetStringDefault "Patch.ForceBuilds" []) with
  | None => did (DevError ErrForceBuilds) ;; retM (Some 1)
  | Some patchPolicy =>
      p <-- gets id ;;
      let r := server_Start net_start rmport bindIp AuthTimeoutSeconds patchPolicy
                 (server_new (p_db p) (p_realms p)) in
      modify (fun p => p <| p_server := Some r.2 |>) ;;
      did (DevStart rmport bindIp AuthTimeoutSeconds patchPolicy) ;;
      if negb r.1 then
        did (DevError (ErrBind rmport)) ;; did DevWait ;; DestroyServer ;; retM (Some 1)
      else
      HookSignals ;;
      (if WIN32 then UseProcessors ;; RaisePriority else retM tt) ;;
      did DevAllowAsync ;;
      modify (fun p => p <| loopCounter := 0 |> <| logFlushCounter := 0 |>) ;;
      (if WIN32 then retM tt else did DevDetach) ;;
      retM None
  end.

(** The warning about an old configuration file. *)
Definition CheckConfVersion : M Process unit :=
  if u32 (GetIntDefault "ConfVersion" 0) <? REALMD_CONFIG_VERSION
  then did (DevError ErrOutdated) ;; did DevWait else retM tt.

(** The PID file; [false] is [return 1]. *)
Definition WritePidFile : M Process bool :=
  let pidfile := GetStringDefault "PidFile" [] in
  if decide (pidfile = []) then retM true else
  did (DevPidFile pidfile) ;;
  if CreatePIDFile pidfile =? 0
  then did (DevError (ErrPidFile pidfile)) ;; did DevWait ;; retM false
  else retM true.

(** The clean-up transaction. *)
Definition ExpireBans : M Process unit :=
  modify (fun p => p <| p_db := PExecute ExpireIpBans (PExecute ExpireAccountBans (p_db p)) |>) ;;
  did DevExpireBans.

Definition InitData : M Process (option Z) :=
  CheckConfVersion ;;
  LoadScheduledExitConfig ;;
  pid <-- WritePidFile ;;
  if negb pid then retM (Some 1) else
  ok <-- StartDB ;;
  if negb ok then did DevWait ;; retM (Some 1) else
  InitRealmList ;;
  n <-- gets (fun p => RealmList_size (p_realms p)) ;;
  if n =? 0 then fail_with ErrNoRealms else
  ExpireBans ;;
  LaunchServer.

(** The service commands of the Windows build, before the configuration is read, and the
    daemon commands of the POSIX build, after it. *)
Definition ServiceCommand (serviceDaemonMode : Z) : M Process (option Z) :=
  if negb WIN32 then retM None else
  if serviceDaemonMode =? 105 then
    did DevServiceInstall ;;
    (if WinServiceInstall then did (DevOut (LogString (str "Installing service"))) else retM tt) ;;
    retM (Some 1)
  else if serviceDaemonMode =? 117 then
    did DevServiceUninstall ;;
    (if WinServiceUninstall then did (DevOut (LogString (str "Uninstalling service"))) else retM tt) ;;
    retM (Some 1)
  else if serviceDaemonMode =? 114 then did DevServiceRun ;; retM None
  else retM None.

Definition Daemonize (serviceDaemonMode : Z) : M Process (option Z) :=
  if WIN32 then retM None else
  if serviceDaemonMode =? 114 then did DevDaemonStart ;; retM startDaemon
  else if serviceDaemonMode =? 115 then did DevDaemonStop ;; retM stopDaemon
  else retM None.

(** [cfg_file], then the file of that name in the current folder. *)
Definition FindConfig (cfg_file : bytes) : bool := SetSource cfg_file || SetSource REALMD_CONFIG_NAME.

(** Everything of [main] before its loop. *)
Definition Startup (prog : bytes) (args : list bytes) : M Process (option Z) :=
  cl <-- liftO (ParseCommandLine REALMD_CONFIG_LOCATION prog args) ;;
  match cl with
  | Return out code => did_all (DevOut <$> out) ;; retM (Some code)
  | Proceed cfg_file serviceDaemonMode =>
      ended <-- ServiceCommand serviceDaemonMode ;;
      match ended with
      | Some code => retM (Some code)
      | None =>
          if negb (FindConfig cfg_file) then fail_with (ErrConfig cfg_file) else
          ended <-- Daemonize serviceDaemonMode ;;
          match ended with
          | Some code => retM (Some code)
          | None => InitData
          end
      end
  end.

(** ** What each step does *)

Lemma logged_nil p : logged [] p = p.
Proof. unfold logged. rewrite app_nil_r. by destruct p. Qed.

Lemma logged_app es1 es2 p : logged es2 (logged es1 p) = logged (es1 ++ es2) p.
Proof. unfold logged. cbn. by rewrite app_assoc. Qed.

Lemma did_run e p : did e p = Some (tt, logged [e] p).
Proof. done. Qed.

Lemma did_all_run es p : did_all es p = Some (tt, logged es p).
Proof.
  revert p. induction es as [|e es IH]; intros p; cbn [did_all]; [by rewrite logged_nil|].
  unfold bindM. rewrite did_run, IH. by rewrite logged_app.
Qed.

Lemma bind_did {A} e (m : M Process A) p : (did e ;; m) p = m (logged [e] p).
Proof. done. Qed.

Definition cfg_port : Z := u16 (GetIntDefault "RealmServerPort" DEFAULT_REALMSERVER_PORT).
Definition cfg_bindIp : bytes := GetStringDefault "BindIP" (str "0.0.0.0").
Definition cfg_policy : option PatchPolicy :=
  Parse (GetBoolDefault "Patch.Enable" true) (GetStringDefault "Patch.ForceBuilds" []).
Definition cfg_database : bytes := GetStringDefault "LoginDatabaseInfo" [].
Definition cfg_pidfile : bytes := GetStringDefault "PidFile" [].

Definition pid_ok : bool := bool_decide (cfg_pidfile = []) || negb (CreatePIDFile cfg_pidfile =? 0).
Definition database_ok : bool :=
  negb (bool_decide (cfg_database = [])) && db_Initialize cfg_database && CheckDatabaseVersion.

Definition outdated_events : list DaemonEvent :=
  if u32 (GetIntDefault "ConfVersion" 0) <? REALMD_CONFIG_VERSION then [DevError ErrOutdated; DevWait] else [].
Definition pid_events : list DaemonEvent :=
  if decide (cfg_pidfile = []) then [] else [DevPidFile cfg_pidfile].
Definition pid_failure : list DaemonEvent := [DevError (ErrPidFile cfg_pidfile); DevWait].

(** Why the database cannot be used. *)
Definition database_failure : list DaemonEvent :=
  if decide (cfg_database = []) then [DevError ErrNoDatabase]
  else DevConnect cfg_database ::
       if db_Initialize cfg_database then [DevHaltDelayThread] else [DevError ErrConnect].

Definition timeout_events : list DaemonEvent :=
  if GetIntDefault "AuthSessionTimeout" 30 <? 0 then [DevError ErrTimeout] else [].

Definition hook_events (hook : bool) : list DaemonEvent :=
  [DevSignal SIGINT hook; DevSignal SIGTERM hook] ++ if WIN32 then [DevSignal SIGBREAK hook] else [].

Definition hooked : gset Z := {[SIGINT; SIGTERM]} ∪ if WIN32 then {[SIGBREAK]} else ∅.

Definition affinity_events : list DaemonEvent :=
  let Aff := u32 (GetIntDefault "UseProcessors" 0) in
  match (if 0 <? Aff then GetProcessAffinityMask else None) with
  | None => []
  | Some appAff =>
      if Z.land Aff appAff =? 0 then [DevError (ErrProcessors Aff appAff)]
      else DevAffinity (Z.land Aff appAff) ::
           if SetProcessAffinityMask (Z.land Aff appAff) then []
           else [DevError (ErrSetProcessors (Z.land Aff appAff))]
  end.

Definition priority_events : list DaemonEvent :=
  if GetBoolDefault "ProcessPriority" false
  then DevPriority :: if SetPriorityClass then [] else [DevError ErrPriority] else [].

(** The start of the listener and what follows it. *)
Definition start_event (policy : PatchPolicy) : DaemonEvent :=
  DevStart cfg_port cfg_bindIp AuthTimeoutSeconds policy.

Definition launch_events (policy : PatchPolicy) : list DaemonEvent :=
  start_event policy :: hook_events true ++ (if WIN32 then affinity_events ++ priority_events else []) ++
  [DevAllowAsync] ++ (if WIN32 then [] else [DevDetach]).

Lemma CheckConfVersion_run p : CheckConfVersion p = Some (tt, logged outdated_events p).
Proof.
  unfold CheckConfVersion, outdated_events. destruct (_ <? _); [|by rewrite logged_nil].
  by rewrite bind_did, did_run, logged_app.
Qed.

Lemma WritePidFile_run p :
  WritePidFile p = Some (pid_ok, logged (pid_events ++ if pid_ok then [] else pid_failure) p).
Proof.
  unfold WritePidFile, pid_ok, pid_events, pid_failure. fold cfg_pidfile.
  destruct (decide (cfg_pidfile = [])) as [E|E].
  { rewrite bool_decide_true by done. by rewrite logged_nil. }
  rewrite bool_decide_false by done. rewrite bind_did. destruct (_ =? 0); [|done].
  by rewrite !bind_did, !logged_app.
Qed.

Lemma StartDB_run p :
  StartDB p = Some (database_ok, logged (if database_ok then [DevConnect cfg_database] else database_failure) p).
Proof.
  unfold StartDB, database_ok, database_failure. fold cfg_database.
  destruct (decide (cfg_database = [])) as [E|E].
  { by rewrite bool_decide_true by done. }
  rewrite bool_decide_false by done. rewrite bind_did.
  destruct (db_Initialize cfg_database), CheckDatabaseVersion; cbn [negb andb]; rewrite ?bind_did, ?logged_app; done.
Qed.

(** The realms the process starts with. *)
Definition first_realms (p : Process) : RealmSnapshot :=
  default RealmSnapshot_empty (BuildSnapshot (default [] (PQuery SelRealmList (p_db p)).1)).

Definition realms_ok (p : Process) : bool :=
  negb (u32 (Z.of_nat (size (realms (first_realms p)))) =? 0).

Lemma InitRealmList_run p : exists d rl, InitRealmList p =
  Some (tt, logged [DevRealmList] (p <| p_db := d |> <| p_realms := rl |>)) /\
  m_snapshots rl = first_realms p.
Proof.
  unfold InitRealmList, first_realms, Initialize. destruct (PQuery SelRealmList (p_db p)) as [rows d].
  cbn [fst]. unfold BuildSnapshot.
  destruct (AddRows_total (default [] rows) RealmSnapshot_empty) as [snap ->]. by eexists _, _.
Qed.

Lemma HookSignals_run p :
  HookSignals p = Some (tt, logged (hook_events true) (p <| p_hooked := hooked ∪ p_hooked p |>)).
Proof.
  unfold HookSignals, signal, hook_events, hooked. destruct p as [l d t rl sv hk stop code sx st lc fc tc ti].
  destruct WIN32; process_cbv; rewrite <- ?app_assoc; do 3 f_equal; set_solver.
Qed.

Lemma UnhookSignals_run p :
  UnhookSignals p = Some (tt, logged (hook_events false) (p <| p_hooked := p_hooked p ∖ hooked |>)).
Proof.
  unfold UnhookSignals, signal, hook_events, hooked. destruct p as [l d t rl sv hk stop code sx st lc fc tc ti].
  destruct WIN32; process_cbv; rewrite <- ?app_assoc; do 3 f_equal; set_solver.
Qed.

Lemma UseProcessors_run p : UseProcessors p = Some (tt, logged affinity_events p).
Proof.
  unfold UseProcessors, affinity_events. destruct (0 <? _); [|by rewrite logged_nil].
  destruct GetProcessAffinityMask as [appAff|]; [|by rewrite logged_nil].
  destruct (_ =? 0); [done|]. rewrite bind_did. destruct (SetProcessAffinityMask _); [done|].
  by rewrite did_run, logged_app.
Qed.

Lemma RaisePriority_run p : RaisePriority p = Some (tt, logged priority_events p).
Proof.
  unfold RaisePriority, priority_events. destruct (GetBoolDefault _ _); [|by rewrite logged_nil].
  rewrite bind_did. destruct SetPriorityClass; [done|]. by rewrite did_run, logged_app.
Qed.

(** *** The schedule *)

Definition schedule_wanted : bool := GetBoolDefault "ScheduledExit.Enable" false.
Definition day_text : bytes := GetStringDefault "ScheduledExit.DayOfWeek" (str "3").
Definition time_text : bytes := GetStringDefault "ScheduledExit.Time" (str "05:00").
Definition mode_text_cfg : bytes := GetStringDefault "ScheduledExit.Mode" (str "restart").

(** The day, the time and the mode the configuration names, all of them valid. *)
Definition valid_settings (day hour minute mode : Z) : Prop :=
  ParseScheduledExitUInt32 day_text = Some day /\ day <= 6 /\
  ParseScheduledExitTime time_text = Some (hour, minute) /\
  ParseScheduledExitMode mode_text_cfg = Some mode.

(** The first setting that is invalid. *)
Inductive schedule_error : DaemonError -> Prop :=
| bad_day : (forall d, ParseScheduledExitUInt32 day_text = Some d -> 6 < d) ->
    schedule_error (ErrScheduleDay day_text)
| bad_time d : ParseScheduledExitUInt32 day_text = Some d -> d <= 6 ->
    ParseScheduledExitTime time_text = None -> schedule_error (ErrScheduleTime time_text)
| bad_mode d t : ParseScheduledExitUInt32 day_text = Some d -> d <= 6 ->
    ParseScheduledExitTime time_text = Some t -> ParseScheduledExitMode mode_text_cfg = None ->
    schedule_error (ErrScheduleMode mode_text_cfg).

Lemma schedule_error_invalid e : schedule_error e -> forall day hour minute mode, ~ valid_settings day hour minute mode.
Proof.
  intros He day hour minute mode (Hd & Hle & Ht & Hm).
  destruct He as [Hbad|d _ _ Hbad|d t _ _ _ Hbad]; [specialize (Hbad _ Hd); lia|congruence..].
Qed.

Lemma valid_settings_unique d h m mode d' h' m' mode' :
  valid_settings d h m mode -> valid_settings d' h' m' mode' -> mkSchedule true d' h' m' mode' = mkSchedule true d h m mode.
Proof. intros (Hd & _ & Ht & Hm) (Hd' & _ & Ht' & Hm'). simplify_eq. congruence. Qed.

(** What loading the configuration leaves: the schedule it describes, or the inert one and
    the error that says why. *)
Inductive schedule_loaded : ScheduledExitSchedule -> list DaemonEvent -> Prop :=
| schedule_off : schedule_wanted = false -> schedule_loaded ScheduledExitSchedule_new []
| schedule_invalid e : schedule_wanted = true -> schedule_error e ->
    schedule_loaded ScheduledExitSchedule_new [DevError e]
| schedule_on day hour minute mode : schedule_wanted = true -> valid_settings day hour minute mode ->
    schedule_loaded (mkSchedule true day hour minute mode) [].

(** An armed schedule starts with the present minute marked as handled. *)
Definition initial_state (t : Z) (sx : ScheduledExitSchedule) (es : list DaemonEvent) : sched_state :=
  match schedule_wanted, es with
  | true, [] => (MarkScheduledExitHandledIfMatching sx (safe_localtime t) sched_state_new).2
  | _, _ => sched_state_new
  end.

Lemma LoadScheduledExitConfig_run p : exists sx es,
  LoadScheduledExitConfig p =
    Some (tt, logged es (p <| s_scheduledExit := sx |> <| s_scheduledExitState := initial_state (p_time p) sx es |>)) /\
  schedule_loaded sx es.
Proof.
  unfold LoadScheduledExitConfig, initial_state. fold schedule_wanted day_text time_text mode_text_cfg.
  unfold bindM, modify. set (p1 := p <| s_scheduledExit := _ |> <| s_scheduledExitState := _ |>).
  destruct schedule_wanted eqn:Hw; cbn [negb].
  2:{ eexists _, []. rewrite logged_nil. split; [reflexivity|by constructor]. }
  destruct (ParseScheduledExitUInt32 day_text) as [d|] eqn:Hd.
  2:{ eexists _, [_]. split; [reflexivity|]. constructor; [done|]. constructor. congruence. }
  destruct (Z.ltb_spec 6 d).
  { eexists _, [_]. split; [reflexivity|]. constructor; [done|]. constructor. congruence. }
  destruct (ParseScheduledExitTime time_text) as [[h m]|] eqn:Ht.
  2:{ eexists _, [_]. split; [reflexivity|]. constructor; [done|]. by econstructor. }
  destruct (ParseScheduledExitMode mode_text_cfg) as [mode|] eqn:Hm.
  2:{ eexists _, [_]. split; [reflexivity|]. constructor; [done|]. by econstructor. }
  eexists _, []. rewrite logged_nil. split; [reflexivity|]. by constructor.
Qed.

(** *** The listener *)

Context {SLAWS : AuthServerLaws}.

Definition started (policy : PatchPolicy) (p : Process) : server :=
  (server_Start net_start cfg_port cfg_bindIp AuthTimeoutSeconds policy (server_new (p_db p) (p_realms p))).2.

Definition launch_ok : bool := match cfg_policy with Some _ => net_start cfg_port cfg_bindIp | None => false end.

(** Why it cannot be launched. *)
Definition launch_failure : list DaemonEvent :=
  match cfg_policy with
  | None => [DevError ErrForceBuilds]
  | Some policy => [start_event policy; DevError (ErrBind cfg_port); DevWait; DevStop]
  end.

(** The process as the loop finds it. *)
Definition running (policy : PatchPolicy) (p : Process) : Process :=
  p <| p_server := Some (started policy p) |> <| p_hooked := hooked ∪ p_hooked p |>
    <| loopCounter := 0 |> <| logFlushCounter := 0 |>.

Lemma LaunchServer_fails p : p_server p = None -> launch_ok = false ->
  LaunchServer p = Some (Some 1, logged (timeout_events ++ launch_failure) p).
Proof.
  intros Hp Hl. unfold LaunchServer, launch_failure, timeout_events, launch_ok in *.
  fold cfg_port cfg_bindIp cfg_policy. destruct cfg_policy as [policy|].
  2:{ destruct (_ <? 0); [|done]. unfold bindM at 1. rewrite did_run. by rewrite bind_did, logged_app. }
  destruct p as [l d t rl sv hk stop code sx st lc fc tc ti]. cbn in Hp. subst sv.
  pose proof (server_Start_bound net_start cfg_port cfg_bindIp AuthTimeoutSeconds policy) as Hb.
  unfold DestroyServer, StopServer.
  destruct (_ <? 0); process_cbv; rewrite Hb, Hl; cbn [negb]; by rewrite <- ?app_assoc.
Qed.

Lemma LaunchServer_runs p policy : cfg_policy = Some policy -> launch_ok = true ->
  LaunchServer p = Some (None, logged (timeout_events ++ launch_events policy) (running policy p)).
Proof.
  intros Hp Hl. unfold LaunchServer, launch_events, timeout_events, launch_ok in *.
  fold cfg_port cfg_bindIp cfg_policy. rewrite Hp in *.
  pose proof (server_Start_bound net_start cfg_port cfg_bindIp AuthTimeoutSeconds policy) as Hb.
  set (err := if _ <? 0 then [DevError ErrTimeout] else []).
  assert (Herr : (if GetIntDefault "AuthSessionTimeout" 30 <? 0 then did (DevError ErrTimeout) else retM tt) p =
    Some (tt, logged err p)) by (unfold err; destruct (_ <? 0); [done|by rewrite logged_nil]).
  unfold bindM at 1. rewrite Herr. unfold bindM at 1, gets. rewrite Hb, Hl. cbn [negb].
  unfold bindM at 1, modify at 1. rewrite bind_did.
  unfold bindM at 1. rewrite HookSignals_run. unfold bindM at 1.
  destruct WIN32.
  - unfold bindM at 1. rewrite UseProcessors_run, RaisePriority_run. rewrite bind_did.
    unfold running, started, id. destruct p. process_cbv. by rewrite <- ?app_assoc.
  - unfold retM at 1. rewrite bind_did.
    unfold running, started, id. destruct p. process_cbv. by rewrite <- ?app_assoc.
Qed.

(** *** The data *)

(** The process reached its loop: the listener runs and is in order, the termination
    signals are caught, the counters start at zero, the realm list is that of the database,
    and the schedule is the configured one. *)
Definition launched (p : Process) (sched : list DaemonEvent) (p' : Process) : Prop :=
  (exists s, p_server p' = Some s /\ server_inv s) /\ hooked ⊆ p_hooked p' /\
  m_snapshots (p_realms p') = first_realms p /\ schedule_loaded (s_scheduledExit p') sched /\
  loopCounter p' = 0 /\ logFlushCounter p' = 0 /\
  titleUpdateCounter p' = titleUpdateCounter p /\ s_lastTitle p' = s_lastTitle p /\
  stopEvent p' = stopEvent p /\ exitCode p' = exitCode p.

Definition data_ok (p : Process) : Prop :=
  pid_ok = true /\ database_ok = true /\ realms_ok p = true /\ launch_ok = true.

Definition data_events (sched : list DaemonEvent) (policy : PatchPolicy) : list DaemonEvent :=
  outdated_events ++ sched ++ pid_events ++ [DevConnect cfg_database; DevRealmList; DevExpireBans] ++
  timeout_events ++ launch_events policy.

(** The first thing that is missing, and what the process did until it noticed. *)
Inductive data_refused (rok : bool) : list DaemonEvent -> Prop :=
| refused_pid : pid_ok = false -> data_refused rok (pid_events ++ pid_failure)
| refused_database : pid_ok = true -> database_ok = false ->
    data_refused rok (pid_events ++ database_failure ++ [DevWait])
| refused_realms : pid_ok = true -> database_ok = true -> rok = false ->
    data_refused rok (pid_events ++ [DevConnect cfg_database; DevRealmList; DevError ErrNoRealms; DevWait])
| refused_launch : pid_ok = true -> database_ok = true -> rok = true -> launch_ok = false ->
    data_refused rok (pid_events ++ [DevConnect cfg_database; DevRealmList; DevExpireBans] ++
      timeout_events ++ launch_failure).

Lemma launch_ok_policy : launch_ok = true -> exists policy, cfg_policy = Some policy.
Proof. unfold launch_ok. destruct cfg_policy; [by eauto|done]. Qed.

(** A state that differs from [p] only in what loading the data sets. *)
Definition untouched (p p' : Process) : Prop :=
  p_server p' = p_server p /\ p_hooked p' = p_hooked p /\ stopEvent p' = stopEvent p /\ exitCode p' = exitCode p.

Lemma InitData_run p : p_server p = None -> exists r p' sched es,
  InitData p = Some (r, p') /\ p_log p' = p_log p ++ es /\
  ((r = None /\ data_ok p /\ launched p sched p' /\
    exists policy, cfg_policy = Some policy /\ es = data_events sched policy) \/
   (r = Some 1 /\ ~ data_ok p /\ untouched p p' /\ schedule_loaded (s_scheduledExit p') sched /\
    exists tail, data_refused (realms_ok p) tail /\ es = outdated_events ++ sched ++ tail)).
Proof.
  intros Hp. unfold InitData, data_ok. unfold bindM at 1. rewrite CheckConfVersion_run. unfold bindM at 1.
  destruct (LoadScheduledExitConfig_run (logged outdated_events p)) as (sx & sched & -> & Hsched).
  set (st := initial_state _ _ _). set (p1 := p <| s_scheduledExit := sx |> <| s_scheduledExitState := st |>).
  change (logged sched _) with (logged sched (logged outdated_events p1)).
  unfold bindM at 1. rewrite WritePidFile_run, !logged_app. destruct pid_ok eqn:Epid; cbn [negb].
  2:{ eexists _, _, sched, _. split; [reflexivity|]. split; [reflexivity|]. right.
      split_and!; try done; [intros (? & ? & ? & ?); congruence|]. eexists. split; [by constructor|by rewrite <- ?app_assoc]. }
  rewrite app_nil_r. unfold bindM at 1. rewrite StartDB_run, logged_app. destruct database_ok eqn:Edb; cbn [negb].
  2:{ rewrite bind_did, logged_app. eexists _, _, sched, _. split; [reflexivity|]. split; [reflexivity|]. right.
      split_and!; try done; [intros (? & ? & ? & ?); congruence|]. eexists. split; [by constructor|by rewrite <- ?app_assoc]. }
  unfold bindM at 1.
  set (p2 := logged _ p1). destruct (InitRealmList_run p2) as (d & rl & -> & Hrl).
  change (first_realms p2) with (first_realms p) in Hrl. set (p3 := logged [DevRealmList] _).
  unfold bindM at 1, gets. change (p_realms p3) with rl. unfold RealmList_size. rewrite Hrl.
  assert (Hrok : realms_ok p = negb (u32 (Z.of_nat (size (realms (first_realms p)))) =? 0)) by done.
  destruct (_ =? 0); cbn [negb] in Hrok.
  { unfold fail_with. rewrite !bind_did, !logged_app. eexists _, _, sched, _. split; [reflexivity|].
    split; [unfold p3, p2; cbn; rewrite <- !app_assoc; reflexivity|]. right.
    split_and!; try done; [intros (? & ? & ? & ?); congruence|]. eexists. split; [by constructor|done]. }
  unfold bindM at 1, ExpireBans. unfold bindM at 1, modify at 1. rewrite did_run.
  set (p4 := logged [DevExpireBans] _). destruct launch_ok eqn:El.
  - destruct (launch_ok_policy El) as (policy & Hpol). rewrite (LaunchServer_runs p4 policy Hpol El).
    eexists _, _, sched, _. split; [reflexivity|].
    split; [unfold p4, p3, p2; cbn; rewrite <- !app_assoc; reflexivity|]. left.
    split_and!; try done; [|by exists policy]. unfold launched. cbn. split_and!; try done.
    + eexists. split; [done|]. apply server_Start_inv. unfold launch_ok in El. by rewrite Hpol in El.
    + set_solver.
  - rewrite (LaunchServer_fails p4) by done. eexists _, _, sched, _. split; [reflexivity|].
    split; [unfold p4, p3, p2; cbn; rewrite <- !app_assoc; reflexivity|]. right.
    split_and!; try done; [intros (? & ? & ? & ?); congruence|]. eexists. split; [by constructor|done].
Qed.

(** *** The commands *)

Definition service_events (m : Z) : list DaemonEvent :=
  if negb WIN32 then [] else
  if m =? 105 then DevServiceInstall ::
    (if WinServiceInstall then [DevOut (LogString (str "Installing service"))] else [])
  else if m =? 117 then DevServiceUninstall ::
    (if WinServiceUninstall then [DevOut (LogString (str "Uninstalling service"))] else [])
  else if m =? 114 then [DevServiceRun] else [].

(** Installing and removing the service end the process. *)
Definition service_ends (m : Z) : bool := WIN32 && ((m =? 105) || (m =? 117)).

Definition daemon_events (m : Z) : list DaemonEvent :=
  if WIN32 then [] else
  if m =? 114 then [DevDaemonStart] else if m =? 115 then [DevDaemonStop] else [].

Definition daemon_ended (m : Z) : option Z :=
  if WIN32 then None else
  if m =? 114 then startDaemon else if m =? 115 then stopDaemon else None.

Lemma ServiceCommand_run m p :
  ServiceCommand m p = Some (if service_ends m then Some 1 else None, logged (service_events m) p).
Proof.
  unfold ServiceCommand, service_ends, service_events. destruct WIN32; cbn [negb andb]; [|by rewrite logged_nil].
  destruct (m =? 105); cbn [orb]; [|destruct (m =? 117); cbn [orb]; [|destruct (m =? 114)]].
  - rewrite bind_did. destruct WinServiceInstall; [|done]. by rewrite bind_did, logged_app.
  - rewrite bind_did. destruct WinServiceUninstall; [|done]. by rewrite bind_did, logged_app.
  - by rewrite bind_did.
  - by rewrite logged_nil.
Qed.

Lemma Daemonize_run m p : Daemonize m p = Some (daemon_ended m, logged (daemon_events m) p).
Proof.
  unfold Daemonize, daemon_ended, daemon_events. destruct WIN32; [by rewrite logged_nil|].
  destruct (m =? 114); [done|]. destruct (m =? 115); [done|]. by rewrite logged_nil.
Qed.

Definition command (prog : bytes) (args : list bytes) : option CommandLine :=
  ParseCommandLine REALMD_CONFIG_LOCATION prog args.

(** What the process needs to reach its loop. *)
Record requirements (prog : bytes) (args : list bytes) (p : Process) (m : Z) : Prop := {
  rq_command : exists f, command prog args = Some (Proceed f m) /\ FindConfig f = true;
  rq_service : service_ends m = false;
  rq_daemon : daemon_ended m = None;
  rq_data : data_ok p
}.

(** Why it stopped before, with the code it returns and everything it did. *)
Inductive startup_refused (prog : bytes) (args : list bytes) (p : Process) : Z -> list DaemonEvent -> Prop :=
| by_command_line out code : command prog args = Some (Return out code) ->
    startup_refused prog args p code (DevOut <$> out)
| by_service f m : command prog args = Some (Proceed f m) -> service_ends m = true ->
    startup_refused prog args p 1 (service_events m)
| by_config f m : command prog args = Some (Proceed f m) -> service_ends m = false -> FindConfig f = false ->
    startup_refused prog args p 1 (service_events m ++ [DevError (ErrConfig f); DevWait])
| by_daemon f m code : command prog args = Some (Proceed f m) -> service_ends m = false ->
    FindConfig f = true -> daemon_ended m = Some code ->
    startup_refused prog args p code (service_events m ++ daemon_events m)
| by_data f m sx sched tail : command prog args = Some (Proceed f m) -> service_ends m = false ->
    FindConfig f = true -> daemon_ended m = None -> schedule_loaded sx sched -> data_refused (realms_ok p) tail ->
    startup_refused prog args p 1 (service_events m ++ daemon_events m ++ outdated_events ++ sched ++ tail).

Lemma requirements_command prog args p m f m' :
  requirements prog args p m -> command prog args = Some (Proceed f m') -> m = m' /\ FindConfig f = true.
Proof. intros [(f' & Hf & Hs) _ _ _] Hp. rewrite Hp in Hf. by injection Hf as -> ->. Qed.

Lemma Startup_run prog args p : p_server p = None -> exists r p' es,
  Startup prog args p = Some (r, p') /\ p_log p' = p_log p ++ es /\
  match r with
  | None => exists m sched policy, requirements prog args p m /\ launched p sched p' /\
      cfg_policy = Some policy /\ es = service_events m ++ daemon_events m ++ data_events sched policy
  | Some code => startup_refused prog args p code es /\ untouched p p' /\
      forall m, ~ requirements prog args p m
  end.
Proof.
  intros Hp. unfold Startup. fold (command prog args).
  destruct (ParseCommandLine_total REALMD_CONFIG_LOCATION prog args) as [cl Hcl]. fold (command prog args) in Hcl.
  rewrite Hcl. unfold bindM at 1, liftO. destruct cl as [f m|out code].
  2:{ unfold bindM. rewrite did_all_run. eexists _, _, _. split; [reflexivity|]. split; [reflexivity|].
      split_and!; [by apply by_command_line|done|]. intros m [(f & Hf & _) _ _ _]. congruence. }
  assert (Hno : forall r, requirements prog args p r -> r = m /\ FindConfig f = true)
    by (intros r Hr; by apply (requirements_command prog args p r f m)).
  unfold bindM at 1. rewrite ServiceCommand_run. destruct (service_ends m) eqn:Hserv.
  { eexists _, _, _. split; [reflexivity|]. split; [reflexivity|]. split_and!; [by eapply by_service|done|].
    intros r Hr. destruct (Hno r Hr) as [-> _]. destruct Hr. congruence. }
  destruct (FindConfig f) eqn:Hcfg; cbn [negb].
  2:{ unfold fail_with. rewrite !bind_did, !logged_app. eexists _, _, _. split; [reflexivity|].
      split; [reflexivity|]. split_and!; [by eapply by_config|done|]. intros r Hr.
      destruct (Hno r Hr) as [_ ?]. done. }
  unfold bindM at 1. rewrite Daemonize_run, logged_app. destruct (daemon_ended m) as [code|] eqn:Hd.
  { eexists _, _, _. split; [reflexivity|]. split; [reflexivity|]. split_and!; [by eapply by_daemon|done|].
    intros r Hr. destruct (Hno r Hr) as [-> _]. destruct Hr. congruence. }
  set (p1 := logged _ p). destruct (InitData_run p1 Hp) as (r & p' & sched & es & -> & Hlog & Hcase).
  exists r, p', ((service_events m ++ daemon_events m) ++ es). split; [done|].
  split; [rewrite Hlog; change (p_log p1) with (p_log p ++ (service_events m ++ daemon_events m)); by rewrite <- app_assoc|].
  destruct Hcase as [(-> & Hok & Hl & policy & Hpol & ->)|(-> & Hok & Hu & Hs & tail & Ht & ->)].
  - exists m, sched, policy. rewrite app_assoc. split_and!; [|done..].
    split; [by exists f|done|done|exact Hok].
  - rewrite <- app_assoc. split_and!; [by eapply by_data|done|].
    intros r Hr. apply Hok. by destruct Hr.
Qed.

End Daemon.

(** ** Properties *)

(** C32. Start-up: it always comes to an end, and the daemon reaches its main loop exactly
    when its requirements hold: a valid command line that is not a service command, a
    configuration file, a process that the daemon helper lets go on, the PID file, a
    database of the right version, at least one realm, a valid patch policy and a port
    that can be bound.  Then the listener runs and is in order, the termination signals are
    caught, and everything was done in one fixed order: database, realm list, expired bans,
    listener, signals, asynchronous requests. *)
Theorem startup_exact `{DaemonEnv} {SL : AuthServerLaws} (prog : bytes) (args : list bytes) (p : Process) :
  p_server p = None ->
  exists r p' es, Startup prog args p = Some (r, p') /\ p_log p' = p_log p ++ es /\
    (r = None <-> exists m, requirements prog args p m) /\
    (r = None -> exists m sched policy, requirements prog args p m /\ launched p sched p' /\
       cfg_policy = Some policy /\ es = service_events m ++ daemon_events m ++ data_events sched policy).
Proof.
  intros Hp. destruct (Startup_run prog args p Hp) as (r & p' & es & Hrun & Hlog & Hcase).
  exists r, p', es. split_and!; [done..| |].
  - destruct r; split; [done| |by destruct Hcase as (m & ? & ? & ? & _); eauto|done].
    intros [m Hm]. destruct Hcase as (_ & _ & Hno). by destruct (Hno m).
  - by intros ->.
Qed.

(** C33. Failed start-ups: whenever the process returns before its loop, there is one reason,
    the first missing requirement, and what it did is exactly the work up to it and what
    belongs to the reason: for a command line that ends the program (an error, the usage or
    the version) its output, with its code; for a Windows service command the command
    alone; for a daemon helper that ends the process the call of the helper, with its code; for a
    missing configuration file, a PID file that cannot be written, no database setting, a
    database that cannot be reached or a list without realms the error and a wait for the
    operator; for a database of the wrong version the halt of its delay thread and the wait;
    for an invalid patch policy the error without a wait; for a port that cannot be
    bound the error, the wait and the stop of the server.  Except for the command line and
    the helper the code is 1.  No listener is left running, no signal handler is installed and
    the stop flag is as it was. *)
Theorem startup_failure `{DaemonEnv} {SL : AuthServerLaws} (prog : bytes) (args : list bytes) (p : Process) :
  p_server p = None -> (forall m, ~ requirements prog args p m) ->
  exists code p' es, Startup prog args p = Some (Some code, p') /\ p_log p' = p_log p ++ es /\
    startup_refused prog args p code es /\
    p_server p' = None /\ p_hooked p' = p_hooked p /\ stopEvent p' = stopEvent p.
Proof.
  intros Hp Hno. destruct (Startup_run prog args p Hp) as (r & p' & es & Hrun & Hlog & Hcase).
  destruct r as [code|]; [|by destruct Hcase as (m & ? & ? & Hm & _); destruct (Hno m)].
  destruct Hcase as (Href & (Hsv & Hhk & Hst & _) & _). exists code, p', es. by rewrite Hsv, Hhk, Hst.
Qed.

(** C36. The scheduled exit: it is armed exactly when it is enabled and its day (at most 6), time and
    mode are all valid, and then it is the configured one, with the present minute marked as
    handled if it matches; a schedule that is not armed is the inert one with a new state,
    either because it is disabled, which is not reported, or because a setting is invalid,
    which is reported once, for the first of the three that is wrong.  Nothing else of the
    process changes. *)
Theorem scheduled_exit_configuration `{DaemonEnv} (p : Process) :
  sx_enabled ScheduledExitSchedule_new = false ->
  exists sx st es,
    LoadScheduledExitConfig p =
      Some (tt, logged es (p <| s_scheduledExit := sx |> <| s_scheduledExitState := st |>)) /\
    (sx_enabled sx = true <-> schedule_wanted = true /\ exists day hour minute mode, valid_settings day hour minute mode) /\
    (forall day hour minute mode, schedule_wanted = true -> valid_settings day hour minute mode ->
       sx = mkSchedule true day hour minute mode /\ es = [] /\
       st = (MarkScheduledExitHandledIfMatching sx (safe_localtime (p_time p)) sched_state_new).2) /\
    (sx_enabled sx = false -> sx = ScheduledExitSchedule_new /\ st = sched_state_new /\
       (schedule_wanted = false /\ es = [] \/
        schedule_wanted = true /\ exists e, es = [DevError e] /\ schedule_error e)).
Proof.
  intros Hnew. destruct (LoadScheduledExitConfig_run p) as (sx & es & -> & Hs).
  eexists sx, _, es. split; [reflexivity|]. unfold initial_state.
  destruct Hs as [Hw|e Hw He|day hour minute mode Hw Hv]; rewrite ?Hnew, Hw.
  - split_and!; [split; [done|by intros [? _]]|done|]. intros _. by split_and!; [..|left].
  - pose proof (schedule_error_invalid _ He) as Hno. split_and!.
    + split; [done|]. by intros (_ & ? & ? & ? & ? & ?%Hno).
    + by intros ? ? ? ? _ ?%Hno.
    + intros _. split_and!; [done..|]. right. by eauto.
  - split_and!; [|by intros ? ? ? ? _ Hv'; rewrite (valid_settings_unique _ _ _ _ _ _ _ _ Hv Hv')|done].
    split; [by eauto 10|done].
Qed.

(** ** A concrete process *)

Section SampleDaemon.

(** The defaults, but for a database to connect to. *)
Definition daemon_Config : ConfigUtil := {|
  GetIntDefault := fun _ dflt => dflt;
  GetBoolDefault := fun key dflt => if decide (key = "ScheduledExit.Enable"%string) then true else dflt;
  GetStringDefault := fun key dflt =>
    if decide (key = "LoginDatabaseInfo"%string) then str "localhost" else dflt;
  GetLocaleByName := fun _ => 0;
  IsIPAddrInNetwork := fun a c m => Z.land a m =? Z.land c m;
  GetAddressString := fun a p => to_string a ++ str ":" ++ to_string p
|}.

Definition daemon_sample_Env : RealmdEnv := {|
  env_bn := sample_BN; env_sha := sample_Sha1; env_buffer := sample_Buffer; env_db := sample_Db;
  env_config := daemon_Config; env_realm := sample_RealmEnv; env_md5 := sample_Md5;
  env_fs := fun _ => None
|}.

Definition sample_Exit : ScheduledExit := {|
  sched_state := bool; sched_state_new := false; tm := Z; safe_localtime := fun t => t;
  SCHEDULED_EXIT_MODE_RESTART := 1;
  ParseScheduledExitUInt32 := fun _ => Some 3;
  ParseScheduledExitTime := fun _ => Some (5, 0);
  ParseScheduledExitMode := fun _ => Some 1
|}.

(** A server that only counts its sweeps. *)
Definition sample_Server : AuthServerOps (H := daemon_sample_Env) :=
  @Build_AuthServerOps daemon_sample_Env Z (fun _ _ => 0) (fun net port ip _ _ s => (net port ip, s))
    (fun _ s => Some (tt, s + 1)) (fun s => s) (fun s => s) (fun _ => 0).

Definition sample_ServerLaws : AuthServerLaws (H0 := sample_Server).
Proof.
  unshelve econstructor; [exact (fun _ => True)|exact (fun _ _ => True)|..]; cbn; eauto.
Defined.

Definition sample_Daemon (win : bool) : DaemonEnv := {|
  de_env := daemon_sample_Env; de_exit := sample_Exit; de_server := sample_Server;
  de_platform := {| WIN32 := win; GetProjectRevision := str "MaNGOS" |};
  ScheduledExitSchedule_new := mkSchedule false 0 0 0 0;
  MarkScheduledExitHandledIfMatching := fun _ _ st => (false, st);
  CheckAndMarkScheduledExit := fun sx t st => (t =? 7, t =? 7);
  REALMD_CONFIG_LOCATION := str "/etc/realmd.conf"; REALMD_CONFIG_NAME := str "realmd.conf";
  REALMD_CONFIG_VERSION := 0; DEFAULT_REALMSERVER_PORT := 3724; MINUTE := 60;
  SetSource := fun _ => true; startDaemon := None; stopDaemon := Some 0;
  WinServiceInstall := true; WinServiceUninstall := true;
  CreatePIDFile := fun _ => 1; db_Initialize := fun _ => true; CheckDatabaseVersion := true;
  net_start := fun _ _ => true;
  GetProcessAffinityMask := Some 15; SetProcessAffinityMask := fun _ => true; SetPriorityClass := true
|}.

Definition sample_process (win : bool) : @Process (sample_Daemon win) :=
  @mkProcess (sample_Daemon win) [] sample_db0 0 (mkRealmList RealmSnapshot_empty (mkGate 0 0 false)) None ∅
    false 0 (mkSchedule false 0 0 0 0) false 0 0 0 [].

(** The sample has what it needs on the POSIX build; on the other a service command ends it. *)
Lemma sample_requirements : @requirements (sample_Daemon false) (str "realmd") [] (sample_process false) 0.
Proof.
  split; [by eexists|done|done|]. unfold data_ok. split_and!; by vm_compute.
Qed.

Lemma startup_exact_witness :
  exists r p' es, @Startup (sample_Daemon false) (str "realmd") [] (sample_process false) = Some (r, p') /\
    p_log p' = [] ++ es /\
    (r = None <-> exists m, @requirements (sample_Daemon false) (str "realmd") [] (sample_process false) m) /\
    (r = None -> exists m sched policy,
       @requirements (sample_Daemon false) (str "realmd") [] (sample_process false) m /\
       @launched (sample_Daemon false) sample_ServerLaws (sample_process false) sched p' /\
       @cfg_policy (sample_Daemon false) = Some policy /\
       es = @service_events (sample_Daemon false) m ++ @daemon_events (sample_Daemon false) m ++
            @data_events (sample_Daemon false) sched policy).
Proof.
  apply (@startup_exact (sample_Daemon false) sample_ServerLaws (str "realmd") [] (sample_process false)).
  reflexivity.
Defined.

Lemma startup_failure_witness :
  exists code p' es,
    @Startup (sample_Daemon true) (str "realmd") [str "-s"; str "install"] (sample_process true) =
      Some (Some code, p') /\ p_log p' = [] ++ es /\
    @startup_refused (sample_Daemon true) (str "realmd") [str "-s"; str "install"] (sample_process true) code es /\
    p_server p' = None /\ p_hooked p' = ∅ /\ stopEvent p' = false.
Proof.
  apply (@startup_failure (sample_Daemon true) sample_ServerLaws (str "realmd") [str "-s"; str "install"]
    (sample_process true)); [reflexivity|].
  intros m [(f & Hf & _) Hs _ _]. vm_compute in Hf. injection Hf as <- <-. by vm_compute in Hs.
Defined.

Lemma scheduled_exit_configuration_witness :
  exists sx st es,
    @LoadScheduledExitConfig (sample_Daemon false) (sample_process false) =
      Some (tt, logged es ((sample_process false) <| s_scheduledExit := sx |> <| s_scheduledExitState := st |>)) /\
    sx = mkSchedule true 3 5 0 1 /\ es = [].
Proof.
  destruct (@scheduled_exit_configuration (sample_Daemon false) (sample_process false))
    as (sx & st & es & Hrun & _ & Hon & _); [reflexivity|].
  exists sx, st, es. split; [exact Hrun|].
  destruct (Hon 3 5 0 1) as (Hsx & Hes & _); [reflexivity|by split_and!|]. by split.
Defined.

End SampleDaemon.
