(* ===== verification/MainLoop.v ===== *)
(** * The housekeeping loop of the daemon and its end (src/Main.cpp: the loop of [main] and
    what follows it, [OnSignal], [CheckScheduledExit], [UpdateConsoleTitle])

    Both builds.  What happens outside during a pass - what the network threads do to the
    server, signals, the clocks, the service manager - is given by a [Tick]. *)

From stdpp Require Import gmap.
From S2P Require Import Prelude PatchPolicy RealmList PatchArtifact Interfaces Samples CommandLine Daemon.

Local Open Scope Z_scope.
Local Open Scope realmd_scope.

#[local] Set Warnings "-clear-no-such-hyp".

Section MainLoop.
Context `{DENV : DaemonEnv}.

(** ** One pass *)

(** [sConfig.GetIntDefault("MaxPingTime", 30) * (MINUTE * 1000000 / 100000)], converted to
    32 bits.  The product is one of signed integers: beyond 2^31 - 1 C++ leaves it undefined,
    and the value here is the one of wrapping arithmetic. *)
Definition numLoops : Z := u32 (GetIntDefault "MaxPingTime" 30 * (MINUTE * 1000000 `quot` 100000)).

(** A signal may arrive before the scheduled exit is looked at, or after it.
    [t_status] and [t_paused] are the values of [m_ServiceStatus] that the end of the pass
    reads: the test for a stopped service, then the tests of the loop that waits while the
    service is paused. *)
Record Tick : Type := mkTick {
  t_engine : server -> server;
  t_clock : Z;
  t_now : Z;
  t_signal : option Z;
  t_late : option Z;
  t_status : Z;
  t_paused : list Z
}.

Definition OnSignal (s : Z) : M Process unit :=
  (if (s =? SIGINT) || (s =? SIGTERM) then modify (fun p => p <| stopEvent := true |>)
   else if WIN32 && (s =? SIGBREAK) then modify (fun p => p <| stopEvent := true |>)
   else retM tt) ;;
  modify (fun p => p <| p_hooked := {[s]} ∪ p_hooked p |>).

(** The delivery of a signal.  The handler is removed when it is called, as [signal] does
    on Windows and on System V; without one the process would be killed. *)
Definition deliver (s : Z) : M Process unit := fun p =>
  if decide (s ∈ p_hooked p) then OnSignal s (p <| p_hooked := p_hooked p ∖ {[s]} |>) else None.

Definition signalled (s : option Z) : M Process unit :=
  match s with Some s => deliver s | None => retM tt end.

Definition CheckScheduledExit : M Process unit := fun p =>
  if negb (sx_enabled (s_scheduledExit p)) || stopEvent p then Some (tt, p) else
  let '(fire, st) := CheckAndMarkScheduledExit (s_scheduledExit p) (safe_localtime (p_time p))
                       (s_scheduledExitState p) in
  let p := p <| s_scheduledExitState := st |> in
  if negb fire then Some (tt, p) else
  Some (tt, p <| exitCode := if sx_mode (s_scheduledExit p) =? SCHEDULED_EXIT_MODE_RESTART
                             then REALMD_RESTART_EXIT_CODE else REALMD_SHUTDOWN_EXIT_CODE |>
              <| stopEvent := true |>).

(** [snprintf] into 128 bytes. *)
Definition console_title (authWaiting connections : Z) : bytes :=
  take 127 (str "MaNGOS Realm-Daemon (" ++ to_string authWaiting ++ str " Auth/Waiting - " ++
            to_string connections ++ str " Connections)").

Definition UpdateConsoleTitle (authWaiting connections : Z) : M Process unit :=
  let newTitle := console_title authWaiting connections in
  last <-- gets s_lastTitle ;;
  if decide (last = newTitle) then retM tt else
  modify (fun p => p <| s_lastTitle := newTitle |>) ;; did (DevTitle newTitle).

(** [authServer.Update()] *)
Definition UpdateServer (now : Z) : M Process unit := fun p =>
  s ← p_server p;
  '(_, s') ← server_Update now s;
  Some (tt, p <| p_server := Some s' |> <| p_log := p_log p ++ [DevUpdate] |>).

(** [while (m_ServiceStatus == 2) Sleep(1000);] *)
Fixpoint wait_while_paused (reads : list Z) : M Process unit :=
  match reads with
  | [] => undef
  | s :: reads' => if s =? 2 then did DevSleep ;; wait_while_paused reads' else retM tt
  end.

(** The part of the pass that only the Windows build has. *)
Definition windows_pass (t : Tick) : M Process unit :=
  modify (fun p => p <| titleUpdateCounter := u32 (titleUpdateCounter p + 1) |>) ;;
  c <-- gets titleUpdateCounter ;;
  (if 30 <=? c then
     modify (fun p => p <| titleUpdateCounter := 0 |>) ;;
     sv <-- gets p_server ;;
     match sv with
     | None => undef
     | Some s => UpdateConsoleTitle (server_GetAuthWaitingCount s) (server_GetConnectionCount s)
     end
   else retM tt) ;;
  (if t_status t =? 0 then modify (fun p => p <| stopEvent := true |>) else retM tt) ;;
  wait_while_paused (t_paused t).

Definition loop_pass (t : Tick) : M Process unit :=
  modify (fun p => p <| p_time := t_now t |> <| p_server := t_engine t <$> p_server p |>) ;;
  signalled (t_signal t) ;;
  UpdateServer (t_clock t) ;;
  modify (fun p => p <| logFlushCounter := u32 (logFlushCounter p + 1) |>) ;;
  f <-- gets logFlushCounter ;;
  (if 10 <=? f then modify (fun p => p <| logFlushCounter := 0 |>) ;; did DevFlush else retM tt) ;;
  modify (fun p => p <| loopCounter := u32 (loopCounter p + 1) |>) ;;
  c <-- gets loopCounter ;;
  (if c =? numLoops then modify (fun p => p <| loopCounter := 0 |>) ;; did DevPing else retM tt) ;;
  CheckScheduledExit ;;
  (if WIN32 then windows_pass t else retM tt) ;;
  signalled (t_late t).

(** The loop, for as long as the list of passes lasts; the result tells whether it was left. *)
Fixpoint main_loop (ticks : list Tick) : M Process bool :=
  stop <-- gets stopEvent ;;
  if (stop : bool) then retM true else
  match ticks with
  | [] => retM false
  | t :: rest => loop_pass t ;; main_loop rest
  end.

(** From the end of the loop to the end of [main], where the local server is destroyed. *)
Definition Shutdown : M Process Z :=
  StopServer ;; did DevHaltDelayThread ;; UnhookSignals ;; did DevFlush ;;
  code <-- gets exitCode ;;
  DestroyServer ;;
  retM code.

(** The whole of [main]: [None] while it is still running after the given passes. *)
Definition main (prog : bytes) (args : list bytes) (ticks : list Tick) : M Process (option Z) :=
  ended <-- Startup prog args ;;
  match ended with
  | Some code => retM (Some code)
  | None =>
      left <-- main_loop ticks ;;
      if (left : bool) then code <-- Shutdown ;; retM (Some code) else retM None
  end.

(** ** The counters of the loop *)

(** A counter of 32 bits meets 0 only by wrapping around. *)
Definition ping_period : Z := if numLoops =? 0 then 2 ^ 32 else numLoops.

(** What every build does in the [i]-th pass. *)
Definition pass_events (i : Z) : list DaemonEvent :=
  DevUpdate :: (if i mod 10 =? 0 then [DevFlush] else []) ++
  (if i mod ping_period =? 0 then [DevPing] else []).

(** The events that only the Windows build adds. *)
Definition is_window (e : DaemonEvent) : bool :=
  match e with DevTitle _ | DevSleep => true | _ => false end.

Lemma ping_period_range : 1 <= ping_period <= 2 ^ 32.
Proof.
  unfold ping_period. pose proof (wrap_range 32 (GetIntDefault "MaxPingTime" 30 * (MINUTE * 1000000 `quot` 100000))).
  fold numLoops in H. destruct (Z.eqb_spec numLoops 0); lia.
Qed.

Lemma mod_next n d : 0 < d -> 0 <= n -> (n + 1) mod d = if n mod d + 1 =? d then 0 else n mod d + 1.
Proof.
  intros Hd Hn. pose proof (Z.mod_pos_bound n d Hd). pose proof (Z.div_mod n d ltac:(lia)).
  destruct (Z.eqb_spec (n mod d + 1) d) as [E|E]; symmetry.
  - apply (Z.mod_unique_pos _ _ (n / d + 1)); lia.
  - apply (Z.mod_unique_pos _ _ (n / d)); lia.
Qed.

(** A counter that is reset when it reaches a small limit. *)
Lemma limit_next n d : 0 < d < 2 ^ 32 -> 0 <= n ->
  let f := u32 (n mod d + 1) in
  (d <=? f) = ((n + 1) mod d =? 0) /\ (if d <=? f then 0 else f) = (n + 1) mod d.
Proof.
  intros Hd Hn f. pose proof (Z.mod_pos_bound n d ltac:(lia)). subst f.
  rewrite wrap_small by lia. rewrite (mod_next n d) by lia.
  destruct (Z.eqb_spec (n mod d + 1) d) as [->|E]; [by rewrite Z.leb_refl|].
  rewrite (proj2 (Z.leb_gt _ _)) by lia. split; [|done]. symmetry. apply Z.eqb_neq. lia.
Qed.

Lemma ping_next n : 0 <= n ->
  let c := u32 (n mod ping_period + 1) in
  (c =? numLoops) = ((n + 1) mod ping_period =? 0) /\
  (if c =? numLoops then 0 else c) = (n + 1) mod ping_period.
Proof.
  intros Hn c. pose proof ping_period_range as Hp. subst c.
  pose proof (Z.mod_pos_bound n ping_period ltac:(lia)) as Hm.
  pose proof (wrap_range 32 (n mod ping_period + 1) ltac:(lia)).
  rewrite (mod_next n ping_period) by lia. unfold ping_period in *.
  destruct (Z.eqb_spec numLoops 0) as [E|E].
  - rewrite E in *. destruct (Z.eqb_spec (n mod 2 ^ 32 + 1) (2 ^ 32)) as [->|E']; [done|].
    rewrite wrap_small by lia. split; [done|]. destruct (Z.eqb_spec (n mod 2 ^ 32 + 1) 0); lia.
  - assert (numLoops < 2 ^ 32) by apply wrap_range, Z.leb_le, eq_refl.
    rewrite wrap_small by lia.
    destruct (Z.eqb_spec (n mod numLoops + 1) numLoops) as [E'|E']; [done|].
    split; [|done]. symmetry. apply Z.eqb_neq. lia.
Qed.

(** ** What a pass does *)

Context {SLAWS : AuthServerLaws}.

(** What the outside may do in a pass: the engine's moves, signals that have a handler, and
    a paused service that is resumed. *)
Record tick_ok (t : Tick) : Prop := {
  tick_engine : forall s, server_inv s -> server_activity s (t_engine t s);
  tick_signal : forall s, t_signal t = Some s -> s ∈ hooked;
  tick_late : forall s, t_late t = Some s -> s ∈ hooked;
  tick_resumed : WIN32 = true -> Exists (fun s => s <> 2) (t_paused t)
}.

(** The pass is told to be the last: a signal, or a stopped service. *)
Definition told (t : Tick) : bool :=
  bool_decide (is_Some (t_signal t)) || bool_decide (is_Some (t_late t)) || (WIN32 && (t_status t =? 0)).

(** The process between two passes, after [n] of them. *)
Record in_loop (n : Z) (p : Process) : Prop := {
  il_nonneg : 0 <= n;
  il_ping : loopCounter p = n mod ping_period;
  il_flush : logFlushCounter p = n mod 10;
  il_title : WIN32 = true -> titleUpdateCounter p = n mod 30;
  il_server : exists s, p_server p = Some s /\ server_inv s;
  il_hooked : hooked ⊆ p_hooked p
}.

(** How the exit code may change: the schedule fired and stopped the process. *)
Definition exit_step (p p' : Process) : Prop :=
  exitCode p' = exitCode p \/
  sx_enabled (s_scheduledExit p) = true /\ stopEvent p' = true /\
  exitCode p' = (if sx_mode (s_scheduledExit p) =? SCHEDULED_EXIT_MODE_RESTART then 2 else 0).

Lemma signalled_run s p :
  (forall x, s = Some x -> x ∈ hooked) -> hooked ⊆ p_hooked p ->
  signalled s p = Some (tt, p <| stopEvent := bool_decide (is_Some s) || stopEvent p |>).
Proof.
  intros Hs Hh. destruct s as [s|]; [|by destruct p]. specialize (Hs s eq_refl).
  assert (Hin : s ∈ p_hooked p) by set_solver. cbn [signalled]. unfold deliver.
  rewrite decide_True by done. rewrite bool_decide_true by done.
  assert (Heq : {[s]} ∪ p_hooked p ∖ {[s]} = p_hooked p) by (symmetry; by apply union_difference_singleton_L).
  assert (Hstop : (s =? SIGINT) || (s =? SIGTERM) = true \/ WIN32 && (s =? SIGBREAK) = true).
  { unfold hooked in Hs. destruct WIN32; rewrite ?orb_true_iff, ?andb_true_iff, !Z.eqb_eq; set_solver. }
  destruct p as [l d t rl sv hk stop code sx st lc fc tc ti]. cbn in Heq |- *.
  unfold OnSignal, bindM, modify.
  destruct ((s =? SIGINT) || (s =? SIGTERM)); [|destruct (WIN32 && (s =? SIGBREAK)); [|by destruct Hstop]];
    process_cbv; by rewrite Heq.
Qed.

Lemma CheckScheduledExit_run p : exists st stop code,
  let p' := p <| s_scheduledExitState := st |> <| exitCode := code |> <| stopEvent := stop |> in
  CheckScheduledExit p = Some (tt, p') /\ exit_step p p' /\
  (stopEvent p = true -> stop = true) /\ (sx_enabled (s_scheduledExit p) = false -> stop = stopEvent p).
Proof.
  unfold CheckScheduledExit, exit_step. destruct p as [l d t rl sv hk stop code sx st lc fc tc ti].
  cbn [s_scheduledExit stopEvent].
  destruct (negb (sx_enabled sx) || stop) eqn:E.
  - exists st, stop, code. cbv zeta. split; [done|]. split; [by left|done].
  - apply orb_false_iff in E as [->%negb_false_iff ->].
    destruct (CheckAndMarkScheduledExit _ _ _) as [[] st'].
    + eexists st', true, _. cbv zeta. split; [reflexivity|]. split; [by right|done].
    + exists st', false, code. cbv zeta. split; [done|]. split; [by left|done].
Qed.

Lemma wait_while_paused_run reads p :
  Exists (fun s => s <> 2) reads -> exists n, wait_while_paused reads p = Some (tt, logged (replicate n DevSleep) p).
Proof.
  intros Hr. revert p. induction reads as [|s reads IH]; intros p; [by apply Exists_nil in Hr|].
  cbn [wait_while_paused]. destruct (Z.eqb_spec s 2) as [->|Hs].
  - destruct (IH ltac:(by apply Exists_cons in Hr as [?|?]) (logged [DevSleep] p)) as [n Hn].
    exists (S n). rewrite bind_did, Hn. by rewrite logged_app.
  - exists 0%nat. by rewrite logged_nil.
Qed.

(** The title, and the events its update adds. *)
Definition title_events (old new : bytes) : list DaemonEvent := if decide (old = new) then [] else [DevTitle new].

Lemma UpdateConsoleTitle_run a c p :
  UpdateConsoleTitle a c p =
  Some (tt, logged (title_events (s_lastTitle p) (console_title a c)) (p <| s_lastTitle := console_title a c |>)).
Proof.
  unfold UpdateConsoleTitle, title_events. unfold bindM at 1, gets.
  destruct (decide (s_lastTitle p = console_title a c)) as [E|E]; [|done].
  rewrite <- E. rewrite logged_nil. by destruct p.
Qed.

Definition titled (s : server) : bytes := console_title (server_GetAuthWaitingCount s) (server_GetConnectionCount s).

Lemma windows_pass_run n t s p :
  0 <= n -> titleUpdateCounter p = n mod 30 -> p_server p = Some s -> Exists (fun x => x <> 2) (t_paused t) ->
  exists title es,
    let p' := logged es (p <| titleUpdateCounter := (n + 1) mod 30 |> <| s_lastTitle := title |>
      <| stopEvent := (t_status t =? 0) || stopEvent p |>) in
    windows_pass t p = Some (tt, p') /\ Forall (fun e => is_window e = true) es /\
    ((n + 1) mod 30 = 0 -> title = titled s).
Proof.
  intros Hn Ht Hs Hr. unfold windows_pass. destruct (limit_next n 30 ltac:(lia) Hn) as [L1 L2].
  rewrite <- Ht in L1, L2. unfold bindM at 1, modify at 1, bindM at 1, gets at 1.
  set (p1 := p <| titleUpdateCounter := _ |>). change (titleUpdateCounter p1) with (u32 (titleUpdateCounter p + 1)).
  assert (Hcount : exists title es, (if 30 <=? u32 (titleUpdateCounter p + 1) then
      modify (fun p => p <| titleUpdateCounter := 0 |>) ;;
      sv <-- gets p_server ;;
      match sv with
      | None => undef
      | Some s => UpdateConsoleTitle (server_GetAuthWaitingCount s) (server_GetConnectionCount s)
      end
    else retM tt) p1 =
    Some (tt, logged es (p <| titleUpdateCounter := (n + 1) mod 30 |> <| s_lastTitle := title |>)) /\
    Forall (fun e => is_window e = true) es /\ ((n + 1) mod 30 = 0 -> title = titled s)).
  { destruct (30 <=? _).
    - unfold bindM at 1, modify at 1, bindM at 1, gets at 1. change (p_server (p1 <| titleUpdateCounter := 0 |>)) with (p_server p).
      rewrite Hs, UpdateConsoleTitle_run. eexists _, _. rewrite <- L2. split; [reflexivity|].
      split; [|done]. unfold title_events. destruct (decide _); by repeat constructor.
    - exists (s_lastTitle p), []. rewrite logged_nil, <- L2. split; [by destruct p|]. split; [done|].
      rewrite L2. intros E. apply Z.eqb_eq in E. by rewrite <- L1 in E. }
  destruct Hcount as (title & es & Hrun & Hes & Htitle). unfold bindM at 1. rewrite Hrun.
  unfold bindM. set (p2 := logged es _).
  assert (Hst : (if t_status t =? 0 then modify (fun p => p <| stopEvent := true |>) else retM tt) p2 =
    Some (tt, p2 <| stopEvent := (t_status t =? 0) || stopEvent p |>)) by (unfold p2; destruct (t_status t =? 0); [done|]; by destruct p).
  rewrite Hst. destruct (wait_while_paused_run (t_paused t) (p2 <| stopEvent := (t_status t =? 0) || stopEvent p |>) Hr)
    as [k ->].
  exists title, (es ++ replicate k DevSleep). cbv zeta. split; [|split; [|done]].
  - unfold p2. destruct p. process_cbv. by rewrite <- app_assoc.
  - apply Forall_app. split; [done|]. by apply Forall_replicate.
Qed.

(** What a pass from [p] to [p'] did; [n] passes came before it. *)
Record pass_done (n : Z) (t : Tick) (p p' : Process) : Prop := {
  pd_loop : in_loop (n + 1) p';
  pd_swept : exists s s', p_server p = Some s /\ p_server p' = Some s' /\
    server_Update (t_clock t) (t_engine t s) = Some (tt, s') /\
    (WIN32 = true -> (n + 1) mod 30 = 0 -> s_lastTitle p' = titled s');
  pd_log : exists wes, p_log p' = p_log p ++ pass_events (n + 1) ++ wes /\
    Forall (fun e => is_window e = true) wes /\ (WIN32 = false -> wes = []);
  pd_exit : exit_step p p';
  pd_schedule : s_scheduledExit p' = s_scheduledExit p;
  pd_told : told t || stopEvent p = true -> stopEvent p' = true;
  pd_quiet : told t = false -> sx_enabled (s_scheduledExit p) = false -> stopEvent p' = stopEvent p
}.

(** The process when the scheduled exit is looked at. *)
Definition mid_pass (n : Z) (t : Tick) (s' : server) (p : Process) : Process :=
  logged (pass_events (n + 1)) (p <| p_time := t_now t |> <| p_server := Some s' |>
    <| stopEvent := bool_decide (is_Some (t_signal t)) || stopEvent p |>
    <| loopCounter := (n + 1) mod ping_period |> <| logFlushCounter := (n + 1) mod 10 |>).

Lemma UpdateServer_run now s s' p :
  p_server p = Some s -> server_Update now s = Some (tt, s') ->
  UpdateServer now p = Some (tt, logged [DevUpdate] (p <| p_server := Some s' |>)).
Proof. intros Hs Hu. unfold UpdateServer. rewrite Hs. cbn. by rewrite Hu. Qed.

Lemma loop_pass_mid n t p s s' :
  in_loop n p -> tick_ok t -> p_server p = Some s -> server_Update (t_clock t) (t_engine t s) = Some (tt, s') ->
  loop_pass t p =
  (CheckScheduledExit ;; (if WIN32 then windows_pass t else retM tt) ;; signalled (t_late t)) (mid_pass n t s' p).
Proof.
  intros [Hn Hc Hf _ _ Hh] [_ Hsig _ _] Hs Hu.
  destruct (limit_next n 10 ltac:(lia) Hn) as [F1 F2]. destruct (ping_next n Hn) as [P1 P2].
  unfold mid_pass, pass_events. rewrite <- F1, <- F2, <- P1, <- P2.
  destruct p as [l d tm0 rl sv hk stop code sx st lc fc tc ti]. cbn in Hc, Hf, Hs, Hh. subst lc fc sv.
  unfold loop_pass. unfold bindM at 1, modify at 1. unfold bindM at 1. rewrite signalled_run by done.
  unfold bindM at 1. rewrite (UpdateServer_run _ (t_engine t s) s') by done. process_cbv.
  destruct (10 <=? u32 (n mod 10 + 1)), (u32 (n mod ping_period + 1) =? numLoops); by rewrite <- ?app_assoc.
Qed.

Lemma loop_pass_run n t p :
  in_loop n p -> tick_ok t -> exists p', loop_pass t p = Some (tt, p') /\ pass_done n t p p'.
Proof.
  intros Hin Ht. pose proof Hin as [Hn Hc Hf Htc (s & Hs & Hinv) Hh]. pose proof Ht as [Heng _ Hlate Hres].
  destruct (server_Update_inv (t_clock t) (t_engine t s)) as (s' & Hu & Hinv').
  { eapply server_activity_inv; eauto. }
  rewrite (loop_pass_mid n t p s s' Hin Ht Hs Hu).
  unfold bindM at 1. destruct (CheckScheduledExit_run (mid_pass n t s' p)) as (st & stop & code & Hx).
  cbv zeta in Hx. destruct Hx as (-> & He & Hmono & Hquiet).
  set (p1 := (mid_pass n t s' p) <| s_scheduledExitState := st |> <| exitCode := code |> <| stopEvent := stop |>) in *.
  assert (Hwin : exists title tc wes win,
    let p2 := logged wes (p1 <| titleUpdateCounter := tc |> <| s_lastTitle := title |> <| stopEvent := win || stop |>) in
    (if WIN32 then windows_pass t else retM tt) p1 = Some (tt, p2) /\
    win = WIN32 && (t_status t =? 0) /\ (WIN32 = true -> tc = (n + 1) mod 30) /\
    (WIN32 = true -> (n + 1) mod 30 = 0 -> title = titled s') /\
    Forall (fun e => is_window e = true) wes /\ (WIN32 = false -> wes = [])).
  { destruct WIN32 eqn:HW.
    - destruct (windows_pass_run n t s' p1) as (title & wes & Hrun & Hwes & Htitle); auto.
      eexists title, _, wes, (t_status t =? 0). split; [exact Hrun|]. by split_and!.
    - exists (s_lastTitle p1), (titleUpdateCounter p1), [], false. rewrite logged_nil. split; [|by split_and!].
      by destruct p. }
  destruct Hwin as (title & tc & wes & win & Hrun & -> & Htc' & Htitle & Hwes & Hnowes). cbv zeta in Hrun.
  unfold bindM. rewrite Hrun. rewrite signalled_run; [|done|done]. eexists. split; [reflexivity|]. split.
  - split; cbn; try done; [lia|by eauto].
  - exists s, s'. by split_and!.
  - exists wes. split; [|done]. cbn. by rewrite <- app_assoc.
  - destruct He as [He|(H1 & H2 & H3)]; [by left|right]. cbn in H1, H2, H3 |- *. subst stop.
    split_and!; [done| |done]. by rewrite !orb_true_r.
  - done.
  - unfold told. cbn in Hmono |- *. destruct (bool_decide (is_Some (t_late t))); [done|].
    rewrite orb_false_r. destruct (WIN32 && _); [by rewrite !orb_true_r|]. rewrite orb_false_r. cbn. exact Hmono.
  - unfold told. cbn in Hquiet |- *. intros Htold Hx. specialize (Hquiet Hx). subst stop.
    destruct (bool_decide (is_Some (t_late t))), (bool_decide (is_Some (t_signal t))); try done.
    by destruct (WIN32 && _).
Qed.

(** ** What the loop does *)

(** The events of [k] passes after the first [n]. *)
Definition passes (n : Z) (k : nat) : list DaemonEvent := seqZ (n + 1) (Z.of_nat k) ≫= pass_events.

Lemma passes_S n k : passes n (S k) = pass_events (n + 1) ++ passes (n + 1) k.
Proof. unfold passes. rewrite seqZ_cons by lia. cbn [mbind list_bind]. do 3 f_equal; lia. Qed.

(** The events of the loop, less what only the Windows build adds. *)
Definition housekeeping (es : list DaemonEvent) : list DaemonEvent := filter (fun e => is_window e = false) es.

Lemma housekeeping_app es1 es2 : housekeeping (es1 ++ es2) = housekeeping es1 ++ housekeeping es2.
Proof. apply filter_app. Qed.

Lemma housekeeping_pass n : housekeeping (pass_events n) = pass_events n.
Proof. unfold pass_events. by destruct (_ =? 0), (_ =? 0). Qed.

Lemma housekeeping_windows es : Forall (fun e => is_window e = true) es -> housekeeping es = [].
Proof.
  unfold housekeeping. induction 1 as [|e es He _ IH]; [done|]. rewrite filter_cons_False; [done|].
  by rewrite He.
Qed.

(** What [k] passes from [p] to [p'] did. *)
Record loop_done (n : Z) (k : nat) (ticks : list Tick) (left : bool) (p p' : Process) : Prop := {
  ld_loop : in_loop (n + Z.of_nat k) p';
  ld_bound : (k <= length ticks)%nat;
  ld_left : left = stopEvent p';
  ld_log : exists es, p_log p' = p_log p ++ es /\ housekeeping es = passes n k /\
    (WIN32 = false -> es = passes n k);
  ld_exit : exit_step p p';
  ld_running : left = false -> k = length ticks;
  ld_told : forall i t, ticks !! i = Some t -> told t = true -> left = true /\ (k <= S i)%nat;
  ld_quiet : stopEvent p = false -> sx_enabled (s_scheduledExit p) = false ->
    Forall (fun t => told t = false) ticks -> left = false
}.

Lemma exit_step_trans p p1 p' :
  s_scheduledExit p1 = s_scheduledExit p -> (stopEvent p1 = true -> stopEvent p' = true) ->
  exit_step p p1 -> exit_step p1 p' -> exit_step p p'.
Proof. unfold exit_step. intros -> Hs [H1|(H1 & H2 & H3)] [H4|(H4 & H5 & H6)]; rewrite ?H4, ?H6; auto. Qed.

Lemma loop_done_here n ticks (left : bool) p :
  in_loop n p -> left = stopEvent p -> (left = false -> ticks = []) -> loop_done n 0 ticks left p p.
Proof.
  intros Hin -> Hl. split; try done.
  - by rewrite Z.add_0_r.
  - lia.
  - exists []. by rewrite app_nil_r.
  - by left.
  - intros E. by rewrite (Hl E).
  - intros i t Hi _. destruct (stopEvent p); [split; [done|lia]|]. by rewrite Hl in Hi.
Qed.

(** One pass, then the rest. *)
Lemma loop_done_pass n k t ticks left p p1 p' :
  pass_done n t p p1 -> loop_done (n + 1) k ticks left p1 p' -> (stopEvent p1 = true -> k = 0%nat /\ left = true) ->
  loop_done n (S k) (t :: ticks) left p p'.
Proof.
  intros [Hl1 Hsw1 (wes & Hlog1 & Hw & Hnw) He1 Hs1 Ht1 Hq1] [Hl Hb Hleft (es & Hlog & Hhk & Hpx) He Hrun Htold Hq] Hend.
  split; cbn [length]; try done.
  - by replace (n + Z.of_nat (S k)) with (n + 1 + Z.of_nat k) by lia.
  - lia.
  - exists ((pass_events (n + 1) ++ wes) ++ es). rewrite Hlog, Hlog1, passes_S. split; [by rewrite <- !app_assoc|]. split.
    + rewrite !housekeeping_app, housekeeping_pass, (housekeeping_windows wes Hw), Hhk. by rewrite app_nil_r.
    + intros HW. by rewrite (Hnw HW), (Hpx HW), app_nil_r.
  - apply (exit_step_trans p p1); auto. intros H1. destruct (Hend H1) as [_ ->]. done.
  - intros E. by rewrite Hrun.
  - intros [|i] t' Hi Ht'; cbn in Hi.
    + injection Hi as <-. rewrite Ht' in Ht1. destruct (Hend (Ht1 eq_refl)) as [-> ->]. split; [done|lia].
    + destruct (Htold i t' Hi Ht') as [? ?]. split; [done|lia].
  - intros Hst Hsx [Htq Hall]%Forall_cons. apply Hq; [by rewrite Hq1|by rewrite Hs1|done].
Qed.

Lemma main_loop_run n ticks p :
  in_loop n p -> Forall tick_ok ticks ->
  exists left p' k, main_loop ticks p = Some (left, p') /\ loop_done n k ticks left p p' /\
    (stopEvent p = true -> k = 0%nat).
Proof.
  intros Hin Hok. revert n p Hin. induction Hok as [|t ticks Ht Hok IH]; intros n p Hin;
    cbn [main_loop]; unfold bindM at 1, gets; destruct (stopEvent p) eqn:Es.
  - exists true, p, 0%nat. split; [done|]. split; [|done]. by apply loop_done_here.
  - exists false, p, 0%nat. split; [done|]. split; [|done]. by apply loop_done_here.
  - exists true, p, 0%nat. split; [done|]. split; [|done]. by apply loop_done_here.
  - destruct (loop_pass_run n t p Hin Ht) as (p1 & Hrun & Hdone). unfold bindM. rewrite Hrun.
    destruct (IH (n + 1) p1 (pd_loop _ _ _ _ Hdone)) as (left & p' & k & Hloop & Hrest & Hk).
    exists left, p', (S k). split; [done|]. split; [|done]. apply (loop_done_pass n k t ticks left p p1); [done..|].
    intros E. specialize (Hk E). split; [done|]. subst k.
    destruct ticks; cbn [main_loop] in Hloop; unfold bindM, gets in Hloop; rewrite E in Hloop; by injection Hloop.
Qed.

(** The last pass of a loop that is still running. *)
Lemma main_loop_last n ticks t p p' :
  in_loop n p -> Forall tick_ok (ticks ++ [t]) -> main_loop (ticks ++ [t]) p = Some (false, p') ->
  exists p1, main_loop ticks p = Some (false, p1) /\ pass_done (n + Z.of_nat (length ticks)) t p1 p'.
Proof.
  revert n p. induction ticks as [|t0 ticks IH]; intros n p Hin Hok Hrun; cbn [app main_loop length] in *;
    unfold bindM, gets in Hrun |- *; destruct (stopEvent p); [done| |done|].
  - apply Forall_cons in Hok as [Ht _]. destruct (loop_pass_run n t p Hin Ht) as (p1 & Hp & Hdone).
    rewrite Hp in Hrun. destruct (stopEvent p1); [done|]. injection Hrun as <-. exists p. rewrite Z.add_0_r. done.
  - apply Forall_cons in Hok as [Ht Hok]. destruct (loop_pass_run n t0 p Hin Ht) as (p1 & Hp & Hdone).
    rewrite Hp in Hrun |- *.
    destruct (IH (n + 1) p1 (pd_loop _ _ _ _ Hdone) Hok Hrun) as (p2 & Hl & Hlast).
    exists p2. split; [done|]. by replace (n + Z.of_nat (S (length ticks))) with (n + 1 + Z.of_nat (length ticks)) by lia.
Qed.

(** ** The end *)

Definition shutdown_events : list DaemonEvent :=
  [DevStop; DevHaltDelayThread] ++ hook_events false ++ [DevFlush; DevStop].

Lemma Shutdown_run p : Shutdown p =
  Some (exitCode p, logged shutdown_events (p <| p_server := None |> <| p_hooked := p_hooked p ∖ hooked |>)).
Proof.
  unfold Shutdown, StopServer, DestroyServer. unfold bindM at 1 2, modify at 1. rewrite did_run, bind_did.
  unfold bindM at 1. rewrite UnhookSignals_run. unfold StopServer, shutdown_events.
  destruct p as [l d t rl sv hk stop code sx st lc fc tc ti]. process_cbv. by rewrite <- !app_assoc.
Qed.

End MainLoop.

(** ** Properties *)

(** C35. The main loop: every pass sweeps the sessions; every tenth flushes the log, and the
    database is pinged every [numLoops] passes (every 2^32 when that is 0), in this order
    within a pass, and the Windows build adds nothing but titles and waits.  The loop goes on
    until it is told to stop: without a signal, a stopped service or an armed schedule it
    never stops.  The exit code changes only when an armed schedule fires, to 2 for a
    restart and 0 otherwise, and this stops the loop; when a
    schedule fires is decided by the shared [CheckAndMarkScheduledExit]. *)
Theorem main_loop_cadence `{DaemonEnv} {SL : AuthServerLaws} (ticks : list Tick) (p : Process) :
  in_loop 0 p -> stopEvent p = false -> Forall tick_ok ticks ->
  exists left p' k es, main_loop ticks p = Some (left, p') /\ (k <= length ticks)%nat /\
    p_log p' = p_log p ++ es /\ housekeeping es = (seqZ 1 (Z.of_nat k) ≫= pass_events) /\
    (left = false -> k = length ticks) /\
    (sx_enabled (s_scheduledExit p) = false -> Forall (fun t => told t = false) ticks -> left = false) /\
    exit_step p p'.
Proof.
  intros Hin Hs Hok. destruct (main_loop_run 0 ticks p Hin Hok) as (left & p' & k & Hrun & Hdone & _).
  destruct Hdone as [_ Hb _ (es & Hlog & Hhk & _) He Hl _ Hq]. exists left, p', k, es. split_and!; auto.
Qed.

(** C34. The life of the process: when its requirements hold and one of the passes is told to
    be the last - by SIGINT, by SIGTERM, on Windows by a break or by the service manager -
    [main] returns, in that pass at the latest.  What it did is the start-up, then whole
    passes, then the shutdown, in which the listener is stopped before the database
    thread is halted and the signals are released; no listener is left.  The code is 0,
    unless an armed schedule asked for a restart. *)
Theorem main_terminates `{DaemonEnv} {SL : AuthServerLaws} (prog : bytes) (args : list bytes)
    (ticks : list Tick) (p : Process) (m : Z) (i : nat) (t : Tick) :
  p_server p = None -> stopEvent p = false -> exitCode p = 0 -> titleUpdateCounter p = 0 ->
  requirements prog args p m -> Forall tick_ok ticks -> ticks !! i = Some t -> told t = true ->
  exists code p' k sched policy es, main prog args ticks p = Some (Some code, p') /\ (k <= S i)%nat /\
    p_log p' = p_log p ++ (service_events m ++ daemon_events m ++ data_events sched policy) ++ es ++ shutdown_events /\
    housekeeping es = passes 0 k /\ p_server p' = None /\ p_hooked p' ## hooked /\
    (code = 0 \/ code = 2 /\ exists sx, schedule_loaded sx sched /\ sx_enabled sx = true /\
       sx_mode sx = SCHEDULED_EXIT_MODE_RESTART).
Proof.
  intros Hsv Hst Hex Htc Hreq Hok Hi Ht.
  destruct (Startup_run prog args p Hsv) as (r & p1 & es1 & Hrun & Hlog1 & Hcase).
  destruct r as [code|]; [by destruct Hcase as (_ & _ & Hno); destruct (Hno m)|].
  destruct Hcase as (m' & sched & policy & Hreq' & Hl & Hpol & ->).
  assert (m' = m) as ->.
  { destruct Hreq as [(f & Hf & _) _ _ _]. by destruct (requirements_command _ _ _ _ _ _ Hreq' Hf). }
  destruct Hl as (Hserver & Hhook & _ & Hsched & Hlc & Hfc & Htc' & _ & Hst1 & Hex1).
  assert (Hin : in_loop 0 p1).
  { pose proof ping_period_range. split; rewrite ?Hlc, ?Hfc, ?Htc', ?Htc, ?Z.mod_0_l by lia; done. }
  destruct (main_loop_run 0 ticks p1 Hin Hok) as (left & p2 & k & Hloop & Hdone & _).
  destruct (ld_told _ _ _ _ _ _ Hdone i t Hi Ht) as [-> Hk]. destruct Hdone as [_ _ _ (es & Hlog & Hhk & _) He _ _ _].
  unfold main. unfold bindM at 1. rewrite Hrun. unfold bindM at 1. rewrite Hloop.
  unfold bindM. rewrite Shutdown_run. eexists _, _, k, sched, policy, es. split; [reflexivity|].
  split_and!; [done| |done|done|set_solver|].
  - cbn. rewrite Hlog, Hlog1. by rewrite <- !app_assoc.
  - cbn. destruct He as [He|(H1 & _ & He)]; [left; congruence|]. rewrite He.
    destruct (Z.eqb_spec (sx_mode (s_scheduledExit p1)) SCHEDULED_EXIT_MODE_RESTART); [|by left].
    right. split; [done|]. by exists (s_scheduledExit p1).
Qed.

(** ** A concrete process *)

Section SampleDaemon.

(** Passes at the given times, the service running. *)
Definition sample_tick (win : bool) (t : Z) : @Tick (sample_Daemon win) :=
  @mkTick (sample_Daemon win) (fun s => s) t t None None 1 [1].

Definition sample_ticks (win : bool) : list (@Tick (sample_Daemon win)) := sample_tick win <$> seqZ 0 20.

Lemma sample_tick_ok win t : @tick_ok (sample_Daemon win) (sample_ServerLaws) (sample_tick win t).
Proof. split; cbn; try done. intros _. by left. Qed.

Lemma sample_ticks_ok win ts : Forall (@tick_ok (sample_Daemon win) sample_ServerLaws) (sample_tick win <$> ts).
Proof. apply Forall_fmap, Forall_true. intros t. apply sample_tick_ok. Qed.

(** A process in its loop. *)
Definition sample_looping : @Process (sample_Daemon true) :=
  @mkProcess (sample_Daemon true) [] sample_db0 0 (mkRealmList RealmSnapshot_empty (mkGate 0 0 false)) (Some 0)
    {[SIGINT; SIGTERM; SIGBREAK]} false 0 (mkSchedule false 0 0 0 0) false 0 0 0 [].

Lemma main_loop_cadence_witness :
  exists left p' k es, @main_loop (sample_Daemon true) (sample_ticks true) sample_looping = Some (left, p') /\
    (k <= length (sample_ticks true))%nat /\ p_log p' = [] ++ es /\
    housekeeping es = (seqZ 1 (Z.of_nat k) ≫= @pass_events (sample_Daemon true)) /\
    (left = false -> k = length (sample_ticks true)) /\
    (false = false -> Forall (fun t => @told (sample_Daemon true) t = false) (sample_ticks true) -> left = false) /\
    exit_step sample_looping p'.
Proof.
  apply (@main_loop_cadence (sample_Daemon true) sample_ServerLaws (sample_ticks true) sample_looping).
  - split; [done|by vm_compute..| |]; [by exists 0|]. apply (bool_decide_unpack _). by vm_compute.
  - reflexivity.
  - apply sample_ticks_ok.
Defined.

(** Nine passes, the last one interrupted by SIGTERM. *)
Definition sample_last : @Tick (sample_Daemon false) :=
  @mkTick (sample_Daemon false) (fun s => s) 30 30 (Some SIGTERM) None 1 [1].

Lemma main_terminates_witness :
  exists code p' k sched policy es,
    @main (sample_Daemon false) (str "realmd") [] ((sample_tick false <$> seqZ 10 8) ++ [sample_last])
      (sample_process false) = Some (Some code, p') /\ (k <= 9)%nat /\
    p_log p' = [] ++ (@service_events (sample_Daemon false) 0 ++ @daemon_events (sample_Daemon false) 0 ++
      @data_events (sample_Daemon false) sched policy) ++ es ++ @shutdown_events (sample_Daemon false) /\
    housekeeping es = @passes (sample_Daemon false) 0 k /\ p_server p' = None /\
    p_hooked p' ## @hooked (sample_Daemon false) /\
    (code = 0 \/ code = 2 /\ exists sx, @schedule_loaded (sample_Daemon false) sx sched /\ sx_enabled sx = true /\
       sx_mode sx = 1).
Proof.
  apply (@main_terminates (sample_Daemon false) sample_ServerLaws (str "realmd") []
    ((sample_tick false <$> seqZ 10 8) ++ [sample_last]) (sample_process false) 0 8 sample_last); try done.
  - apply sample_requirements.
  - apply Forall_app. split; [apply sample_ticks_ok|]. repeat constructor; cbn; try done.
    intros s [= <-]. apply (bool_decide_unpack _). by vm_compute.
Defined.

(** The schedule of the sample fires in the eighth pass and asks for a restart; without a
    schedule to fire the Windows build keeps its title up to date, and both can be stopped by
    a signal. *)
Example sample_restart :
  (fun r => (r.1, length (p_log r.2))) <$> @main (sample_Daemon false) (str "realmd") [] (sample_ticks false)
    (sample_process false) = Some (Some 2, 22%nat) /\
  (fun r => (r.1, last (p_log r.2))) <$> @main (sample_Daemon true) (str "realmd") []
    (sample_tick true <$> seqZ 10 30) (sample_process true) =
    Some (None, Some (DevTitle (str "MaNGOS Realm-Daemon (0 Auth/Waiting - 30 Connections)"))) /\
  fst <$> @main (sample_Daemon true) (str "realmd") [str "-sinstall"] [] (sample_process true) = Some (Some 1) /\
  fst <$> @main (sample_Daemon false) (str "realmd") [str "-x"] [] (sample_process false) = Some (Some 1).
Proof. by vm_compute. Qed.

End SampleDaemon.
