(* ===== verification/System.v ===== *)
(** * The whole program: the daemon's loop over the real server

    [Daemon] and [MainLoop] see the listening server through an interface.  Here the server
    of [AuthServer], with its sessions and the networking engine around it, is put behind
    that interface, and what the two parts guarantee together is stated. *)

From stdpp Require Import gmap.
From S2P Require Import Prelude AuthCodes ProtocolGuard PatchPolicy RealmList PatchArtifact.
From S2P Require Import Interfaces Samples Srp6 Session SessionLogic Logon Reconnect RealmPacket.
From S2P Require Import Dispatch Bodies Serve SessionInv SessionSafety SessionProperties.
From S2P Require Import AuthServer Supervision CommandLine Daemon MainLoop.

Local Open Scope Z_scope.
Local Open Scope realmd_scope.

#[local] Set Warnings "-clear-no-such-hyp".

(** ** The server behind the interface of the process *)

(** [AuthServer] as the process sees it; [r] is the random source of the process. *)
Definition real_Server `{RealmdEnv} (r : rng) : AuthServerOps :=
  Build_AuthServerOps _ Server (fun d rl => AuthServer_new d r rl 0) Start Update Stop
    GetConnectionCount GetAuthWaitingCount.

Lemma Start_in_order `{RealmdEnv} net port ip timeout policy d r rl :
  net port ip = true -> in_order (Start net port ip timeout policy (AuthServer_new d r rl 0)).2.
Proof.
  intros Hnet. unfold in_order, Start. cbn. split_and!; [|by intros _ ? ?|done].
  split; cbn; [done|done|apply map_Forall_empty| |constructor|by intros _ id [? ?]].
  intros. split; [done|apply not_elem_of_nil].
Qed.

Lemma Update_in_order `{RealmdEnv} {L : RealmdLaws} now s :
  in_order s -> exists s', Update now s = Some (tt, s') /\ in_order s'.
Proof.
  intros Hs. destruct (Update_run now s (proj1 Hs)) as (objs & Hr & _). eexists. split; [exact Hr|].
  apply (op_in_order (OpUpdate now) s); [done..|]. cbn [server_op]. by rewrite Hr.
Qed.

Lemma engine_in_order `{RealmdEnv} {L : RealmdLaws} s s' :
  in_order s -> rtc engine_step s s' -> in_order s'.
Proof.
  intros Hs Hr. induction Hr as [|s1 s2 s3 [op Hop He Hs12] _ IH]; [done|]. apply IH.
  apply (op_in_order op s1); [by intros ->|done..].
Qed.

Definition real_Laws `{RealmdEnv} {L : RealmdLaws} (r : rng) : AuthServerLaws (H0 := real_Server r) :=
  @Build_AuthServerLaws _ (real_Server r) in_order (rtc engine_step) (fun _ _ _ _ _ _ => eq_refl)
    (fun net port ip t pol d rl => Start_in_order net port ip t pol d r rl) Update_in_order engine_in_order.

(** The daemon [D] with this server. *)
Definition real_Daemon (D : DaemonEnv) (r : @rng (@env_bn (@de_env D))) : DaemonEnv := {|
  de_env := @de_env D; de_platform := @de_platform D; de_exit := @de_exit D; de_server := real_Server r;
  ScheduledExitSchedule_new := @ScheduledExitSchedule_new D;
  MarkScheduledExitHandledIfMatching := @MarkScheduledExitHandledIfMatching D;
  CheckAndMarkScheduledExit := @CheckAndMarkScheduledExit D;
  REALMD_CONFIG_LOCATION := @REALMD_CONFIG_LOCATION D; REALMD_CONFIG_NAME := @REALMD_CONFIG_NAME D;
  REALMD_CONFIG_VERSION := @REALMD_CONFIG_VERSION D; DEFAULT_REALMSERVER_PORT := @DEFAULT_REALMSERVER_PORT D;
  MINUTE := @MINUTE D; SetSource := @SetSource D; startDaemon := @startDaemon D; stopDaemon := @stopDaemon D;
  WinServiceInstall := @WinServiceInstall D; WinServiceUninstall := @WinServiceUninstall D;
  CreatePIDFile := @CreatePIDFile D; db_Initialize := @db_Initialize D;
  CheckDatabaseVersion := @CheckDatabaseVersion D; net_start := @net_start D;
  GetProcessAffinityMask := @GetProcessAffinityMask D; SetProcessAffinityMask := @SetProcessAffinityMask D;
  SetPriorityClass := @SetPriorityClass D
|}.

(** ** What a sweep guarantees *)

Section System.
Context (D : DaemonEnv) (r : @rng (@env_bn (@de_env D))) {L : RealmdLaws}.
Abbreviation DR := (real_Daemon D r).
Abbreviation LR := (real_Laws r).

(** Every live session is excused from its deadline, or the deadline is still to come. *)
Definition on_time (now : Z) (s : Server) : Prop :=
  forall id k, objects s !! id = Some k -> excused s id k \/ now < m_deadline (m_authDeadline k).

Lemma Update_on_time now (s s' : Server) :
  in_order s -> Update now s = Some (tt, s') -> 0 < authTimeout s' -> on_time now s'.
Proof.
  intros Hs Hu Ht id k Hk. destruct (Update_in_order now s Hs) as (s1 & Hu1 & Hs1).
  rewrite Hu in Hu1. injection Hu1 as <-. destruct (m_active (m_authDeadline k)) eqn:Ha.
  - right. destruct Hs as (Hok & _ & Hl). destruct (Update_run now s Hok) as (objs & Hr & Hobjs).
    rewrite Hr in Hu. injection Hu as <-. cbn in Hk. rewrite Hobjs in Hk.
    destruct (objects s !! id) as [k0|] eqn:Hk0; [|by destruct (decide _)].
    rewrite decide_True in Hk by (apply (sv_tracked s Hok); eauto). injection Hk as <-.
    unfold expire_sock in *. destruct (Deadline_expired (m_authDeadline k0) now) eqn:E; [done|].
    unfold Deadline_expired in E. rewrite Ha in E. cbn in E. by apply Z.leb_gt.
  - left. by apply (proj1 (proj2 Hs1)).
Qed.

(** What a finished pass of the loop leaves. *)
Definition swept (now : Z) (titled : bool) (p' : @Process DR) : Prop :=
  exists s' : Server, @p_server DR p' = Some s' /\ in_order s' /\
    (0 < authTimeout s' -> on_time now s') /\
    (titled = true -> @s_lastTitle DR p' =
       console_title (u32 (authed_count (objects s'))) (u32 (Z.of_nat (size (objects s'))))).

Lemma pass_sweeps n t p p' :
  @in_loop DR LR n p -> @tick_ok DR LR t -> @pass_done DR LR n t p p' ->
  swept (@t_clock DR t) (@WIN32 (@de_platform D) && ((n + 1) mod 30 =? 0)) p'.
Proof.
  intros Hin Ht Hdone. destruct (@il_server DR LR _ _ Hin) as (s0 & Hs0 & Hi0).
  destruct (@pd_swept DR LR _ _ _ _ Hdone) as (s & s' & Hs & Hs' & Hu & Htitle).
  rewrite Hs in Hs0. injection Hs0 as ->.
  assert (Hi1 : in_order (@t_engine DR t s0)).
  { eapply engine_in_order; [exact Hi0|]. apply (@tick_engine DR LR t Ht s0 Hi0). }
  destruct (Update_in_order (@t_clock DR t) _ Hi1) as (s1 & Hu1 & Hi').
  change (Update (@t_clock DR t) (@t_engine DR t s0) = Some (tt, s')) in Hu.
  rewrite Hu in Hu1. injection Hu1 as <-. exists s'. split_and!; [done|done| |].
  { intros Hpos. by apply (Update_on_time (@t_clock DR t) (@t_engine DR t s0)). }
  intros [HW Hm]%andb_true_iff. apply Z.eqb_eq in Hm. rewrite (Htitle HW Hm). unfold titled.
  destruct (proj1 Hi') as [Hc Ha _ _ _ _]. cbn. unfold GetAuthWaitingCount, GetConnectionCount. by rewrite Hc, Ha.
Qed.

End System.

(** ** Property *)

(** C8. The whole program: once the daemon has started, whatever the clients send, whatever
    the engine does between two passes and however long it runs, each pass of the main loop
    is defined, and after it, if the authentication timeout is enabled (not 0), every live
    session is either authenticated, offered a patch, being sent one or closed, or still
    within its time to authenticate.  On Windows the console title shows the exact numbers of
    authenticated and of open sessions at every thirtieth pass. *)
Theorem system_supervises (D : DaemonEnv) (r : @rng (@env_bn (@de_env D))) {L : RealmdLaws}
    (prog : bytes) (args : list bytes) (ticks : list (@Tick (real_Daemon D r))) (t : @Tick (real_Daemon D r))
    (p : @Process (real_Daemon D r)) (m : Z) :
  p_server p = None -> titleUpdateCounter p = 0 -> requirements prog args p m ->
  Forall (@tick_ok (real_Daemon D r) (real_Laws r)) (ticks ++ [t]) ->
  exists res p', main prog args (ticks ++ [t]) p = Some (res, p') /\
    (res = None -> swept D r (t_clock t)
       (@WIN32 (@de_platform D) && ((Z.of_nat (length ticks) + 1) mod 30 =? 0)) p').
Proof.
  intros Hsv Htc Hreq Hok.
  destruct (@Startup_run (real_Daemon D r) (real_Laws r) prog args p Hsv) as (x & p1 & es1 & Hrun & _ & Hcase).
  destruct x as [code|]; [by destruct Hcase as (_ & _ & Hno); destruct (Hno m)|].
  destruct Hcase as (m' & sched & policy & _ & Hl & _). destruct Hl as (Hserver & Hhook & _ & _ & Hlc & Hfc & Htc' & _).
  assert (Hin : @in_loop (real_Daemon D r) (real_Laws r) 0 p1).
  { pose proof ping_period_range. split; rewrite ?Hlc, ?Hfc, ?Htc', ?Htc, ?Z.mod_0_l by lia; done. }
  destruct (@main_loop_run (real_Daemon D r) (real_Laws r) 0 _ p1 Hin Hok) as (left & p2 & k & Hloop & _ & _).
  unfold main. unfold bindM at 1. rewrite Hrun. unfold bindM at 1. rewrite Hloop. destruct left.
  - unfold bindM. rewrite Shutdown_run. by eexists _, _.
  - exists None, p2. split; [done|]. intros _.
    destruct (main_loop_last 0 ticks t p1 p2 Hin Hok Hloop) as (p3 & Hloop3 & Hdone). rewrite Z.add_0_l in Hdone.
    apply Forall_app in Hok as [Hok [Ht _]%Forall_cons].
    destruct (@main_loop_run (real_Daemon D r) (real_Laws r) 0 _ p1 Hin Hok) as (left & p4 & k4 & Hloop4 & Hd & _).
    rewrite Hloop3 in Hloop4. injection Hloop4 as <- <-. pose proof (ld_running _ _ _ _ _ _ Hd eq_refl) as ->.
    apply (pass_sweeps D r (Z.of_nat (length ticks)) t p3 p2); [|done..]. exact (ld_loop _ _ _ _ _ _ Hd).
Qed.

(** ** A concrete system *)

Section SampleSystem.

Definition daemon_sample_Laws : RealmdLaws (H := daemon_sample_Env) :=
  @Build_RealmdLaws daemon_sample_Env sample_BNLaws sample_Sha1Laws sample_BufferLaws sample_Md5Laws.

#[local] Existing Instances daemon_sample_Env daemon_sample_Laws.

Definition sample_system : DaemonEnv := real_Daemon (sample_Daemon false) 1.

(** Between two passes the engine accepts a connection and delivers a challenge on it. *)
Definition sample_activity (s : Server) : Server :=
  let s1 := run_op (OpWire (next_id s) (str "10.0.0.9") None) (run_op (OpAccept 0) s) in
  run_op (OpData (next_id s) sample_challenge) s1.

Definition sample_silent_tick (clock : Z) : @Tick sample_system :=
  @mkTick sample_system (fun s => s) clock clock None None 1 [1].

Definition sample_busy_tick : @Tick sample_system :=
  @mkTick sample_system sample_activity 1 1 None None 1 [1].

Definition sample_system_process : @Process sample_system :=
  @mkProcess sample_system [] sample_db0 0 (mkRealmList RealmSnapshot_empty (mkGate 0 0 false)) None ∅
    false 0 (mkSchedule false 0 0 0 0) false 0 0 0 [].

Lemma run_op_engine op s :
  in_order s -> engine_op op -> enabled op s -> engine_step s (run_op op s) /\ in_order (run_op op s).
Proof.
  intros Hs Ho He. destruct (server_op_ok op s (proj1 Hs) He) as (s' & Hop & _). unfold run_op. rewrite Hop.
  split; [by apply (engine_move _ _ op)|]. apply (op_in_order op s); [by intros ->|done..].
Qed.

Lemma sample_activity_engine s : in_order s -> rtc engine_step s (sample_activity s).
Proof.
  intros Hs. destruct (run_op_engine (OpAccept 0) s Hs I (proj2 (proj2 Hs))) as [H1 Hs1].
  set (s1 := run_op (OpAccept 0) s) in *.
  assert (Hk1 : is_Some (objects s1 !! next_id s)).
  { unfold s1, run_op. cbn [server_op]. rewrite (proj2 (proj2 Hs)). cbn. rewrite lookup_insert_eq. by eexists. }
  destruct (run_op_engine (OpWire (next_id s) (str "10.0.0.9") None) s1 Hs1 I Hk1) as [H2 Hs2].
  assert (Hk2 : is_Some (objects (run_op (OpWire (next_id s) (str "10.0.0.9") None) s1) !! next_id s)).
  { destruct Hk1 as [k Hk]. unfold run_op. cbn [server_op]. unfold call. rewrite Hk. cbn.
    rewrite lookup_insert_eq. by eexists. }
  destruct (run_op_engine (OpData (next_id s) sample_challenge) _ Hs2 I (conj Hk2 sample_challenge_ok)) as [H3 _].
  eauto using rtc_l, rtc_refl.
Qed.

Lemma sample_silent_ok clock : @tick_ok sample_system (real_Laws 1) (sample_silent_tick clock).
Proof. split; cbn; try done. Qed.

Lemma sample_busy_ok : @tick_ok sample_system (real_Laws 1) sample_busy_tick.
Proof. split; cbn; try done. apply sample_activity_engine. Qed.

Lemma system_supervises_witness :
  exists res p', @main sample_system (str "realmd") []
      ([sample_busy_tick; sample_silent_tick 2] ++ [sample_silent_tick (31 * ns_per_second)])
      sample_system_process = Some (res, p') /\
    (res = None -> swept (sample_Daemon false) 1 (31 * ns_per_second) false p').
Proof.
  apply (system_supervises (sample_Daemon false) 1 (str "realmd") [] [sample_busy_tick; sample_silent_tick 2]
    (sample_silent_tick (31 * ns_per_second)) sample_system_process 0).
  - reflexivity.
  - reflexivity.
  - split; [by eexists|reflexivity|reflexivity|]. split; [|split; [|split]]; by vm_compute.
  - cbn [app]. repeat (apply Forall_cons_2; [first [apply sample_busy_ok|apply sample_silent_ok]|]). apply Forall_nil_2.
Defined.

Definition is_close (e : nat * Event) : bool := match e.2 with EvClose => true | _ => false end.

(** The silent client is closed by the pass after its thirty seconds. *)
Example sample_system_run :
  (fun r => (r.1, (fun s : Server => (size (objects s), length (List.filter is_close (srv_log s)))) <$>
     @p_server sample_system r.2)) <$>
  @main sample_system (str "realmd") []
    [sample_busy_tick; sample_silent_tick 2; sample_silent_tick (31 * ns_per_second)]
    sample_system_process = Some (None, Some (1%nat, 1%nat)).
Proof. by vm_compute. Qed.

End SampleSystem.
